(** * XLNet forward computation (paddlenlp/transformers/xlnet/modeling.py)

    A shallow embedding of the index arithmetic, the control flow and the
    configuration handling of the XLNet modelling code, together with the
    properties stated about it.

    Tensors are row-major buffers with an explicit shape, as the tensor
    engine stores them; the engine's primitives ([reshape], [transpose],
    slicing, [concat], [index_select], [matmul], broadcasting) are given by
    their index semantics on such buffers.  Floating-point arithmetic is kept
    abstract behind the class [FloatOps]: every definition runs on any
    instance, and the few exact facts a proof needs are stated as
    hypotheses of that proof. *)

From stdpp Require Import base list strings gmap.
From Stdlib Require Import ZArith Lia Ascii.
From Stdlib Require Reals Lra.

Set Default Proof Using "Type".
Open Scope nat_scope.

(* ================================================================== *)
(** * Part I: definitions *)
(* ================================================================== *)

(** ** Python helpers *)

(** Normalisation of one bound of a slice [a:b] over a sequence of length
    [n]: a negative bound counts from the end, and the result is clamped to
    [0..n]. *)
Definition slice_bound (n : nat) (i : Z) : nat :=
  Z.to_nat (if (i <? 0)%Z then Z.max 0 (i + Z.of_nat n) else Z.min i (Z.of_nat n)).

Definition slice_lo (n : nat) (start : option Z) : nat :=
  match start with None => 0 | Some i => slice_bound n i end.

Definition slice_hi (n : nat) (stop : option Z) : nat :=
  match stop with None => n | Some i => slice_bound n i end.

(** [str.index]: position of the first occurrence. *)
Fixpoint index_of {A} `{EqDecision A} (x : A) (l : list A) : option nat :=
  match l with
  | [] => None
  | y :: l' => if decide (x = y) then Some 0 else S <$> index_of x l'
  end.

(** Python sets of characters, kept as duplicate-free lists in order of first
    occurrence (the iteration order of a Python set is unspecified). *)
Definition set_of {A} `{EqDecision A} (l : list A) : list A := remove_dups l.
Definition set_sub {A} `{EqDecision A} (l k : list A) : list A := list_difference l k.
Definition set_and {A} `{EqDecision A} (l k : list A) : list A := list_intersection l k.

(** ** Tensors *)

Record Tensor (A : Type) := mkTensor { shape : list nat; data : list A }.
Arguments mkTensor {A} _ _.
Arguments shape {A} _.
Arguments data {A} _.

Definition numel (s : list nat) : nat := foldr Nat.mul 1 s.

(** Row-major offset of a multi-index. *)
Fixpoint ravel (s idx : list nat) : nat :=
  match s, idx with
  | d :: s', i :: idx' => i * numel s' + ravel s' idx'
  | _, _ => 0
  end.

(** All multi-indices of a shape, in row-major order. *)
Fixpoint indices (s : list nat) : list (list nat) :=
  match s with
  | [] => [[]]
  | d :: s' => i ← seq 0 d; (i ::.) <$> indices s'
  end.

Definition in_range (s idx : list nat) : Prop := Forall2 (λ i d, i < d) idx s.

Definition well_formed {A} (t : Tensor A) : Prop := length (data t) = numel (shape t).

Section tensor_ops.
Context {A : Type} `{Inhabited A}.

Definition get (t : Tensor A) (idx : list nat) : A :=
  data t !!! ravel (shape t) idx.

(** The tensor of shape [s] whose entry at [idx] is [f idx]. *)
Definition tab (s : list nat) (f : list nat → A) : Tensor A :=
  mkTensor s (f <$> indices s).

Definition rank (t : Tensor A) : nat := length (shape t).

(** [paddle.reshape]: the buffer is kept and the shape replaced.  A target
    dimension [-1] is inferred from the element count, [0] copies the
    dimension of the input at the same position; the call fails when the
    element counts differ. *)
Definition resolve_dim (old : option nat) (d : Z) : option (option nat) :=
  if (d =? -1)%Z then Some None
  else if (d =? 0)%Z then Some <$> old
  else if (0 <? d)%Z then Some (Some (Z.to_nat d))
  else None.

Fixpoint resolve_dims (old : list nat) (new : list Z) : option (list (option nat)) :=
  match new with
  | [] => Some []
  | d :: new' =>
      r ← resolve_dim (head old) d;
      rs ← resolve_dims (tail old) new';
      Some (r :: rs)
  end.

Definition known_numel (ds : list (option nat)) : nat :=
  numel (omap id ds).

Definition reshape (t : Tensor A) (new : list Z) : option (Tensor A) :=
  ds ← resolve_dims (shape t) new;
  let n := length (data t) in
  let known := known_numel ds in
  match length (filter (λ d, d = None) ds) with
  | 0 => if decide (known = n) then Some (mkTensor (omap id ds) (data t)) else None
  | 1 => if decide (0 < known ∧ n `mod` known = 0)
         then Some (mkTensor (default (n `div` known) <$> ds) (data t))
         else None
  | _ => None
  end.

(** Basic slicing [t[..., start:stop, ...]] along one axis. *)
Definition slice_axis (axis : nat) (start stop : option Z) (t : Tensor A) : Tensor A :=
  let n := shape t !!! axis in
  let lo := slice_lo n start in
  let hi := slice_hi n stop in
  tab (<[axis := hi - lo]> (shape t))
      (λ idx, get t (alter (λ i, i + lo) axis idx)).

(** [paddle.concat] of two tensors along [axis]: the ranks and all other
    dimensions have to agree. *)
Definition concat (x y : Tensor A) (axis : nat) : option (Tensor A) :=
  let dx := shape x !!! axis in
  let dy := shape y !!! axis in
  if decide (axis < rank x ∧ <[axis := 0]> (shape x) = <[axis := 0]> (shape y))
  then Some (tab (<[axis := dx + dy]> (shape x))
                 (λ idx, if decide (idx !!! axis < dx) then get x idx
                         else get y (alter (λ i, i - dx) axis idx)))
  else None.

(** [paddle.index_select]: gathers the given positions along [axis]; an
    index outside the axis is an error. *)
Definition index_select (t : Tensor A) (index : list nat) (axis : nat) : option (Tensor A) :=
  if decide (axis < rank t ∧ Forall (λ i, i < shape t !!! axis) index)
  then Some (tab (<[axis := length index]> (shape t))
                 (λ idx, get t (alter (λ i, index !!! i) axis idx)))
  else None.

(** [paddle.transpose]: dimension [a] of the result is dimension
    [perm[a]] of the input.  A [perm] shorter than the rank permutes the
    leading dimensions among themselves and keeps the others in place; a
    [perm] longer than the rank is an error. *)
Definition is_perm (n : nat) (perm : list nat) : Prop :=
  length perm = n ∧ Forall (λ p, p < n) perm ∧ NoDup perm.

Definition full_perm (n : nat) (perm : list nat) : list nat :=
  perm ++ seq (length perm) (n - length perm).

Definition transpose (t : Tensor A) (perm : list nat) : option (Tensor A) :=
  if decide (length perm ≤ rank t ∧ is_perm (length perm) perm)
  then let perm := full_perm (rank t) perm in
       Some (tab ((λ p, shape t !!! p) <$> perm)
                 (λ idx, get t ((λ d, idx !!! default 0 (index_of d perm))
                                  <$> seq 0 (rank t))))
  else None.

(** [paddle.unsqueeze] with a single axis. *)
Definition unsqueeze (t : Tensor A) (axis : nat) : Tensor A :=
  mkTensor (take axis (shape t) ++ 1 :: drop axis (shape t)) (data t).
End tensor_ops.

Arguments tab : simpl never.
Arguments get : simpl never.

(** ** Errors *)

(** Exceptions raised by the Python code itself; failures inside the tensor
    engine (a shape mismatch, an index out of range) are the [None] of the
    tensor primitives and surface as [EngineError]. *)
Inductive Error : Type :=
  | ValueError (msg : string)
  | KeyError (key : string)
  | AssertionError (msg : string)
  | EngineError.

Inductive result (A : Type) : Type :=
  | Ok (a : A)
  | Raise (e : Error).
Arguments Ok {A} _.
Arguments Raise {A} _.

#[global] Instance result_ret : MRet result := λ A a, Ok a.
#[global] Instance result_bind : MBind result := λ A B f m,
  match m with Ok a => f a | Raise e => Raise e end.
#[global] Instance result_fmap : FMap result := λ A B f m,
  match m with Ok a => Ok (f a) | Raise e => Raise e end.

Definition engine {A} (o : option A) : result A :=
  match o with Some a => Ok a | None => Raise EngineError end.

(** ** Floating point *)

(** The scalar operations of the default float type.  [of_Z] converts an
    integer (and gives the literals); the class carries no laws. *)
Class FloatOps (F : Type) : Type := {
  of_Z : Z → F;
  fadd : F → F → F;
  fsub : F → F → F;
  fmul : F → F → F;
  fdiv : F → F → F;
  fneg : F → F;
  fpow : F → F → F;
  fgt : F → F → bool;
  fsin : F → F;
  fcos : F → F;
}.

#[global] Instance FloatOps_inhabited `{FloatOps F} : Inhabited F := populate (of_Z 0).

(** Kernels of [paddle.nn.functional] and of the layers used, on scalars or
    on one row; [dropout_k] stands for one (arbitrary) realisation of the
    random mask. *)
Class Kernels (F : Type) : Type := {
  relu_k : F → F;
  gelu_k : F → F;
  tanh_k : F → F;
  sigmoid_k : F → F;
  softplus_k : F → F;
  softmax_k : list F → list F;
  dropout_k : list F → list F;
  layer_norm_k : list F → list F;
}.

(** ** Broadcasting and contraction *)

Definition broadcast_dim (a b : nat) : option nat :=
  if decide (a = b) then Some a
  else if decide (a = 1) then Some b
  else if decide (b = 1) then Some a
  else None.

Fixpoint broadcast_rev (rx ry : list nat) : option (list nat) :=
  match rx, ry with
  | [], _ => Some ry
  | _, [] => Some rx
  | a :: rx', b :: ry' =>
      d ← broadcast_dim a b;
      r ← broadcast_rev rx' ry';
      Some (d :: r)
  end.

(** Shapes are aligned on their last dimension; two dimensions are compatible
    when they are equal or one of them is [1]. *)
Definition broadcast_shapes (sx sy : list nat) : option (list nat) :=
  reverse <$> broadcast_rev (reverse sx) (reverse sy).

(** The index into an operand of shape [s] for the index [idx] of the
    broadcast result. *)
Definition bidx (s idx : list nat) : list nat :=
  zip_with (λ d i, if decide (d = 1) then 0 else i) s (drop (length idx - length s) idx).

Section elementwise.
Context {A B C : Type} `{Inhabited A, Inhabited B, Inhabited C}.

Definition tmap (f : A → B) (x : Tensor A) : Tensor B :=
  mkTensor (shape x) (f <$> data x).

Definition broadcast2 (f : A → B → C) (x : Tensor A) (y : Tensor B) : option (Tensor C) :=
  s ← broadcast_shapes (shape x) (shape y);
  Some (tab s (λ idx, f (get x (bidx (shape x) idx)) (get y (bidx (shape y) idx)))).
End elementwise.

(** A Python number used as an operand of a tensor expression. *)
Definition scalar {A} (c : A) : Tensor A := mkTensor [] [c].

Section expand.
Context {A : Type} `{Inhabited A}.

Fixpoint expand_dims (old : list nat) (new : list Z) : option (list nat) :=
  match old, new with
  | [], [] => Some []
  | o :: old', d :: new' =>
      r ← (if (d =? -1)%Z then Some o
           else if decide ((0 < d)%Z ∧ (o = 1 ∨ o = Z.to_nat d)) then Some (Z.to_nat d)
           else None);
      rs ← expand_dims old' new';
      Some (r :: rs)
  | _, _ => None
  end.

(** [Tensor.expand] to a shape of the same rank: [-1] keeps a dimension, a
    dimension of size [1] is replicated. *)
Definition expand (t : Tensor A) (new : list Z) : option (Tensor A) :=
  s ← expand_dims (shape t) new;
  Some (tab s (λ idx, get t (bidx (shape t) idx))).
End expand.

Section float_tensors.
Context {F : Type} `{FloatOps F}.

Definition tadd : Tensor F → Tensor F → option (Tensor F) := broadcast2 fadd.
Definition tsub : Tensor F → Tensor F → option (Tensor F) := broadcast2 fsub.
Definition tmul : Tensor F → Tensor F → option (Tensor F) := broadcast2 fmul.

(** Sum of the products of one contraction, accumulated left to right. *)
Definition fsum (l : list F) : F :=
  match l with
  | [] => of_Z 0
  | a :: l' => foldl fadd a l'
  end.

(** [paddle.matmul] on operands of rank at least two: the last two axes are
    contracted, the leading ones are broadcast. *)
Definition matmul (x y : Tensor F) (transpose_y : bool) : option (Tensor F) :=
  let rx := rank x in
  let ry := rank y in
  if decide (2 ≤ rx ∧ 2 ≤ ry) then
    let bx := take (rx - 2) (shape x) in
    let by_ := take (ry - 2) (shape y) in
    let m := shape x !!! (rx - 2) in
    let k := shape x !!! (rx - 1) in
    let ky := shape y !!! (if transpose_y then ry - 1 else ry - 2) in
    let n := shape y !!! (if transpose_y then ry - 2 else ry - 1) in
    if decide (k = ky) then
      batch ← broadcast_shapes bx by_;
      let nb := length batch in
      Some (tab (batch ++ [m; n])
              (λ idx,
                 let bi := take nb idx in
                 let i := idx !!! nb in
                 let j := idx !!! (nb + 1) in
                 fsum ((λ l, fmul (get x (bidx bx bi ++ [i; l]))
                                  (get y (bidx by_ bi ++ (if transpose_y then [j; l] else [l; j]))))
                         <$> seq 0 k)))
    else None
  else None.
End float_tensors.

(** ** Relative shift *)

(** [paddle.arange(n)] as a list of positions (empty for [n <= 0]). *)
Definition arange (n : Z) : list nat := seq 0 (Z.to_nat n).

Section rel_shift.
Context {A : Type} `{Inhabited A}.

(** [XLNetRelativeAttention.rel_shift_bnij] *)
Definition rel_shift_bnij (x : Tensor A) (klen : Z) : option (Tensor A) :=
  s0 ← shape x !! 0; s1 ← shape x !! 1; s2 ← shape x !! 2; s3 ← shape x !! 3;
  x ← reshape x [Z.of_nat s0; Z.of_nat s1; Z.of_nat s3; Z.of_nat s2];
  let x := slice_axis 2 (Some 1%Z) None x in
  x ← reshape x [Z.of_nat s0; Z.of_nat s1; Z.of_nat s2; (Z.of_nat s3 - 1)%Z];
  index_select x (arange klen) 3.
End rel_shift.

(** ** Model configuration *)

(** The Python values a configuration entry takes in this code. *)
Inductive PyVal : Type :=
  | PyNone
  | PyBool (b : bool)
  | PyInt (z : Z)
  | PyStr (s : string).

(** Truth value testing, as in [if v:]. *)
Definition truthy (v : PyVal) : bool :=
  match v with
  | PyNone => false
  | PyBool b => b
  | PyInt z => negb (z =? 0)%Z
  | PyStr s => negb (String.eqb s "")
  end.

(** The attributes [XLNetModel.__init__] stores on [self] and the methods
    below read. *)
Record XLNetModel : Type := mkXLNetModel {
  mem_len : option Z;
  reuse_len : option Z;
  d_model : nat;
  same_length : bool;
  attn_type : string;
  bi_data : PyVal;
  clamp_len : Z;
  n_layer : nat;
}.

(** ** Memory cache *)

Section cache_mem.
Context {A : Type} `{Inhabited A}.

(** [Tensor.detach]: the same values, cut from the gradient graph. *)
Definition detach (t : Tensor A) : Tensor A := t.

(** [XLNetModel.cache_mem] *)
Definition cache_mem (self : XLNetModel) (curr_out : Tensor A)
    (prev_mem : option (Tensor A)) : option (Tensor A) :=
  let curr_out :=
    match reuse_len self with
    | Some r => if (0 <? r)%Z then slice_axis 0 None (Some r) curr_out else curr_out
    | None => curr_out
    end in
  let cutoff :=
    match mem_len self with
    | None => 0%Z
    | Some m => if (m =? 0)%Z then 0%Z else (- m)%Z
    end in
  new_mem ← match prev_mem with
            | None => Some (slice_axis 0 (Some cutoff) None curr_out)
            | Some prev_mem =>
                cat ← concat prev_mem curr_out 0;
                Some (slice_axis 0 (Some cutoff) None cat)
            end;
  Some (detach new_mem).
End cache_mem.

(** Vocabulary of the statements about the memory cache: the number of
    positions of the current output that are eligible for caching, and the
    length and buffer of the previous memory (nothing when there is none). *)
Definition eligible_len (self : XLNetModel) (qlen : nat) : nat :=
  match reuse_len self with
  | Some r => if (0 <? r)%Z then Nat.min (Z.to_nat r) qlen else qlen
  | None => qlen
  end.

Definition prev_len {A} (prev_mem : option (Tensor A)) : nat :=
  match prev_mem with None => 0 | Some m => hd 0 (shape m) end.

Definition prev_data {A} (prev_mem : option (Tensor A)) : list A :=
  match prev_mem with None => [] | Some m => data m end.

(** ** Activations and the feed-forward block *)

Section activations.
Context {F : Type} `{FloatOps F, Kernels F}.

(** [F.relu], [F.gelu], [F.tanh], [F.sigmoid], [F.softplus] *)
Definition F_relu (x : Tensor F) : option (Tensor F) := Some (tmap relu_k x).
Definition F_gelu (x : Tensor F) : option (Tensor F) := Some (tmap gelu_k x).
Definition F_tanh (x : Tensor F) : option (Tensor F) := Some (tmap tanh_k x).
Definition F_sigmoid (x : Tensor F) : option (Tensor F) := Some (tmap sigmoid_k x).
Definition F_softplus (x : Tensor F) : option (Tensor F) := Some (tmap softplus_k x).

Definition mish (x : Tensor F) : option (Tensor F) :=
  s ← F_softplus x; t ← F_tanh s; tmul x t.

Definition linear_act (x : Tensor F) : option (Tensor F) := Some x.

Definition swish (x : Tensor F) : option (Tensor F) :=
  s ← F_sigmoid x; tmul x s.

Definition ACT2FN : gmap string (Tensor F → option (Tensor F)) :=
  list_to_map [
    ("relu", F_relu);
    ("gelu", F_gelu);
    ("tanh", F_tanh);
    ("sigmoid", F_sigmoid);
    ("mish", mish);
    ("linear", linear_act);
    ("swish", swish)
  ].

(** The [ff_activation] argument: a name or a callable. *)
Inductive Activation : Type :=
  | ActName (name : string)
  | ActFn (f : Tensor F → option (Tensor F)).

(** What [XLNetFeedForward.__init__] fixes besides the freshly created
    parameters of its layers. *)
Record XLNetFeedForward : Type := mkXLNetFeedForward {
  ff_d_model : nat;
  ff_d_inner : nat;
  activation_function : Tensor F → option (Tensor F);
}.

(** [XLNetFeedForward.__init__]: a name is looked up with [ACT2FN[name]],
    which raises [KeyError] for a missing key. *)
Definition XLNetFeedForward_init (d_model d_inner : nat) (ff_activation : Activation)
    : result XLNetFeedForward :=
  match ff_activation with
  | ActName name =>
      match ACT2FN !! name with
      | Some f => Ok (mkXLNetFeedForward d_model d_inner f)
      | None => Raise (KeyError name)
      end
  | ActFn f => Ok (mkXLNetFeedForward d_model d_inner f)
  end.

(** ** Construction of the model *)

(** Keyword arguments of [XLNetModel.__init__]; [None] is an argument that
    was not passed.  The float-valued arguments (dropout rates, epsilon,
    initializer range) only parameterise the engine's layers and are left
    out. *)
Record XLNetModel_kwargs : Type := mkKwargs {
  kw_vocab_size : Z;
  kw_mem_len : option (option Z);
  kw_reuse_len : option (option Z);
  kw_d_model : option nat;
  kw_same_length : option bool;
  kw_attn_type : option string;
  kw_bi_data : option PyVal;
  kw_clamp_len : option Z;
  kw_n_layer : option nat;
  kw_n_head : option nat;
  kw_d_head : option nat;
  kw_d_inner : option nat;
  kw_ff_activation : option Activation;
}.

(** [XLNetModel.__init__]: the stored attributes and the feed-forward block
    of each of the [n_layer] layers. *)
Definition XLNetModel_init (kw : XLNetModel_kwargs)
    : result (XLNetModel * list XLNetFeedForward) :=
  let d_model := default 768 (kw_d_model kw) in
  let n_layer := default 12 (kw_n_layer kw) in
  let d_inner := default 3072 (kw_d_inner kw) in
  let ff_activation := default (ActName "gelu") (kw_ff_activation kw) in
  let self :=
    {| mem_len := default None (kw_mem_len kw);
       reuse_len := default None (kw_reuse_len kw);
       d_model := d_model;
       same_length := default false (kw_same_length kw);
       attn_type := default "bi" (kw_attn_type kw);
       bi_data := default (PyStr "False") (kw_bi_data kw);
       clamp_len := default (-1)%Z (kw_clamp_len kw);
       n_layer := n_layer |} in
  layer ← mapM (λ _, XLNetFeedForward_init d_model d_inner ff_activation) (seq 0 n_layer);
  Ok (self, layer).

(** [XLNetPretrainedModel.pretrained_init_configuration] *)
Definition pretrained_kwargs (d_inner d_model n_head n_layer : nat) (act : string)
    : XLNetModel_kwargs :=
  {| kw_vocab_size := 32000%Z;
     kw_mem_len := Some None;
     kw_reuse_len := Some None;
     kw_d_model := Some d_model;
     kw_same_length := Some false;
     kw_attn_type := Some "bi";
     kw_bi_data := Some (PyBool false);
     kw_clamp_len := Some (-1)%Z;
     kw_n_layer := Some n_layer;
     kw_n_head := Some n_head;
     kw_d_head := Some 64;
     kw_d_inner := Some d_inner;
     kw_ff_activation := Some (ActName act) |}.

Definition pretrained_init_configuration : list (string * XLNetModel_kwargs) := [
  ("xlnet-base-cased", pretrained_kwargs 3072 768 12 12 "gelu");
  ("xlnet-large-cased", pretrained_kwargs 4096 1024 16 24 "gelu");
  ("chinese-xlnet-base", pretrained_kwargs 3072 768 12 12 "relu");
  ("chinese-xlnet-mid", pretrained_kwargs 3072 768 12 24 "relu");
  ("chinese-xlnet-large", pretrained_kwargs 4096 1024 16 24 "relu")
].
End activations.

(** ** Positional encoding *)

(** [paddle.arange(start, stop, step)] for integer-valued bounds and a
    non-zero integer-valued step: [ceil((stop - start) / step)] values. *)
Definition arange3 (start stop step : Z) : list Z :=
  (λ i, start + Z.of_nat i * step)%Z <$> seq 0 (Z.to_nat (- ((- (stop - start)) / step))).

(** [Tensor.clamp(lo, hi)] on one integer-valued entry. *)
Definition clamp (lo hi x : Z) : Z := Z.min hi (Z.max lo x).

(** The forward position sequence of [relative_positional_encoding], whose
    entries are whole numbers. *)
Definition pos_range (self : XLNetModel) (qlen klen : nat) : result (Z * Z) :=
  if String.eqb (attn_type self) "bi" then Ok (Z.of_nat klen, (- Z.of_nat qlen)%Z)
  else if String.eqb (attn_type self) "uni" then Ok (Z.of_nat klen, (-1)%Z)
  else Raise (ValueError ("Unknown `attn_type` " +:+ attn_type self +:+ ".")).

Definition clamp_seq (self : XLNetModel) (pos_seq : list Z) : list Z :=
  if (0 <? clamp_len self)%Z
  then clamp (- clamp_len self) (clamp_len self) <$> pos_seq
  else pos_seq.

Definition fwd_pos_seq (self : XLNetModel) (beg end_ : Z) : list Z :=
  clamp_seq self (arange3 beg end_ (-1)).

Definition bwd_pos_seq (self : XLNetModel) (beg end_ : Z) : list Z :=
  clamp_seq self (arange3 (- beg) (- end_) 1).

(** One entry of a position sequence after [clamp_seq]. *)
Definition clamped (self : XLNetModel) (z : Z) : Z :=
  if (0 <? clamp_len self)%Z then clamp (- clamp_len self) (clamp_len self) z else z.

Section positional.
Context {F : Type} `{FloatOps F}.

(** A list of whole numbers as a one-dimensional float tensor. *)
Definition float_vector (l : list Z) : Tensor F := mkTensor [length l] (of_Z <$> l).

(** [XLNetModel.positional_embedding] *)
Definition positional_embedding (pos_seq : Tensor F) (inv_freq : Tensor F) (bsz : option Z)
    : option (Tensor F) :=
  p ← reshape pos_seq [-1; 1]%Z;
  w ← reshape inv_freq [1; -1]%Z;
  sinusoid_inp ← matmul p w false;
  pos_emb ← concat (tmap fsin sinusoid_inp) (tmap fcos sinusoid_inp) 1;
  let pos_emb := unsqueeze pos_emb 1 in
  match bsz with
  | Some bsz => expand pos_emb [-1; bsz; -1]%Z
  | None => Some pos_emb
  end.

(** [inv_freq = 1 / 10000 ** (freq_seq / d_model)] *)
Definition inv_freq (self : XLNetModel) : Tensor F :=
  let freq_seq := arange3 0 (Z.of_nat (d_model self)) 2 in
  let d := of_Z (Z.of_nat (d_model self)) in
  mkTensor [length freq_seq]
    ((λ f, fdiv (of_Z 1) (fpow (of_Z 10000) (fdiv (of_Z f) d))) <$> freq_seq).

(** [XLNetModel.relative_positional_encoding] *)
Definition relative_positional_encoding (self : XLNetModel) (qlen klen : nat)
    (bsz : option Z) : result (Tensor F) :=
  '(beg, end_) ← pos_range self qlen klen;
  if truthy (bi_data self) then
    let fwd := float_vector (fwd_pos_seq self beg end_) in
    let bwd := float_vector (bwd_pos_seq self beg end_) in
    let half := (λ b, b `div` 2)%Z <$> bsz in
    fwd_pos_emb ← engine (positional_embedding fwd (inv_freq self) half);
    bwd_pos_emb ← engine (positional_embedding bwd (inv_freq self) half);
    engine (concat fwd_pos_emb bwd_pos_emb 1)
  else
    let fwd := float_vector (fwd_pos_seq self beg end_) in
    engine (positional_embedding fwd (inv_freq self) bsz).
End positional.

(** ** Inputs of the encoder stack *)

Definition select_use_mems (training use_mems_train use_mems_eval : bool) : bool :=
  if training then use_mems_train else use_mems_eval.

Section forward_inputs.
Context {F : Type} `{Inhabited F}.

(** The opening of [XLNetModel.forward]: the check of [input_ids] against
    [inputs_embeds] and the move of the batch axis to the end; the result is
    the transposed inputs with [qlen] and [bsz]. *)
Definition forward_inputs (input_ids : option (Tensor Z)) (inputs_embeds : option (Tensor F))
    : result (option (Tensor Z) * option (Tensor F) * nat * nat) :=
  match input_ids, inputs_embeds with
  | Some _, Some _ =>
      Raise (ValueError
               "You cannot specify both input_ids and inputs_embeds at the same time")
  | Some input_ids, None =>
      input_ids ← engine (transpose input_ids [1; 0]);
      qlen ← engine (shape input_ids !! 0);
      bsz ← engine (shape input_ids !! 1);
      Ok (Some input_ids, None, qlen, bsz)
  | None, Some inputs_embeds =>
      inputs_embeds ← engine (transpose inputs_embeds [1; 0]);
      qlen ← engine (shape inputs_embeds !! 0);
      bsz ← engine (shape inputs_embeds !! 1);
      Ok (None, Some inputs_embeds, qlen, bsz)
  | None, None =>
      Raise (ValueError "You have to specify either input_ids or inputs_embeds")
  end.
End forward_inputs.

(** ** Attention masks *)

Section masks.
Context {F : Type} `{FloatOps F}.

(** [paddle.ones], [paddle.zeros] *)
Definition ones (s : list nat) : Tensor F := tab s (λ _, of_Z 1).
Definition zeros (s : list nat) : Tensor F := tab s (λ _, of_Z 0).

(** [paddle.eye(n)] *)
Definition eye (n : nat) : Tensor F :=
  tab [n; n] (λ idx, if decide (idx !!! 0 = idx !!! 1) then of_Z 1 else of_Z 0).

(** [paddle.triu], [paddle.tril] of a matrix: the entries with
    [j - i >= diagonal], respectively [j - i <= diagonal], are kept. *)
Definition triu (t : Tensor F) (diagonal : Z) : Tensor F :=
  tab (shape t)
      (λ idx, if decide (diagonal <= Z.of_nat (idx !!! 1%nat) - Z.of_nat (idx !!! 0%nat))%Z
              then get t idx else of_Z 0).

Definition tril (t : Tensor F) (diagonal : Z) : Tensor F :=
  tab (shape t)
      (λ idx, if decide (Z.of_nat (idx !!! 1%nat) - Z.of_nat (idx !!! 0%nat) <= diagonal)%Z
              then get t idx else of_Z 0).

(** [t > 0] followed by [paddle.cast(_, dtype_float)] *)
Definition cast_bool (b : bool) : F := of_Z (if b then 1 else 0).

Definition cast_gt0 (t : Tensor F) : Tensor F :=
  tmap cast_bool (tmap (λ a, fgt a (of_Z 0)) t).

(** [XLNetModel.create_mask] *)
Definition create_mask (self : XLNetModel) (qlen mlen : nat) : option (Tensor F) :=
  let attn_mask := ones [qlen; qlen] in
  let mask_up := triu attn_mask 1 in
  let attn_mask_pad := zeros [qlen; mlen] in
  ret ← concat attn_mask_pad mask_up 1;
  if same_length self then
    let mask_lo := tril attn_mask (-1) in
    left ← tadd (slice_axis 1 None (Some (Z.of_nat qlen)) ret) mask_lo;
    concat left (slice_axis 1 (Some (Z.of_nat qlen)) None ret) 1
  else Some ret.

(** The mask of the content stream, built in [forward] from the combined
    (already thresholded) attention mask. *)
Definition non_tgt_mask_of (qlen mlen : nat) (attn_mask : Tensor F) : option (Tensor F) :=
  let non_tgt_mask := tmap fneg (eye qlen) in
  non_tgt_mask ← (if decide (0 < mlen)
                  then concat (zeros [qlen; mlen]) non_tgt_mask 1
                  else Some non_tgt_mask);
  s ← tadd attn_mask (unsqueeze (unsqueeze non_tgt_mask 2) 3);
  Some (cast_gt0 s).

(** The mask section of [XLNetModel.forward], on the inputs already moved
    to the [len, bsz] layout: the combined attention mask (for the query
    stream) and the mask of the content stream. *)
Definition forward_masks (self : XLNetModel) (qlen bsz mlen : nat)
    (input_mask attention_mask perm_mask : option (Tensor F))
    : result (option (Tensor F) * option (Tensor F)) :=
  attn_mask ←
    (if String.eqb (attn_type self) "uni" then
       m ← engine (create_mask self qlen mlen);
       Ok (Some (unsqueeze (unsqueeze m 2) 3))
     else if String.eqb (attn_type self) "bi" then Ok None
     else Raise (ValueError ("Unsupported attention type: " +:+ attn_type self)));
  input_mask ←
    match input_mask, attention_mask with
    | Some _, Some _ =>
        Raise (AssertionError "You can only use one of input_mask (uses 1 for padding) ")
    | None, Some attention_mask => Some <$> engine (tsub (scalar (of_Z 1)) attention_mask)
    | _, None => Ok input_mask
    end;
  data_mask ←
    match input_mask, perm_mask with
    | Some input_mask, Some perm_mask => Some <$> engine (tadd (unsqueeze input_mask 0) perm_mask)
    | Some input_mask, None => Ok (Some (unsqueeze input_mask 0))
    | None, Some perm_mask => Ok (Some perm_mask)
    | None, None => Ok None
    end;
  attn_mask ←
    match data_mask with
    | Some data_mask =>
        data_mask ←
          (if decide (0 < mlen) then
             d0 ← engine (shape data_mask !! 0);
             engine (concat (zeros [d0; mlen; bsz]) data_mask 1)
           else Ok data_mask);
        match attn_mask with
        | None => Ok (Some (unsqueeze data_mask (rank data_mask)))
        | Some attn_mask =>
            Some <$> engine (tadd attn_mask (unsqueeze data_mask (rank data_mask)))
        end
    | None => Ok attn_mask
    end;
  let attn_mask := cast_gt0 <$> attn_mask in
  non_tgt_mask ←
    match attn_mask with
    | Some attn_mask => Some <$> engine (non_tgt_mask_of qlen mlen attn_mask)
    | None => Ok None
    end;
  Ok (attn_mask, non_tgt_mask).
End masks.

(** ** Relative attention *)

(** [re.split(",|->", equation)] *)
Fixpoint re_split_go (cur s : list ascii) : list (list ascii) :=
  match s with
  | [] => [reverse cur]
  | c :: s' =>
      if decide (c = ","%char) then reverse cur :: re_split_go [] s'
      else match s' with
           | c' :: s'' =>
               if decide (c = "-"%char ∧ c' = ">"%char)
               then reverse cur :: re_split_go [] s''
               else re_split_go (c :: cur) s'
           | [] => re_split_go (c :: cur) s'
           end
  end.

Definition re_split (equation : string) : list (list ascii) :=
  re_split_go [] (String.list_ascii_of_string equation).

Section einsum.
Context {F : Type} `{FloatOps F}.

(** [einsum4x4]: both operands are transposed so that the shared batch
    indices come first and the contracted index last, multiplied with
    [matmul(..., transpose_y=True)], and the product is transposed to the
    requested order. *)
Definition einsum4x4 (equation : string) (x y : Tensor F) : option (Tensor F) :=
  match re_split equation with
  | [idx_x; idx_y; idx_z] =>
      let repeated_idx := set_sub (set_of (idx_x ++ idx_y)) (set_of idx_z) in
      let unique_idx_x := set_sub (set_of idx_x) (set_of idx_y) in
      let unique_idx_y := set_sub (set_of idx_y) (set_of idx_x) in
      let common_idx :=
        set_and (set_of idx_x) (set_sub (set_of idx_y) (set_of repeated_idx)) in
      let new_idx_x := common_idx ++ unique_idx_x ++ repeated_idx in
      let new_idx_y := common_idx ++ unique_idx_y ++ repeated_idx in
      let new_idx_z := common_idx ++ unique_idx_x ++ unique_idx_y in
      perm_x ← mapM (λ i, index_of i idx_x) new_idx_x;
      perm_y ← mapM (λ i, index_of i idx_y) new_idx_y;
      perm_z ← mapM (λ i, index_of i new_idx_z) idx_z;
      x ← transpose x perm_x;
      y ← transpose y perm_y;
      z ← matmul x y true;
      transpose z perm_z
  | _ => None
  end.
End einsum.

(** The parameters of one [XLNetRelativeAttention] layer: five projection
    matrices of shape [d_model, n_head * d_head], three biases of shape
    [n_head, d_head] and the segment embedding of shape [2, n_head, d_head]. *)
Record XLNetRelativeAttention (F : Type) : Type := mkXLNetRelativeAttention {
  n_head : nat;
  d_head : nat;
  att_d_model : nat;
  w_q : Tensor F;
  w_k : Tensor F;
  w_v : Tensor F;
  w_o : Tensor F;
  w_r : Tensor F;
  r_r_bias : Tensor F;
  r_s_bias : Tensor F;
  r_w_bias : Tensor F;
  seg_embed : Tensor F;
}.
Arguments mkXLNetRelativeAttention {F}.
Arguments n_head {F}.
Arguments d_head {F}.
Arguments att_d_model {F}.
Arguments w_q {F}.
Arguments w_k {F}.
Arguments w_v {F}.
Arguments w_o {F}.
Arguments w_r {F}.
Arguments r_r_bias {F}.
Arguments r_s_bias {F}.
Arguments r_w_bias {F}.
Arguments seg_embed {F}.

Section rel_attn.
Context {F : Type} `{FloatOps F, Kernels F}.

(** [self.scale = 1 / (d_head ** 0.5)] *)
Definition scale (self : XLNetRelativeAttention F) : F :=
  fdiv (of_Z 1) (fpow (of_Z (Z.of_nat (d_head self))) (fdiv (of_Z 1) (of_Z 2))).

(** [paddle.stack([t] * n, axis=0)] *)
Definition stack_copies (n : nat) (t : Tensor F) : option (Tensor F) :=
  if decide (n = 0) then None
  else Some (tab (n :: shape t) (λ idx, get t (tail idx))).

(** The three score components of [rel_attn_core]. *)
Definition content_score (self : XLNetRelativeAttention F) (q_head k_head_h : Tensor F)
    : option (Tensor F) :=
  qw ← tadd q_head (r_w_bias self);
  einsum4x4 "ibnd,jbnd->bnij" qw k_head_h.

Definition position_score (self : XLNetRelativeAttention F) (q_head k_head_r : Tensor F)
    (klen : nat) : option (Tensor F) :=
  qr ← tadd q_head (r_r_bias self);
  bd ← einsum4x4 "ibnd,jbnd->bnij" qr k_head_r;
  rel_shift_bnij bd (Z.of_nat klen).

Definition segment_score (self : XLNetRelativeAttention F) (q_head : Tensor F)
    (seg_mat : option (Tensor F)) : option (Tensor F) :=
  match seg_mat with
  | None => Some (scalar (of_Z 0))
  | Some seg_mat =>
      q0 ← shape q_head !! 0;
      seg_embed ← stack_copies q0 (seg_embed self);
      qs ← tadd q_head (r_s_bias self);
      ef ← einsum4x4 "ibnd,isnd->ibns" qs seg_embed;
      einsum4x4 "ijbs,ibns->bnij" seg_mat ef
  end.

(** Merging and masking: the score handed to the softmax. *)
Definition merge_scores (self : XLNetRelativeAttention F) (ac bd ef : Tensor F)
    (attn_mask : option (Tensor F)) : option (Tensor F) :=
  s ← tadd ac bd;
  s ← tadd s ef;
  attn_score ← tmul s (scalar (scale self));
  match attn_mask with
  | None => Some attn_score
  | Some attn_mask =>
      attn_mask ← transpose attn_mask [2; 3; 0; 1];
      m ← tmul (scalar (of_Z (10 ^ 30))) attn_mask;
      tsub attn_score m
  end.

Definition attn_score (self : XLNetRelativeAttention F)
    (q_head k_head_h k_head_r : Tensor F) (seg_mat attn_mask : option (Tensor F))
    : option (Tensor F) :=
  ac ← content_score self q_head k_head_h;
  klen ← shape ac !! 3;
  bd ← position_score self q_head k_head_r klen;
  ef ← segment_score self q_head seg_mat;
  merge_scores self ac bd ef attn_mask.

(** [F.softmax(t, axis=3)] and [nn.Dropout] on a tensor. *)
Definition softmax_axis3 (t : Tensor F) : Tensor F :=
  let klen := shape t !!! 3 in
  tab (shape t)
      (λ idx, softmax_k ((λ j, get t (<[3 := j]> idx)) <$> seq 0 klen) !!! (idx !!! 3)).

Definition dropout (t : Tensor F) : Tensor F :=
  mkTensor (shape t) (dropout_k (data t)).

(** From the score to the outputs of [rel_attn_core]. *)
Definition attend (attn_score v_head_h : Tensor F) (head_mask : option (Tensor F))
    (output_attentions : bool) : option (Tensor F * option (Tensor F)) :=
  let attn_prob := softmax_axis3 attn_score in
  let attn_prob := dropout attn_prob in
  attn_prob ← match head_mask with
              | None => Some attn_prob
              | Some head_mask =>
                  head_mask ← transpose head_mask [2; 3; 0; 1];
                  tmul attn_prob head_mask
              end;
  attn_vec ← einsum4x4 "bnij,jbnd->ibnd" attn_prob v_head_h;
  if output_attentions then
    p ← transpose attn_prob [2; 3; 0; 1];
    Some (attn_vec, Some p)
  else Some (attn_vec, None).

(** [XLNetRelativeAttention.rel_attn_core] *)
Definition rel_attn_core (self : XLNetRelativeAttention F)
    (q_head k_head_h v_head_h k_head_r : Tensor F)
    (seg_mat attn_mask head_mask : option (Tensor F)) (output_attentions : bool)
    : option (Tensor F * option (Tensor F)) :=
  s ← attn_score self q_head k_head_h k_head_r seg_mat attn_mask;
  attend s v_head_h head_mask output_attentions.

(** [nn.LayerNorm] over the last axis. *)
Definition layer_norm (t : Tensor F) : Tensor F :=
  let n := shape t !!! (rank t - 1) in
  tab (shape t)
      (λ idx, layer_norm_k ((λ j, get t (<[rank t - 1 := j]> idx)) <$> seq 0 n)
                !!! (idx !!! (rank t - 1))).

(** [XLNetRelativeAttention.post_attention] *)
Definition post_attention (self : XLNetRelativeAttention F) (h attn_vec : Tensor F)
    (residual : bool) : option (Tensor F) :=
  s0 ← shape attn_vec !! 0;
  s1 ← shape attn_vec !! 1;
  attn_vec ← reshape attn_vec [Z.of_nat (s0 * s1); -1]%Z;
  attn_out ← matmul attn_vec (w_o self) true;
  attn_out ← reshape attn_out [Z.of_nat s0; Z.of_nat s1; -1]%Z;
  let attn_out := dropout attn_out in
  attn_out ← (if residual then tadd attn_out h else Some attn_out);
  Some (layer_norm attn_out).

(** [mems is not None and mems.dim() > 1] *)
Definition concat_mems (mems : option (Tensor F)) (h : Tensor F) : option (Tensor F) :=
  match mems with
  | Some mems => if decide (1 < rank mems) then concat mems h 0 else Some h
  | None => Some h
  end.

(** The projections of the content-only branch of
    [XLNetRelativeAttention.forward] (the branch taken when [g] is [None]):
    query, key, value and position-key heads. *)
Definition content_heads (self : XLNetRelativeAttention F) (h r : Tensor F)
    (mems : option (Tensor F)) : option (Tensor F * Tensor F * Tensor F * Tensor F) :=
  cat ← concat_mems mems h;
  h0 ← shape h !! 0;
  h1 ← shape h !! 1;
  let head_shape := [Z.of_nat h0; Z.of_nat h1; Z.of_nat (n_head self); Z.of_nat (d_head self)] in
  q_head_h ← matmul h (w_q self) false;
  q_head_h ← reshape q_head_h head_shape;
  k_head_h ← matmul cat (w_k self) false;
  k_head_h ← reshape k_head_h head_shape;
  v_head_h ← matmul cat (w_v self) false;
  v_head_h ← reshape v_head_h head_shape;
  k_head_r ← matmul r (w_r self) false;
  r0 ← shape k_head_r !! 0;
  k_head_r ← reshape k_head_r [Z.of_nat r0; -1; Z.of_nat (n_head self); Z.of_nat (d_head self)]%Z;
  Some (q_head_h, k_head_h, v_head_h, k_head_r).

(** [XLNetRelativeAttention.forward] with [g = None]: the outputs
    [(output_h, output_g)] and, on request, the attention probabilities. *)
Definition forward_content (self : XLNetRelativeAttention F) (h : Tensor F)
    (attn_mask_h : option (Tensor F)) (r : Tensor F) (seg_mat mems head_mask : option (Tensor F))
    (output_attentions : bool)
    : option (Tensor F * option (Tensor F) * option (Tensor F)) :=
  '(q_head_h, k_head_h, v_head_h, k_head_r) ← content_heads self h r mems;
  '(attn_vec, attn_prob) ← rel_attn_core self q_head_h k_head_h v_head_h k_head_r
                             seg_mat attn_mask_h head_mask output_attentions;
  output_h ← post_attention self h attn_vec true;
  Some (output_h, None, attn_prob).
End rel_attn.

(** ** The two-stream branch and the layer *)

(** The attention probabilities a layer returns on request: one tensor
    from the content-only branch, a pair from the two-stream branch. *)
Inductive AttnProbs (F : Type) : Type :=
  | ContentProbs (attn_prob : Tensor F)
  | TwoStreamProbs (attn_prob_h attn_prob_g : Tensor F).
Arguments ContentProbs {F} _.
Arguments TwoStreamProbs {F} _ _.

(** [nn.Linear]: a weight of shape [in_features, out_features] and a bias
    of shape [out_features]. *)
Record Linear (F : Type) : Type := mkLinear {
  weight : Tensor F;
  bias : Tensor F;
}.
Arguments mkLinear {F}.
Arguments weight {F}.
Arguments bias {F}.

(** The layers [XLNetFeedForward.__init__] creates: the two linear maps and
    the row function of the block's own [nn.LayerNorm]. *)
Record XLNetFeedForward_layers (F : Type) : Type := mkXLNetFeedForward_layers {
  layer_1 : Linear F;
  layer_2 : Linear F;
  ff_layer_norm : list F → list F;
}.
Arguments mkXLNetFeedForward_layers {F}.
Arguments layer_1 {F}.
Arguments layer_2 {F}.
Arguments ff_layer_norm {F}.

Section layer.
Context {F : Type} `{FloatOps F, Kernels F}.

(** The shapes [XLNetRelativeAttention.__init__] creates the parameters
    with. *)
Definition XLNetRelativeAttention_init_shapes (self : XLNetRelativeAttention F) : Prop :=
  let proj := [att_d_model self; n_head self * d_head self] in
  let bias := [n_head self; d_head self] in
  shape (w_q self) = proj ∧ shape (w_k self) = proj ∧ shape (w_v self) = proj ∧
  shape (w_o self) = proj ∧ shape (w_r self) = proj ∧
  shape (r_r_bias self) = bias ∧ shape (r_s_bias self) = bias ∧ shape (r_w_bias self) = bias ∧
  shape (seg_embed self) = [2; n_head self; d_head self].

(** The projections of the two-stream branch of
    [XLNetRelativeAttention.forward] (the branch taken when [g] is given):
    every head is reshaped to the first two dimensions of the concatenation
    of memory and content. *)
Definition two_stream_heads (self : XLNetRelativeAttention F) (h r : Tensor F)
    (mems : option (Tensor F)) : option (Tensor F * Tensor F * Tensor F * Tensor F) :=
  cat ← concat_mems mems h;
  c0 ← shape cat !! 0;
  c1 ← shape cat !! 1;
  let head_shape := [Z.of_nat c0; Z.of_nat c1; Z.of_nat (n_head self); Z.of_nat (d_head self)] in
  k_head_h ← matmul cat (w_k self) false;
  k_head_h ← reshape k_head_h head_shape;
  v_head_h ← matmul cat (w_v self) false;
  v_head_h ← reshape v_head_h head_shape;
  k_head_r ← matmul r (w_r self) false;
  k_head_r ← reshape k_head_r head_shape;
  q_head_h ← matmul h (w_q self) false;
  q_head_h ← reshape q_head_h head_shape;
  Some (q_head_h, k_head_h, v_head_h, k_head_r).

(** The query stream of the two-stream branch. *)
Definition query_stream (self : XLNetRelativeAttention F) (g k_head_h v_head_h k_head_r : Tensor F)
    (attn_mask_g seg_mat target_mapping head_mask : option (Tensor F))
    (output_attentions : bool) : option (Tensor F * option (Tensor F)) :=
  g0 ← shape g !! 0;
  g1 ← shape g !! 1;
  q_head_g ← matmul g (w_q self) false;
  q_head_g ← reshape q_head_g
               [Z.of_nat g0; Z.of_nat g1; Z.of_nat (n_head self); Z.of_nat (d_head self)];
  match target_mapping with
  | Some target_mapping =>
      q_head_g ← transpose q_head_g [1; 2; 3; 0];
      target_mapping ← transpose target_mapping [2; 0; 1];
      q_head_g ← matmul q_head_g target_mapping false;
      q_head_g ← transpose q_head_g [3; 0; 1; 2];
      '(attn_vec_g, attn_prob_g) ← rel_attn_core self q_head_g k_head_h v_head_h k_head_r
                                     seg_mat attn_mask_g head_mask output_attentions;
      attn_vec_g ← transpose attn_vec_g [1; 2; 3; 0];
      target_mapping ← transpose target_mapping [2; 1; 0];
      attn_vec_g ← matmul attn_vec_g target_mapping false;
      attn_vec_g ← transpose attn_vec_g [3; 0; 1; 2];
      Some (attn_vec_g, attn_prob_g)
  | None =>
      rel_attn_core self q_head_g k_head_h v_head_h k_head_r
        seg_mat attn_mask_g head_mask output_attentions
  end.

(** [XLNetRelativeAttention.forward] with a query stream [g]. *)
Definition forward_two_stream (self : XLNetRelativeAttention F) (h g : Tensor F)
    (attn_mask_h attn_mask_g : option (Tensor F)) (r : Tensor F)
    (seg_mat mems target_mapping head_mask : option (Tensor F)) (output_attentions : bool)
    : option (Tensor F * option (Tensor F) * option (AttnProbs F)) :=
  '(q_head_h, k_head_h, v_head_h, k_head_r) ← two_stream_heads self h r mems;
  '(attn_vec_h, attn_prob_h) ← rel_attn_core self q_head_h k_head_h v_head_h k_head_r
                                 seg_mat attn_mask_h head_mask output_attentions;
  output_h ← post_attention self h attn_vec_h true;
  '(attn_vec_g, attn_prob_g) ← query_stream self g k_head_h v_head_h k_head_r
                                 attn_mask_g seg_mat target_mapping head_mask output_attentions;
  output_g ← post_attention self g attn_vec_g true;
  Some (output_h, Some output_g,
        match attn_prob_h, attn_prob_g with
        | Some ph, Some pg => Some (TwoStreamProbs ph pg)
        | _, _ => None
        end).

(** [XLNetRelativeAttention.forward] *)
Definition XLNetRelativeAttention_forward (self : XLNetRelativeAttention F) (h : Tensor F)
    (g : option (Tensor F)) (attn_mask_h attn_mask_g : option (Tensor F)) (r : Tensor F)
    (seg_mat mems target_mapping head_mask : option (Tensor F)) (output_attentions : bool)
    : option (Tensor F * option (Tensor F) * option (AttnProbs F)) :=
  match g with
  | Some g =>
      forward_two_stream self h g attn_mask_h attn_mask_g r seg_mat mems target_mapping
        head_mask output_attentions
  | None =>
      match forward_content self h attn_mask_h r seg_mat mems head_mask output_attentions with
      | Some (output_h, output_g, attn_prob) =>
          Some (output_h, output_g, ContentProbs <$> attn_prob)
      | None => None
      end
  end.

(** [nn.Linear.forward] *)
Definition Linear_forward (self : Linear F) (x : Tensor F) : option (Tensor F) :=
  y ← matmul x (weight self) false;
  tadd y (bias self).

(** [nn.LayerNorm] over the last axis, for a given row function. *)
Definition layer_norm_by (k : list F → list F) (t : Tensor F) : Tensor F :=
  let n := shape t !!! (rank t - 1) in
  tab (shape t)
      (λ idx, k ((λ j, get t (<[rank t - 1 := j]> idx)) <$> seq 0 n) !!! (idx !!! (rank t - 1))).

(** [XLNetFeedForward.forward] *)
Definition XLNetFeedForward_forward (self : XLNetFeedForward) (layers : XLNetFeedForward_layers F)
    (inp : Tensor F) : option (Tensor F) :=
  output ← Linear_forward (layer_1 layers) inp;
  output ← activation_function self output;
  let output := dropout output in
  output ← Linear_forward (layer_2 layers) output;
  let output := dropout output in
  s ← tadd output inp;
  Some (layer_norm_by (ff_layer_norm layers) s).
End layer.

(** [XLNetLayer]: the relative attention and the feed-forward block. *)
Record XLNetLayer (F : Type) `{FloatOps F, Kernels F} : Type := mkXLNetLayer {
  rel_attn : XLNetRelativeAttention F;
  ff : XLNetFeedForward (F:=F);
  ff_layers : XLNetFeedForward_layers F;
}.
Arguments mkXLNetLayer {F _ _}.
Arguments rel_attn {F _ _}.
Arguments ff {F _ _}.
Arguments ff_layers {F _ _}.

Section layer_forward.
Context {F : Type} `{FloatOps F, Kernels F}.

(** [XLNetLayer.forward] *)
Definition XLNetLayer_forward (self : XLNetLayer F) (output_h : Tensor F)
    (output_g : option (Tensor F)) (attn_mask_h attn_mask_g : option (Tensor F)) (r : Tensor F)
    (seg_mat mems target_mapping head_mask : option (Tensor F)) (output_attentions : bool)
    : option (Tensor F * option (Tensor F) * option (AttnProbs F)) :=
  '(output_h, output_g, attn) ← XLNetRelativeAttention_forward (rel_attn self) output_h output_g
                                  attn_mask_h attn_mask_g r seg_mat mems target_mapping
                                  head_mask output_attentions;
  output_g ← match output_g with
             | Some output_g => Some <$> XLNetFeedForward_forward (ff self) (ff_layers self) output_g
             | None => Some None
             end;
  output_h ← XLNetFeedForward_forward (ff self) (ff_layers self) output_h;
  Some (output_h, output_g, attn).
End layer_forward.

(** ** Activation lookup and the classification head *)

(** [list(ACT2FN.keys())], in insertion order, and the text Python prints
    for a list of strings. *)
Definition ACT2FN_keys : list string :=
  ["relu"; "gelu"; "tanh"; "sigmoid"; "mish"; "linear"; "swish"].

Fixpoint py_join (sep : string) (l : list string) : string :=
  match l with
  | [] => ""
  | [s] => s
  | s :: l' => s +:+ sep +:+ py_join sep l'
  end.

Definition py_str_list (l : list string) : string :=
  "[" +:+ py_join ", " ((λ s, "'" +:+ s +:+ "'") <$> l) +:+ "]".

Section index.
Context {A : Type} `{Inhabited A}.

(** Indexing with one integer along [axis] (as in [t[:, -1, :]] or [t[i]]):
    a negative index counts from the end, an index outside the axis is an
    error, and the axis is removed. *)
Definition index_axis (axis : nat) (i : Z) (t : Tensor A) : option (Tensor A) :=
  let n := shape t !!! axis in
  let k := if (i <? 0)%Z then (i + Z.of_nat n)%Z else i in
  if decide (axis < rank t ∧ (0 <= k < Z.of_nat n)%Z)
  then Some (tab (delete axis (shape t))
                 (λ idx, get t (take axis idx ++ Z.to_nat k :: drop axis idx)))
  else None.
End index.

(** [XLNetClassificationHead]: two linear layers. *)
Record XLNetClassificationHead (F : Type) : Type := mkXLNetClassificationHead {
  dense : Linear F;
  out_proj : Linear F;
}.
Arguments mkXLNetClassificationHead {F}.
Arguments dense {F}.
Arguments out_proj {F}.

Section head.
Context {F : Type} `{FloatOps F, Kernels F}.

(** [get_activation] *)
Definition get_activation (activation_string : string)
    : result (Tensor F → option (Tensor F)) :=
  match ACT2FN !! activation_string with
  | Some f => Ok f
  | None =>
      Raise (KeyError ("function " +:+ activation_string +:+
                       " not found in ACT2FN mapping " +:+ py_str_list ACT2FN_keys))
  end.

(** [XLNetClassificationHead.forward] *)
Definition XLNetClassificationHead_forward (self : XLNetClassificationHead F)
    (features : Tensor F) : result (Tensor F) :=
  x ← engine (index_axis 1 (-1) features);
  let x := dropout x in
  x ← engine (Linear_forward (dense self) x);
  act ← get_activation "tanh";
  x ← engine (act x);
  let x := dropout x in
  engine (Linear_forward (out_proj self) x).
End head.

(** ** Segment matrix and head mask *)

Section segments.
Context {F : Type} `{FloatOps F}.

(** [F.one_hot(t, num_classes)] followed by the cast to the float type:
    a class outside [0, num_classes) is an error. *)
Definition one_hot (t : Tensor Z) (num_classes : nat) : option (Tensor F) :=
  if decide (Forall (λ v, 0 <= v < Z.of_nat num_classes)%Z (data t))
  then Some (tab (shape t ++ [num_classes])
                 (λ idx, if decide (get t (take (rank t) idx) = Z.of_nat (idx !!! rank t))
                         then of_Z 1 else of_Z 0))
  else None.

(** The segment section of [XLNetModel.forward]: the memory positions get
    the segment id [0], and [seg_mat[i, j, b]] is the one-hot code of
    "[token_type_ids[i, b]] differs from [cat_ids[j, b]]". *)
Definition segment_matrix (token_type_ids : option (Tensor Z)) (mlen bsz : nat)
    : option (option (Tensor F)) :=
  match token_type_ids with
  | Some token_type_ids =>
      cat_ids ← (if decide (0 < mlen)
                 then concat (tab [mlen; bsz] (λ _, 0%Z)) token_type_ids 0
                 else Some token_type_ids);
      seg_mat ← broadcast2 (λ a b : Z, if decide (a ≠ b) then 1%Z else 0%Z)
                  (unsqueeze token_type_ids 1) (unsqueeze cat_ids 0);
      Some <$> one_hot seg_mat 2
  | None => Some None
  end.

(** The head-mask section of [XLNetModel.forward]: a tensor, brought to
    five dimensions when it has one or two, or the list [[None] * n_layer];
    and the [head_mask[i]] handed to layer [i]. *)
Inductive HeadMasks : Type :=
  | HeadMaskTensor (head_mask : Tensor F)
  | HeadMaskList (head_mask : list (option (Tensor F))).

Definition prepare_head_mask (self : XLNetModel) (head_mask : option (Tensor F))
    : option HeadMasks :=
  match head_mask with
  | Some head_mask =>
      if decide (rank head_mask = 1) then
        let head_mask := unsqueeze (unsqueeze (unsqueeze (unsqueeze head_mask 0) 0) 0) 0 in
        HeadMaskTensor <$> expand head_mask [Z.of_nat (n_layer self); -1; -1; -1; -1]%Z
      else if decide (rank head_mask = 2) then
        Some (HeadMaskTensor (unsqueeze (unsqueeze (unsqueeze head_mask 1) 1) 1))
      else Some (HeadMaskTensor head_mask)
  | None => Some (HeadMaskList (replicate (n_layer self) None))
  end.

Definition layer_head_mask (head_mask : HeadMasks) (i : nat) : option (option (Tensor F)) :=
  match head_mask with
  | HeadMaskTensor head_mask => Some <$> index_axis 0 (Z.of_nat i) head_mask
  | HeadMaskList head_mask => head_mask !! i
  end.
End segments.
Arguments HeadMasks : clear implicits.

(** ** The encoder stack *)

(** Exceptions of [XLNetModel.forward]: those of its sections, the
    [IndexError] of an index into a Python list or tuple, and the
    [TypeError] of a tuple passed where a tensor is expected. *)
Inductive ForwardError : Type :=
  | SectionError (e : Error)
  | IndexError
  | TypeError.

Inductive fresult (A : Type) : Type :=
  | FOk (a : A)
  | FRaise (e : ForwardError).
Arguments FOk {A} _.
Arguments FRaise {A} _.

#[global] Instance fresult_ret : MRet fresult := λ A a, FOk a.
#[global] Instance fresult_bind : MBind fresult := λ A B f m,
  match m with FOk a => f a | FRaise e => FRaise e end.
#[global] Instance fresult_fmap : FMap fresult := λ A B f m,
  match m with FOk a => FOk (f a) | FRaise e => FRaise e end.

Definition section {A} (r : result A) : fresult A :=
  match r with Ok a => FOk a | Raise e => FRaise (SectionError e) end.

(** [l[i]] on a Python list. *)
Definition py_index {A} (l : list A) (i : nat) : fresult A :=
  match l !! i with Some a => FOk a | None => FRaise IndexError end.

(** The parameters [XLNetModel.__init__] creates: the weight of the word
    embedding ([vocab_size, d_model]), the mask embedding ([1, 1, d_model])
    and the layers. *)
Record XLNetModel_parameters (F : Type) `{FloatOps F, Kernels F} : Type :=
  mkXLNetModel_parameters {
    word_embedding : Tensor F;
    mask_emb : Tensor F;
    layer : list (XLNetLayer F);
  }.
Arguments mkXLNetModel_parameters {F _ _}.
Arguments word_embedding {F _ _}.
Arguments mask_emb {F _ _}.
Arguments layer {F _ _}.

(** One entry of [hidden_states] before the final transposition: the pair
    [(output_h, output_g)] or [output_h] alone. *)
Inductive HiddenState (F : Type) : Type :=
  | HiddenPair (output_h output_g : Tensor F)
  | HiddenOne (output_h : Tensor F).
Arguments HiddenPair {F} _ _.
Arguments HiddenOne {F} _.

(** One entry of the returned [attentions]: a tensor, or the tuple of the
    transposed streams when a target mapping is given. *)
Inductive Attention (F : Type) : Type :=
  | AttentionTensor (t : Tensor F)
  | AttentionTuple (streams : list (Tensor F)).
Arguments AttentionTensor {F} _.
Arguments AttentionTuple {F} _.

(** The four values [forward] returns, as a tuple of those that are not
    [None] or as a dict. *)
Record ForwardOutputs (F : Type) : Type := mkForwardOutputs {
  last_hidden_state : Tensor F;
  new_mems : option (list (Tensor F));
  hidden_states : option (list (Tensor F));
  attentions : option (list (Attention F));
}.
Arguments mkForwardOutputs {F}.
Arguments last_hidden_state {F}.
Arguments new_mems {F}.
Arguments hidden_states {F}.
Arguments attentions {F}.

Section stack.
Context {F : Type} `{FloatOps F, Kernels F}.

(** [nn.Embedding]: the rows of the weight selected by the ids; an id
    outside the vocabulary is an error. *)
Definition embedding (weight : Tensor F) (ids : Tensor Z) : option (Tensor F) :=
  let vocab := shape weight !!! 0 in
  let d := shape weight !!! 1 in
  if decide (rank weight = 2 ∧ Forall (λ v, 0 <= v < Z.of_nat vocab)%Z (data ids))
  then Some (tab (shape ids ++ [d])
                 (λ idx, get weight [Z.to_nat (get ids (take (rank ids) idx)); idx !!! rank ids]))
  else None.

(** [t.transpose(perm) if t is not None else None] *)
Definition transpose_opt {A} `{Inhabited A} (t : option (Tensor A)) (perm : list nat)
    : result (option (Tensor A)) :=
  match t with
  | Some t => Some <$> engine (transpose t perm)
  | None => Ok None
  end.

(** Iterating over a tensor: its slices along the first axis. *)
Definition rows (t : Tensor F) : option (list (Tensor F)) :=
  mapM (λ k, index_axis 0 (Z.of_nat k) t) (seq 0 (shape t !!! 0)).

(** The state of the loop over the layers. *)
Record LoopState : Type := mkLoopState {
  st_output_h : Tensor F;
  st_output_g : option (Tensor F);
  st_new_mems : list (Tensor F);
  st_hidden_states : list (HiddenState F);
  st_attentions : list (AttnProbs F);
}.

Definition hidden_state_of (output_h : Tensor F) (output_g : option (Tensor F))
    : HiddenState F :=
  match output_g with
  | Some output_g => HiddenPair output_h output_g
  | None => HiddenOne output_h
  end.

(** One iteration of [for i, layer_module in enumerate(self.layer)]. *)
Definition forward_layer (self : XLNetModel) (use_mems output_attentions output_hidden_states : bool)
    (non_tgt_mask attn_mask : option (Tensor F)) (pos_emb : Tensor F)
    (seg_mat : option (Tensor F)) (mems : list (option (Tensor F)))
    (target_mapping : option (Tensor F)) (head_mask : HeadMasks F)
    (i : nat) (layer_module : XLNetLayer F) (st : LoopState) : fresult LoopState :=
  new_mems ← (if use_mems then
                m ← py_index mems i;
                c ← section (engine (cache_mem self (st_output_h st) m));
                FOk (st_new_mems st ++ [c])
              else FOk (st_new_mems st));
  let hidden_states :=
    if output_hidden_states
    then st_hidden_states st ++ [hidden_state_of (st_output_h st) (st_output_g st)]
    else st_hidden_states st in
  m ← py_index mems i;
  hm ← match head_mask with
       | HeadMaskTensor _ => section (engine (layer_head_mask head_mask i))
       | HeadMaskList l => py_index l i
       end;
  outputs ← section (engine (XLNetLayer_forward layer_module (st_output_h st) (st_output_g st)
                               non_tgt_mask attn_mask pos_emb seg_mat m target_mapping hm
                               output_attentions));
  attentions ← (if output_attentions then
                  match outputs.2 with
                  | Some a => FOk (st_attentions st ++ [a])
                  | None => FRaise IndexError
                  end
                else FOk (st_attentions st));
  FOk (mkLoopState outputs.1.1 outputs.1.2 new_mems hidden_states attentions).

Fixpoint forward_layers (self : XLNetModel) (use_mems output_attentions output_hidden_states : bool)
    (non_tgt_mask attn_mask : option (Tensor F)) (pos_emb : Tensor F)
    (seg_mat : option (Tensor F)) (mems : list (option (Tensor F)))
    (target_mapping : option (Tensor F)) (head_mask : HeadMasks F)
    (i : nat) (layers : list (XLNetLayer F)) (st : LoopState) : fresult LoopState :=
  match layers with
  | [] => FOk st
  | layer_module :: layers =>
      st ← forward_layer self use_mems output_attentions output_hidden_states
             non_tgt_mask attn_mask pos_emb seg_mat mems target_mapping head_mask
             i layer_module st;
      forward_layers self use_mems output_attentions output_hidden_states
        non_tgt_mask attn_mask pos_emb seg_mat mems target_mapping head_mask
        (S i) layers st
  end.

(** The transpositions of the collected hidden states and attentions back
    to the batch-first layout. *)
Definition final_hidden_states (output_g : option (Tensor F))
    (hidden_states : list (HiddenState F)) : fresult (list (Tensor F)) :=
  match output_g with
  | Some _ =>
      hs ← mapM (λ hs, match hs with
                       | HiddenPair h g => FOk [h; g]
                       | HiddenOne h => section (engine (rows h))
                       end) hidden_states;
      section (engine (mapM (λ h, transpose h [1; 0; 2]) (mjoin hs)))
  | None =>
      mapM (λ hs, match hs with
                  | HiddenPair _ _ => FRaise TypeError
                  | HiddenOne h => section (engine (transpose h [1; 0; 2]))
                  end) hidden_states
  end.

Definition final_attentions (target_mapping : option (Tensor F))
    (attentions : list (AttnProbs F)) : fresult (list (Attention F)) :=
  match target_mapping with
  | Some _ =>
      mapM (λ t, streams ← match t with
                           | TwoStreamProbs ph pg => FOk [ph; pg]
                           | ContentProbs p => section (engine (rows p))
                           end;
                 AttentionTuple <$>
                   section (engine (mapM (λ s, transpose s [2; 3; 0; 1]) streams)))
           attentions
  | None =>
      mapM (λ t, match t with
                 | ContentProbs p =>
                     AttentionTensor <$> section (engine (transpose p [2; 3; 0; 1]))
                 | TwoStreamProbs _ _ => FRaise TypeError
                 end) attentions
  end.

(** [XLNetModel.forward], up to the packing of the four returned values. *)
Definition XLNetModel_forward (self : XLNetModel) (params : XLNetModel_parameters F)
    (training : bool)
    (input_ids token_type_ids : option (Tensor Z))
    (attention_mask : option (Tensor F)) (mems : option (list (option (Tensor F))))
    (perm_mask target_mapping input_mask head_mask inputs_embeds : option (Tensor F))
    (use_mems_train use_mems_eval output_attentions output_hidden_states : bool)
    : fresult (ForwardOutputs F) :=
  let use_mems := select_use_mems training use_mems_train use_mems_eval in
  inputs ← section (forward_inputs input_ids inputs_embeds);
  let '(input_ids, inputs_embeds, qlen, bsz) := inputs in
  token_type_ids ← section (transpose_opt token_type_ids [1; 0]);
  input_mask ← section (transpose_opt input_mask [1; 0]);
  attention_mask ← section (transpose_opt attention_mask [1; 0]);
  perm_mask ← section (transpose_opt perm_mask [1; 2; 0]);
  target_mapping ← section (transpose_opt target_mapping [1; 2; 0]);
  mlen ← match mems with
         | Some mems =>
             m ← py_index mems 0;
             match m with
             | Some m => py_index (shape m) 0
             | None => FOk 0
             end
         | None => FOk 0
         end;
  let klen := mlen + qlen in
  masks ← section (forward_masks self qlen bsz mlen input_mask attention_mask perm_mask);
  let '(attn_mask, non_tgt_mask) := masks in
  word_emb_k ← match inputs_embeds, input_ids with
               | Some inputs_embeds, _ => FOk inputs_embeds
               | None, Some input_ids =>
                   section (engine (embedding (word_embedding params) input_ids))
               | None, None => FRaise TypeError
               end;
  let output_h := dropout word_emb_k in
  output_g ← match target_mapping with
             | Some target_mapping =>
                 t0 ← py_index (shape target_mapping) 0;
                 word_emb_q ← section (engine (expand (mask_emb params)
                                                 [Z.of_nat t0; Z.of_nat bsz; -1]%Z));
                 FOk (Some (dropout word_emb_q))
             | None => FOk None
             end;
  seg_mat ← section (engine (segment_matrix token_type_ids mlen bsz));
  pos_emb ← section (relative_positional_encoding self qlen klen (Some (Z.of_nat bsz)));
  let pos_emb := dropout pos_emb in
  head_mask ← section (engine (prepare_head_mask self head_mask));
  let mems := match mems with
              | Some mems => mems
              | None => replicate (length (layer params)) None
              end in
  st ← forward_layers self use_mems output_attentions output_hidden_states
         non_tgt_mask attn_mask pos_emb seg_mat mems target_mapping head_mask
         0 (layer params) (mkLoopState output_h output_g [] [] []);
  let hidden :=
    if output_hidden_states
    then st_hidden_states st ++ [hidden_state_of (st_output_h st) (st_output_g st)]
    else st_hidden_states st in
  let output := dropout (default (st_output_h st) (st_output_g st)) in
  output ← section (engine (transpose output [1; 0; 2]));
  hidden ← (if output_hidden_states
            then Some <$> final_hidden_states (st_output_g st) hidden
            else FOk None);
  attentions ← (if output_attentions
                then Some <$> final_attentions target_mapping (st_attentions st)
                else FOk None);
  FOk (mkForwardOutputs output (if use_mems then Some (st_new_mems st) else None)
         hidden attentions).

(** What [XLNetModel.__init__] establishes: [n_layer] layers, each with an
    attention of [n_head] heads of size [d_head] on [d_model] features and a
    feed-forward block with [d_inner] inner features and the activation
    [ff_activation]; a word embedding of [vocab_size] rows and the mask
    embedding. *)
Definition XLNetLayer_init_shapes (d_model n_head' d_head' d_inner : nat) (ff_activation : string)
    (l : XLNetLayer F) : Prop :=
  XLNetRelativeAttention_init_shapes (rel_attn l) ∧
  att_d_model (rel_attn l) = d_model ∧ n_head (rel_attn l) = n_head' ∧
  d_head (rel_attn l) = d_head' ∧
  XLNetFeedForward_init d_model d_inner (ActName ff_activation) = Ok (ff l) ∧
  shape (weight (layer_1 (ff_layers l))) = [d_model; d_inner] ∧
  shape (bias (layer_1 (ff_layers l))) = [d_inner] ∧
  shape (weight (layer_2 (ff_layers l))) = [d_inner; d_model] ∧
  shape (bias (layer_2 (ff_layers l))) = [d_model].

Definition XLNetModel_init_shapes (self : XLNetModel) (params : XLNetModel_parameters F)
    (vocab_size n_head' d_head' d_inner : nat) (ff_activation : string) : Prop :=
  length (layer params) = n_layer self ∧
  Forall (XLNetLayer_init_shapes (d_model self) n_head' d_head' d_inner ff_activation)
         (layer params) ∧
  shape (word_embedding params) = [vocab_size; d_model self] ∧
  shape (mask_emb params) = [1; 1; d_model self].
End stack.

(** ** The classification models *)

(** The values the classification models return: the logits in place of
    the last hidden state, the other three as [XLNetModel.forward] returned
    them. *)
Record ClassificationOutputs (F : Type) : Type := mkClassificationOutputs {
  logits : Tensor F;
  out_mems : option (list (Tensor F));
  out_hidden_states : option (list (Tensor F));
  out_attentions : option (list (Attention F));
}.
Arguments mkClassificationOutputs {F}.
Arguments logits {F}.
Arguments out_mems {F}.
Arguments out_hidden_states {F}.
Arguments out_attentions {F}.

(** [XLNetForSequenceClassification]: the encoder and an
    [XLNetClassificationHead]. *)
Record XLNetForSequenceClassification (F : Type) `{FloatOps F, Kernels F} : Type :=
  mkXLNetForSequenceClassification {
    seq_transformer : XLNetModel;
    seq_transformer_parameters : XLNetModel_parameters F;
    seq_classifier : XLNetClassificationHead F;
  }.
Arguments mkXLNetForSequenceClassification {F _ _}.
Arguments seq_transformer {F _ _}.
Arguments seq_transformer_parameters {F _ _}.
Arguments seq_classifier {F _ _}.

(** [XLNetForTokenClassification]: the encoder and one [nn.Linear]. *)
Record XLNetForTokenClassification (F : Type) `{FloatOps F, Kernels F} : Type :=
  mkXLNetForTokenClassification {
    tok_transformer : XLNetModel;
    tok_transformer_parameters : XLNetModel_parameters F;
    tok_classifier : Linear F;
  }.
Arguments mkXLNetForTokenClassification {F _ _}.
Arguments tok_transformer {F _ _}.
Arguments tok_transformer_parameters {F _ _}.
Arguments tok_classifier {F _ _}.

Section classification.
Context {F : Type} `{FloatOps F, Kernels F}.

(** The shapes [XLNetClassificationHead.__init__] creates. *)
Definition XLNetClassificationHead_init_shapes (hidden_size num_classes : nat)
    (self : XLNetClassificationHead F) : Prop :=
  shape (weight (dense self)) = [hidden_size; hidden_size] ∧
  shape (bias (dense self)) = [hidden_size] ∧
  shape (weight (out_proj self)) = [hidden_size; num_classes] ∧
  shape (bias (out_proj self)) = [num_classes].

(** The shapes [XLNetForSequenceClassification.__init__] creates around a
    given encoder. *)
Definition XLNetForSequenceClassification_init_shapes (num_classes : nat)
    (self : XLNetForSequenceClassification F) : Prop :=
  XLNetClassificationHead_init_shapes (d_model (seq_transformer self)) num_classes
    (seq_classifier self).

(** The shapes [XLNetForTokenClassification.__init__] creates around a given
    encoder. *)
Definition XLNetForTokenClassification_init_shapes (num_classes : nat)
    (self : XLNetForTokenClassification F) : Prop :=
  shape (weight (tok_classifier self)) = [d_model (tok_transformer self); num_classes] ∧
  shape (bias (tok_classifier self)) = [num_classes].

(** [XLNetForSequenceClassification.forward] *)
Definition XLNetForSequenceClassification_forward (self : XLNetForSequenceClassification F)
    (training : bool)
    (input_ids token_type_ids : option (Tensor Z))
    (attention_mask : option (Tensor F)) (mems : option (list (option (Tensor F))))
    (perm_mask target_mapping input_mask head_mask inputs_embeds : option (Tensor F))
    (use_mems_train use_mems_eval output_attentions output_hidden_states : bool)
    : fresult (ClassificationOutputs F) :=
  transformer_outputs ←
    XLNetModel_forward (seq_transformer self) (seq_transformer_parameters self) training
      input_ids token_type_ids attention_mask mems perm_mask target_mapping input_mask
      head_mask inputs_embeds use_mems_train use_mems_eval output_attentions
      output_hidden_states;
  let output := last_hidden_state transformer_outputs in
  logits ← section (XLNetClassificationHead_forward (seq_classifier self) output);
  FOk (mkClassificationOutputs logits (new_mems transformer_outputs)
         (hidden_states transformer_outputs) (attentions transformer_outputs)).

(** [XLNetForTokenClassification.forward] *)
Definition XLNetForTokenClassification_forward (self : XLNetForTokenClassification F)
    (training : bool)
    (input_ids token_type_ids : option (Tensor Z))
    (attention_mask : option (Tensor F)) (mems : option (list (option (Tensor F))))
    (perm_mask target_mapping input_mask head_mask inputs_embeds : option (Tensor F))
    (use_mems_train use_mems_eval output_attentions output_hidden_states : bool)
    : fresult (ClassificationOutputs F) :=
  transformer_outputs ←
    XLNetModel_forward (tok_transformer self) (tok_transformer_parameters self) training
      input_ids token_type_ids attention_mask mems perm_mask target_mapping input_mask
      head_mask inputs_embeds use_mems_train use_mems_eval output_attentions
      output_hidden_states;
  let sequence_output := last_hidden_state transformer_outputs in
  logits ← section (engine (Linear_forward (tok_classifier self) sequence_output));
  FOk (mkClassificationOutputs logits (new_mems transformer_outputs)
         (hidden_states transformer_outputs) (attentions transformer_outputs)).
End classification.

(** ** An ideal instance *)

(** Real arithmetic as an instance of the float interface: every operation
    is the exact one.  It is the instance at which the statements below are
    exercised. *)
Module IdealFloat.
Import Reals.
#[local] Open Scope R_scope.

Definition Rgt_b (x y : R) : bool := if Rlt_dec y x then true else false.

#[export] Instance R_FloatOps : FloatOps R := {|
  of_Z := IZR;
  fadd := Rplus;
  fsub := Rminus;
  fmul := Rmult;
  fdiv := Rdiv;
  fneg := Ropp;
  fpow := Rpower;
  fgt := Rgt_b;
  fsin := sin;
  fcos := cos;
|}.

Definition Rsum (l : list R) : R := foldr Rplus 0 l.

Definition Rmean (l : list R) : R := Rsum l / INR (length l).

(** Layer normalisation with unit weight, zero bias and [epsilon = 1e-12]. *)
Definition Rlayer_norm (l : list R) : list R :=
  let mu := Rmean l in
  let var := Rmean ((λ a, (a - mu) * (a - mu)) <$> l) in
  (λ a, (a - mu) / sqrt (var + / IZR (10 ^ 12))) <$> l.

(** [gelu] is taken in its [tanh] form, and [dropout] in evaluation mode. *)
#[export] Instance R_Kernels : Kernels R := {|
  relu_k := Rmax 0;
  gelu_k := λ x, x / 2 * (1 + tanh (sqrt (2 / PI) * (x + 44715 / 1000000 * (x * x * x))));
  tanh_k := tanh;
  sigmoid_k := λ x, 1 / (1 + exp (- x));
  softplus_k := λ x, ln (1 + exp x);
  softmax_k := λ l, (λ a, exp a / Rsum (exp <$> l)) <$> l;
  dropout_k := λ l, l;
  layer_norm_k := Rlayer_norm;
|}.
End IdealFloat.
Import IdealFloat.

(* ================================================================== *)
(** * Part II: properties *)
(* ================================================================== *)

(** ** Row-major indexing *)

Lemma length_bind_uniform {B C} (f : B → list C) (l : list B) m :
  (∀ x, length (f x) = m) → length (l ≫= f) = length l * m.
Proof.
  intros Hlen. induction l as [|x l IH]; csimpl; [done|].
  by rewrite length_app, Hlen, IH.
Qed.

Lemma length_indices s : length (indices s) = numel s.
Proof.
  induction s as [|d s IH]; csimpl; [done|].
  rewrite (length_bind_uniform _ _ (numel s)).
  - by rewrite length_seq.
  - intros x. by rewrite length_fmap.
Qed.

Lemma lookup_bind_uniform {B C} (f : B → list C) (l : list B) m i r :
  (∀ x, length (f x) = m) → r < m →
  (l ≫= f) !! (i * m + r) = l !! i ≫= λ x, f x !! r.
Proof.
  intros Hlen Hr. revert i. induction l as [|x l IH]; intros i; csimpl.
  - by rewrite lookup_nil.
  - destruct i as [|i]; csimpl.
    + rewrite lookup_app_l by (rewrite Hlen; lia). done.
    + rewrite lookup_app_r by (rewrite Hlen; lia).
      rewrite Hlen. replace (m + i * m + r - m) with (i * m + r) by lia.
      apply IH.
Qed.

Lemma ravel_lt s idx : in_range s idx → ravel s idx < numel s.
Proof.
  intros Hr. induction Hr as [|i d idx s Hi Hr IH]; simpl; [lia|].
  nia.
Qed.

Lemma lookup_indices s idx :
  in_range s idx → indices s !! ravel s idx = Some idx.
Proof.
  intros Hr. induction Hr as [|i d idx s Hi Hr IH]; csimpl; [done|].
  rewrite (lookup_bind_uniform _ _ (numel s)).
  - rewrite lookup_seq_lt by done. simpl.
    by rewrite list_lookup_fmap, IH.
  - intros x. by rewrite length_fmap, length_indices.
  - by apply ravel_lt.
Qed.

Section tensor_facts.
Context {A : Type} `{Inhabited A}.
Implicit Types t x y : Tensor A.

Lemma well_formed_tab s (f : list nat → A) : well_formed (tab s f).
Proof. unfold well_formed, tab; simpl. by rewrite length_fmap, length_indices. Qed.

Lemma get_tab s (f : list nat → A) idx :
  in_range s idx → get (tab s f) idx = f idx.
Proof.
  intros Hr. unfold get, tab; simpl.
  apply list_lookup_total_correct.
  by rewrite list_lookup_fmap, lookup_indices.
Qed.

Lemma get_data t idx : get t idx = data t !!! ravel (shape t) idx.
Proof. done. Qed.
End tensor_facts.

(** ** Relative shift *)

Section rel_shift_facts.
Context {A : Type} `{Inhabited A}.
Implicit Types t x y : Tensor A.

Lemma resolve_dims_pos old dims :
  Forall (λ d, 0 < d) dims →
  resolve_dims old (Z.of_nat <$> dims) = Some (Some <$> dims).
Proof.
  intros Hpos. revert old. induction Hpos as [|d dims Hd Hpos IH]; intros old; csimpl; [done|].
  unfold resolve_dim.
  destruct (Z.eqb_spec (Z.of_nat d) (-1)); [lia|].
  destruct (Z.eqb_spec (Z.of_nat d) 0); [lia|].
  destruct (Z.ltb_spec 0 (Z.of_nat d)); [|lia].
  csimpl. rewrite IH. csimpl. by rewrite Nat2Z.id.
Qed.

Lemma reshape_pos t dims :
  Forall (λ d, 0 < d) dims → numel dims = length (data t) →
  reshape t (Z.of_nat <$> dims) = Some (mkTensor dims (data t)).
Proof.
  intros Hpos Hn. unfold reshape. rewrite resolve_dims_pos by done. csimpl.
  assert (Hf : filter (λ d : option nat, d = None) (Some <$> dims) = []).
  { clear. induction dims as [|d dims IH]; [done|]. csimpl.
    rewrite filter_cons_False by done. done. }
  assert (Ho : omap id (Some <$> dims) = dims).
  { clear. induction dims as [|d dims IH]; [done|]. csimpl. by rewrite IH. }
  rewrite Hf. simpl. unfold known_numel. rewrite Ho.
  by rewrite decide_True.
Qed.

Lemma lookup_total_tab_data s (f : list nat → A) idx k :
  in_range s idx → k = ravel s idx → data (tab s f) !!! k = f idx.
Proof. intros Hr ->. by apply (get_tab s f idx). Qed.

Lemma in_range4 s0 s1 s2 s3 i0 i1 i2 i3 :
  i0 < s0 → i1 < s1 → i2 < s2 → i3 < s3 →
  in_range [s0; s1; s2; s3] [i0; i1; i2; i3].
Proof. intros. by repeat constructor. Qed.

Lemma ravel4 s0 s1 s2 s3 i0 i1 i2 i3 :
  ravel [s0; s1; s2; s3] [i0; i1; i2; i3] = ((i0 * s1 + i1) * s2 + i2) * s3 + i3.
Proof. simpl. nia. Qed.

(** The three steps of the shift on a non-empty tensor, with the reshapes
    resolved: a drop of the first row in the [p,q] view, read back in the
    [q,p-1] view, and a selection of the first [k] columns. *)
Lemma rel_shift_bnij_Some x b n q p k :
  shape x = [b; n; q; p] → well_formed x →
  0 < b → 0 < n → 0 < q → 1 < p → k ≤ p - 1 →
  rel_shift_bnij x (Z.of_nat k)
  = Some (tab [b; n; q; k]
            (λ idx,
               get (mkTensor [b; n; q; p - 1]
                      (data (tab [b; n; p - 1; q]
                               (λ idx', get (mkTensor [b; n; p; q] (data x))
                                            (alter (λ i, i + 1) 2 idx')))))
                   (alter (λ i, seq 0 k !!! i) 3 idx))).
Proof.
  intros Hs Hwf Hb Hn Hq Hp Hk.
  unfold well_formed in Hwf. rewrite Hs in Hwf. simpl in Hwf.
  unfold rel_shift_bnij. rewrite Hs. csimpl.
  change [Z.of_nat b; Z.of_nat n; Z.of_nat p; Z.of_nat q] with (Z.of_nat <$> [b; n; p; q]).
  rewrite reshape_pos; cycle 1.
  { repeat constructor; lia. }
  { simpl. lia. }
  csimpl.
  replace (Z.of_nat p - 1)%Z with (Z.of_nat (p - 1)) by lia.
  change [Z.of_nat b; Z.of_nat n; Z.of_nat q; Z.of_nat (p - 1)]
    with (Z.of_nat <$> [b; n; q; p - 1]).
  unfold slice_axis. simpl shape.
  change ([b; n; p; q] !!! 2) with p.
  assert (Hlo : slice_lo p (Some 1%Z) = 1).
  { unfold slice_lo, slice_bound. simpl. lia. }
  rewrite Hlo. simpl slice_hi.
  change (<[2:=p - 1]> [b; n; p; q]) with [b; n; p - 1; q].
  set (x1 := mkTensor [b; n; p; q] (data x)).
  set (g := λ idx : list nat, get x1 (alter (λ i, i + 1) 2 idx)).
  rewrite reshape_pos; cycle 1.
  { repeat constructor; lia. }
  { pose proof (well_formed_tab [b; n; p - 1; q] g) as Hw.
    unfold well_formed in Hw. rewrite Hw. simpl. lia. }
  csimpl. unfold index_select. simpl shape. unfold rank. simpl shape.
  rewrite decide_True; cycle 1.
  { split; [simpl; lia|]. change ([b; n; q; p - 1] !!! 3) with (p - 1).
    apply Forall_forall. intros i Hi. apply list_elem_of_In, in_seq in Hi. lia. }
  unfold arange. rewrite Nat2Z.id, length_seq. done.
Qed.

(** C1 (amended): on a non-empty score tensor of shape [b,n,q,p] with
    [p >= 2], and for every [klen = k <= p - 1], [rel_shift_bnij] returns a
    tensor of shape [b,n,q,k].  Its entry [i][j] (in every batch/head block)
    is the entry at offset [q + i*(p-1) + j] of the block's row-major
    buffer: the last two axes are re-read by [reshape] as [p,q], the first
    row of that view is dropped, the rest is re-read as [q,p-1] and the
    first [k] columns are kept.  Wherever [q - i + j < p] this is input row
    [i] shifted left by [q - i] positions. *)
Theorem rel_shift_bnij_spec x b n q p k :
  shape x = [b; n; q; p] → well_formed x →
  0 < b → 0 < n → 0 < q → 1 < p → k ≤ p - 1 →
  ∃ y, rel_shift_bnij x (Z.of_nat k) = Some y ∧
       shape y = [b; n; q; k] ∧ well_formed y ∧
       ∀ b0 n0 i j, b0 < b → n0 < n → i < q → j < k →
         get y [b0; n0; i; j] = data x !!! ((b0 * n + n0) * (q * p) + q + i * (p - 1) + j) ∧
         (q + j < p + i → get y [b0; n0; i; j] = get x [b0; n0; i; q - i + j]).
Proof.
  intros Hs Hwf Hb Hn Hq Hp Hk.
  rewrite (rel_shift_bnij_Some x b n q p k) by done.
  unfold well_formed in Hwf. rewrite Hs in Hwf. simpl in Hwf.
  set (x1 := mkTensor [b; n; p; q] (data x)).
  set (g := λ idx : list nat, get x1 (alter (λ i, i + 1) 2 idx)).
  eexists. split; [done|]. split; [done|]. split; [apply well_formed_tab|].
  intros b0 n0 i j Hb0 Hn0 Hi Hj.
  rewrite get_tab by (apply in_range4; lia).
  change (alter (λ i0, seq 0 k !!! i0) 3 [b0; n0; i; j]) with [b0; n0; i; seq 0 k !!! j].
  rewrite (list_lookup_total_correct _ _ j) by (apply lookup_seq_lt; lia).
  assert (Hdiv : i * (p - 1) + j = q * ((i * (p - 1) + j) / q) + (i * (p - 1) + j) mod q)
    by (apply Nat.div_mod_eq).
  assert (Hmod : (i * (p - 1) + j) mod q < q) by (apply Nat.mod_upper_bound; lia).
  assert (Hr : (i * (p - 1) + j) / q < p - 1).
  { apply Nat.Div0.div_lt_upper_bound. nia. }
  set (r := (i * (p - 1) + j) / q) in *.
  set (c := (i * (p - 1) + j) mod q) in *.
  assert (E : get (mkTensor [b; n; q; p - 1] (data (tab [b; n; p - 1; q] g))) [b0; n0; i; j]
              = data x !!! ((b0 * n + n0) * (q * p) + q + i * (p - 1) + j)).
  { unfold get at 1. cbn [shape data].
    rewrite (lookup_total_tab_data _ _ [b0; n0; r; c]); cycle 1.
    { apply in_range4; lia. }
    { rewrite !ravel4. nia. }
    unfold g. change (alter (λ i0, i0 + 1) 2 [b0; n0; r; c]) with [b0; n0; r + 1; c].
    unfold get, x1. cbn [shape data]. rewrite !ravel4. f_equal. nia. }
  split; [exact E|].
  intros Hlt. etrans; [exact E|]. unfold get. rewrite Hs, !ravel4. f_equal. nia.
Qed.
End rel_shift_facts.

(** C1, witness of the amended statement at [q = 2], [p = 4], [k = 2]. *)
Lemma rel_shift_bnij_spec_witness :
  ∃ y, rel_shift_bnij (mkTensor [1; 1; 2; 4] [0; 1; 2; 3; 10; 11; 12; 13]) (Z.of_nat 2) = Some y ∧
       shape y = [1; 1; 2; 2] ∧ well_formed y ∧
       ∀ b0 n0 i j, b0 < 1 → n0 < 1 → i < 2 → j < 2 →
         get y [b0; n0; i; j]
         = [0; 1; 2; 3; 10; 11; 12; 13] !!! ((b0 * 1 + n0) * (2 * 4) + 2 + i * (4 - 1) + j) ∧
         (2 + j < 4 + i →
          get y [b0; n0; i; j]
          = get (mkTensor [1; 1; 2; 4] [0; 1; 2; 3; 10; 11; 12; 13]) [b0; n0; i; 2 - i + j]).
Proof.
  apply (rel_shift_bnij_spec (mkTensor [1; 1; 2; 4] [0; 1; 2; 3; 10; 11; 12; 13]) 1 1 2 4 2);
    [reflexivity | reflexivity | lia | lia | lia | lia | simpl; lia].
Defined.

(** C1 as stated fails on the hand-sized example [q = 2], [p = 4]: with
    [klen = p] the index selection reaches past the [p - 1] remaining columns
    and no tensor is returned, and with [klen = 2] row [0] of the result
    starts at input column [2], not at column [0] (a shift by [i = 0]). *)
Lemma rel_shift_bnij_counterexample :
  let x := mkTensor [1; 1; 2; 4] [0; 1; 2; 3; 10; 11; 12; 13] in
  rel_shift_bnij x 4 = None ∧
  ∃ y, rel_shift_bnij x 2 = Some y ∧
       data y = [2; 3; 11; 12] ∧
       get y [0; 0; 0; 0] ≠ get x [0; 0; 0; 0 + 0].
Proof.
  split; [reflexivity|].
  eexists. split; [reflexivity|]. split; [reflexivity|].
  vm_compute. discriminate.
Qed.

(** ** Buffers of tabulated tensors *)

Lemma fmap_bind_list {B C D} (g : C → D) (f : B → list C) (l : list B) :
  g <$> (l ≫= f) = l ≫= λ x, g <$> f x.
Proof.
  induction l as [|x l IH]; csimpl; [done|].
  by rewrite fmap_app, IH.
Qed.

Lemma seq_bind_blocks d m :
  (seq 0 d ≫= λ i, (λ r, i * m + r) <$> seq 0 m) = seq 0 (d * m).
Proof.
  induction d as [|d IH]; [done|].
  replace (S d * m) with (d * m + m) by lia.
  rewrite seq_S, bind_app, IH, seq_app. f_equal. csimpl.
  rewrite app_nil_r. etrans; [apply (fmap_add_seq (d * m) 0 m)|].
  by rewrite Nat.add_0_r.
Qed.

Lemma fmap_ravel_indices s : ravel s <$> indices s = seq 0 (numel s).
Proof.
  induction s as [|d s IH]; [done|]. csimpl.
  rewrite fmap_bind_list, <-seq_bind_blocks.
  apply list_bind_ext; [|done]. intros i.
  rewrite <-IH, <-!list_fmap_compose. done.
Qed.

Lemma indices_in_range s idx : idx ∈ indices s → in_range s idx.
Proof.
  revert idx. induction s as [|d s IH]; intros idx; csimpl.
  - intros ->%list_elem_of_singleton. constructor.
  - intros (i & Hin & Hi)%list_elem_of_bind.
    apply list_elem_of_fmap in Hin as (idx' & -> & Hin).
    apply list_elem_of_In, in_seq in Hi.
    constructor; [lia|]. by apply IH.
Qed.

Section buffer_facts.
Context {A : Type} `{Inhabited A}.
Implicit Types t x y : Tensor A.

Lemma data_tab_flat s (f : list nat → A) (g : nat → A) :
  (∀ idx, in_range s idx → f idx = g (ravel s idx)) →
  data (tab s f) = g <$> seq 0 (numel s).
Proof.
  intros Hfg. unfold tab; cbn [data].
  rewrite <-fmap_ravel_indices, <-list_fmap_compose.
  apply list_fmap_ext. intros k idx Hk.
  apply Hfg, indices_in_range. by eapply list_elem_of_lookup_2.
Qed.

Lemma fmap_lookup_total_seq (l : list A) lo n :
  lo + n ≤ length l →
  (λ k, l !!! (lo + k)) <$> seq 0 n = take n (drop lo l).
Proof.
  intros Hlen. apply list_eq. intros k.
  rewrite list_lookup_fmap.
  destruct (decide (k < n)) as [Hk|Hk].
  - rewrite lookup_seq_lt by done. simpl.
    rewrite lookup_take_lt, lookup_drop by done.
    symmetry. apply list_lookup_lookup_total_lt. lia.
  - rewrite lookup_seq_ge by lia. simpl.
    symmetry. apply lookup_ge_None. rewrite length_take, length_drop. lia.
Qed.

(** The fixed point: re-tabulating a well-formed tensor gives it back. *)
Lemma tab_get t : well_formed t → tab (shape t) (get t) = t.
Proof.
  intros Hwf. destruct t as [s d]. unfold well_formed in Hwf; simpl in Hwf.
  unfold tab at 1. f_equal. cbn [shape].
  change (get {| shape := s; data := d |} <$> indices s)
    with (data (tab s (get {| shape := s; data := d |}))).
  rewrite (data_tab_flat s _ (λ k, d !!! (0 + k))) by done.
  rewrite fmap_lookup_total_seq by (simpl; lia).
  rewrite drop_0. apply take_ge. lia.
Qed.
End buffer_facts.
(** ** Slicing and concatenation along the sequence axis *)

Lemma slice_bound_le n i : slice_bound n i ≤ n.
Proof. unfold slice_bound. destruct (i <? 0)%Z eqn:E; lia. Qed.

Lemma slice_bound_neg n (m : Z) :
  (0 < m)%Z → slice_bound n (- m) = n - Z.to_nat m.
Proof. intros Hm. unfold slice_bound. destruct (Z.ltb_spec (- m) 0); lia. Qed.

Lemma slice_bound_pos n (r : Z) :
  (0 <= r)%Z → slice_bound n r = Nat.min (Z.to_nat r) n.
Proof. intros Hr. unfold slice_bound. destruct (Z.ltb_spec r 0); lia. Qed.

Section axis0_facts.
Context {A : Type} `{Inhabited A}.
Implicit Types t x y : Tensor A.

Lemma shape_slice_axis0 t d rest start stop :
  shape t = d :: rest →
  shape (slice_axis 0 start stop t) = (slice_hi d stop - slice_lo d start) :: rest.
Proof. intros Hs. unfold slice_axis. rewrite Hs. done. Qed.

Lemma data_slice_axis0 t d rest start stop :
  shape t = d :: rest → well_formed t →
  slice_hi d stop ≤ d →
  data (slice_axis 0 start stop t)
  = take ((slice_hi d stop - slice_lo d start) * numel rest)
         (drop (slice_lo d start * numel rest) (data t)).
Proof.
  intros Hs Hwf Hhi. unfold well_formed in Hwf. rewrite Hs in Hwf.
  change (numel (d :: rest)) with (d * numel rest) in Hwf.
  unfold slice_axis. rewrite Hs.
  change ((d :: rest) !!! 0) with d.
  assert (Hlo : slice_lo d start ≤ d).
  { destruct start; simpl; [apply slice_bound_le|lia]. }
  set (lo := slice_lo d start) in *. set (hi := slice_hi d stop) in *.
  change (<[0:=hi - lo]> (d :: rest)) with ((hi - lo) :: rest).
  rewrite (data_tab_flat _ _ (λ k, data t !!! (lo * numel rest + k))).
  - apply fmap_lookup_total_seq. change (numel ((hi - lo) :: rest)) with ((hi - lo) * numel rest). nia.
  - intros idx Hr. inversion Hr as [|i d' idx' s' Hi Hr']; subst.
    unfold get. rewrite Hs. simpl. f_equal. nia.
Qed.

Lemma concat0_Some x y dx dy rest :
  shape x = dx :: rest → shape y = dy :: rest →
  concat x y 0 = Some (tab ((dx + dy) :: rest)
                   (λ idx, if decide (idx !!! 0 < dx) then get x idx
                           else get y (alter (λ i, i - dx) 0 idx))).
Proof.
  intros Hx Hy. unfold concat, rank. rewrite Hx, Hy.
  rewrite decide_True by (split; [simpl; lia|done]). done.
Qed.

Lemma data_concat0 x y dx dy rest :
  shape x = dx :: rest → shape y = dy :: rest →
  well_formed x → well_formed y →
  data (tab ((dx + dy) :: rest)
          (λ idx, if decide (idx !!! 0 < dx) then get x idx
                  else get y (alter (λ i, i - dx) 0 idx)))
  = data x ++ data y.
Proof.
  intros Hx Hy Hwx Hwy. unfold well_formed in *.
  rewrite Hx in Hwx. rewrite Hy in Hwy.
  change (numel (dx :: rest)) with (dx * numel rest) in Hwx.
  change (numel (dy :: rest)) with (dy * numel rest) in Hwy.
  assert (Hn : numel ((dx + dy) :: rest) = (dx + dy) * numel rest) by done.
  rewrite (data_tab_flat _ _ (λ k, (data x ++ data y) !!! k)).
  - change (λ k, (data x ++ data y) !!! k) with (λ k, (data x ++ data y) !!! (0 + k)).
    rewrite fmap_lookup_total_seq by (rewrite length_app, Hn; nia).
    rewrite drop_0. apply take_ge. rewrite length_app, Hn. nia.
  - intros idx Hr. inversion Hr as [|i d' idx' s' Hi Hr']; subst.
    apply ravel_lt in Hr'.
    change ((i :: idx') !!! 0) with i.
    case_decide as Hlt.
    + unfold get. rewrite Hx. cbn [ravel].
      rewrite lookup_total_app_l by nia. done.
    + unfold get. rewrite Hy. cbn [ravel alter list_alter].
      rewrite lookup_total_app_r by nia. f_equal. nia.
Qed.
End axis0_facts.
(** ** Memory cache *)

Section cache_mem_facts.
Context {A : Type} `{Inhabited A}.
Implicit Types t x y curr_out : Tensor A.
Implicit Types prev_mem : option (Tensor A).

Lemma slice_from_axis0 t L rest (cutoff : Z) :
  shape t = L :: rest → well_formed t →
  let t' := slice_axis 0 (Some cutoff) None t in
  shape t' = (L - slice_bound L cutoff) :: rest ∧
  data t' = drop (slice_bound L cutoff * numel rest) (data t) ∧
  well_formed t'.
Proof.
  intros Hs Hwf t'. split; [|split].
  - unfold t'. by rewrite (shape_slice_axis0 _ L rest).
  - unfold t'. rewrite (data_slice_axis0 _ L rest) by done.
    simpl slice_hi. simpl slice_lo. apply take_ge.
    unfold well_formed in Hwf. rewrite Hs in Hwf.
    change (numel (L :: rest)) with (L * numel rest) in Hwf.
    rewrite length_drop. pose proof (slice_bound_le L cutoff). nia.
  - apply well_formed_tab.
Qed.

Lemma eligible_output (self : XLNetModel) curr_out q rest :
  shape curr_out = q :: rest → well_formed curr_out →
  let c := match reuse_len self with
           | Some r => if (0 <? r)%Z then slice_axis 0 None (Some r) curr_out else curr_out
           | None => curr_out
           end in
  shape c = eligible_len self q :: rest ∧
  data c = take (eligible_len self q * numel rest) (data curr_out) ∧
  well_formed c.
Proof.
  intros Hs Hwf c.
  assert (Hlen : length (data curr_out) = q * numel rest).
  { unfold well_formed in Hwf. by rewrite Hs in Hwf. }
  assert (Hall : shape curr_out = q :: rest ∧
                 data curr_out = take (q * numel rest) (data curr_out) ∧
                 well_formed curr_out).
  { split; [done|]. split; [|done]. symmetry. apply take_ge. lia. }
  unfold c, eligible_len. destruct (reuse_len self) as [r|]; [|done].
  destruct (Z.ltb_spec 0 r) as [Hr|Hr]; [|done].
  split; [|split].
  - rewrite (shape_slice_axis0 _ q rest) by done. simpl.
    rewrite slice_bound_pos by lia. f_equal. lia.
  - rewrite (data_slice_axis0 _ q rest) by (done || apply slice_bound_le).
    simpl. rewrite slice_bound_pos by lia. rewrite drop_0. f_equal. lia.
  - apply well_formed_tab.
Qed.

(** C4: with [mem_len] set to a positive value the new memory is the
    trailing [mem_len] positions of the previous memory followed by the
    eligible part of the current output (its first [reuse_len] positions
    when [reuse_len] is set to a positive value, all of it otherwise), so
    it never holds more than [mem_len] positions; with [mem_len] unset or
    zero the whole concatenated history is returned. *)
Theorem cache_mem_spec (self : XLNetModel) curr_out prev_mem q rest :
  shape curr_out = q :: rest → well_formed curr_out →
  (∀ pm, prev_mem = Some pm → well_formed pm ∧ ∃ pl, shape pm = pl :: rest) →
  let st := numel rest in
  let L := prev_len prev_mem + eligible_len self q in
  let hist := prev_data prev_mem ++ take (eligible_len self q * st) (data curr_out) in
  ∃ new_mem, cache_mem self curr_out prev_mem = Some new_mem ∧
    (∀ m, mem_len self = Some m → (0 < m)%Z →
       shape new_mem = Nat.min (Z.to_nat m) L :: rest ∧
       data new_mem = drop ((L - Z.to_nat m) * st) hist ∧
       hd 0 (shape new_mem) ≤ Z.to_nat m) ∧
    (mem_len self = None ∨ mem_len self = Some 0%Z →
       shape new_mem = L :: rest ∧ data new_mem = hist).
Proof.
  intros Hs Hwf Hprev st L hist.
  destruct (eligible_output self curr_out q rest Hs Hwf) as (Hcs & Hcd & Hcw).
  unfold cache_mem.
  set (c := match reuse_len self with
            | Some r => if (0 <? r)%Z then slice_axis 0 None (Some r) curr_out else curr_out
            | None => curr_out
            end) in *.
  set (cutoff := match mem_len self with
                 | Some m => if (m =? 0)%Z then 0%Z else (- m)%Z
                 | None => 0%Z
                 end).
  (* the concatenated history as a tensor *)
  assert (Hcat : ∃ cat,
    match prev_mem with
    | Some prev_mem => concat prev_mem c 0 ≫= λ cat, Some (slice_axis 0 (Some cutoff) None cat)
    | None => Some (slice_axis 0 (Some cutoff) None c)
    end = Some (slice_axis 0 (Some cutoff) None cat) ∧
    shape cat = L :: rest ∧ data cat = hist ∧ well_formed cat).
  { destruct prev_mem as [pm|].
    - destruct (Hprev pm eq_refl) as (Hpw & pl & Hps).
      eexists. rewrite (concat0_Some pm c pl _ rest) by done. split; [done|].
      split; [|split].
      + unfold L. simpl. by rewrite Hps.
      + rewrite (data_concat0 pm c pl _ rest) by done.
        unfold hist. simpl. by rewrite Hcd.
      + apply well_formed_tab.
    - exists c. split; [done|]. split; [done|]. split; [|done].
      unfold hist. simpl. by rewrite Hcd. }
  destruct Hcat as (cat & -> & Hts & Htd & Htw). csimpl.
  destruct (slice_from_axis0 cat L rest cutoff Hts Htw) as (Hns & Hnd & Hnw).
  eexists. split; [done|]. unfold detach. split.
  - intros m Hm Hpos. unfold cutoff in *. rewrite Hm in *.
    destruct (Z.eqb_spec m 0) as [|_]; [lia|].
    rewrite slice_bound_neg in Hns, Hnd by done.
    rewrite Hns, Hnd, Htd. split; [f_equal; lia|]. split; [done|]. simpl. lia.
  - intros Hm. assert (Hc : cutoff = 0%Z).
    { unfold cutoff. destruct Hm as [-> | ->]; done. }
    rewrite Hc in *. rewrite slice_bound_pos in Hns, Hnd by lia.
    rewrite Hns, Hnd, Htd. simpl. split; [f_equal; lia|done].
Qed.
End cache_mem_facts.

(** C4, witness: [mem_len = 3], a previous memory of two positions and a
    current output of two positions. *)
Lemma cache_mem_spec_witness :
  let self := mkXLNetModel (Some 3%Z) None 2 false "bi" (PyBool false) (-1) 1 in
  let curr_out := mkTensor [2; 1; 2] [5; 6; 7; 8] in
  let prev_mem := Some (mkTensor [2; 1; 2] [1; 2; 3; 4]) in
  let st := numel [1; 2] in
  let L := prev_len prev_mem + eligible_len self 2 in
  let hist := prev_data prev_mem ++ take (eligible_len self 2 * st) (data curr_out) in
  ∃ new_mem, cache_mem self curr_out prev_mem = Some new_mem ∧
    (∀ m, mem_len self = Some m → (0 < m)%Z →
       shape new_mem = Nat.min (Z.to_nat m) L :: [1; 2] ∧
       data new_mem = drop ((L - Z.to_nat m) * st) hist ∧
       hd 0 (shape new_mem) ≤ Z.to_nat m) ∧
    (mem_len self = None ∨ mem_len self = Some 0%Z →
       shape new_mem = L :: [1; 2] ∧ data new_mem = hist).
Proof.
  intros self curr_out prev_mem.
  apply (cache_mem_spec self curr_out prev_mem 2 [1; 2]).
  - reflexivity.
  - reflexivity.
  - intros pm [= <-]. split; [reflexivity|]. by exists 2.
Defined.

(** The scenario of the specification: with [mem_len = 3], three successive
    outputs of two positions each leave a memory of three positions holding
    the three most recent ones. *)
Example cache_mem_three_steps :
  let self := mkXLNetModel (Some 3%Z) None 2 false "bi" (PyBool false) (-1) 1 in
  let o1 := mkTensor [2; 1; 2] [11; 12; 21; 22] in
  let o2 := mkTensor [2; 1; 2] [31; 32; 41; 42] in
  let o3 := mkTensor [2; 1; 2] [51; 52; 61; 62] in
  (m1 ← cache_mem self o1 None; Some (shape m1)) = Some [2; 1; 2] ∧
  (m1 ← cache_mem self o1 None; m2 ← cache_mem self o2 (Some m1); Some m2)
    = Some (mkTensor [3; 1; 2] [21; 22; 31; 32; 41; 42]) ∧
  (m1 ← cache_mem self o1 None; m2 ← cache_mem self o2 (Some m1);
   cache_mem self o3 (Some m2))
    = Some (mkTensor [3; 1; 2] [41; 42; 51; 52; 61; 62]).
Proof. repeat split; reflexivity. Qed.

(** ** Elementwise operations on equal shapes *)

Lemma broadcast_rev_same l : broadcast_rev l l = Some l.
Proof.
  induction l as [|a l IH]; [done|]. csimpl. unfold broadcast_dim.
  rewrite decide_True by done. csimpl. by rewrite IH.
Qed.

Lemma broadcast_shapes_same s : broadcast_shapes s s = Some s.
Proof.
  unfold broadcast_shapes. rewrite broadcast_rev_same. csimpl.
  by rewrite reverse_involutive.
Qed.

Lemma bidx_in_range s idx : in_range s idx → bidx s idx = idx.
Proof.
  intros Hr. unfold bidx.
  rewrite (Forall2_length _ _ _ Hr), Nat.sub_diag, drop_0.
  induction Hr as [|i d idx s Hi Hr IH]; [done|]. csimpl.
  rewrite IH. case_decide; [f_equal; lia|done].
Qed.

Section elementwise_facts.
Context {A B C : Type} `{Inhabited A, Inhabited B, Inhabited C}.

Lemma broadcast2_same_shape (f : A → B → C) (x : Tensor A) (y : Tensor B) :
  shape x = shape y → well_formed x → well_formed y →
  broadcast2 f x y = Some (mkTensor (shape x) (zip_with f (data x) (data y))).
Proof.
  intros Hs Hx Hy. unfold broadcast2. rewrite <-Hs, broadcast_shapes_same. csimpl.
  f_equal. unfold well_formed in *. rewrite <-Hs in Hy.
  transitivity (mkTensor (shape x)
    (data (tab (shape x) (λ idx, f (get x (bidx (shape x) idx)) (get y (bidx (shape x) idx)))))).
  { done. }
  f_equal.
  rewrite (data_tab_flat _ _ (λ k, f (data x !!! k) (data y !!! k))).
  - apply list_eq. intros k. rewrite list_lookup_fmap, lookup_zip_with.
    destruct (decide (k < numel (shape x))) as [Hk|Hk].
    + rewrite lookup_seq_lt by done. simpl.
      rewrite (list_lookup_lookup_total_lt (data x) k) by lia.
      rewrite (list_lookup_lookup_total_lt (data y) k) by lia. done.
    + rewrite lookup_seq_ge by lia. simpl.
      rewrite (lookup_ge_None_2 (data x)) by lia. done.
  - intros idx Hr. rewrite bidx_in_range by done.
    unfold get. by rewrite <-Hs.
Qed.
End elementwise_facts.

(** ** Activations *)

Section activation_facts.
Context {F : Type} `{FloatOps F, Kernels F}.

Lemma tmul_tmap (g : F → F) (x : Tensor F) :
  well_formed x → tmul x (tmap g x) = Some (tmap (λ a, fmul a (g a)) x).
Proof.
  intros Hx. unfold tmul. rewrite broadcast2_same_shape; [|done|done|].
  - unfold tmap; simpl. do 2 f_equal.
    induction (data x) as [|a l IH]; [done|]. csimpl. by rewrite IH.
  - unfold well_formed, tmap; simpl. by rewrite length_fmap.
Qed.

(** C9: a name outside [relu], [gelu], [tanh], [sigmoid], [mish], [linear],
    [swish] makes the construction of the feed-forward block raise
    [KeyError]; each of the seven names resolves to its function, and each
    of these functions acts entry by entry on (well-formed) tensors. *)
Theorem XLNetFeedForward_init_activation :
  (∀ d_model d_inner name,
     name ∉ ["relu"; "gelu"; "tanh"; "sigmoid"; "mish"; "linear"; "swish"] →
     XLNetFeedForward_init d_model d_inner (ActName name) = Raise (KeyError name)) ∧
  (∀ d_model d_inner,
     let init name := XLNetFeedForward_init d_model d_inner (ActName name) in
     let ok f := Ok (mkXLNetFeedForward d_model d_inner f) in
     init "relu" = ok F_relu ∧ init "gelu" = ok F_gelu ∧ init "tanh" = ok F_tanh ∧
     init "sigmoid" = ok F_sigmoid ∧ init "mish" = ok mish ∧
     init "linear" = ok linear_act ∧ init "swish" = ok swish) ∧
  (∀ x : Tensor F, well_formed x →
     F_relu x = Some (tmap relu_k x) ∧ F_gelu x = Some (tmap gelu_k x) ∧
     F_tanh x = Some (tmap tanh_k x) ∧ F_sigmoid x = Some (tmap sigmoid_k x) ∧
     mish x = Some (tmap (λ a, fmul a (tanh_k (softplus_k a))) x) ∧
     linear_act x = Some (tmap (λ a, a) x) ∧
     swish x = Some (tmap (λ a, fmul a (sigmoid_k a)) x)).
Proof.
  split; [|split].
  - intros d_model d_inner name Hname. unfold XLNetFeedForward_init.
    assert (Hnone : (ACT2FN (F:=F)) !! name = None).
    { unfold ACT2FN. apply not_elem_of_list_to_map_1. exact Hname. }
    by rewrite Hnone.
  - intros d_model d_inner. repeat split; reflexivity.
  - intros x Hx. repeat split; try reflexivity.
    + unfold mish, F_softplus, F_tanh. csimpl.
      change (tmap tanh_k (tmap softplus_k x))
        with (mkTensor (shape x) (tanh_k <$> (softplus_k <$> data x))).
      rewrite <-list_fmap_compose.
      by apply (tmul_tmap (tanh_k ∘ softplus_k)).
    + unfold linear_act, tmap. destruct x as [s d]; simpl. by rewrite list_fmap_id.
    + unfold swish, F_sigmoid. csimpl. by apply tmul_tmap.
Qed.
End activation_facts.

(** C9, witness: the name ["elu"] is rejected, and the seven functions act
    entry by entry on a two-entry tensor of the ideal instance. *)
Lemma XLNetFeedForward_init_activation_witness :
  XLNetFeedForward_init (F:=Rdefinitions.R) 768 3072 (ActName "elu") = Raise (KeyError "elu") ∧
  let x := mkTensor [2] [Rdefinitions.IZR 1; Rdefinitions.IZR (-2)] in
  F_relu x = Some (tmap relu_k x) ∧ F_gelu x = Some (tmap gelu_k x) ∧
  F_tanh x = Some (tmap tanh_k x) ∧ F_sigmoid x = Some (tmap sigmoid_k x) ∧
  mish x = Some (tmap (λ a, fmul a (tanh_k (softplus_k a))) x) ∧
  linear_act x = Some (tmap (λ a, a) x) ∧
  swish x = Some (tmap (λ a, fmul a (sigmoid_k a)) x).
Proof.
  split.
  - apply (proj1 (XLNetFeedForward_init_activation (F:=Rdefinitions.R)) 768 3072 "elu").
    intros Hin. repeat (apply elem_of_cons in Hin as [Hin|Hin]; [discriminate Hin|]).
    by apply elem_of_nil in Hin.
  - apply (proj2 (proj2 (XLNetFeedForward_init_activation (F:=Rdefinitions.R)))).
    reflexivity.
Defined.

(** ** Positional encoding *)

Lemma in_range2 s0 s1 i0 i1 : i0 < s0 → i1 < s1 → in_range [s0; s1] [i0; i1].
Proof. intros. by repeat constructor. Qed.

Lemma in_range3 s0 s1 s2 i0 i1 i2 :
  i0 < s0 → i1 < s1 → i2 < s2 → in_range [s0; s1; s2] [i0; i1; i2].
Proof. intros. by repeat constructor. Qed.

Lemma Zdiv_minus_one (x : Z) : (x / -1 = - x)%Z.
Proof.
  symmetry. apply (Z.div_unique_exact x (-1) (- x)); lia.
Qed.

Lemma arange3_down (a b : Z) :
  arange3 a b (-1) = (λ i, a - Z.of_nat i)%Z <$> seq 0 (Z.to_nat (a - b)).
Proof.
  unfold arange3. rewrite Zdiv_minus_one.
  replace (- - - (b - a))%Z with (a - b)%Z by lia.
  apply list_fmap_ext. intros i x _. lia.
Qed.

Lemma arange3_up (a b : Z) :
  arange3 (- a) (- b) 1 = Z.opp <$> arange3 a b (-1).
Proof.
  unfold arange3. rewrite <-list_fmap_compose, Zdiv_minus_one, Z.div_1_r.
  replace (- - (- b - - a))%Z with (- - - (b - a))%Z by lia.
  apply list_fmap_ext. intros i x _. simpl. lia.
Qed.
Section get_facts.
Context {A B : Type} `{Inhabited A, Inhabited B}.

Lemma get_tmap (f : A → B) (x : Tensor A) idx :
  well_formed x → in_range (shape x) idx → get (tmap f x) idx = f (get x idx).
Proof.
  intros Hwf Hr. unfold get, tmap; cbn [shape data].
  apply ravel_lt in Hr. unfold well_formed in Hwf.
  apply list_lookup_total_fmap. lia.
Qed.

Lemma well_formed_tmap (f : A → B) (x : Tensor A) :
  well_formed x → well_formed (tmap f x).
Proof. unfold well_formed, tmap; simpl. by rewrite length_fmap. Qed.
End get_facts.

Section expand_facts.
Context {A : Type} `{Inhabited A}.

Lemma expand_middle (t : Tensor A) P D (b : Z) :
  shape t = [P; 1; D] → (0 < b)%Z →
  expand t [-1; b; -1]%Z = Some (tab [P; Z.to_nat b; D] (λ idx, get t (bidx [P; 1; D] idx))).
Proof.
  intros Hs Hb. unfold expand. rewrite Hs. cbn [expand_dims].
  destruct (Z.eqb_spec b (-1)) as [|_]; [lia|].
  change (-1 =? -1)%Z with true. cbv iota.
  rewrite decide_True by (split; [done|by left]). done.
Qed.

Lemma bidx_middle P D i c j :
  i < P → j < D → bidx [P; 1; D] [i; c; j] = [i; 0; j].
Proof.
  intros Hi Hj. unfold bidx. simpl.
  repeat case_decide; repeat f_equal; lia.
Qed.
End expand_facts.

Section positional_facts.
Context {F : Type} `{FloatOps F}.

Lemma reshape_column (t : Tensor F) :
  reshape t [-1; 1]%Z = Some (mkTensor [length (data t); 1] (data t)).
Proof.
  unfold reshape. csimpl. do 3 f_equal. apply (Nat.div_1_r (length (data t))).
Qed.

Lemma reshape_row (t : Tensor F) :
  reshape t [1; -1]%Z = Some (mkTensor [1; length (data t)] (data t)).
Proof.
  unfold reshape. csimpl. do 4 f_equal. apply (Nat.div_1_r (length (data t))).
Qed.

(** The sine/cosine table built from a column of positions and a row of
    inverse frequencies. *)
Lemma positional_embedding_spec (pos w : list F) (bsz : option Z) :
  (∀ b, bsz = Some b → (0 < b)%Z) →
  let P := length pos in
  let D := length w in
  let B := match bsz with Some b => Z.to_nat b | None => 1 end in
  ∃ e, positional_embedding (mkTensor [P] pos) (mkTensor [D] w) bsz = Some e ∧
       shape e = [P; B; D + D] ∧ well_formed e ∧
       ∀ i c j, i < P → c < B → j < D →
         get e [i; c; j] = fsin (fmul (pos !!! i) (w !!! j)) ∧
         get e [i; c; D + j] = fcos (fmul (pos !!! i) (w !!! j)).
Proof.
  intros Hb P D B. unfold positional_embedding.
  rewrite reshape_column, reshape_row. csimpl.
  set (g := λ idx : list nat,
         fmul (get (mkTensor [length pos; 1] pos) [idx !!! 0; 0])
              (get (mkTensor [1; length w] w) [0; idx !!! 1])).
  set (s := tab [length pos; length w] g).
  assert (Hs : ∀ i j, i < P → j < D → get s [i; j] = fmul (pos !!! i) (w !!! j)).
  { intros i j Hi Hj. unfold s. rewrite get_tab by (by apply in_range2).
    unfold g, get. cbn [shape data]. simpl.
    by rewrite !Nat.mul_1_r, !Nat.add_0_r. }
  assert (Hsw : well_formed s) by apply well_formed_tab.
  unfold concat, rank. cbn [shape tmap length].
  rewrite decide_True by (split; [simpl; lia|done]). csimpl.
  set (cc := tab [length pos; length w + length w] _).
  fold P D in cc.
  assert (Hcc : ∀ i j, i < P → j < D →
            get cc [i; j] = fsin (fmul (pos !!! i) (w !!! j)) ∧
            get cc [i; D + j] = fcos (fmul (pos !!! i) (w !!! j))).
  { intros i j Hi Hj. unfold cc. split.
    - rewrite get_tab by (apply in_range2; lia).
      change ([i; j] !!! 1) with j. rewrite decide_True by done.
      rewrite get_tmap by (done || by apply in_range2). by rewrite Hs.
    - rewrite get_tab by (apply in_range2; lia).
      change ([i; D + j] !!! 1) with (D + j). rewrite decide_False by lia.
      change (alter (λ i0, i0 - D) 1 [i; D + j]) with [i; D + j - D].
      replace (D + j - D) with j by lia.
      rewrite get_tmap by (done || by apply in_range2). by rewrite Hs. }
  assert (Hu : ∀ i j, get (unsqueeze cc 1) [i; 0; j] = get cc [i; j]).
  { intros i j. unfold get, unsqueeze. cbn [shape data]. f_equal. simpl. lia. }
  destruct bsz as [b|].
  - specialize (Hb b eq_refl).
    rewrite (expand_middle _ P (D + D)) by done.
    eexists. split; [done|]. split; [done|]. split; [apply well_formed_tab|].
    intros i c j Hi Hc Hj.
    rewrite !get_tab by (apply in_range3; lia).
    rewrite !bidx_middle by lia.
    rewrite !(Hu i). by apply Hcc.
  - eexists. split; [done|]. split; [done|]. split.
    + unfold well_formed, unsqueeze. cbn [shape data].
      assert (Hw : well_formed cc) by apply well_formed_tab.
      unfold well_formed in Hw. rewrite Hw. unfold cc. simpl. lia.
    + intros i c j Hi Hc Hj. assert (c = 0) as -> by (unfold B in Hc; lia).
      rewrite !Hu. by apply Hcc.
Qed.
End positional_facts.
Lemma clamp_opp (c x : Z) : (0 < c)%Z → clamp (- c) c (- x) = (- clamp (- c) c x)%Z.
Proof. unfold clamp. lia. Qed.

Lemma clamp_zero (c : Z) : (0 < c)%Z → clamp (- c) c 0 = 0%Z.
Proof. unfold clamp. lia. Qed.

Lemma length_clamp_seq self l : length (clamp_seq self l) = length l.
Proof. unfold clamp_seq. destruct (0 <? clamp_len self)%Z; [by rewrite length_fmap|done]. Qed.

Lemma length_arange3_down (a b : Z) : length (arange3 a b (-1)) = Z.to_nat (a - b).
Proof. by rewrite arange3_down, length_fmap, length_seq. Qed.

Lemma bwd_pos_seq_opp self beg end_ :
  bwd_pos_seq self beg end_ = Z.opp <$> fwd_pos_seq self beg end_.
Proof.
  unfold bwd_pos_seq, fwd_pos_seq, clamp_seq. rewrite arange3_up.
  destruct (Z.ltb_spec 0 (clamp_len self)) as [Hc|Hc]; [|done].
  rewrite <-!list_fmap_compose. apply list_fmap_ext. intros i x _. simpl.
  by apply clamp_opp.
Qed.

Lemma fwd_pos_seq_zero self (klen : nat) (end_ : Z) :
  (end_ < 0)%Z → fwd_pos_seq self (Z.of_nat klen) end_ !! klen = Some 0%Z.
Proof.
  intros He. unfold fwd_pos_seq, clamp_seq. rewrite arange3_down.
  assert (Hl : ((λ i, Z.of_nat klen - Z.of_nat i)%Z <$> seq 0 (Z.to_nat (Z.of_nat klen - end_))) !! klen
               = Some 0%Z).
  { rewrite list_lookup_fmap, lookup_seq_lt by lia. simpl. f_equal. lia. }
  destruct (Z.ltb_spec 0 (clamp_len self)) as [Hc|Hc]; [|done].
  rewrite list_lookup_fmap, Hl. simpl. by rewrite clamp_zero.
Qed.

Section concat1_facts.
Context {A : Type} `{Inhabited A}.

Lemma concat1_rank3 (x y : Tensor A) P h h' D :
  shape x = [P; h; D] → shape y = [P; h'; D] →
  ∃ e, concat x y 1 = Some e ∧ shape e = [P; h + h'; D] ∧ well_formed e ∧
       ∀ i c j, i < P → c < h + h' → j < D →
         get e [i; c; j] = if decide (c < h) then get x [i; c; j] else get y [i; c - h; j].
Proof.
  intros Hx Hy. unfold concat, rank. rewrite Hx, Hy.
  rewrite decide_True by (split; [simpl; lia|done]).
  eexists. split; [done|]. split; [done|]. split; [apply well_formed_tab|].
  intros i c j Hi Hc Hj.
  change (<[1:=[P; h; D] !!! 1 + [P; h'; D] !!! 1]> [P; h; D]) with [P; h + h'; D].
  rewrite get_tab by (apply in_range3; lia). done.
Qed.
End concat1_facts.
Section encoding_facts.
Context {F : Type} `{FloatOps F}.

Lemma float_vector_eq (l : list Z) :
  float_vector l = mkTensor [length (of_Z (F:=F) <$> l)] (of_Z <$> l).
Proof. unfold float_vector. by rewrite length_fmap. Qed.

Lemma inv_freq_eq (self : XLNetModel) :
  inv_freq (F:=F) self = mkTensor [length (data (inv_freq (F:=F) self))] (data (inv_freq self)).
Proof. unfold inv_freq. cbn [data]. by rewrite length_fmap. Qed.

Lemma lookup_total_of_Z (l : list Z) i :
  i < length l → (of_Z (F:=F) <$> l) !!! i = of_Z (l !!! i).
Proof. intros Hi. by apply list_lookup_total_fmap. Qed.

Lemma lookup_total_of_Z_opp (l : list Z) i :
  i < length l → (of_Z (F:=F) <$> (Z.opp <$> l)) !!! i = of_Z (- (l !!! i))%Z.
Proof.
  intros Hi. rewrite lookup_total_of_Z by (by rewrite length_fmap).
  f_equal. by apply list_lookup_total_fmap.
Qed.

(** Entries of the encoding: row [i] holds the sines, then the cosines, of
    position [i] times each inverse frequency; with [bi_data] the second
    half of the batch axis holds the negated positions. *)
Lemma relative_positional_encoding_spec (self : XLNetModel) (qlen klen : nat) (b beg end_ : Z) :
  pos_range self qlen klen = Ok (beg, end_) →
  (0 < b)%Z → (truthy (bi_data self) = true → (2 <= b)%Z) →
  let fwd := fwd_pos_seq self beg end_ in
  let P := length fwd in
  let w := data (inv_freq (F:=F) self) in
  let D := length w in
  let h := Z.to_nat (b `div` 2) in
  ∃ e, relative_positional_encoding self qlen klen (Some b) = Ok e ∧ well_formed e ∧
    if truthy (bi_data self) then
      shape e = [P; h + h; D + D] ∧
      ∀ i c j, i < P → c < h + h → j < D →
        let p := of_Z (if decide (c < h) then fwd !!! i else (- (fwd !!! i))%Z) in
        get e [i; c; j] = fsin (fmul p (w !!! j)) ∧
        get e [i; c; D + j] = fcos (fmul p (w !!! j))
    else
      shape e = [P; Z.to_nat b; D + D] ∧
      ∀ i c j, i < P → c < Z.to_nat b → j < D →
        get e [i; c; j] = fsin (fmul (of_Z (fwd !!! i)) (w !!! j)) ∧
        get e [i; c; D + j] = fcos (fmul (of_Z (fwd !!! i)) (w !!! j)).
Proof.
  intros Hrange Hb Hb2 fwd P w D h. subst w.
  set (w := data (inv_freq (F:=F) self)) in *.
  unfold relative_positional_encoding. rewrite Hrange. csimpl.
  destruct (truthy (bi_data self)) eqn:Hbi.
  - specialize (Hb2 eq_refl).
    assert (Hh : (0 < b `div` 2)%Z) by (apply Z.div_str_pos; lia).
    rewrite bwd_pos_seq_opp. fold fwd.
    rewrite (float_vector_eq fwd), (float_vector_eq (Z.opp <$> fwd)), inv_freq_eq. fold w.
    destruct (positional_embedding_spec (of_Z <$> fwd) w (Some (b `div` 2)%Z))
      as (ef & -> & Hfs & Hfw & Hf); [by intros ? [= <-]|].
    destruct (positional_embedding_spec (of_Z <$> (Z.opp <$> fwd)) w (Some (b `div` 2)%Z))
      as (eb & -> & Hbs & Hbw & Hbb); [by intros ? [= <-]|].
    csimpl. rewrite !length_fmap in *. fold P D h in Hfs, Hbs, Hf, Hbb.
    destruct (concat1_rank3 ef eb P h h (D + D) Hfs Hbs) as (e & -> & Hes & Hew & He).
    exists e. split; [done|]. split; [done|]. split; [done|].
    intros i c j Hi Hc Hj. cbv zeta.
    rewrite !He by lia. case_decide as Hch.
    + destruct (Hf i c j) as [-> ->]; [done..|].
      by rewrite !lookup_total_of_Z by done.
    + destruct (Hbb i (c - h) j) as [-> ->]; [lia..|].
      by rewrite !lookup_total_of_Z_opp by done.
  - fold fwd. rewrite (float_vector_eq fwd), inv_freq_eq. fold w.
    destruct (positional_embedding_spec (of_Z <$> fwd) w (Some b))
      as (e & -> & Hes & Hew & He); [by intros ? [= <-]|].
    csimpl. rewrite !length_fmap in *. fold P D in Hes, He.
    exists e. split; [done|]. split; [done|]. split; [done|].
    intros i c j Hi Hc Hj.
    destruct (He i c j) as [-> ->]; [done..|].
    by rewrite !lookup_total_of_Z by done.
Qed.
End encoding_facts.
Section encoding_claims.
Context {F : Type} `{FloatOps F}.

Lemma pos_range_inv (self : XLNetModel) qlen klen beg end_ :
  pos_range self qlen klen = Ok (beg, end_) →
  beg = Z.of_nat klen ∧
  ((attn_type self = "bi" ∧ end_ = (- Z.of_nat qlen)%Z) ∨
   (attn_type self = "uni" ∧ end_ = (-1)%Z)).
Proof.
  unfold pos_range.
  destruct (String.eqb_spec (attn_type self) "bi") as [Hbi|Hbi].
  { intros [= <- <-]. split; [done|]. by left. }
  destruct (String.eqb_spec (attn_type self) "uni") as [Huni|Huni].
  { intros [= <- <-]. split; [done|]. by right. }
  discriminate.
Qed.

(** The number of inverse frequencies: [ceil(d_model / 2)]. *)
Lemma length_inv_freq (self : XLNetModel) :
  length (data (inv_freq (F:=F) self)) = (d_model self + 1) / 2.
Proof.
  unfold inv_freq, arange3. cbn [data]. rewrite !length_fmap, length_seq.
  set (d := d_model self).
  assert (E : (- (- (Z.of_nat d - 0) / 2))%Z = Z.of_nat ((d + 1) / 2)).
  { rewrite Nat2Z.inj_div. change (Z.of_nat 2) with 2%Z.
    Z.div_mod_to_equations. lia. }
  rewrite E. apply Nat2Z.id.
Qed.

(** C6: for [attn_type = "bi"] the positions run from [klen] down to
    [-qlen + 1] ([qlen + klen] of them), for ["uni"] from [klen] down to
    [0]; the encoding has one row per position, [batch] batch entries
    ([bsz], or twice [bsz // 2] with [bi_data]; at least one) and
    [ceil(d_model / 2)] sines followed by as many cosines; the row that
    belongs to position [0] (row [klen]) holds zeros on its sine half and
    ones on its cosine half, for every batch entry.  The three exact facts
    about [0] that the arithmetic has to provide are hypotheses. *)
Theorem relative_positional_encoding_positions (self : XLNetModel) (qlen klen : nat) (b : Z) :
  Forall (λ w, fmul (of_Z 0) w = of_Z 0) (data (inv_freq (F:=F) self)) →
  fsin (of_Z (F:=F) 0) = of_Z 0 → fcos (of_Z (F:=F) 0) = of_Z 1 →
  (0 < b)%Z → (truthy (bi_data self) = true → (2 <= b)%Z) →
  let D := length (data (inv_freq (F:=F) self)) in
  let batch := if truthy (bi_data self)
               then Z.to_nat (b `div` 2) + Z.to_nat (b `div` 2) else Z.to_nat b in
  (attn_type self = "bi" →
     pos_range self qlen klen = Ok (Z.of_nat klen, (- Z.of_nat qlen)%Z) ∧
     arange3 (Z.of_nat klen) (- Z.of_nat qlen) (-1)
       = (λ i, Z.of_nat klen - Z.of_nat i)%Z <$> seq 0 (qlen + klen) ∧
     length (fwd_pos_seq self (Z.of_nat klen) (- Z.of_nat qlen)) = qlen + klen) ∧
  (attn_type self = "uni" →
     pos_range self qlen klen = Ok (Z.of_nat klen, (-1)%Z) ∧
     arange3 (Z.of_nat klen) (-1) (-1)
       = (λ i, Z.of_nat klen - Z.of_nat i)%Z <$> seq 0 (klen + 1) ∧
     length (fwd_pos_seq self (Z.of_nat klen) (-1)) = klen + 1) ∧
  (∀ beg end_, pos_range self qlen klen = Ok (beg, end_) →
     (0 < qlen ∨ attn_type self = "uni" → fwd_pos_seq self beg end_ !! klen = Some 0%Z) ∧
     ∃ e, relative_positional_encoding (F:=F) self qlen klen (Some b) = Ok e ∧
       well_formed e ∧
       shape e = [length (fwd_pos_seq self beg end_); batch; D + D] ∧
       ∀ i c j, fwd_pos_seq self beg end_ !! i = Some 0%Z → c < batch → j < D →
         get e [i; c; j] = of_Z 0 ∧ get e [i; c; D + j] = of_Z 1) ∧
  0 < batch ∧ D = (d_model self + 1) / 2.
Proof.
  intros Hmul Hsin Hcos Hb Hb2 D batch. split; [|split; [|split]].
  - intros Hbi. unfold pos_range. rewrite Hbi. simpl.
    split; [done|]. split.
    + rewrite arange3_down. do 2 f_equal. lia.
    + unfold fwd_pos_seq. rewrite length_clamp_seq, length_arange3_down. lia.
  - intros Huni. unfold pos_range. rewrite Huni. simpl.
    split; [done|]. split.
    + rewrite arange3_down. do 2 f_equal. lia.
    + unfold fwd_pos_seq. rewrite length_clamp_seq, length_arange3_down. lia.
  - intros beg end_ Hrange. split.
    + intros Hq. destruct (pos_range_inv _ _ _ _ _ Hrange) as (-> & [[Hbi ->]|[Huni ->]]).
      * apply fwd_pos_seq_zero. destruct Hq as [Hq|Hq]; [lia|]. by rewrite Hbi in Hq.
      * by apply fwd_pos_seq_zero.
    + destruct (relative_positional_encoding_spec self qlen klen b beg end_ Hrange Hb Hb2)
        as (e & He & Hwf & Hspec).
      exists e. split; [done|]. split; [done|].
      set (fwd := fwd_pos_seq self beg end_) in *. fold D in Hspec.
      assert (Hzero : ∀ j, j < D →
                fmul (of_Z 0) (data (inv_freq (F:=F) self) !!! j) = of_Z 0).
      { intros j Hj.
        apply (Forall_lookup_1 _ _ j _ Hmul), list_lookup_lookup_total_lt. exact Hj. }
      subst batch.
      destruct (truthy (bi_data self)); destruct Hspec as [Hs Hspec];
        (split; [exact Hs|]); intros i c j Hi Hc Hj.
      * destruct (Hspec i c j) as [-> ->]; [by eapply lookup_lt_Some|done..|].
        rewrite (list_lookup_total_correct _ _ _ Hi).
        assert (Hp : (if decide (c < Z.to_nat (b `div` 2)) then 0%Z else (- 0)%Z) = 0%Z)
          by (by case_decide).
        rewrite Hp, Hzero by done. done.
      * destruct (Hspec i c j) as [-> ->]; [by eapply lookup_lt_Some|done..|].
        rewrite (list_lookup_total_correct _ _ _ Hi), Hzero by done. done.
  - split; [|apply length_inv_freq].
    subst batch. destruct (truthy (bi_data self)); [|lia].
    specialize (Hb2 eq_refl).
    assert (0 < b `div` 2)%Z by (apply Z.div_str_pos; lia). lia.
Qed.
End encoding_claims.

(** C6, witness on the ideal instance: [attn_type = "bi"], [bi_data = False],
    [qlen = klen = 4], [d_model = 4], one batch entry. *)
Lemma relative_positional_encoding_positions_witness :
  let self := mkXLNetModel None None 4 false "bi" (PyBool false) (-1) 1 in
  let D := length (data (inv_freq (F:=Rdefinitions.R) self)) in
  let batch := if truthy (bi_data self)
               then Z.to_nat (1 `div` 2) + Z.to_nat (1 `div` 2) else Z.to_nat 1 in
  (attn_type self = "bi" →
     pos_range self 4 4 = Ok (Z.of_nat 4, (- Z.of_nat 4)%Z) ∧
     arange3 (Z.of_nat 4) (- Z.of_nat 4) (-1)
       = (λ i, Z.of_nat 4 - Z.of_nat i)%Z <$> seq 0 (4 + 4) ∧
     length (fwd_pos_seq self (Z.of_nat 4) (- Z.of_nat 4)) = 4 + 4) ∧
  (attn_type self = "uni" →
     pos_range self 4 4 = Ok (Z.of_nat 4, (-1)%Z) ∧
     arange3 (Z.of_nat 4) (-1) (-1)
       = (λ i, Z.of_nat 4 - Z.of_nat i)%Z <$> seq 0 (4 + 1) ∧
     length (fwd_pos_seq self (Z.of_nat 4) (-1)) = 4 + 1) ∧
  (∀ beg end_, pos_range self 4 4 = Ok (beg, end_) →
     (0 < 4 ∨ attn_type self = "uni" → fwd_pos_seq self beg end_ !! 4 = Some 0%Z) ∧
     ∃ e, relative_positional_encoding (F:=Rdefinitions.R) self 4 4 (Some 1%Z) = Ok e ∧
       well_formed e ∧
       shape e = [length (fwd_pos_seq self beg end_); batch; D + D] ∧
       ∀ i c j, fwd_pos_seq self beg end_ !! i = Some 0%Z → c < batch → j < D →
         get e [i; c; j] = of_Z 0 ∧ get e [i; c; D + j] = of_Z 1) ∧
  0 < batch ∧ D = (d_model self + 1) / 2.
Proof.
  intros self.
  apply (relative_positional_encoding_positions (F:=Rdefinitions.R) self 4 4 1).
  - apply Forall_forall. intros w _. apply RIneq.Rmult_0_l.
  - apply Rtrigo_def.sin_0.
  - apply Rtrigo_def.cos_0.
  - lia.
  - discriminate.
Defined.

(** ** The default of [bi_data] *)

Section bi_data_facts.
Context {F : Type} `{FloatOps F, Kernels F}.

Lemma XLNetModel_init_bi_data (kw : XLNetModel_kwargs (F:=F)) self layer :
  XLNetModel_init kw = Ok (self, layer) →
  bi_data self = default (PyStr "False") (kw_bi_data kw).
Proof.
  unfold XLNetModel_init.
  destruct (mapM _ _) as [l|e]; csimpl; [|discriminate].
  by intros [= <- _].
Qed.

(** C10: a model constructed without [bi_data] stores the string ["False"],
    which is truthy, whereas every pretrained configuration passes the
    boolean [False]; with the string the encoding stacks, along the batch
    axis, [bsz // 2] copies of the embedding of the forward positions and
    [bsz // 2] copies of the embedding of the backward (negated) positions,
    with the boolean it is [bsz] copies of the forward embedding alone. *)
Theorem bi_data_default_truthy :
  (∀ (kw : XLNetModel_kwargs (F:=F)) self layer,
     kw_bi_data kw = None → XLNetModel_init kw = Ok (self, layer) →
     bi_data self = PyStr "False" ∧ truthy (bi_data self) = true) ∧
  (∀ name (kw : XLNetModel_kwargs (F:=F)),
     (name, kw) ∈ pretrained_init_configuration →
     kw_bi_data kw = Some (PyBool false) ∧
     ∀ self layer, XLNetModel_init kw = Ok (self, layer) → truthy (bi_data self) = false) ∧
  (∀ (self : XLNetModel) (qlen klen : nat) (b beg end_ : Z),
     pos_range self qlen klen = Ok (beg, end_) → (2 <= b)%Z →
     let fwd := fwd_pos_seq self beg end_ in
     let bwd := bwd_pos_seq self beg end_ in
     let w := data (inv_freq (F:=F) self) in
     let h := Z.to_nat (b `div` 2) in
     (bi_data self = PyStr "False" →
        ∃ e, relative_positional_encoding self qlen klen (Some b) = Ok e ∧
          shape e = [length fwd; h + h; length w + length w] ∧
          ∀ i c j, i < length fwd → c < h + h → j < length w →
            let p := of_Z (if decide (c < h) then fwd !!! i else bwd !!! i) in
            get e [i; c; j] = fsin (fmul p (w !!! j)) ∧
            get e [i; c; length w + j] = fcos (fmul p (w !!! j))) ∧
     (bi_data self = PyBool false →
        ∃ e, relative_positional_encoding self qlen klen (Some b) = Ok e ∧
          shape e = [length fwd; Z.to_nat b; length w + length w] ∧
          ∀ i c j, i < length fwd → c < Z.to_nat b → j < length w →
            get e [i; c; j] = fsin (fmul (of_Z (fwd !!! i)) (w !!! j)) ∧
            get e [i; c; length w + j] = fcos (fmul (of_Z (fwd !!! i)) (w !!! j)))).
Proof.
  split; [|split].
  - intros kw self layer Hkw Hinit.
    apply XLNetModel_init_bi_data in Hinit. rewrite Hkw in Hinit. by rewrite Hinit.
  - intros name kw Hin.
    assert (Hkw : kw_bi_data kw = Some (PyBool false)).
    { unfold pretrained_init_configuration in Hin.
      repeat (apply elem_of_cons in Hin as [[= _ ->]|Hin]; [done|]).
      by apply elem_of_nil in Hin. }
    split; [done|]. intros self layer Hinit.
    apply XLNetModel_init_bi_data in Hinit. rewrite Hkw in Hinit. by rewrite Hinit.
  - intros self qlen klen b beg end_ Hrange Hb fwd bwd w h. subst fwd bwd w h. split.
    + intros Hbi.
      destruct (relative_positional_encoding_spec (F:=F) self qlen klen b beg end_ Hrange)
        as (e & He & _ & Hspec); [lia|lia|].
      assert (Ht : truthy (bi_data self) = true) by (by rewrite Hbi).
      rewrite Ht in Hspec. destruct Hspec as [Hs Hspec].
      exists e. split; [done|]. split; [done|].
      intros i c j Hi Hc Hj. cbv zeta.
      destruct (Hspec i c j Hi Hc Hj) as [-> ->].
      assert (Hbwd : bwd_pos_seq self beg end_ !!! i = (- (fwd_pos_seq self beg end_ !!! i))%Z).
      { rewrite bwd_pos_seq_opp. by apply list_lookup_total_fmap. }
      rewrite Hbwd. done.
    + intros Hbi.
      destruct (relative_positional_encoding_spec (F:=F) self qlen klen b beg end_ Hrange)
        as (e & He & _ & Hspec); [lia|rewrite Hbi; discriminate|].
      assert (Ht : truthy (bi_data self) = false) by (by rewrite Hbi).
      rewrite Ht in Hspec. destruct Hspec as [Hs Hspec].
      exists e. split; [done|]. split; [done|]. exact Hspec.
Qed.
End bi_data_facts.

(** C10, witness on the ideal instance: the default construction, the
    pretrained entry [xlnet-base-cased], and the two encodings for
    [qlen = 2], [klen = 2], [bsz = 2]. *)
Lemma bi_data_default_truthy_witness :
  let kw : XLNetModel_kwargs (F:=Rdefinitions.R) :=
    mkKwargs 32000%Z None None None None None None None None None None None None in
  let self0 := mkXLNetModel None None 768 false "bi" (PyStr "False") (-1) 12 in
  let layer0 := replicate 12 (mkXLNetFeedForward 768 3072 (F_gelu (F:=Rdefinitions.R))) in
  (bi_data self0 = PyStr "False" ∧ truthy (bi_data self0) = true) ∧
  (kw_bi_data (pretrained_kwargs (F:=Rdefinitions.R) 3072 768 12 12 "gelu") = Some (PyBool false) ∧
   ∀ self layer,
     XLNetModel_init (pretrained_kwargs (F:=Rdefinitions.R) 3072 768 12 12 "gelu") = Ok (self, layer) →
     truthy (bi_data self) = false) ∧
  (let self := mkXLNetModel None None 4 false "bi" (PyStr "False") (-1) 1 in
   let fwd := fwd_pos_seq self 2 (-2) in
   let bwd := bwd_pos_seq self 2 (-2) in
   let w := data (inv_freq (F:=Rdefinitions.R) self) in
   let h := Z.to_nat (2 `div` 2) in
   (bi_data self = PyStr "False" →
      ∃ e, relative_positional_encoding self 2 2 (Some 2%Z) = Ok e ∧
        shape e = [length fwd; h + h; length w + length w] ∧
        ∀ i c j, i < length fwd → c < h + h → j < length w →
          let p := of_Z (if decide (c < h) then fwd !!! i else bwd !!! i) in
          get e [i; c; j] = fsin (fmul p (w !!! j)) ∧
          get e [i; c; length w + j] = fcos (fmul p (w !!! j))) ∧
   (bi_data self = PyBool false →
      ∃ e, relative_positional_encoding self 2 2 (Some 2%Z) = Ok e ∧
        shape e = [length fwd; Z.to_nat 2; length w + length w] ∧
        ∀ i c j, i < length fwd → c < Z.to_nat 2 → j < length w →
          get e [i; c; j] = fsin (fmul (of_Z (fwd !!! i)) (w !!! j)) ∧
          get e [i; c; length w + j] = fcos (fmul (of_Z (fwd !!! i)) (w !!! j)))).
Proof.
  intros kw self0 layer0. split; [|split].
  - apply (proj1 (bi_data_default_truthy (F:=Rdefinitions.R)) kw self0 layer0);
      reflexivity.
  - apply (proj1 (proj2 (bi_data_default_truthy (F:=Rdefinitions.R))) "xlnet-base-cased").
    apply list_elem_of_here.
  - apply (proj2 (proj2 (bi_data_default_truthy (F:=Rdefinitions.R)))
             (mkXLNetModel None None 4 false "bi" (PyStr "False") (-1) 1) 2 2 2%Z 2%Z (-2)%Z);
      [reflexivity|lia].
Defined.

(** ** Transposition of the inputs *)

Section transpose_facts.
Context {A : Type} `{Inhabited A}.

Lemma transpose_swap2 (t : Tensor A) a b :
  shape t = [a; b] →
  transpose t [1; 0] = Some (tab [b; a] (λ idx, get t [idx !!! 1; idx !!! 0])).
Proof.
  intros Hs. unfold transpose, rank. rewrite Hs.
  rewrite decide_True; [done|].
  split; [done|]. split; [done|]. split; [repeat constructor; lia|].
  apply NoDup_cons. split; [|apply NoDup_singleton].
  intros Hin%list_elem_of_singleton. discriminate.
Qed.
End transpose_facts.

(** ** The mask of the content stream *)

Lemma broadcast_dim_same a : broadcast_dim a a = Some a.
Proof. unfold broadcast_dim. by rewrite decide_True. Qed.

Lemma broadcast_dim_one_r a : broadcast_dim a 1 = Some a.
Proof. unfold broadcast_dim. repeat case_decide; congruence. Qed.

Lemma broadcast_dim_one_l b : broadcast_dim 1 b = Some b.
Proof. unfold broadcast_dim. repeat case_decide; congruence. Qed.

Lemma broadcast_shapes_mask a q K c d :
  a = 1 ∨ a = q →
  broadcast_shapes [a; K; c; d] [q; K; 1; 1] = Some [q; K; c; d].
Proof.
  intros Ha. unfold broadcast_shapes. cbn [reverse rev_append broadcast_rev].
  change (reverse [a; K; c; d]) with [d; c; K; a].
  change (reverse [q; K; 1; 1]) with [1; 1; K; q].
  cbn [broadcast_rev]. rewrite !broadcast_dim_one_r, broadcast_dim_same.
  destruct Ha as [->| ->]; [rewrite broadcast_dim_one_l|rewrite broadcast_dim_same]; done.
Qed.

Section concat_rank2.
Context {A : Type} `{Inhabited A}.

Lemma concat1_rank2 (x y : Tensor A) P a b :
  shape x = [P; a] → shape y = [P; b] →
  ∃ e, concat x y 1 = Some e ∧ shape e = [P; a + b] ∧ well_formed e ∧
       ∀ i j, i < P → j < a + b →
         get e [i; j] = if decide (j < a) then get x [i; j] else get y [i; j - a].
Proof.
  intros Hx Hy. unfold concat, rank. rewrite Hx, Hy.
  rewrite decide_True by (split; [simpl; lia|done]).
  eexists. split; [done|]. split; [done|]. split; [apply well_formed_tab|].
  intros i j Hi Hj.
  change (<[1:=[P; a] !!! 1 + [P; b] !!! 1]> [P; a]) with [P; a + b].
  rewrite get_tab by (apply in_range2; lia). done.
Qed.
End concat_rank2.

Section mask_facts.
Context {F : Type} `{FloatOps F}.

Lemma get_cast_gt0 (t : Tensor F) idx :
  well_formed t → in_range (shape t) idx →
  get (cast_gt0 t) idx = cast_bool (fgt (get t idx) (of_Z 0)).
Proof.
  intros Hwf Hr. unfold cast_gt0.
  rewrite get_tmap; [|by apply well_formed_tmap|done].
  by rewrite get_tmap.
Qed.

(** The matrix added to the attention mask: [-1] where the key is the
    query's own position. *)
Lemma non_tgt_diagonal (qlen mlen : nat) :
  ∃ m : Tensor F,
    (if decide (0 < mlen)
     then concat (zeros [qlen; mlen]) (tmap fneg (eye qlen)) 1
     else Some (tmap fneg (eye qlen))) = Some m ∧
    shape m = [qlen; mlen + qlen] ∧ well_formed m ∧
    ∀ i, i < qlen → get m [i; mlen + i] = fneg (of_Z 1).
Proof.
  assert (He : ∀ i j, i < qlen → j < qlen →
            get (tmap fneg (eye (F:=F) qlen)) [i; j]
            = fneg (if decide (i = j) then of_Z 1 else of_Z 0)).
  { intros i j Hi Hj. rewrite get_tmap; [|apply well_formed_tab|by apply in_range2].
    unfold eye. rewrite get_tab by (by apply in_range2). done. }
  case_decide as Hm.
  - destruct (concat1_rank2 (zeros (F:=F) [qlen; mlen]) (tmap fneg (eye qlen)) qlen mlen qlen)
      as (e & -> & Hes & Hew & He'); [done..|].
    exists e. split; [done|]. split; [done|]. split; [done|].
    intros i Hi. rewrite He' by lia. rewrite decide_False by lia.
    replace (mlen + i - mlen) with i by lia.
    rewrite He by done. by rewrite decide_True.
  - assert (mlen = 0) as -> by lia.
    eexists. split; [done|]. split; [done|].
    split; [apply well_formed_tmap, well_formed_tab|].
    intros i Hi. rewrite He by done. by rewrite decide_True.
Qed.
End mask_facts.
Lemma result_bind_Ok {A B} (m : result A) (f : A → result B) b :
  m ≫= f = Ok b → ∃ a, m = Ok a ∧ f a = Ok b.
Proof. destruct m as [a|e]; [|discriminate]. intros Hf. by exists a. Qed.

Section non_tgt_facts.
Context {F : Type} `{FloatOps F}.

Lemma binary_cast_gt0 (t : Tensor F) :
  Forall (λ v, v = of_Z 0 ∨ v = of_Z 1) (data (cast_gt0 t)).
Proof.
  unfold cast_gt0, tmap; cbn [data]. rewrite <-list_fmap_compose.
  apply Forall_fmap, Forall_true. intros a. simpl.
  destruct (fgt a (of_Z 0)); [by right|by left].
Qed.

(** C7: in the mask of the content stream built from a binary attention
    mask, the entry of query [i] at its own key position [mlen + i] is [0],
    for every batch and broadcast index, whatever the attention mask holds
    there; and [forward] builds this mask from the thresholded (hence
    binary) combined mask.  The two hypotheses are the exact sums
    [1 + (-1)] and [0 + (-1)] not being positive. *)
Theorem non_tgt_mask_allows_self :
  fgt (fadd (of_Z 1) (fneg (of_Z 1))) (of_Z (F:=F) 0) = false →
  fgt (fadd (of_Z 0) (fneg (of_Z 1))) (of_Z (F:=F) 0) = false →
  (∀ (qlen mlen : nat) (attn_mask : Tensor F) a c d,
     shape attn_mask = [a; mlen + qlen; c; d] → a = 1 ∨ a = qlen →
     well_formed attn_mask →
     Forall (λ v, v = of_Z 0 ∨ v = of_Z 1) (data attn_mask) →
     ∃ m, non_tgt_mask_of qlen mlen attn_mask = Some m ∧
          shape m = [qlen; mlen + qlen; c; d] ∧
          ∀ i b e, i < qlen → b < c → e < d → get m [i; mlen + i; b; e] = of_Z 0) ∧
  (∀ (self : XLNetModel) (qlen bsz mlen : nat) input_mask attention_mask perm_mask
     (attn_mask non_tgt_mask : option (Tensor F)),
     forward_masks self qlen bsz mlen input_mask attention_mask perm_mask
       = Ok (attn_mask, non_tgt_mask) →
     match attn_mask with
     | None => non_tgt_mask = None
     | Some am => Forall (λ v, v = of_Z 0 ∨ v = of_Z 1) (data am) ∧
                  ∃ m, non_tgt_mask_of qlen mlen am = Some m ∧ non_tgt_mask = Some m
     end).
Proof.
  intros H1 H0. split.
  - intros qlen mlen am a c d Hs Ha Hwf Hbin.
    destruct (non_tgt_diagonal (F:=F) qlen mlen) as (P & HP & HPs & HPw & HPd).
    unfold non_tgt_mask_of. rewrite HP. csimpl.
    unfold tadd, broadcast2, unsqueeze. cbn [shape data]. rewrite HPs, Hs.
    change (take 3 (take 2 [qlen; mlen + qlen] ++ 1 :: drop 2 [qlen; mlen + qlen]) ++
            1 :: drop 3 (take 2 [qlen; mlen + qlen] ++ 1 :: drop 2 [qlen; mlen + qlen]))
      with [qlen; mlen + qlen; 1; 1].
    rewrite broadcast_shapes_mask by done. csimpl.
    eexists. split; [done|]. split; [done|].
    intros i b e Hi Hb He.
    rewrite get_cast_gt0; [|apply well_formed_tab|apply in_range4; lia].
    rewrite get_tab by (apply in_range4; lia).
    set (ia := if decide (a = 1) then 0 else i).
    set (ib := if decide (c = 1) then 0 else b).
    set (ie := if decide (d = 1) then 0 else e).
    assert (Hb1 : bidx [a; mlen + qlen; c; d] [i; mlen + i; b; e]
                  = [ia; (if decide (mlen + qlen = 1) then 0 else mlen + i); ib; ie]) by done.
    assert (Hb2 : bidx [qlen; mlen + qlen; 1; 1] [i; mlen + i; b; e]
                  = [(if decide (qlen = 1) then 0 else i);
                     (if decide (mlen + qlen = 1) then 0 else mlen + i); 0; 0]) by done.
    rewrite Hb1, Hb2.
    assert (Hk : (if decide (mlen + qlen = 1) then 0 else mlen + i) = mlen + i)
      by (destruct (decide (mlen + qlen = 1)); lia).
    assert (Hq : (if decide (qlen = 1) then 0 else i) = i)
      by (destruct (decide (qlen = 1)); lia).
    rewrite Hk, Hq.
    assert (HP2 : get (mkTensor [qlen; mlen + qlen; 1; 1] (data P)) [i; mlen + i; 0; 0]
                  = fneg (of_Z 1)).
    { rewrite <-(HPd i Hi). unfold get. rewrite HPs. cbn [shape data]. f_equal; simpl; lia. }
    rewrite HP2.
    assert (Hv : get am [ia; mlen + i; ib; ie] = of_Z 0 ∨ get am [ia; mlen + i; ib; ie] = of_Z 1).
    { unfold get. rewrite Hs.
      assert (Hlt : ravel [a; mlen + qlen; c; d] [ia; mlen + i; ib; ie] < length (data am)).
      { unfold well_formed in Hwf. rewrite Hwf, Hs. apply ravel_lt, in_range4.
        - unfold ia. destruct (decide (a = 1)); destruct Ha; lia.
        - lia.
        - unfold ib. destruct (decide (c = 1)); lia.
        - unfold ie. destruct (decide (d = 1)); lia. }
      exact (Forall_lookup_1 _ _ _ _ Hbin (list_lookup_lookup_total_lt _ _ Hlt)). }
    unfold cast_bool. destruct Hv as [-> | ->]; [by rewrite H0|by rewrite H1].
  - intros self qlen bsz mlen im atm pm attn nt Hfw.
    unfold forward_masks in Hfw.
    apply result_bind_Ok in Hfw as (attn0 & _ & Hfw).
    apply result_bind_Ok in Hfw as (im' & _ & Hfw).
    apply result_bind_Ok in Hfw as (dm & _ & Hfw).
    apply result_bind_Ok in Hfw as (raw & _ & Hfw).
    apply result_bind_Ok in Hfw as (nt' & Hnt & Hfw).
    injection Hfw as <- <-.
    destruct raw as [raw|]; csimpl in *.
    + split; [apply binary_cast_gt0|].
      destruct (non_tgt_mask_of qlen mlen (cast_gt0 raw)) as [m|]; csimpl in *; [|discriminate].
      injection Hnt as <-. by exists m.
    + by injection Hnt as <-.
Qed.
End non_tgt_facts.

Lemma R_sum_not_positive (z : Z) :
  (z <= 1)%Z → fgt (fadd (of_Z z) (fneg (of_Z 1))) (of_Z (F:=Rdefinitions.R) 0) = false.
Proof.
  intros Hz. cbn [fgt fadd fneg of_Z R_FloatOps]. unfold Rgt_b.
  destruct (RIneq.Rlt_dec _ _) as [Hlt|_]; [|done].
  exfalso. apply RIneq.IZR_le in Hz. Lra.lra.
Qed.

(** C7, witness on the ideal instance: [qlen = 2], [mlen = 1], and an
    attention mask of shape [1, 3, 1, 1] that masks the first and the last
    key. *)
Lemma non_tgt_mask_allows_self_witness :
  let am := mkTensor [1; 3; 1; 1] [Rdefinitions.IZR 1; Rdefinitions.IZR 0; Rdefinitions.IZR 1] in
  ∃ m, non_tgt_mask_of 2 1 am = Some m ∧
       shape m = [2; 1 + 2; 1; 1] ∧
       ∀ i b e, i < 2 → b < 1 → e < 1 → get m [i; 1 + i; b; e] = of_Z 0.
Proof.
  intros am.
  apply (proj1 (non_tgt_mask_allows_self (F:=Rdefinitions.R)
                  (R_sum_not_positive 1 ltac:(lia)) (R_sum_not_positive 0 ltac:(lia)))
           2 1 am 1 1 1).
  - reflexivity.
  - by left.
  - reflexivity.
  - repeat constructor; by (left + right).
Defined.

(** ** Contractions *)

Section einsum_facts.
Context {F : Type} `{FloatOps F}.

Lemma transpose_Some (t : Tensor F) perm :
  is_perm (rank t) perm →
  transpose t perm
  = Some (tab ((λ p, shape t !!! p) <$> perm)
            (λ idx, get t ((λ d, idx !!! default 0 (index_of d perm)) <$> seq 0 (rank t)))).
Proof.
  intros Hp. unfold transpose, full_perm. destruct (Hp) as (Hl & _).
  rewrite decide_True by (rewrite Hl; done).
  by rewrite Hl, Nat.sub_diag, app_nil_r.
Qed.

Lemma is_perm_1203 : is_perm 4 [1; 2; 0; 3].
Proof. unfold is_perm. apply (bool_decide_unpack _). by vm_compute. Qed.

Lemma is_perm_0123 : is_perm 4 [0; 1; 2; 3].
Proof. unfold is_perm. apply (bool_decide_unpack _). by vm_compute. Qed.

Lemma is_perm_2301 : is_perm 4 [2; 3; 0; 1].
Proof. unfold is_perm. apply (bool_decide_unpack _). by vm_compute. Qed.

(** [matmul(x, y, transpose_y=True)] on two 4-dimensional operands with
    equal leading dimensions. *)
Lemma matmul_4x4_transpose_y (x y : Tensor F) a b m n k :
  shape x = [a; b; m; k] → shape y = [a; b; n; k] →
  ∃ z, matmul x y true = Some z ∧ shape z = [a; b; m; n] ∧ well_formed z ∧
       ∀ c0 c1 i j, c0 < a → c1 < b → i < m → j < n →
         get z [c0; c1; i; j]
         = fsum ((λ l, fmul (get x [c0; c1; i; l]) (get y [c0; c1; j; l])) <$> seq 0 k).
Proof.
  intros Hx Hy. unfold matmul, rank. rewrite Hx, Hy. cbn [length].
  rewrite decide_True by lia.
  change ([a; b; m; k] !!! (4 - 1)) with k. change ([a; b; n; k] !!! (4 - 1)) with k.
  rewrite decide_True by done.
  change (take (4 - 2) [a; b; m; k]) with [a; b].
  change (take (4 - 2) [a; b; n; k]) with [a; b].
  rewrite broadcast_shapes_same. csimpl.
  eexists. split; [done|]. split; [done|]. split; [apply well_formed_tab|].
  intros c0 c1 i j Hc0 Hc1 Hi Hj.
  rewrite get_tab by (apply in_range4; lia).
  cbn [take length]. rewrite (bidx_in_range [a; b] [c0; c1]) by (by apply in_range2).
  done.
Qed.

Lemma einsum4x4_ibnd_jbnd (x y : Tensor F) :
  einsum4x4 "ibnd,jbnd->bnij" x y
  = (x ← transpose x [1; 2; 0; 3];
     y ← transpose y [1; 2; 0; 3];
     z ← matmul x y true;
     transpose z [0; 1; 2; 3]).
Proof. reflexivity. Qed.

(** The contraction [ibnd,jbnd->bnij]: entry [b,n,i,j] is the sum over [d]
    of [x[i,b,n,d] * y[j,b,n,d]]. *)
Lemma einsum4x4_scores (x y : Tensor F) I J B N D :
  shape x = [I; B; N; D] → shape y = [J; B; N; D] →
  ∃ z, einsum4x4 "ibnd,jbnd->bnij" x y = Some z ∧ shape z = [B; N; I; J] ∧ well_formed z ∧
       ∀ b n i j, b < B → n < N → i < I → j < J →
         get z [b; n; i; j]
         = fsum ((λ d, fmul (get x [i; b; n; d]) (get y [j; b; n; d])) <$> seq 0 D).
Proof.
  intros Hx Hy. rewrite einsum4x4_ibnd_jbnd.
  rewrite (transpose_Some x) by (unfold rank; rewrite Hx; apply is_perm_1203).
  rewrite (transpose_Some y) by (unfold rank; rewrite Hy; apply is_perm_1203).
  csimpl. unfold rank. rewrite Hx, Hy. cbn [length fmap list_fmap].
  change ([I; B; N; D] !!! 1) with B. change ([I; B; N; D] !!! 2) with N.
  change ([I; B; N; D] !!! 0) with I. change ([I; B; N; D] !!! 3) with D.
  change ([J; B; N; D] !!! 1) with B. change ([J; B; N; D] !!! 2) with N.
  change ([J; B; N; D] !!! 0) with J. change ([J; B; N; D] !!! 3) with D.
  set (x' := tab [B; N; I; D] _). set (y' := tab [B; N; J; D] _).
  destruct (matmul_4x4_transpose_y x' y' B N I J D) as (z & -> & Hzs & Hzw & Hz); [done..|].
  csimpl. rewrite (transpose_Some z) by (unfold rank; rewrite Hzs; apply is_perm_0123).
  eexists. split; [done|]. unfold rank. rewrite Hzs. cbn [length fmap list_fmap].
  split; [done|]. split; [apply well_formed_tab|].
  intros b n i j Hb Hn Hi Hj.
  change ([B; N; I; J] !!! 0) with B. change ([B; N; I; J] !!! 1) with N.
  change ([B; N; I; J] !!! 2) with I. change ([B; N; I; J] !!! 3) with J.
  rewrite get_tab by (apply in_range4; lia).
  change (get z _) with (get z [b; n; i; j]).
  rewrite Hz by done. f_equal. apply list_fmap_ext. intros k d Hk.
  apply lookup_seq in Hk as [-> Hd].
  unfold x', y'. rewrite !get_tab by (apply in_range4; lia). done.
Qed.
End einsum_facts.
(** ** Broadcasting, entry by entry *)

Lemma broadcast_dim_fit a m : m = 1 ∨ m = a → broadcast_dim a m = Some a.
Proof. intros [-> | ->]; [apply broadcast_dim_one_r|apply broadcast_dim_same]. Qed.

Lemma broadcast_shapes_nil_r s : broadcast_shapes s [] = Some s.
Proof.
  unfold broadcast_shapes. destruct (reverse s) as [|a l] eqn:E; csimpl.
  - apply (f_equal reverse) in E. rewrite reverse_involutive in E. by subst.
  - f_equal. rewrite <-E. apply reverse_involutive.
Qed.

Lemma broadcast_shapes_nil_l s : broadcast_shapes [] s = Some s.
Proof. unfold broadcast_shapes. csimpl. f_equal. apply reverse_involutive. Qed.

Lemma broadcast_shapes_fit4 a b c d a' b' c' d' :
  a' = 1 ∨ a' = a → b' = 1 ∨ b' = b → c' = 1 ∨ c' = c → d' = 1 ∨ d' = d →
  broadcast_shapes [a; b; c; d] [a'; b'; c'; d'] = Some [a; b; c; d].
Proof.
  intros Ha Hb Hc Hd. unfold broadcast_shapes.
  change (reverse [a; b; c; d]) with [d; c; b; a].
  change (reverse [a'; b'; c'; d']) with [d'; c'; b'; a'].
  cbn [broadcast_rev]. by rewrite !broadcast_dim_fit.
Qed.

Lemma broadcast_shapes_tail2 a b c d :
  broadcast_shapes [a; b; c; d] [c; d] = Some [a; b; c; d].
Proof.
  unfold broadcast_shapes.
  change (reverse [a; b; c; d]) with [d; c; b; a].
  change (reverse [c; d]) with [d; c].
  cbn [broadcast_rev]. by rewrite !broadcast_dim_same.
Qed.

Lemma bidx_fit4 a b c d i j k l :
  bidx [a; b; c; d] [i; j; k; l]
  = [if decide (a = 1) then 0 else i; if decide (b = 1) then 0 else j;
     if decide (c = 1) then 0 else k; if decide (d = 1) then 0 else l].
Proof. done. Qed.

Lemma in_range_bidx_fit4 a b c d a' b' c' d' i j k l :
  a' = 1 ∨ a' = a → b' = 1 ∨ b' = b → c' = 1 ∨ c' = c → d' = 1 ∨ d' = d →
  i < a → j < b → k < c → l < d →
  in_range [a'; b'; c'; d'] (bidx [a'; b'; c'; d'] [i; j; k; l]).
Proof.
  intros Ha Hb Hc Hd Hi Hj Hk Hl. rewrite bidx_fit4.
  apply in_range4; case_decide; lia.
Qed.

Section broadcast_facts.
Context {A B C : Type} `{Inhabited A, Inhabited B, Inhabited C}.

Lemma broadcast2_Some (f : A → B → C) (x : Tensor A) (y : Tensor B) s :
  broadcast_shapes (shape x) (shape y) = Some s →
  broadcast2 f x y
  = Some (tab s (λ idx, f (get x (bidx (shape x) idx)) (get y (bidx (shape y) idx)))).
Proof. intros Hs. unfold broadcast2. by rewrite Hs. Qed.
End broadcast_facts.

Lemma get_scalar {A} `{Inhabited A} (c : A) idx : get (scalar c) (bidx [] idx) = c.
Proof. done. Qed.
(** ** The attention score *)

Section score_facts.
Context {F : Type} `{FloatOps F, Kernels F}.

Lemma transpose_2301 (m : Tensor F) mi mj mb mn :
  shape m = [mi; mj; mb; mn] →
  ∃ t, transpose m [2; 3; 0; 1] = Some t ∧ shape t = [mb; mn; mi; mj] ∧ well_formed t ∧
       ∀ b n i j, b < mb → n < mn → i < mi → j < mj → get t [b; n; i; j] = get m [i; j; b; n].
Proof.
  intros Hm. rewrite transpose_Some by (unfold rank; rewrite Hm; apply is_perm_2301).
  unfold rank. rewrite Hm. cbn [length fmap list_fmap].
  eexists. split; [done|]. split; [done|]. split; [apply well_formed_tab|].
  intros b n i j Hb Hn Hi Hj.
  change ([mi; mj; mb; mn] !!! 2) with mb. change ([mi; mj; mb; mn] !!! 3) with mn.
  change ([mi; mj; mb; mn] !!! 0) with mi. change ([mi; mj; mb; mn] !!! 1) with mj.
  rewrite get_tab by (apply in_range4; lia). done.
Qed.

(** Merging and masking, entry by entry. *)
Lemma merge_scores_spec (self : XLNetRelativeAttention F) (ac bd ef : Tensor F)
    (attn_mask : option (Tensor F)) B N I J :
  shape ac = [B; N; I; J] → shape bd = [B; N; I; J] →
  shape ef = [] ∨ shape ef = [B; N; I; J] →
  (∀ m, attn_mask = Some m →
     ∃ mi mj mb mn, shape m = [mi; mj; mb; mn] ∧
       (mi = 1 ∨ mi = I) ∧ (mj = 1 ∨ mj = J) ∧ (mb = 1 ∨ mb = B) ∧ (mn = 1 ∨ mn = N)) →
  ∃ s, merge_scores self ac bd ef attn_mask = Some s ∧ shape s = [B; N; I; J] ∧
       ∀ b n i j, b < B → n < N → i < I → j < J →
         let merged :=
           fmul (fadd (fadd (get ac [b; n; i; j]) (get bd [b; n; i; j]))
                      (get ef (bidx (shape ef) [b; n; i; j])))
                (scale self) in
         get s [b; n; i; j]
         = match attn_mask with
           | None => merged
           | Some m => fsub merged (fmul (of_Z (10 ^ 30)) (get m (bidx (shape m) [i; j; b; n])))
           end.
Proof.
  intros Hac Hbd Hef Hmask. unfold merge_scores, tadd, tmul, tsub.
  rewrite (broadcast2_Some fadd ac bd [B; N; I; J])
    by (rewrite Hac, Hbd; apply broadcast_shapes_same).
  cbn [mbind option_bind]. set (s1 := tab [B; N; I; J] _).
  rewrite (broadcast2_Some fadd s1 ef [B; N; I; J]); cycle 1.
  { unfold s1. cbn [shape tab].
    destruct Hef as [-> | ->]; [apply broadcast_shapes_nil_r|apply broadcast_shapes_same]. }
  cbn [mbind option_bind]. set (s2 := tab [B; N; I; J] _).
  rewrite (broadcast2_Some fmul s2 _ [B; N; I; J])
    by apply broadcast_shapes_nil_r.
  cbn [mbind option_bind]. set (s3 := tab [B; N; I; J] _).
  assert (Hs3 : ∀ b n i j, b < B → n < N → i < I → j < J →
            get s3 [b; n; i; j]
            = fmul (fadd (fadd (get ac [b; n; i; j]) (get bd [b; n; i; j]))
                         (get ef (bidx (shape ef) [b; n; i; j])))
                   (scale self)).
  { intros b n i j Hb Hn Hi Hj.
    assert (Hr : in_range [B; N; I; J] [b; n; i; j]) by (by apply in_range4).
    unfold s3. rewrite get_tab by done.
    change (shape s2) with [B; N; I; J]. rewrite (bidx_in_range _ _ Hr).
    unfold s2. rewrite get_tab by done.
    change (shape s1) with [B; N; I; J]. rewrite (bidx_in_range _ _ Hr).
    unfold s1. rewrite get_tab by done.
    rewrite Hac, Hbd, (bidx_in_range _ _ Hr). done. }
  destruct attn_mask as [m|].
  - destruct (Hmask m eq_refl) as (mi & mj & mb & mn & Hm & Hmi & Hmj & Hmb & Hmn).
    destruct (transpose_2301 m mi mj mb mn Hm) as (t & -> & Hts & Htw & Ht). cbn [mbind option_bind].
    rewrite (broadcast2_Some fmul _ t [mb; mn; mi; mj])
      by (rewrite Hts; apply broadcast_shapes_nil_l).
    cbn [mbind option_bind]. set (mm := tab [mb; mn; mi; mj] _).
    rewrite (broadcast2_Some fsub s3 mm [B; N; I; J])
      by (by apply broadcast_shapes_fit4).
    eexists. split; [done|]. split; [done|].
    intros b n i j Hb Hn Hi Hj. cbv zeta.
    assert (Hr : in_range [B; N; I; J] [b; n; i; j]) by (by apply in_range4).
    rewrite get_tab by done.
    change (shape s3) with [B; N; I; J]. rewrite (bidx_in_range _ _ Hr), Hs3 by done.
    f_equal. change (shape mm) with [mb; mn; mi; mj].
    assert (Hrm : in_range [mb; mn; mi; mj] (bidx [mb; mn; mi; mj] [b; n; i; j]))
      by (by apply (in_range_bidx_fit4 B N I J)).
    unfold mm. rewrite get_tab by done.
    rewrite Hts, (bidx_in_range _ _ Hrm). f_equal.
    rewrite Hm, !bidx_fit4. apply Ht; case_decide; lia.
  - eexists. split; [done|]. split; [done|].
    intros b n i j Hb Hn Hi Hj. by apply Hs3.
Qed.
End score_facts.
Section core_facts.
Context {F : Type} `{FloatOps F, Kernels F}.

Lemma add_bias (q bias : Tensor F) I B N D :
  shape q = [I; B; N; D] → shape bias = [N; D] →
  ∃ qb, tadd q bias = Some qb ∧ shape qb = [I; B; N; D] ∧ well_formed qb ∧
        ∀ i b n d, i < I → b < B → n < N → d < D →
          get qb [i; b; n; d] = fadd (get q [i; b; n; d]) (get bias [n; d]).
Proof.
  intros Hq Hb. unfold tadd.
  rewrite (broadcast2_Some fadd q bias [I; B; N; D])
    by (rewrite Hq, Hb; apply broadcast_shapes_tail2).
  eexists. split; [done|]. split; [done|]. split; [apply well_formed_tab|].
  intros i b n d Hi Hb' Hn Hd.
  assert (Hr : in_range [I; B; N; D] [i; b; n; d]) by (by apply in_range4).
  rewrite get_tab by done. rewrite Hq, Hb, (bidx_in_range _ _ Hr).
  assert (Hbi : bidx [N; D] [i; b; n; d] = [n; d]).
  { unfold bidx. simpl. repeat case_decide; repeat f_equal; lia. }
  by rewrite Hbi.
Qed.

(** The content score: [ac[b,n,i,j]] is the sum over [d] of
    [(q[i,b,n,d] + r_w_bias[n,d]) * k[j,b,n,d]]. *)
Lemma content_score_spec (self : XLNetRelativeAttention F) (q_head k_head_h : Tensor F) I J B N D :
  shape q_head = [I; B; N; D] → shape k_head_h = [J; B; N; D] →
  shape (r_w_bias self) = [N; D] →
  ∃ ac, content_score self q_head k_head_h = Some ac ∧ shape ac = [B; N; I; J] ∧
        well_formed ac ∧
        ∀ b n i j, b < B → n < N → i < I → j < J →
          get ac [b; n; i; j]
          = fsum ((λ d, fmul (fadd (get q_head [i; b; n; d]) (get (r_w_bias self) [n; d]))
                             (get k_head_h [j; b; n; d])) <$> seq 0 D).
Proof.
  intros Hq Hk Hb. unfold content_score.
  destruct (add_bias q_head (r_w_bias self) I B N D Hq Hb) as (qb & -> & Hqs & _ & Hqb).
  cbn [mbind option_bind].
  destruct (einsum4x4_scores qb k_head_h I J B N D Hqs Hk) as (ac & -> & Hs & Hw & Hac).
  exists ac. split; [done|]. split; [done|]. split; [done|].
  intros b n i j Hb' Hn Hi Hj. rewrite Hac by done. f_equal.
  apply list_fmap_ext. intros k d Hk'. apply lookup_seq in Hk' as [-> Hd].
  by rewrite Hqb.
Qed.

Lemma position_score_Some (self : XLNetRelativeAttention F) (q_head k_head_r : Tensor F)
    I J P B N D :
  shape q_head = [I; B; N; D] → shape k_head_r = [P; B; N; D] →
  shape (r_r_bias self) = [N; D] →
  0 < B → 0 < N → 0 < I → 1 < P → J ≤ P - 1 →
  ∃ bd, position_score self q_head k_head_r J = Some bd ∧ shape bd = [B; N; I; J] ∧
        well_formed bd.
Proof.
  intros Hq Hk Hb HB HN HI HP HJ. unfold position_score.
  destruct (add_bias q_head (r_r_bias self) I B N D Hq Hb) as (qb & -> & Hqs & _ & _).
  cbn [mbind option_bind].
  destruct (einsum4x4_scores qb k_head_r I P B N D Hqs Hk) as (bd0 & -> & Hs & Hw & _).
  cbn [mbind option_bind].
  rewrite (rel_shift_bnij_Some bd0 B N I P J) by done.
  eexists. split; [done|]. split; [done|]. apply well_formed_tab.
Qed.

(** C2: the score handed to the softmax is [(ac + bd + ef) * scale] with
    [scale = 1 / d_head ** 0.5], where [ef] is the number [0] when no segment
    matrix is given, and with an attention mask [1e30 * mask] is subtracted
    from it, the mask being read at [[i, j, b, n]] (broadcast where its
    dimension is [1]); the softmax over the key axis is applied to this
    masked score. *)
Theorem rel_attn_core_score (self : XLNetRelativeAttention F)
    (q_head k_head_h v_head_h k_head_r : Tensor F)
    (seg_mat attn_mask head_mask : option (Tensor F)) (output_attentions : bool)
    (ef : Tensor F) I J P B N D :
  shape q_head = [I; B; N; D] → shape k_head_h = [J; B; N; D] →
  shape k_head_r = [P; B; N; D] →
  shape (r_w_bias self) = [N; D] → shape (r_r_bias self) = [N; D] →
  0 < B → 0 < N → 0 < I → 1 < P → J ≤ P - 1 →
  segment_score self q_head seg_mat = Some ef →
  shape ef = [] ∨ shape ef = [B; N; I; J] →
  (∀ m, attn_mask = Some m →
     ∃ mi mj mb mn, shape m = [mi; mj; mb; mn] ∧
       (mi = 1 ∨ mi = I) ∧ (mj = 1 ∨ mj = J) ∧ (mb = 1 ∨ mb = B) ∧ (mn = 1 ∨ mn = N)) →
  (seg_mat = None → ef = scalar (of_Z 0)) ∧
  scale self = fdiv (of_Z 1) (fpow (of_Z (Z.of_nat (d_head self))) (fdiv (of_Z 1) (of_Z 2))) ∧
  ∃ ac bd s,
    content_score self q_head k_head_h = Some ac ∧ shape ac = [B; N; I; J] ∧
    position_score self q_head k_head_r J = Some bd ∧ shape bd = [B; N; I; J] ∧
    attn_score self q_head k_head_h k_head_r seg_mat attn_mask = Some s ∧
    shape s = [B; N; I; J] ∧
    (∀ b n i j, b < B → n < N → i < I → j < J →
       let merged :=
         fmul (fadd (fadd (get ac [b; n; i; j]) (get bd [b; n; i; j]))
                    (get ef (bidx (shape ef) [b; n; i; j])))
              (scale self) in
       get s [b; n; i; j]
       = match attn_mask with
         | None => merged
         | Some m => fsub merged (fmul (of_Z (10 ^ 30)) (get m (bidx (shape m) [i; j; b; n])))
         end) ∧
    rel_attn_core self q_head k_head_h v_head_h k_head_r seg_mat attn_mask head_mask
      output_attentions
    = (let attn_prob := dropout (softmax_axis3 s) in
       attn_prob ← match head_mask with
                   | None => Some attn_prob
                   | Some head_mask =>
                       head_mask ← transpose head_mask [2; 3; 0; 1];
                       tmul attn_prob head_mask
                   end;
       attn_vec ← einsum4x4 "bnij,jbnd->ibnd" attn_prob v_head_h;
       if output_attentions then
         p ← transpose attn_prob [2; 3; 0; 1];
         Some (attn_vec, Some p)
       else Some (attn_vec, None)).
Proof.
  intros Hq Hk Hr Hbw Hbr HB HN HI HP HJ Hseg Hef Hmask.
  split; [|split; [done|]].
  { intros ->. simpl in Hseg. by injection Hseg as <-. }
  destruct (content_score_spec self q_head k_head_h I J B N D Hq Hk Hbw)
    as (ac & Hac & Hacs & Hacw & _).
  destruct (position_score_Some self q_head k_head_r I J P B N D Hq Hr Hbr HB HN HI HP HJ)
    as (bd & Hbd & Hbds & Hbdw).
  destruct (merge_scores_spec self ac bd ef attn_mask B N I J Hacs Hbds Hef Hmask)
    as (s & Hs & Hss & Hsp).
  assert (Hscore : attn_score self q_head k_head_h k_head_r seg_mat attn_mask = Some s).
  { unfold attn_score. rewrite Hac. cbn [mbind option_bind]. rewrite Hacs.
    change ([B; N; I; J] !! 3) with (Some J). cbn [mbind option_bind].
    rewrite Hbd. cbn [mbind option_bind]. rewrite Hseg. cbn [mbind option_bind]. done. }
  exists ac, bd, s. repeat (split; [done|]).
  unfold rel_attn_core. rewrite Hscore. done.
Qed.
End core_facts.

(** C2, witness on the ideal instance: one query, one key, two relative
    positions, no segment matrix, and a mask on the only key. *)
Lemma rel_attn_core_score_witness :
  let one := mkTensor [1; 1] [Rdefinitions.IZR 1] in
  let zero := mkTensor [1; 1] [Rdefinitions.IZR 0] in
  let self := mkXLNetRelativeAttention 1 1 1 one one one one one zero zero zero
                (mkTensor [2; 1; 1] [Rdefinitions.IZR 0; Rdefinitions.IZR 0]) in
  let q_head := mkTensor [1; 1; 1; 1] [Rdefinitions.IZR 1] in
  let k_head_r := mkTensor [2; 1; 1; 1] [Rdefinitions.IZR 1; Rdefinitions.IZR 2] in
  let attn_mask := Some (mkTensor [1; 1; 1; 1] [Rdefinitions.IZR 1]) in
  let ef := scalar (of_Z (F:=Rdefinitions.R) 0) in
  (@None (Tensor Rdefinitions.R) = None → ef = scalar (of_Z 0)) ∧
  scale self = fdiv (of_Z 1) (fpow (of_Z (Z.of_nat (d_head self))) (fdiv (of_Z 1) (of_Z 2))) ∧
  ∃ ac bd s,
    content_score self q_head q_head = Some ac ∧ shape ac = [1; 1; 1; 1] ∧
    position_score self q_head k_head_r 1 = Some bd ∧ shape bd = [1; 1; 1; 1] ∧
    attn_score self q_head q_head k_head_r None attn_mask = Some s ∧
    shape s = [1; 1; 1; 1] ∧
    (∀ b n i j, b < 1 → n < 1 → i < 1 → j < 1 →
       let merged :=
         fmul (fadd (fadd (get ac [b; n; i; j]) (get bd [b; n; i; j]))
                    (get ef (bidx (shape ef) [b; n; i; j])))
              (scale self) in
       get s [b; n; i; j]
       = match attn_mask with
         | None => merged
         | Some m => fsub merged (fmul (of_Z (10 ^ 30)) (get m (bidx (shape m) [i; j; b; n])))
         end) ∧
    rel_attn_core self q_head q_head q_head k_head_r None attn_mask None false
    = (let attn_prob := dropout (softmax_axis3 s) in
       attn_prob ← match @None (Tensor Rdefinitions.R) with
                   | None => Some attn_prob
                   | Some head_mask =>
                       head_mask ← transpose head_mask [2; 3; 0; 1];
                       tmul attn_prob head_mask
                   end;
       attn_vec ← einsum4x4 "bnij,jbnd->ibnd" attn_prob q_head;
       if false then
         p ← transpose attn_prob [2; 3; 0; 1];
         Some (attn_vec, Some p)
       else Some (attn_vec, None)).
Proof.
  intros one zero self q_head k_head_r attn_mask ef.
  apply (rel_attn_core_score self q_head q_head q_head k_head_r None attn_mask None false ef
           1 1 2 1 1 1); try reflexivity; try lia.
  - by left.
  - intros m [= <-]. exists 1, 1, 1, 1. repeat split; by left.
Defined.

(** The core runs to the end on a small input of the ideal instance, with a
    segment matrix, an attention mask and a head mask. *)
Example rel_attn_core_runs :
  let one := mkTensor [1; 1] [Rdefinitions.IZR 1] in
  let zero := mkTensor [1; 1] [Rdefinitions.IZR 0] in
  let self := mkXLNetRelativeAttention 1 1 1 one one one one one zero zero zero
                (mkTensor [2; 1; 1] [Rdefinitions.IZR 0; Rdefinitions.IZR 1]) in
  let q_head := mkTensor [1; 1; 1; 1] [Rdefinitions.IZR 1] in
  let k_head_r := mkTensor [2; 1; 1; 1] [Rdefinitions.IZR 1; Rdefinitions.IZR 2] in
  let seg_mat := Some (mkTensor [1; 1; 1; 2] [Rdefinitions.IZR 1; Rdefinitions.IZR 0]) in
  let mask := Some (mkTensor [1; 1; 1; 1] [Rdefinitions.IZR 0]) in
  (∃ ef, segment_score self q_head seg_mat = Some ef ∧ shape ef = [1; 1; 1; 1]) ∧
  (∃ attn_vec attn_prob,
     rel_attn_core self q_head q_head q_head k_head_r seg_mat mask mask true
     = Some (attn_vec, Some attn_prob) ∧
     shape attn_vec = [1; 1; 1; 1] ∧ shape attn_prob = [1; 1; 1; 1]).
Proof.
  split.
  - eexists. split; [vm_compute; reflexivity|reflexivity].
  - do 2 eexists. split; [vm_compute; reflexivity|]. split; reflexivity.
Qed.

(** ** The content-only branch with memory *)

Section content_facts.
Context {F : Type} `{FloatOps F, Kernels F}.

Lemma reshape_mismatch (t : Tensor F) dims :
  Forall (λ d, 0 < d) dims → numel dims ≠ length (data t) →
  reshape t (Z.of_nat <$> dims) = None.
Proof.
  intros Hpos Hn. unfold reshape. rewrite resolve_dims_pos by done. csimpl.
  assert (Hf : filter (λ d : option nat, d = None) (Some <$> dims) = []).
  { clear. induction dims as [|d dims IH]; [done|]. csimpl.
    rewrite filter_cons_False by done. done. }
  assert (Ho : omap id (Some <$> dims) = dims).
  { clear. induction dims as [|d dims IH]; [done|]. csimpl. by rewrite IH. }
  rewrite Hf. simpl. unfold known_numel. rewrite Ho.
  by rewrite decide_False.
Qed.

(** [matmul] of a 3-dimensional tensor with a weight matrix. *)
Lemma matmul_3x2 (x w : Tensor F) a b c n :
  shape x = [a; b; c] → shape w = [c; n] →
  ∃ z, matmul x w false = Some z ∧ shape z = [a; b; n] ∧ well_formed z.
Proof.
  intros Hx Hw. unfold matmul, rank. rewrite Hx, Hw. cbn [length].
  rewrite decide_True by lia.
  change ([a; b; c] !!! (3 - 1)) with c. change ([c; n] !!! (2 - 2)) with c.
  rewrite decide_True by done.
  change (take (3 - 2) [a; b; c]) with [a].
  change (take (2 - 2) [c; n]) with (@nil nat).
  rewrite broadcast_shapes_nil_r. cbn [mbind option_bind].
  eexists. split; [done|]. split; [done|]. apply well_formed_tab.
Qed.

(** With a memory of [mlen > 0] positions the key head, computed from the
    [mlen + qlen] positions of the concatenation, is reshaped to
    [h.shape[0] = qlen] positions: the element counts differ and the branch
    fails before the attention core is reached. *)
Lemma forward_content_memory_fails (self : XLNetRelativeAttention F) (h r mems : Tensor F)
    attn_mask_h seg_mat head_mask output_attentions qlen mlen bsz dm :
  shape h = [qlen; bsz; dm] → shape mems = [mlen; bsz; dm] →
  shape (w_k self) = [dm; n_head self * d_head self] →
  0 < mlen → 0 < qlen → 0 < bsz → 0 < n_head self → 0 < d_head self →
  (∃ cat, concat_mems (Some mems) h = Some cat ∧ shape cat = [mlen + qlen; bsz; dm]) ∧
  content_heads self h r (Some mems) = None ∧
  forward_content self h attn_mask_h r seg_mat (Some mems) head_mask output_attentions = None.
Proof.
  intros Hh Hm Hk Hmlen Hqlen Hbsz Hn Hd.
  assert (Hcat : ∃ cat, concat_mems (Some mems) h = Some cat ∧
                        shape cat = [mlen + qlen; bsz; dm]).
  { unfold concat_mems, rank. rewrite Hm. cbn [length].
    rewrite decide_True by lia.
    rewrite (concat0_Some mems h mlen qlen [bsz; dm]) by done.
    eexists. split; [done|]. done. }
  split; [exact Hcat|].
  assert (Hheads : content_heads self h r (Some mems) = None).
  { destruct Hcat as (cat & Hcat & Hcs). unfold content_heads. rewrite Hcat.
    cbn [mbind option_bind]. rewrite Hh.
    change ([qlen; bsz; dm] !! 0) with (Some qlen).
    change ([qlen; bsz; dm] !! 1) with (Some bsz). cbn [mbind option_bind].
    destruct (matmul h (w_q self) false) as [qh|]; [|done]. cbn [mbind option_bind].
    destruct (reshape qh _) as [qh'|]; [|done]. cbn [mbind option_bind].
    destruct (matmul_3x2 cat (w_k self) _ _ _ _ Hcs Hk) as (z & -> & Hzs & Hzw).
    cbn [mbind option_bind].
    change [Z.of_nat qlen; Z.of_nat bsz; Z.of_nat (n_head self); Z.of_nat (d_head self)]
      with (Z.of_nat <$> [qlen; bsz; n_head self; d_head self]).
    rewrite reshape_mismatch; [done| |].
    - repeat constructor; lia.
    - unfold well_formed in Hzw. rewrite Hzw, Hzs. simpl. nia. }
  split; [done|]. unfold forward_content. by rewrite Hheads.
Qed.
End content_facts.

(** C3 fails on the code: a content input of one position with a memory of
    one position (batch 1, one head of size 1).  The concatenation has
    [mlen + qlen = 2] positions, but the key head is reshaped to [qlen = 1]
    positions and the call fails; without the memory the same input gives
    key and value heads of one position. *)
Lemma forward_content_failing_input :
  let w := mkTensor [1; 1] [Rdefinitions.IZR 1] in
  let bias := mkTensor [1; 1] [Rdefinitions.IZR 0] in
  let self := mkXLNetRelativeAttention 1 1 1 w w w w w bias bias bias
                (mkTensor [2; 1; 1] [Rdefinitions.IZR 0; Rdefinitions.IZR 0]) in
  let h := mkTensor [1; 1; 1] [Rdefinitions.IZR 3] in
  let mems := mkTensor [1; 1; 1] [Rdefinitions.IZR 5] in
  let r := mkTensor [3; 1; 1] [Rdefinitions.IZR 2; Rdefinitions.IZR 1; Rdefinitions.IZR 0] in
  (∃ cat, concat_mems (Some mems) h = Some cat ∧ shape cat = [2; 1; 1]) ∧
  content_heads self h r (Some mems) = None ∧
  forward_content self h None r None (Some mems) None false = None ∧
  ∃ q k v kr, content_heads self h
                (mkTensor [2; 1; 1] [Rdefinitions.IZR 1; Rdefinitions.IZR 0]) None
              = Some (q, k, v, kr) ∧
              shape k = [1; 1; 1; 1] ∧ shape v = [1; 1; 1; 1].
Proof.
  intros w bias self h mems r.
  destruct (forward_content_memory_fails self h r mems None None None false 1 1 1 1)
    as (Hcat & Hheads & Hfw); try reflexivity; try (simpl; lia).
  split; [exact Hcat|]. split; [exact Hheads|]. split; [exact Hfw|].
  do 4 eexists. split; [vm_compute; reflexivity|]. split; reflexivity.
Qed.

(* ================================================================== *)
(** * Part III: further properties of the code *)
(* ================================================================== *)

(** ** The causal mask *)

Section create_mask_facts.
Context {F : Type} `{FloatOps F}.

Lemma slice_axis1_rank2 (t : Tensor F) P n start stop :
  shape t = [P; n] →
  shape (slice_axis 1 start stop t) = [P; slice_hi n stop - slice_lo n start] ∧
  well_formed (slice_axis 1 start stop t) ∧
  ∀ i j, i < P → j < slice_hi n stop - slice_lo n start →
    get (slice_axis 1 start stop t) [i; j] = get t [i; j + slice_lo n start].
Proof.
  intros Hs. unfold slice_axis. rewrite Hs.
  change ([P; n] !!! 1) with n.
  split; [done|]. split; [apply well_formed_tab|].
  intros i j Hi Hj.
  change (<[1:=slice_hi n stop - slice_lo n start]> [P; n])
    with [P; slice_hi n stop - slice_lo n start].
  rewrite get_tab by (by apply in_range2). done.
Qed.

(** The mask before the [same_length] correction: [1] strictly above the
    diagonal that starts after the [mlen] memory columns. *)
Lemma create_mask_upper (qlen mlen : nat) :
  ∃ ret : Tensor F,
    concat (zeros [qlen; mlen]) (triu (ones [qlen; qlen]) 1) 1 = Some ret ∧
    shape ret = [qlen; mlen + qlen] ∧ well_formed ret ∧
    ∀ i j, i < qlen → j < mlen + qlen →
      get ret [i; j] = if decide (mlen + i < j) then of_Z 1 else of_Z 0.
Proof.
  destruct (concat1_rank2 (zeros (F:=F) [qlen; mlen]) (triu (ones [qlen; qlen]) 1) qlen mlen qlen)
    as (ret & Hret & Hs & Hw & Hget); [done..|].
  exists ret. split; [done|]. split; [done|]. split; [done|].
  intros i j Hi Hj. rewrite Hget by done.
  destruct (decide (j < mlen)) as [Hjm|Hjm].
  - unfold zeros. rewrite get_tab by (by apply in_range2).
    by rewrite decide_False by lia.
  - unfold triu, ones. cbn [shape tab].
    rewrite get_tab by (apply in_range2; lia).
    change ([i; j - mlen] !!! 1) with (j - mlen). change ([i; j - mlen] !!! 0) with i.
    destruct (decide (mlen + i < j)) as [Hlt|Hlt].
    + rewrite decide_True by lia. rewrite get_tab by (apply in_range2; lia). done.
    + by rewrite decide_False by lia.
Qed.

(** [create_mask] always returns a matrix of shape [qlen, mlen + qlen]. *)
Lemma create_mask_Some (self : XLNetModel) (qlen mlen : nat) :
  ∃ m : Tensor F, create_mask self qlen mlen = Some m ∧
    shape m = [qlen; mlen + qlen] ∧ well_formed m.
Proof.
  unfold create_mask.
  destruct (create_mask_upper qlen mlen) as (ret & -> & Hs & Hw & _).
  cbn [mbind option_bind]. destruct (same_length self); [|by exists ret].
  destruct (slice_axis1_rank2 ret qlen (mlen + qlen) None (Some (Z.of_nat qlen)) Hs)
    as (Hls & _ & _).
  destruct (slice_axis1_rank2 ret qlen (mlen + qlen) (Some (Z.of_nat qlen)) None Hs)
    as (Hrs & _ & _).
  assert (Hb : slice_bound (mlen + qlen) (Z.of_nat qlen) = qlen).
  { rewrite slice_bound_pos by lia. lia. }
  cbn [slice_hi slice_lo] in Hls, Hrs. rewrite Hb in Hls, Hrs.
  replace (qlen - 0) with qlen in Hls by lia.
  replace (mlen + qlen - qlen) with mlen in Hrs by lia.
  unfold tadd.
  rewrite (broadcast2_Some fadd _ (tril (ones [qlen; qlen]) (-1)) [qlen; qlen])
    by (rewrite Hls; apply broadcast_shapes_same).
  cbn [mbind option_bind]. set (sum := tab [qlen; qlen] _).
  destruct (concat1_rank2 sum (slice_axis 1 (Some (Z.of_nat qlen)) None ret)
              qlen qlen mlen) as (m & -> & Hms & Hmw & _); [done..|].
  exists m. split; [done|]. split; [rewrite Hms; do 2 f_equal; lia|done].
Qed.

(** X1: without [same_length], [create_mask] always returns a matrix of shape
    [qlen, mlen + qlen] that holds [1] exactly at the keys after the query's
    own position [mlen + i], and [0] on the memory columns, on the diagonal
    and below it. *)
Theorem create_mask_causal (self : XLNetModel) (qlen mlen : nat) :
  same_length self = false →
  ∃ m : Tensor F, create_mask self qlen mlen = Some m ∧
    shape m = [qlen; mlen + qlen] ∧ well_formed m ∧
    ∀ i j, i < qlen → j < mlen + qlen →
      get m [i; j] = if decide (mlen + i < j) then of_Z 1 else of_Z 0.
Proof.
  intros Hsl. unfold create_mask.
  destruct (create_mask_upper qlen mlen) as (ret & -> & Hs & Hw & Hget).
  cbn [mbind option_bind]. rewrite Hsl. by exists ret.
Qed.

(** X2: with [same_length], [create_mask] additionally masks the keys
    [j < i], so that the entry of query [i] at key [j] is [0] exactly for
    [i <= j <= mlen + i]: every query is left with the same number
    [mlen + 1] of keys.  The hypotheses are the three exact sums of mask
    entries the code forms. *)
Theorem create_mask_same_length (self : XLNetModel) (qlen mlen : nat) :
  fadd (of_Z 0) (of_Z (F:=F) 0) = of_Z 0 →
  fadd (of_Z 0) (of_Z (F:=F) 1) = of_Z 1 →
  fadd (of_Z 1) (of_Z (F:=F) 0) = of_Z 1 →
  same_length self = true →
  ∃ m : Tensor F, create_mask self qlen mlen = Some m ∧
    shape m = [qlen; mlen + qlen] ∧ well_formed m ∧
    ∀ i j, i < qlen → j < mlen + qlen →
      get m [i; j] = if decide (i ≤ j ≤ mlen + i) then of_Z 0 else of_Z 1.
Proof.
  intros H00 H01 H10 Hsl. unfold create_mask.
  destruct (create_mask_upper qlen mlen) as (ret & -> & Hs & Hw & Hget).
  cbn [mbind option_bind]. rewrite Hsl.
  destruct (slice_axis1_rank2 ret qlen (mlen + qlen) None (Some (Z.of_nat qlen)) Hs)
    as (Hls & Hlw & Hl).
  destruct (slice_axis1_rank2 ret qlen (mlen + qlen) (Some (Z.of_nat qlen)) None Hs)
    as (Hrs & Hrw & Hr).
  assert (Hb : slice_bound (mlen + qlen) (Z.of_nat qlen) = qlen).
  { rewrite slice_bound_pos by lia. lia. }
  cbn [slice_hi slice_lo] in Hls, Hl, Hrs, Hr. rewrite Hb in Hls, Hl, Hrs, Hr.
  replace (qlen - 0) with qlen in Hls, Hl by lia.
  replace (mlen + qlen - qlen) with mlen in Hrs, Hr by lia.
  set (left := slice_axis 1 None (Some (Z.of_nat qlen)) ret) in *.
  set (right := slice_axis 1 (Some (Z.of_nat qlen)) None ret) in *.
  unfold tadd.
  rewrite (broadcast2_Some fadd left (tril (ones [qlen; qlen]) (-1)) [qlen; qlen])
    by (rewrite Hls; apply broadcast_shapes_same).
  cbn [mbind option_bind]. set (sum := tab [qlen; qlen] _).
  destruct (concat1_rank2 sum right qlen qlen mlen) as (m & -> & Hms & Hmw & Hm); [done..|].
  exists m. split; [done|]. split; [rewrite Hms; do 2 f_equal; lia|]. split; [done|].
  intros i j Hi Hj. rewrite Hm by lia.
  destruct (decide (j < qlen)) as [Hjq|Hjq].
  - assert (Hr2 : in_range [qlen; qlen] [i; j]) by (by apply in_range2).
    unfold sum. rewrite get_tab by done.
    rewrite Hls. change (shape (tril (ones [qlen; qlen]) (-1))) with [qlen; qlen].
    rewrite (bidx_in_range _ _ Hr2).
    rewrite Hl by done. rewrite Nat.add_0_r, Hget by lia.
    unfold tril. change (shape (ones [qlen; qlen])) with [qlen; qlen].
    rewrite get_tab by done.
    change ([i; j] !!! 1) with j. change ([i; j] !!! 0) with i.
    destruct (decide (j < i)) as [Hji|Hji].
    + rewrite (decide_True (P:=(Z.of_nat j - Z.of_nat i <= -1)%Z)) by lia.
      unfold ones. rewrite get_tab by done. rewrite decide_False by lia.
      by rewrite (decide_False (P:=(i ≤ j ≤ mlen + i))) by lia.
    + rewrite (decide_False (P:=(Z.of_nat j - Z.of_nat i <= -1)%Z)) by lia.
      destruct (decide (mlen + i < j)).
      * by rewrite (decide_False (P:=(i ≤ j ≤ mlen + i))) by lia.
      * by rewrite (decide_True (P:=(i ≤ j ≤ mlen + i))) by lia.
  - rewrite Hr by lia. replace (j - qlen + qlen) with j by lia.
    rewrite Hget by lia.
    destruct (decide (mlen + i < j)).
    + by rewrite (decide_False (P:=(i ≤ j ≤ mlen + i))) by lia.
    + by rewrite (decide_True (P:=(i ≤ j ≤ mlen + i))) by lia.
Qed.
End create_mask_facts.

Lemma R_mask_sums :
  fadd (of_Z 0) (of_Z (F:=Rdefinitions.R) 0) = of_Z 0 ∧
  fadd (of_Z 0) (of_Z (F:=Rdefinitions.R) 1) = of_Z 1 ∧
  fadd (of_Z 1) (of_Z (F:=Rdefinitions.R) 0) = of_Z 1.
Proof. cbn [fadd of_Z R_FloatOps]. repeat split; Lra.lra. Qed.

(** X1, witness: the mask of the docstring, [qlen = 5] and [mlen = 4]. *)
Lemma create_mask_causal_witness :
  let self := mkXLNetModel None None 4 false "uni" (PyBool false) (-1) 1 in
  ∃ m : Tensor Rdefinitions.R, create_mask self 5 4 = Some m ∧
    shape m = [5; 4 + 5] ∧ well_formed m ∧
    ∀ i j, i < 5 → j < 4 + 5 →
      get m [i; j] = if decide (4 + i < j) then of_Z 1 else of_Z 0.
Proof.
  intros self. apply (create_mask_causal self 5 4). reflexivity.
Defined.

(** X2, witness: the right-hand mask of the docstring. *)
Lemma create_mask_same_length_witness :
  let self := mkXLNetModel None None 4 true "uni" (PyBool false) (-1) 1 in
  ∃ m : Tensor Rdefinitions.R, create_mask self 5 4 = Some m ∧
    shape m = [5; 4 + 5] ∧ well_formed m ∧
    ∀ i j, i < 5 → j < 4 + 5 →
      get m [i; j] = if decide (i ≤ j ≤ 4 + i) then of_Z 0 else of_Z 1.
Proof.
  intros self.
  apply (create_mask_same_length self 5 4
           (proj1 R_mask_sums) (proj1 (proj2 R_mask_sums)) (proj2 (proj2 R_mask_sums))).
  reflexivity.
Defined.

(** ** The two attention masks of [forward] *)

Section mask_entries.
Context {F : Type} `{FloatOps F}.

(** The matrix added to the attention mask, entry by entry: [0] on the
    memory columns, [-1] on the query's own position and [-0] elsewhere. *)
Lemma non_tgt_matrix (qlen mlen : nat) :
  ∃ m : Tensor F,
    (if decide (0 < mlen)
     then concat (zeros [qlen; mlen]) (tmap fneg (eye qlen)) 1
     else Some (tmap fneg (eye qlen))) = Some m ∧
    shape m = [qlen; mlen + qlen] ∧ well_formed m ∧
    ∀ i j, i < qlen → j < mlen + qlen →
      get m [i; j] = if decide (j < mlen) then of_Z 0
                     else fneg (if decide (i = j - mlen) then of_Z 1 else of_Z 0).
Proof.
  assert (He : ∀ i j, i < qlen → j < qlen →
            get (tmap fneg (eye (F:=F) qlen)) [i; j]
            = fneg (if decide (i = j) then of_Z 1 else of_Z 0)).
  { intros i j Hi Hj. rewrite get_tmap; [|apply well_formed_tab|by apply in_range2].
    unfold eye. rewrite get_tab by (by apply in_range2). done. }
  case_decide as Hm.
  - destruct (concat1_rank2 (zeros (F:=F) [qlen; mlen]) (tmap fneg (eye qlen)) qlen mlen qlen)
      as (e & -> & Hes & Hew & He'); [done..|].
    exists e. split; [done|]. split; [done|]. split; [done|].
    intros i j Hi Hj. rewrite He' by lia.
    destruct (decide (j < mlen)) as [Hjm|Hjm].
    + unfold zeros. by rewrite get_tab by (by apply in_range2).
    + by rewrite He by lia.
  - assert (mlen = 0) as -> by lia.
    eexists. split; [done|]. split; [done|].
    split; [apply well_formed_tmap, well_formed_tab|].
    intros i j Hi Hj. rewrite decide_False by lia.
    rewrite He by lia. by rewrite Nat.sub_0_r.
Qed.

(** The mask of the content stream, entry by entry. *)
Lemma non_tgt_mask_of_entries (qlen mlen : nat) (attn_mask : Tensor F) a c d :
  shape attn_mask = [a; mlen + qlen; c; d] → a = 1 ∨ a = qlen →
  ∃ m, non_tgt_mask_of qlen mlen attn_mask = Some m ∧
       shape m = [qlen; mlen + qlen; c; d] ∧ well_formed m ∧
       ∀ i j b e, i < qlen → j < mlen + qlen → b < c → e < d →
         get m [i; j; b; e]
         = cast_bool
             (fgt (fadd (get attn_mask [if decide (a = 1) then 0 else i; j; b; e])
                        (if decide (j < mlen) then of_Z 0
                         else fneg (if decide (i = j - mlen) then of_Z 1 else of_Z 0)))
                  (of_Z 0)).
Proof.
  intros Hs Ha.
  destruct (non_tgt_matrix qlen mlen) as (P & HP & HPs & HPw & HPe).
  unfold non_tgt_mask_of. rewrite HP. cbn [mbind option_bind].
  unfold tadd, broadcast2, unsqueeze. cbn [shape data]. rewrite HPs, Hs.
  change (take 3 (take 2 [qlen; mlen + qlen] ++ 1 :: drop 2 [qlen; mlen + qlen]) ++
          1 :: drop 3 (take 2 [qlen; mlen + qlen] ++ 1 :: drop 2 [qlen; mlen + qlen]))
    with [qlen; mlen + qlen; 1; 1].
  rewrite broadcast_shapes_mask by done. cbn [mbind option_bind].
  eexists. split; [done|]. split; [done|].
  split; [unfold cast_gt0; apply well_formed_tmap, well_formed_tmap, well_formed_tab|].
  intros i j b e Hi Hj Hb He.
  rewrite get_cast_gt0; [|apply well_formed_tab|apply in_range4; lia].
  rewrite get_tab by (apply in_range4; lia).
  rewrite !bidx_fit4.
  assert (Hk : (if decide (mlen + qlen = 1) then 0 else j) = j)
    by (destruct (decide (mlen + qlen = 1)); lia).
  assert (Hq : (if decide (qlen = 1) then 0 else i) = i)
    by (destruct (decide (qlen = 1)); lia).
  assert (Hc : (if decide (c = 1) then 0 else b) = b) by (destruct (decide (c = 1)); lia).
  assert (Hd : (if decide (d = 1) then 0 else e) = e) by (destruct (decide (d = 1)); lia).
  rewrite Hk, Hq, Hc, Hd. rewrite !(decide_True (P:=(1 = 1))) by done.
  rewrite <-(HPe i j Hi Hj). do 3 f_equal.
  unfold get. rewrite HPs. cbn [shape data]. f_equal; simpl; lia.
Qed.

(** X3: off the query's own position the mask of the content stream is the
    attention mask itself: for a binary attention mask, the entry of query
    [i] at a key [j] other than [mlen + i] is the entry of the attention
    mask (read at row [0] when the mask has a single row).  The hypotheses
    are the exact sums of a mask entry with [0] and with [-0]. *)
Theorem non_tgt_mask_elsewhere (qlen mlen : nat) (attn_mask : Tensor F) a c d :
  fgt (fadd (of_Z 1) (of_Z 0)) (of_Z (F:=F) 0) = true →
  fgt (fadd (of_Z 0) (of_Z 0)) (of_Z (F:=F) 0) = false →
  fgt (fadd (of_Z 1) (fneg (of_Z 0))) (of_Z (F:=F) 0) = true →
  fgt (fadd (of_Z 0) (fneg (of_Z 0))) (of_Z (F:=F) 0) = false →
  shape attn_mask = [a; mlen + qlen; c; d] → a = 1 ∨ a = qlen →
  well_formed attn_mask →
  Forall (λ v, v = of_Z 0 ∨ v = of_Z 1) (data attn_mask) →
  ∃ m, non_tgt_mask_of qlen mlen attn_mask = Some m ∧
       shape m = [qlen; mlen + qlen; c; d] ∧
       ∀ i j b e, i < qlen → j < mlen + qlen → b < c → e < d → j ≠ mlen + i →
         get m [i; j; b; e] = get attn_mask [if decide (a = 1) then 0 else i; j; b; e].
Proof.
  intros H10 H00 H1n H0n Hs Ha Hwf Hbin.
  destruct (non_tgt_mask_of_entries qlen mlen attn_mask a c d Hs Ha)
    as (m & Hm & Hms & _ & Hme).
  exists m. split; [done|]. split; [done|].
  intros i j b e Hi Hj Hb He Hne. rewrite Hme by done.
  set (ia := if decide (a = 1) then 0 else i).
  assert (Hv : get attn_mask [ia; j; b; e] = of_Z 0 ∨ get attn_mask [ia; j; b; e] = of_Z 1).
  { unfold get. rewrite Hs.
    assert (Hlt : ravel [a; mlen + qlen; c; d] [ia; j; b; e] < length (data attn_mask)).
    { unfold well_formed in Hwf. rewrite Hwf, Hs. apply ravel_lt, in_range4; [|lia..].
      unfold ia. destruct (decide (a = 1)); destruct Ha; lia. }
    exact (Forall_lookup_1 _ _ _ _ Hbin (list_lookup_lookup_total_lt _ _ Hlt)). }
  unfold cast_bool.
  destruct (decide (j < mlen)).
  - destruct Hv as [-> | ->]; [by rewrite H00|by rewrite H10].
  - rewrite (decide_False (P:=(i = j - mlen))) by lia.
    destruct Hv as [-> | ->]; [by rewrite H0n|by rewrite H1n].
Qed.
End mask_entries.

Lemma R_mask_signs :
  fgt (fadd (of_Z 1) (of_Z 0)) (of_Z (F:=Rdefinitions.R) 0) = true ∧
  fgt (fadd (of_Z 0) (of_Z 0)) (of_Z (F:=Rdefinitions.R) 0) = false ∧
  fgt (fadd (of_Z 1) (fneg (of_Z 0))) (of_Z (F:=Rdefinitions.R) 0) = true ∧
  fgt (fadd (of_Z 0) (fneg (of_Z 0))) (of_Z (F:=Rdefinitions.R) 0) = false.
Proof.
  cbn [fgt fadd fneg of_Z R_FloatOps]. unfold Rgt_b.
  repeat split; destruct (RIneq.Rlt_dec _ _) as [Hlt|Hlt]; try done; exfalso; Lra.lra.
Qed.

(** X3, witness on the ideal instance: two queries, one memory position and
    a single-row mask that hides the first and the last key. *)
Lemma non_tgt_mask_elsewhere_witness :
  let am := mkTensor [1; 3; 1; 1] [Rdefinitions.IZR 1; Rdefinitions.IZR 0; Rdefinitions.IZR 1] in
  ∃ m, non_tgt_mask_of 2 1 am = Some m ∧
       shape m = [2; 1 + 2; 1; 1] ∧
       ∀ i j b e, i < 2 → j < 1 + 2 → b < 1 → e < 1 → j ≠ 1 + i →
         get m [i; j; b; e] = get am [if decide (1 = 1) then 0 else i; j; b; e].
Proof.
  intros am.
  apply (non_tgt_mask_elsewhere 2 1 am 1 1 1
           (proj1 R_mask_signs) (proj1 (proj2 R_mask_signs))
           (proj1 (proj2 (proj2 R_mask_signs))) (proj2 (proj2 (proj2 R_mask_signs)))).
  - reflexivity.
  - by left.
  - reflexivity.
  - repeat constructor; by (left + right).
Defined.

Section forward_masks_facts.
Context {F : Type} `{FloatOps F}.

(** X4: the errors of the mask section of [forward].  An attention type
    other than [uni] and [bi] raises [ValueError] whatever masks are passed;
    with a supported type, passing both [input_mask] and [attention_mask]
    fails the assertion, whose message is the first of the two string
    literals only; and with [bi] and no mask at all both masks are [None]. *)
Theorem forward_masks_errors (self : XLNetModel) (qlen bsz mlen : nat) :
  (attn_type self ≠ "uni" → attn_type self ≠ "bi" →
   ∀ input_mask attention_mask perm_mask : option (Tensor F),
     forward_masks self qlen bsz mlen input_mask attention_mask perm_mask
     = Raise (ValueError ("Unsupported attention type: " +:+ attn_type self))) ∧
  (attn_type self = "uni" ∨ attn_type self = "bi" →
   ∀ (input_mask attention_mask : Tensor F) perm_mask,
     forward_masks self qlen bsz mlen (Some input_mask) (Some attention_mask) perm_mask
     = Raise (AssertionError "You can only use one of input_mask (uses 1 for padding) ")) ∧
  (attn_type self = "bi" →
   forward_masks (F:=F) self qlen bsz mlen None None None = Ok (None, None)).
Proof.
  split; [|split].
  - intros Hu Hb im am pm. unfold forward_masks.
    apply String.eqb_neq in Hu, Hb. by rewrite Hu, Hb.
  - intros Ht im am pm. unfold forward_masks.
    destruct Ht as [Ht|Ht]; rewrite Ht; cbn [String.eqb Ascii.eqb Bool.eqb].
    + destruct (create_mask_Some (F:=F) self qlen mlen) as (m & -> & _). done.
    + done.
  - intros Ht. unfold forward_masks. rewrite Ht. done.
Qed.

(** X5: with [bi] attention and an [attention_mask] (of shape [qlen, bsz]
    after the move of the batch axis) as the only mask, the attention mask
    has a single row that serves every query: a memory position is never
    masked, and the key [mlen + j] of batch [b] is masked exactly when
    [1 - attention_mask[j, b] > 0].  The hypothesis says that [0 > 0] is
    false. *)
Theorem forward_masks_padding (self : XLNetModel) (qlen bsz mlen : nat)
    (attention_mask : Tensor F) :
  fgt (of_Z 0) (of_Z (F:=F) 0) = false →
  attn_type self = "bi" → shape attention_mask = [qlen; bsz] →
  ∃ attn_mask non_tgt_mask,
    forward_masks self qlen bsz mlen None (Some attention_mask) None
    = Ok (Some attn_mask, Some non_tgt_mask) ∧
    shape attn_mask = [1; mlen + qlen; bsz; 1] ∧
    shape non_tgt_mask = [qlen; mlen + qlen; bsz; 1] ∧
    (∀ j b, j < mlen → b < bsz → get attn_mask [0; j; b; 0] = of_Z 0) ∧
    (∀ j b, j < qlen → b < bsz →
       get attn_mask [0; mlen + j; b; 0]
       = cast_bool (fgt (fsub (of_Z 1) (get attention_mask [j; b])) (of_Z 0))).
Proof.
  intros H0 Ht Hs. unfold forward_masks. rewrite Ht.
  cbn [String.eqb Ascii.eqb Bool.eqb]. cbn [mbind result_bind].
  unfold tsub.
  rewrite (broadcast2_Some fsub (scalar (of_Z 1)) attention_mask [qlen; bsz])
    by (rewrite Hs; apply broadcast_shapes_nil_l).
  cbn [engine fmap result_fmap mbind result_bind].
  set (im := tab [qlen; bsz] _).
  assert (Himw : well_formed im) by apply well_formed_tab.
  assert (Him : ∀ j b, j < qlen → b < bsz →
            get im [j; b] = fsub (of_Z 1) (get attention_mask [j; b])).
  { intros j b Hj Hb. unfold im.
    assert (Hr : in_range [qlen; bsz] [j; b]) by (by apply in_range2).
    rewrite get_tab by done. rewrite Hs, (bidx_in_range _ _ Hr). done. }
  set (dm0 := unsqueeze im 0).
  assert (Hdm0s : shape dm0 = [1; qlen; bsz]) by done.
  assert (Hdm0 : ∀ j b, j < qlen → b < bsz → get dm0 [0; j; b] = get im [j; b]).
  { intros j b Hj Hb. unfold get, dm0, unsqueeze. cbn [shape data take drop app im tab].
    f_equal; simpl; lia. }
  assert (Hdm : ∃ dm : Tensor F,
            (if decide (0 < mlen) then
               d0 ← engine (shape dm0 !! 0);
               engine (concat (zeros [d0; mlen; bsz]) dm0 1)
             else Ok dm0) = Ok dm ∧
            shape dm = [1; mlen + qlen; bsz] ∧ well_formed dm ∧
            ∀ j b, j < mlen + qlen → b < bsz →
              get dm [0; j; b] = if decide (j < mlen) then of_Z 0 else get dm0 [0; j - mlen; b]).
  { case_decide as Hm.
    - rewrite Hdm0s. cbn [lookup list_lookup engine mbind result_bind].
      destruct (concat1_rank3 (zeros (F:=F) [1; mlen; bsz]) dm0 1 mlen qlen bsz)
        as (e & -> & Hes & Hew & He); [done..|].
      exists e. split; [done|]. split; [done|]. split; [done|].
      intros j b Hj Hb. rewrite He by lia.
      case_decide; [|done]. unfold zeros. by rewrite get_tab by (apply in_range3; lia).
    - assert (mlen = 0) as -> by lia.
      exists dm0. split; [done|]. split; [done|].
      split.
      { unfold well_formed in *. rewrite Hdm0s. change (data dm0) with (data im).
        rewrite Himw. simpl. lia. }
      intros j b Hj Hb. rewrite decide_False by lia. by rewrite Nat.sub_0_r. }
  destruct Hdm as (dm & -> & Hdms & Hdmw & Hdm). cbn [mbind result_bind fmap option_fmap option_map].
  set (raw := unsqueeze dm (rank dm)).
  assert (Hraws : shape raw = [1; mlen + qlen; bsz; 1]).
  { unfold raw, unsqueeze, rank. rewrite Hdms. done. }
  assert (Hraww : well_formed raw).
  { unfold well_formed. rewrite Hraws. unfold raw, unsqueeze. cbn [data].
    rewrite Hdmw, Hdms. simpl. lia. }
  assert (Hraw : ∀ j b, j < mlen + qlen → b < bsz → get raw [0; j; b; 0] = get dm [0; j; b]).
  { intros j b Hj Hb. unfold get. rewrite Hraws, Hdms. unfold raw, unsqueeze. cbn [data].
    f_equal; simpl; lia. }
  destruct (non_tgt_mask_of_entries qlen mlen (cast_gt0 raw) 1 bsz 1)
    as (nt & -> & Hnts & _ & _); [done|by left|].
  cbn [engine fmap result_fmap mbind result_bind].
  exists (cast_gt0 raw), nt. split; [done|]. split; [done|]. split; [done|].
  split.
  - intros j b Hj Hb.
    rewrite get_cast_gt0; [|done|rewrite Hraws; apply in_range4; lia].
    rewrite Hraw, Hdm by lia. rewrite decide_True by done. by rewrite H0.
  - intros j b Hj Hb.
    rewrite get_cast_gt0; [|done|rewrite Hraws; apply in_range4; lia].
    rewrite Hraw, Hdm by lia. rewrite decide_False by lia.
    replace (mlen + j - mlen) with j by lia.
    by rewrite Hdm0, Him.
Qed.
End forward_masks_facts.

Lemma R_zero_not_positive : fgt (of_Z 0) (of_Z (F:=Rdefinitions.R) 0) = false.
Proof.
  cbn [fgt of_Z R_FloatOps]. unfold Rgt_b.
  destruct (RIneq.Rlt_dec _ _) as [Hlt|Hlt]; [exfalso; Lra.lra|done].
Qed.

(** X4, witness: an unsupported attention type, and both masks at once. *)
Lemma forward_masks_errors_witness :
  let m := mkTensor [1; 1] [Rdefinitions.IZR 1] in
  forward_masks (mkXLNetModel None None 4 false "xl" (PyBool false) (-1) 1) 1 1 0
    (Some m) None None
  = Raise (ValueError "Unsupported attention type: xl") ∧
  forward_masks (mkXLNetModel None None 4 false "uni" (PyBool false) (-1) 1) 1 1 0
    (Some m) (Some m) None
  = Raise (AssertionError "You can only use one of input_mask (uses 1 for padding) ") ∧
  forward_masks (F:=Rdefinitions.R)
    (mkXLNetModel None None 4 false "bi" (PyBool false) (-1) 1) 1 1 0 None None None
  = Ok (None, None).
Proof.
  intros m. split; [|split].
  - apply (proj1 (forward_masks_errors
                    (mkXLNetModel None None 4 false "xl" (PyBool false) (-1) 1) 1 1 0));
      discriminate.
  - apply (proj1 (proj2 (forward_masks_errors
                    (mkXLNetModel None None 4 false "uni" (PyBool false) (-1) 1) 1 1 0))).
    by left.
  - apply (proj2 (proj2 (forward_masks_errors
                    (mkXLNetModel None None 4 false "bi" (PyBool false) (-1) 1) 1 1 0))).
    reflexivity.
Defined.

(** X5, witness: two positions of one sequence, the second one padding, and
    one memory position. *)
Lemma forward_masks_padding_witness :
  let self := mkXLNetModel None None 4 false "bi" (PyBool false) (-1) 1 in
  let attention_mask := mkTensor [2; 1] [Rdefinitions.IZR 1; Rdefinitions.IZR 0] in
  ∃ attn_mask non_tgt_mask,
    forward_masks self 2 1 1 None (Some attention_mask) None
    = Ok (Some attn_mask, Some non_tgt_mask) ∧
    shape attn_mask = [1; 1 + 2; 1; 1] ∧
    shape non_tgt_mask = [2; 1 + 2; 1; 1] ∧
    (∀ j b, j < 1 → b < 1 → get attn_mask [0; j; b; 0] = of_Z 0) ∧
    (∀ j b, j < 2 → b < 1 →
       get attn_mask [0; 1 + j; b; 0]
       = cast_bool (fgt (fsub (of_Z 1) (get attention_mask [j; b])) (of_Z 0))).
Proof.
  intros self attention_mask.
  apply (forward_masks_padding self 2 1 1 attention_mask R_zero_not_positive);
    reflexivity.
Defined.

(** ** Relative positions *)

Section shift_facts.
Context {A : Type} `{Inhabited A}.

(** Where no wrap-around occurs, the relative shift moves row [i] to the
    left by [q - i] positions. *)
Lemma rel_shift_bnij_aligned (x : Tensor A) b n q p k :
  shape x = [b; n; q; p] → well_formed x →
  0 < b → 0 < n → 0 < q → 1 < p → k ≤ p - 1 →
  ∃ y, rel_shift_bnij x (Z.of_nat k) = Some y ∧
       shape y = [b; n; q; k] ∧ well_formed y ∧
       ∀ b0 n0 i j, b0 < b → n0 < n → i < q → j < k → q + j < p + i →
         get y [b0; n0; i; j] = get x [b0; n0; i; q - i + j].
Proof.
  intros Hs Hwf Hb Hn Hq Hp Hk.
  rewrite (rel_shift_bnij_Some x b n q p k) by done.
  unfold well_formed in Hwf. rewrite Hs in Hwf. simpl in Hwf.
  set (x1 := mkTensor [b; n; p; q] (data x)).
  set (g := λ idx : list nat, get x1 (alter (λ i, i + 1) 2 idx)).
  eexists. split; [done|]. split; [done|]. split; [apply well_formed_tab|].
  intros b0 n0 i j Hb0 Hn0 Hi Hj Hlt.
  rewrite get_tab by (apply in_range4; lia).
  change (alter (λ i0, seq 0 k !!! i0) 3 [b0; n0; i; j]) with [b0; n0; i; seq 0 k !!! j].
  rewrite (list_lookup_total_correct _ _ j) by (apply lookup_seq_lt; lia).
  assert (Hdiv : i * (p - 1) + j = q * ((i * (p - 1) + j) / q) + (i * (p - 1) + j) mod q)
    by (apply Nat.div_mod_eq).
  assert (Hmod : (i * (p - 1) + j) mod q < q) by (apply Nat.mod_upper_bound; lia).
  assert (Hr : (i * (p - 1) + j) / q < p - 1).
  { apply Nat.Div0.div_lt_upper_bound. nia. }
  set (r := (i * (p - 1) + j) / q) in *.
  set (c := (i * (p - 1) + j) mod q) in *.
  unfold get at 1. cbn [shape data].
  rewrite (lookup_total_tab_data _ _ [b0; n0; r; c]); cycle 1.
  { apply in_range4; lia. }
  { rewrite !ravel4. nia. }
  unfold g. change (alter (λ i0, i0 + 1) 2 [b0; n0; r; c]) with [b0; n0; r + 1; c].
  unfold get, x1. cbn [shape data]. rewrite Hs, !ravel4. f_equal. nia.
Qed.
End shift_facts.

Section position_facts.
Context {F : Type} `{FloatOps F, Kernels F}.

(** X6: the position score of query [i] and key [j] is the product of the
    biased query with the position key at index [I - i + j] of the
    encoding, wherever that index exists ([I + j < P + i]): always for the
    [I + J] positions of [bi] attention, and for the keys [j <= J - I + i]
    with the [J + 1] positions of [uni] attention. *)
Theorem position_score_relative (self : XLNetRelativeAttention F) (q_head k_head_r : Tensor F)
    I J P B N D :
  shape q_head = [I; B; N; D] → shape k_head_r = [P; B; N; D] →
  shape (r_r_bias self) = [N; D] →
  0 < B → 0 < N → 0 < I → 1 < P → J ≤ P - 1 →
  ∃ bd, position_score self q_head k_head_r J = Some bd ∧ shape bd = [B; N; I; J] ∧
        ∀ b n i j, b < B → n < N → i < I → j < J → I + j < P + i →
          get bd [b; n; i; j]
          = fsum ((λ d, fmul (fadd (get q_head [i; b; n; d]) (get (r_r_bias self) [n; d]))
                             (get k_head_r [I - i + j; b; n; d])) <$> seq 0 D).
Proof.
  intros Hq Hk Hb HB HN HI HP HJ. unfold position_score.
  destruct (add_bias q_head (r_r_bias self) I B N D Hq Hb) as (qb & -> & Hqs & _ & Hqb).
  cbn [mbind option_bind].
  destruct (einsum4x4_scores qb k_head_r I P B N D Hqs Hk) as (bd0 & -> & Hs & Hw & Hbd0).
  cbn [mbind option_bind].
  destruct (rel_shift_bnij_aligned bd0 B N I P J Hs Hw HB HN HI HP HJ)
    as (bd & -> & Hbds & _ & Hbd).
  exists bd. split; [done|]. split; [done|].
  intros b n i j Hb' Hn Hi Hj Hlt.
  rewrite Hbd, Hbd0 by (done || lia).
  apply (f_equal fsum), list_fmap_ext. intros k d Hk'. apply lookup_seq in Hk' as [-> Hd].
  by rewrite Hqb.
Qed.
End position_facts.

Lemma lookup_fwd_pos_seq self (beg end_ : Z) t :
  t < Z.to_nat (beg - end_) →
  fwd_pos_seq self beg end_ !! t = Some (clamped self (beg - Z.of_nat t)).
Proof.
  intros Ht. unfold fwd_pos_seq, clamp_seq, clamped. rewrite arange3_down.
  destruct (0 <? clamp_len self)%Z.
  - rewrite !list_lookup_fmap, lookup_seq_lt by done. done.
  - rewrite list_lookup_fmap, lookup_seq_lt by done. done.
Qed.

(** X7: the entry of the forward position sequence that the relative shift
    pairs with query [i] and key [j] (the entry at index [qlen - i + j])
    holds the distance [(mlen + i) - j] between the two positions, clamped
    to [[-clamp_len, clamp_len]] when [clamp_len > 0]; the backward sequence
    holds its opposite.  With [uni] attention this concerns the keys up to
    the query's own position. *)
Theorem relative_position_of_pair (self : XLNetModel) (qlen mlen i j : nat) :
  i < qlen → j < mlen + qlen →
  attn_type self = "bi" ∨ (attn_type self = "uni" ∧ j ≤ mlen + i) →
  ∃ beg end_,
    pos_range self qlen (mlen + qlen) = Ok (beg, end_) ∧
    fwd_pos_seq self beg end_ !! (qlen - i + j)
    = Some (clamped self (Z.of_nat mlen + Z.of_nat i - Z.of_nat j)) ∧
    bwd_pos_seq self beg end_ !! (qlen - i + j)
    = Some (- clamped self (Z.of_nat mlen + Z.of_nat i - Z.of_nat j))%Z.
Proof.
  intros Hi Hj Ht.
  assert (Hr : ∃ end_, pos_range self qlen (mlen + qlen) = Ok (Z.of_nat (mlen + qlen), end_) ∧
                       qlen - i + j < Z.to_nat (Z.of_nat (mlen + qlen) - end_)).
  { unfold pos_range. destruct Ht as [Ht|[Ht Hji]]; rewrite Ht; cbn [String.eqb Ascii.eqb Bool.eqb].
    - eexists. split; [done|]. lia.
    - eexists. split; [done|]. lia. }
  destruct Hr as (end_ & Hr & Hlt).
  exists (Z.of_nat (mlen + qlen)), end_. split; [done|].
  assert (Hf : fwd_pos_seq self (Z.of_nat (mlen + qlen)) end_ !! (qlen - i + j)
               = Some (clamped self (Z.of_nat mlen + Z.of_nat i - Z.of_nat j))).
  { rewrite lookup_fwd_pos_seq by done. do 2 f_equal. lia. }
  split; [done|].
  by rewrite bwd_pos_seq_opp, list_lookup_fmap, Hf.
Qed.

(** X7, witness: three queries after two memory positions, clamped at [1]. *)
Lemma relative_position_of_pair_witness :
  let self := mkXLNetModel None None 4 false "uni" (PyBool false) 1 1 in
  ∃ beg end_,
    pos_range self 3 (2 + 3) = Ok (beg, end_) ∧
    fwd_pos_seq self beg end_ !! (3 - 1 + 0)
    = Some (clamped self (Z.of_nat 2 + Z.of_nat 1 - Z.of_nat 0)) ∧
    bwd_pos_seq self beg end_ !! (3 - 1 + 0)
    = Some (- clamped self (Z.of_nat 2 + Z.of_nat 1 - Z.of_nat 0))%Z.
Proof.
  intros self. apply (relative_position_of_pair self 3 2 1 0); [lia|lia|].
  right. split; [reflexivity|lia].
Defined.

(** X6, witness on the ideal instance: two queries, one key and three
    relative positions. *)
Lemma position_score_relative_witness :
  let one := mkTensor [1; 1] [Rdefinitions.IZR 1] in
  let self := mkXLNetRelativeAttention 1 1 1 one one one one one one one one
                (mkTensor [2; 1; 1] [Rdefinitions.IZR 0; Rdefinitions.IZR 0]) in
  let q_head := mkTensor [2; 1; 1; 1] [Rdefinitions.IZR 1; Rdefinitions.IZR 2] in
  let k_head_r := mkTensor [3; 1; 1; 1]
                    [Rdefinitions.IZR 3; Rdefinitions.IZR 5; Rdefinitions.IZR 7] in
  ∃ bd, position_score self q_head k_head_r 1 = Some bd ∧ shape bd = [1; 1; 2; 1] ∧
        ∀ b n i j, b < 1 → n < 1 → i < 2 → j < 1 → 2 + j < 3 + i →
          get bd [b; n; i; j]
          = fsum ((λ d, fmul (fadd (get q_head [i; b; n; d]) (get (r_r_bias self) [n; d]))
                             (get k_head_r [2 - i + j; b; n; d])) <$> seq 0 1).
Proof.
  intros one self q_head k_head_r.
  apply (position_score_relative self q_head k_head_r 2 1 3 1 1 1);
    try reflexivity; simpl; lia.
Defined.

Section width_facts.
Context {F : Type} `{FloatOps F}.

(** X8: the last axis of the positional encoding has
    [2 * ceil(d_model / 2)] entries: [d_model] for an even [d_model], but
    [d_model + 1] for an odd one. *)
Theorem relative_positional_encoding_width (self : XLNetModel) (qlen klen : nat) (b : Z) :
  attn_type self = "bi" ∨ attn_type self = "uni" →
  (0 < b)%Z → (truthy (bi_data self) = true → (2 <= b)%Z) →
  ∃ e : Tensor F, relative_positional_encoding self qlen klen (Some b) = Ok e ∧
    shape e !! 2 = Some (if Nat.even (d_model self) then d_model self else d_model self + 1).
Proof.
  intros Ht Hb Hbi.
  assert (Hr : ∃ beg end_, pos_range self qlen klen = Ok (beg, end_)).
  { unfold pos_range. destruct Ht as [Ht|Ht]; rewrite Ht; cbn [String.eqb Ascii.eqb Bool.eqb];
      by do 2 eexists. }
  destruct Hr as (beg & end_ & Hr).
  destruct (relative_positional_encoding_spec (F:=F) self qlen klen b beg end_ Hr Hb Hbi)
    as (e & He & _ & Hshape).
  exists e. split; [done|].
  assert (Hw : length (data (inv_freq (F:=F) self)) + length (data (inv_freq (F:=F) self))
               = if Nat.even (d_model self) then d_model self else d_model self + 1).
  { rewrite length_inv_freq.
    destruct (Nat.even (d_model self)) eqn:Hev.
    - apply Nat.even_spec in Hev as [k ->].
      replace (2 * k + 1) with (1 + k * 2) by lia. rewrite Nat.div_add by lia.
      simpl. lia.
    - assert (Hodd : Nat.odd (d_model self) = true).
      { rewrite <-Nat.negb_even, Hev. done. }
      apply Nat.odd_spec in Hodd as [k ->].
      replace (2 * k + 1 + 1) with ((k + 1) * 2) by lia. rewrite Nat.div_mul by lia. lia. }
  destruct (truthy (bi_data self)); destruct Hshape as [-> _]; cbn [lookup list_lookup];
    by rewrite Hw.
Qed.
End width_facts.

(** X8, witness: an odd model dimension. *)
Lemma relative_positional_encoding_width_witness :
  let self := mkXLNetModel None None 3 false "bi" (PyBool false) (-1) 1 in
  ∃ e : Tensor Rdefinitions.R, relative_positional_encoding self 2 2 (Some 1%Z) = Ok e ∧
    shape e !! 2 = Some (if Nat.even (d_model self) then d_model self else d_model self + 1).
Proof.
  intros self. apply (relative_positional_encoding_width self 2 2 1).
  - by left.
  - lia.
  - discriminate.
Defined.

(** ** The memory cache across calls *)

Section cache_mem_more.
Context {A : Type} `{Inhabited A}.
Implicit Types curr_out : Tensor A.
Implicit Types prev_mem : option (Tensor A).

(** The slice bound [cache_mem] computes from [mem_len]. *)
Lemma cache_mem_eq (self : XLNetModel) curr_out prev_mem q rest :
  shape curr_out = q :: rest → well_formed curr_out →
  (∀ pm, prev_mem = Some pm → well_formed pm ∧ ∃ pl, shape pm = pl :: rest) →
  let st := numel rest in
  let L := prev_len prev_mem + eligible_len self q in
  let hist := prev_data prev_mem ++ take (eligible_len self q * st) (data curr_out) in
  let cutoff := match mem_len self with
                | Some m => if (m =? 0)%Z then 0%Z else (- m)%Z
                | None => 0%Z
                end in
  ∃ new_mem, cache_mem self curr_out prev_mem = Some new_mem ∧
    shape new_mem = (L - slice_bound L cutoff) :: rest ∧
    data new_mem = drop (slice_bound L cutoff * st) hist ∧
    well_formed new_mem.
Proof.
  intros Hs Hwf Hprev st L hist cutoff.
  destruct (eligible_output self curr_out q rest Hs Hwf) as (Hcs & Hcd & Hcw).
  unfold cache_mem. fold cutoff.
  set (c := match reuse_len self with
            | Some r => if (0 <? r)%Z then slice_axis 0 None (Some r) curr_out else curr_out
            | None => curr_out
            end) in *.
  assert (Hcat : ∃ cat,
    match prev_mem with
    | Some prev_mem => concat prev_mem c 0 ≫= λ cat, Some (slice_axis 0 (Some cutoff) None cat)
    | None => Some (slice_axis 0 (Some cutoff) None c)
    end = Some (slice_axis 0 (Some cutoff) None cat) ∧
    shape cat = L :: rest ∧ data cat = hist ∧ well_formed cat).
  { destruct prev_mem as [pm|].
    - destruct (Hprev pm eq_refl) as (Hpw & pl & Hps).
      eexists. rewrite (concat0_Some pm c pl _ rest) by done. split; [done|].
      split; [|split].
      + unfold L. simpl. by rewrite Hps.
      + rewrite (data_concat0 pm c pl _ rest) by done.
        unfold hist. simpl. by rewrite Hcd.
      + apply well_formed_tab.
    - exists c. split; [done|]. split; [done|]. split; [|done].
      unfold hist. simpl. by rewrite Hcd. }
  destruct Hcat as (cat & -> & Hts & Htd & Htw). cbn [mbind option_bind].
  destruct (slice_from_axis0 cat L rest cutoff Hts Htw) as (Hns & Hnd & Hnw).
  eexists. split; [done|]. unfold detach. by rewrite Hns, Hnd, Htd.
Qed.

Lemma tensor_eq (t u : Tensor A) : shape t = shape u → data t = data u → t = u.
Proof. destruct t, u. simpl. by intros -> ->. Qed.

(** X9: without a positive [reuse_len] and with [mem_len] unset or not
    negative, caching two outputs one after the other leaves the same memory
    as caching their concatenation in one call. *)
Theorem cache_mem_two_steps (self : XLNetModel) (o1 o2 : Tensor A) prev_mem q1 q2 rest :
  (∀ r, reuse_len self = Some r → (r <= 0)%Z) →
  (∀ m, mem_len self = Some m → (0 <= m)%Z) →
  shape o1 = q1 :: rest → well_formed o1 →
  shape o2 = q2 :: rest → well_formed o2 →
  (∀ pm, prev_mem = Some pm → well_formed pm ∧ ∃ pl, shape pm = pl :: rest) →
  ∃ o12 new_mem,
    concat o1 o2 0 = Some o12 ∧
    cache_mem self o12 prev_mem = Some new_mem ∧
    (m1 ← cache_mem self o1 prev_mem; cache_mem self o2 (Some m1)) = Some new_mem.
Proof.
  intros Hreuse Hmem Hs1 Hw1 Hs2 Hw2 Hprev.
  assert (Hel : ∀ q, eligible_len self q = q).
  { intros q. unfold eligible_len. destruct (reuse_len self) as [r|] eqn:Er; [|done].
    specialize (Hreuse r eq_refl). by destruct (Z.ltb_spec 0 r); [lia|]. }
  set (st := numel rest).
  assert (Hl1 : length (data o1) = q1 * st).
  { unfold well_formed in Hw1. by rewrite Hs1 in Hw1. }
  assert (Hl2 : length (data o2) = q2 * st).
  { unfold well_formed in Hw2. by rewrite Hs2 in Hw2. }
  assert (Hlp : length (prev_data prev_mem) = prev_len prev_mem * st).
  { destruct prev_mem as [pm|]; [|done].
    destruct (Hprev pm eq_refl) as (Hpw & pl & Hps).
    unfold well_formed in Hpw. simpl. by rewrite Hpw, Hps. }
  set (o12 := tab ((q1 + q2) :: rest)
                (λ idx, if decide (idx !!! 0 < q1) then get o1 idx
                        else get o2 (alter (λ i, i - q1) 0 idx))).
  assert (Hd12 : data o12 = data o1 ++ data o2) by (by apply (data_concat0 o1 o2 q1 q2 rest)).
  destruct (cache_mem_eq self o12 prev_mem (q1 + q2) rest eq_refl (well_formed_tab _ _) Hprev)
    as (n & Hn & Hns & Hnd & _).
  destruct (cache_mem_eq self o1 prev_mem q1 rest Hs1 Hw1 Hprev)
    as (m1 & Hm1 & Hm1s & Hm1d & Hm1w).
  assert (Hp1 : ∀ pm, Some m1 = Some pm → well_formed pm ∧ ∃ pl, shape pm = pl :: rest).
  { intros pm [= <-]. split; [done|]. by eexists. }
  destruct (cache_mem_eq self o2 (Some m1) q2 rest Hs2 Hw2 Hp1)
    as (m2 & Hm2 & Hm2s & Hm2d & _).
  exists o12, n. split; [by apply concat0_Some|]. split; [done|].
  rewrite Hm1. cbn [mbind option_bind]. rewrite Hm2. f_equal.
  fold st in Hns, Hnd, Hm1s, Hm1d, Hm2s, Hm2d.
  rewrite !Hel in *. cbn [prev_len prev_data] in Hm2s, Hm2d.
  rewrite Hm1s in Hm2s, Hm2d. cbn [hd] in Hm2s, Hm2d. rewrite Hm1d in Hm2d.
  rewrite Hd12 in Hnd.
  rewrite take_ge in Hm1d by lia. rewrite !take_ge in Hm2d by lia.
  rewrite take_ge in Hnd by (rewrite length_app; lia).
  assert (Hb0 : ∀ X, slice_bound X 0 = 0).
  { intros X. rewrite slice_bound_pos by lia. lia. }
  set (cutoff := match mem_len self with
                 | Some m => if (m =? 0)%Z then 0%Z else (- m)%Z
                 | None => 0%Z
                 end) in *.
  set (pl := prev_len prev_mem) in *.
  assert (Hc : cutoff = 0%Z ∨ ∃ m, (0 < m)%Z ∧ cutoff = (- m)%Z).
  { unfold cutoff. destruct (mem_len self) as [m|] eqn:Em; [|by left].
    specialize (Hmem m eq_refl). destruct (Z.eqb_spec m 0); [by left|].
    right. exists m. split; [lia|done]. }
  apply tensor_eq.
  - rewrite Hm2s, Hns. f_equal.
    destruct Hc as [-> | (m & Hm & ->)].
    + rewrite !Hb0. lia.
    + rewrite !slice_bound_neg by done. lia.
  - rewrite Hm2d, Hnd.
    destruct Hc as [-> | (m & Hm & ->)].
    + rewrite !Hb0. simpl. by rewrite !drop_0, app_assoc.
    + rewrite !slice_bound_neg by done.
      set (k := Z.to_nat m).
      rewrite (app_assoc (prev_data prev_mem)).
      destruct (decide (pl + q1 ≤ k)) as [Hle|Hgt].
      * replace (pl + q1 - k) with 0 by lia. simpl. rewrite drop_0.
        do 2 f_equal. lia.
      * replace (pl + q1 - (pl + q1 - k) + q2 - k) with q2 by lia.
        replace (pl + (q1 + q2) - k) with ((pl + q1 - k) + q2) by lia.
        rewrite Nat.mul_add_distr_r, Nat.add_comm, <-drop_drop.
        rewrite (drop_app_le (prev_data prev_mem ++ data o1)); [done|].
        rewrite length_app. nia.
Qed.

(** X10: a negative [mem_len] does not bound the memory: the cut-off
    [-mem_len] is then a positive start index, and the new memory is the
    whole history (previous memory, then the eligible output) without its
    [|mem_len|] oldest positions. *)
Theorem cache_mem_negative_mem_len (self : XLNetModel) curr_out prev_mem q rest (m : Z) :
  mem_len self = Some m → (m < 0)%Z →
  shape curr_out = q :: rest → well_formed curr_out →
  (∀ pm, prev_mem = Some pm → well_formed pm ∧ ∃ pl, shape pm = pl :: rest) →
  let st := numel rest in
  let L := prev_len prev_mem + eligible_len self q in
  let hist := prev_data prev_mem ++ take (eligible_len self q * st) (data curr_out) in
  let k := Nat.min (Z.to_nat (- m)) L in
  ∃ new_mem, cache_mem self curr_out prev_mem = Some new_mem ∧
    shape new_mem = (L - k) :: rest ∧ data new_mem = drop (k * st) hist.
Proof.
  intros Hm Hneg Hs Hwf Hprev st L hist k.
  destruct (cache_mem_eq self curr_out prev_mem q rest Hs Hwf Hprev)
    as (n & Hn & Hns & Hnd & _).
  exists n. split; [done|]. rewrite Hm in Hns, Hnd.
  destruct (Z.eqb_spec m 0) as [|_]; [lia|].
  rewrite slice_bound_pos in Hns, Hnd by lia. done.
Qed.
End cache_mem_more.

(** X9, witness: [mem_len = 3], two outputs of two positions after a memory
    of one position. *)
Lemma cache_mem_two_steps_witness :
  let self := mkXLNetModel (Some 3%Z) None 2 false "bi" (PyBool false) (-1) 1 in
  let o1 := mkTensor [2; 1; 2] [11; 12; 21; 22] in
  let o2 := mkTensor [2; 1; 2] [31; 32; 41; 42] in
  let prev_mem := Some (mkTensor [1; 1; 2] [1; 2]) in
  ∃ o12 new_mem,
    concat o1 o2 0 = Some o12 ∧
    cache_mem self o12 prev_mem = Some new_mem ∧
    (m1 ← cache_mem self o1 prev_mem; cache_mem self o2 (Some m1)) = Some new_mem.
Proof.
  intros self o1 o2 prev_mem.
  apply (cache_mem_two_steps self o1 o2 prev_mem 2 2 [1; 2]).
  - intros r [=].
  - intros m [= <-]. lia.
  - reflexivity.
  - reflexivity.
  - reflexivity.
  - reflexivity.
  - intros pm [= <-]. split; [reflexivity|]. by exists 1.
Defined.

(** X10, witness: [mem_len = -1] and a history of three positions. *)
Lemma cache_mem_negative_mem_len_witness :
  let self := mkXLNetModel (Some (-1)%Z) None 2 false "bi" (PyBool false) (-1) 1 in
  let curr_out := mkTensor [2; 1; 2] [11; 12; 21; 22] in
  let prev_mem := Some (mkTensor [1; 1; 2] [1; 2]) in
  let st := numel [1; 2] in
  let L := prev_len prev_mem + eligible_len self 2 in
  let hist := prev_data prev_mem ++ take (eligible_len self 2 * st) (data curr_out) in
  let k := Nat.min (Z.to_nat (- -1)) L in
  ∃ new_mem, cache_mem self curr_out prev_mem = Some new_mem ∧
    shape new_mem = (L - k) :: [1; 2] ∧ data new_mem = drop (k * st) hist.
Proof.
  intros self curr_out prev_mem.
  apply (cache_mem_negative_mem_len self curr_out prev_mem 2 [1; 2] (-1)).
  - reflexivity.
  - lia.
  - reflexivity.
  - reflexivity.
  - intros pm [= <-]. split; [reflexivity|]. by exists 1.
Defined.

(** ** The contractions of the attention core *)

Section einsum_more.
Context {F : Type} `{FloatOps F}.

Lemma is_perm_1230 : is_perm 4 [1; 2; 3; 0].
Proof. unfold is_perm. apply (bool_decide_unpack _). by vm_compute. Qed.

Lemma is_perm_2013 : is_perm 4 [2; 0; 1; 3].
Proof. unfold is_perm. apply (bool_decide_unpack _). by vm_compute. Qed.

Lemma is_perm_0213 : is_perm 4 [0; 2; 1; 3].
Proof. unfold is_perm. apply (bool_decide_unpack _). by vm_compute. Qed.

Lemma is_perm_1302 : is_perm 4 [1; 3; 0; 2].
Proof. unfold is_perm. apply (bool_decide_unpack _). by vm_compute. Qed.

(** [paddle.transpose] of a 4-dimensional tensor. *)
Lemma transpose_rank4 (t : Tensor F) s0 s1 s2 s3 perm :
  shape t = [s0; s1; s2; s3] → is_perm 4 perm →
  ∃ z, transpose t perm = Some z ∧
       shape z = (λ p, [s0; s1; s2; s3] !!! p) <$> perm ∧ well_formed z ∧
       ∀ idx, in_range ((λ p, [s0; s1; s2; s3] !!! p) <$> perm) idx →
         get z idx = get t ((λ d, idx !!! default 0 (index_of d perm)) <$> seq 0 4).
Proof.
  intros Hs Hp. rewrite transpose_Some by (unfold rank; by rewrite Hs).
  unfold rank. rewrite Hs. cbn [length].
  eexists. split; [done|]. split; [done|]. split; [apply well_formed_tab|].
  intros idx Hr. by rewrite get_tab.
Qed.

Lemma einsum4x4_bnij_jbnd (x y : Tensor F) :
  einsum4x4 "bnij,jbnd->ibnd" x y
  = (x ← transpose x [0; 1; 2; 3];
     y ← transpose y [1; 2; 3; 0];
     z ← matmul x y true;
     transpose z [2; 0; 1; 3]).
Proof. reflexivity. Qed.

Lemma einsum4x4_ibnd_isnd (x y : Tensor F) :
  einsum4x4 "ibnd,isnd->ibns" x y
  = (x ← transpose x [0; 2; 1; 3];
     y ← transpose y [0; 2; 1; 3];
     z ← matmul x y true;
     transpose z [0; 2; 1; 3]).
Proof. reflexivity. Qed.

Lemma einsum4x4_ijbs_ibns (x y : Tensor F) :
  einsum4x4 "ijbs,ibns->bnij" x y
  = (x ← transpose x [0; 2; 1; 3];
     y ← transpose y [0; 1; 2; 3];
     z ← matmul x y true;
     transpose z [1; 3; 0; 2]).
Proof. reflexivity. Qed.

(** The contraction [bnij,jbnd->ibnd]: entry [i,b,n,d] is the sum over [j]
    of [x[b,n,i,j] * y[j,b,n,d]]. *)
Lemma einsum4x4_values (x y : Tensor F) I J B N D :
  shape x = [B; N; I; J] → shape y = [J; B; N; D] →
  ∃ z, einsum4x4 "bnij,jbnd->ibnd" x y = Some z ∧ shape z = [I; B; N; D] ∧ well_formed z ∧
       ∀ i b n d, i < I → b < B → n < N → d < D →
         get z [i; b; n; d]
         = fsum ((λ j, fmul (get x [b; n; i; j]) (get y [j; b; n; d])) <$> seq 0 J).
Proof.
  intros Hx Hy. rewrite einsum4x4_bnij_jbnd.
  destruct (transpose_rank4 x _ _ _ _ _ Hx is_perm_0123) as (x' & -> & Hxs & _ & Hx').
  destruct (transpose_rank4 y _ _ _ _ _ Hy is_perm_1230) as (y' & -> & Hys & _ & Hy').
  cbn [mbind option_bind].
  change (shape x' = [B; N; I; J]) in Hxs. change (shape y' = [B; N; D; J]) in Hys.
  destruct (matmul_4x4_transpose_y x' y' B N I D J Hxs Hys) as (z & -> & Hzs & Hzw & Hz).
  cbn [mbind option_bind].
  destruct (transpose_rank4 z _ _ _ _ _ Hzs is_perm_2013) as (r & -> & Hrs & Hrw & Hr).
  exists r. split; [done|]. split; [done|]. split; [done|].
  intros i b n d Hi Hb Hn Hd.
  rewrite Hr by (apply in_range4; simpl; lia).
  change (get z _) with (get z [b; n; i; d]).
  rewrite Hz by done. f_equal. apply list_fmap_ext. intros k j Hk.
  apply lookup_seq in Hk as [-> Hj].
  rewrite Hx', Hy' by (apply in_range4; simpl; lia). done.
Qed.

(** The contraction [ibnd,isnd->ibns]: entry [i,b,n,s] is the sum over [d]
    of [x[i,b,n,d] * y[i,s,n,d]]. *)
Lemma einsum4x4_segments (x y : Tensor F) I B N D S :
  shape x = [I; B; N; D] → shape y = [I; S; N; D] →
  ∃ z, einsum4x4 "ibnd,isnd->ibns" x y = Some z ∧ shape z = [I; B; N; S] ∧ well_formed z ∧
       ∀ i b n s, i < I → b < B → n < N → s < S →
         get z [i; b; n; s]
         = fsum ((λ d, fmul (get x [i; b; n; d]) (get y [i; s; n; d])) <$> seq 0 D).
Proof.
  intros Hx Hy. rewrite einsum4x4_ibnd_isnd.
  destruct (transpose_rank4 x _ _ _ _ _ Hx is_perm_0213) as (x' & -> & Hxs & _ & Hx').
  destruct (transpose_rank4 y _ _ _ _ _ Hy is_perm_0213) as (y' & -> & Hys & _ & Hy').
  cbn [mbind option_bind].
  change (shape x' = [I; N; B; D]) in Hxs. change (shape y' = [I; N; S; D]) in Hys.
  destruct (matmul_4x4_transpose_y x' y' I N B S D Hxs Hys) as (z & -> & Hzs & Hzw & Hz).
  cbn [mbind option_bind].
  destruct (transpose_rank4 z _ _ _ _ _ Hzs is_perm_0213) as (r & -> & Hrs & Hrw & Hr).
  exists r. split; [done|]. split; [done|]. split; [done|].
  intros i b n s Hi Hb Hn Hs.
  rewrite Hr by (apply in_range4; simpl; lia).
  change (get z _) with (get z [i; n; b; s]).
  rewrite Hz by done. f_equal. apply list_fmap_ext. intros k d Hk.
  apply lookup_seq in Hk as [-> Hd].
  rewrite Hx', Hy' by (apply in_range4; simpl; lia). done.
Qed.

(** The contraction [ijbs,ibns->bnij]: entry [b,n,i,j] is the sum over [s]
    of [x[i,j,b,s] * y[i,b,n,s]]. *)
Lemma einsum4x4_select (x y : Tensor F) I J B N S :
  shape x = [I; J; B; S] → shape y = [I; B; N; S] →
  ∃ z, einsum4x4 "ijbs,ibns->bnij" x y = Some z ∧ shape z = [B; N; I; J] ∧ well_formed z ∧
       ∀ b n i j, b < B → n < N → i < I → j < J →
         get z [b; n; i; j]
         = fsum ((λ s, fmul (get x [i; j; b; s]) (get y [i; b; n; s])) <$> seq 0 S).
Proof.
  intros Hx Hy. rewrite einsum4x4_ijbs_ibns.
  destruct (transpose_rank4 x _ _ _ _ _ Hx is_perm_0213) as (x' & -> & Hxs & _ & Hx').
  destruct (transpose_rank4 y _ _ _ _ _ Hy is_perm_0123) as (y' & -> & Hys & _ & Hy').
  cbn [mbind option_bind].
  change (shape x' = [I; B; J; S]) in Hxs. change (shape y' = [I; B; N; S]) in Hys.
  destruct (matmul_4x4_transpose_y x' y' I B J N S Hxs Hys) as (z & -> & Hzs & Hzw & Hz).
  cbn [mbind option_bind].
  destruct (transpose_rank4 z _ _ _ _ _ Hzs is_perm_1302) as (r & -> & Hrs & Hrw & Hr).
  exists r. split; [done|]. split; [done|]. split; [done|].
  intros b n i j Hb Hn Hi Hj.
  rewrite Hr by (apply in_range4; simpl; lia).
  change (get z _) with (get z [i; b; j; n]).
  rewrite Hz by done. f_equal. apply list_fmap_ext. intros k s Hk.
  apply lookup_seq in Hk as [-> Hs].
  rewrite Hx', Hy' by (apply in_range4; simpl; lia). done.
Qed.

(** X11: [einsum4x4] computes the Einstein sums of the four equations this
    file passes to it: the result has the shape the equation names and each
    entry is the sum, over the contracted index, of the products of the two
    operands' entries. *)
Theorem einsum4x4_contractions (x y : Tensor F) :
  (∀ I J B N D, shape x = [I; B; N; D] → shape y = [J; B; N; D] →
   ∃ z, einsum4x4 "ibnd,jbnd->bnij" x y = Some z ∧ shape z = [B; N; I; J] ∧
     ∀ b n i j, b < B → n < N → i < I → j < J →
       get z [b; n; i; j]
       = fsum ((λ d, fmul (get x [i; b; n; d]) (get y [j; b; n; d])) <$> seq 0 D)) ∧
  (∀ I J B N D, shape x = [B; N; I; J] → shape y = [J; B; N; D] →
   ∃ z, einsum4x4 "bnij,jbnd->ibnd" x y = Some z ∧ shape z = [I; B; N; D] ∧
     ∀ i b n d, i < I → b < B → n < N → d < D →
       get z [i; b; n; d]
       = fsum ((λ j, fmul (get x [b; n; i; j]) (get y [j; b; n; d])) <$> seq 0 J)) ∧
  (∀ I B N D S, shape x = [I; B; N; D] → shape y = [I; S; N; D] →
   ∃ z, einsum4x4 "ibnd,isnd->ibns" x y = Some z ∧ shape z = [I; B; N; S] ∧
     ∀ i b n s, i < I → b < B → n < N → s < S →
       get z [i; b; n; s]
       = fsum ((λ d, fmul (get x [i; b; n; d]) (get y [i; s; n; d])) <$> seq 0 D)) ∧
  (∀ I J B N S, shape x = [I; J; B; S] → shape y = [I; B; N; S] →
   ∃ z, einsum4x4 "ijbs,ibns->bnij" x y = Some z ∧ shape z = [B; N; I; J] ∧
     ∀ b n i j, b < B → n < N → i < I → j < J →
       get z [b; n; i; j]
       = fsum ((λ s, fmul (get x [i; j; b; s]) (get y [i; b; n; s])) <$> seq 0 S)).
Proof.
  split; [|split; [|split]].
  - intros I J B N D Hx Hy.
    destruct (einsum4x4_scores x y I J B N D Hx Hy) as (z & Hz & Hs & _ & Hg). by exists z.
  - intros I J B N D Hx Hy.
    destruct (einsum4x4_values x y I J B N D Hx Hy) as (z & Hz & Hs & _ & Hg). by exists z.
  - intros I B N D S Hx Hy.
    destruct (einsum4x4_segments x y I B N D S Hx Hy) as (z & Hz & Hs & _ & Hg). by exists z.
  - intros I J B N S Hx Hy.
    destruct (einsum4x4_select x y I J B N S Hx Hy) as (z & Hz & Hs & _ & Hg). by exists z.
Qed.
End einsum_more.

(** X11, witness on the ideal instance: the score contraction of two
    queries and one key with two features. *)
Lemma einsum4x4_contractions_witness :
  let x := mkTensor [2; 1; 1; 2]
             [Rdefinitions.IZR 1; Rdefinitions.IZR 2; Rdefinitions.IZR 3; Rdefinitions.IZR 4] in
  let y := mkTensor [1; 1; 1; 2] [Rdefinitions.IZR 5; Rdefinitions.IZR 6] in
  ∃ z, einsum4x4 "ibnd,jbnd->bnij" x y = Some z ∧ shape z = [1; 1; 2; 1] ∧
    ∀ b n i j, b < 1 → n < 1 → i < 2 → j < 1 →
      get z [b; n; i; j]
      = fsum ((λ d, fmul (get x [i; b; n; d]) (get y [j; b; n; d])) <$> seq 0 2).
Proof.
  intros x y.
  apply (proj1 (einsum4x4_contractions x y) 2 1 1 1 2); reflexivity.
Defined.

(** ** Segment score and attention output *)

Section segment_facts.
Context {F : Type} `{FloatOps F, Kernels F}.

(** The segment score, entry by entry. *)
Lemma segment_score_entries (self : XLNetRelativeAttention F) (q_head seg_mat : Tensor F)
    I J B N D :
  shape q_head = [I; B; N; D] → shape seg_mat = [I; J; B; 2] →
  shape (r_s_bias self) = [N; D] → shape (seg_embed self) = [2; N; D] → 0 < I →
  ∃ ef, segment_score self q_head (Some seg_mat) = Some ef ∧ shape ef = [B; N; I; J] ∧
    ∀ b n i j, b < B → n < N → i < I → j < J →
      get ef [b; n; i; j]
      = fsum ((λ s, fmul (get seg_mat [i; j; b; s])
                      (fsum ((λ d, fmul (fadd (get q_head [i; b; n; d])
                                              (get (r_s_bias self) [n; d]))
                                        (get (seg_embed self) [s; n; d])) <$> seq 0 D)))
              <$> seq 0 2).
Proof.
  intros Hq Hm Hb Hse HI. unfold segment_score. rewrite Hq.
  change ([I; B; N; D] !! 0) with (Some I). cbn [mbind option_bind].
  unfold stack_copies. rewrite decide_False by lia. cbn [mbind option_bind].
  rewrite Hse. set (se := tab [I; 2; N; D] _).
  assert (Hsee : ∀ i s n d, i < I → s < 2 → n < N → d < D →
            get se [i; s; n; d] = get (seg_embed self) [s; n; d]).
  { intros i s n d Hi Hs Hn Hd. unfold se. by rewrite get_tab by (by apply in_range4). }
  destruct (add_bias q_head (r_s_bias self) I B N D Hq Hb) as (qs & -> & Hqs & _ & Hqse).
  cbn [mbind option_bind].
  destruct (einsum4x4_segments qs se I B N D 2 Hqs eq_refl) as (ef0 & -> & Hes & _ & Hef0).
  cbn [mbind option_bind].
  destruct (einsum4x4_select seg_mat ef0 I J B N 2 Hm Hes) as (ef & -> & Hefs & _ & Hef).
  exists ef. split; [done|]. split; [done|].
  intros b n i j Hb' Hn Hi Hj. rewrite Hef by done.
  apply (f_equal fsum), list_fmap_ext. intros k s Hk. apply lookup_seq in Hk as [-> Hs].
  f_equal. rewrite Hef0 by done.
  apply (f_equal fsum), list_fmap_ext. intros k' d Hk. apply lookup_seq in Hk as [-> Hd].
  by rewrite Hqse, Hsee.
Qed.

(** The probabilities after the optional head mask. *)
Lemma head_masked (p head_mask : Tensor F) B N I J hi hj hb hn :
  shape p = [B; N; I; J] → shape head_mask = [hi; hj; hb; hn] →
  hi = 1 ∨ hi = I → hj = 1 ∨ hj = J → hb = 1 ∨ hb = B → hn = 1 ∨ hn = N →
  ∃ p', (hm ← transpose head_mask [2; 3; 0; 1]; tmul p hm) = Some p' ∧
        shape p' = [B; N; I; J] ∧
        ∀ b n i j, b < B → n < N → i < I → j < J →
          get p' [b; n; i; j]
          = fmul (get p [b; n; i; j]) (get head_mask (bidx [hi; hj; hb; hn] [i; j; b; n])).
Proof.
  intros Hp Hm Hhi Hhj Hhb Hhn.
  destruct (transpose_2301 head_mask hi hj hb hn Hm) as (t & -> & Hts & Htw & Ht).
  cbn [mbind option_bind]. unfold tmul.
  rewrite (broadcast2_Some fmul p t [B; N; I; J])
    by (rewrite Hp, Hts; by apply broadcast_shapes_fit4).
  eexists. split; [done|]. split; [done|].
  intros b n i j Hb Hn Hi Hj.
  assert (Hr : in_range [B; N; I; J] [b; n; i; j]) by (by apply in_range4).
  rewrite get_tab by done. rewrite Hp, (bidx_in_range _ _ Hr). f_equal.
  rewrite Hts, !bidx_fit4. apply Ht; case_decide; lia.
Qed.

(** The outputs of the attention core, entry by entry. *)
Lemma attend_entries (attn_score v_head_h : Tensor F) (head_mask : option (Tensor F))
    (output_attentions : bool) I J B N D :
  shape attn_score = [B; N; I; J] → shape v_head_h = [J; B; N; D] →
  (∀ m, head_mask = Some m →
     ∃ hi hj hb hn, shape m = [hi; hj; hb; hn] ∧
       (hi = 1 ∨ hi = I) ∧ (hj = 1 ∨ hj = J) ∧ (hb = 1 ∨ hb = B) ∧ (hn = 1 ∨ hn = N)) →
  ∃ attn_vec attn_prob,
    attend attn_score v_head_h head_mask output_attentions = Some (attn_vec, attn_prob) ∧
    shape attn_vec = [I; B; N; D] ∧ well_formed attn_vec ∧
    (if output_attentions then ∃ p, attn_prob = Some p ∧ shape p = [I; J; B; N]
     else attn_prob = None) ∧
    ∀ i b n d, i < I → b < B → n < N → d < D →
      get attn_vec [i; b; n; d]
      = fsum ((λ j,
                 let p := get (dropout (softmax_axis3 attn_score)) [b; n; i; j] in
                 fmul (match head_mask with
                       | None => p
                       | Some m => fmul p (get m (bidx (shape m) [i; j; b; n]))
                       end)
                      (get v_head_h [j; b; n; d])) <$> seq 0 J).
Proof.
  intros Hs Hv Hmask. unfold attend.
  set (p0 := dropout (softmax_axis3 attn_score)).
  assert (Hp0 : shape p0 = [B; N; I; J]) by done.
  assert (Hp : ∃ p, match head_mask with
                    | None => Some p0
                    | Some head_mask => hm ← transpose head_mask [2; 3; 0; 1]; tmul p0 hm
                    end = Some p ∧ shape p = [B; N; I; J] ∧
                    ∀ b n i j, b < B → n < N → i < I → j < J →
                      get p [b; n; i; j]
                      = match head_mask with
                        | None => get p0 [b; n; i; j]
                        | Some m => fmul (get p0 [b; n; i; j]) (get m (bidx (shape m) [i; j; b; n]))
                        end).
  { destruct head_mask as [m|]; [|by exists p0].
    destruct (Hmask m eq_refl) as (hi & hj & hb & hn & Hm & Hhi & Hhj & Hhb & Hhn).
    destruct (head_masked p0 m B N I J hi hj hb hn Hp0 Hm Hhi Hhj Hhb Hhn)
      as (p & -> & Hps & Hpe).
    exists p. split; [done|]. split; [done|]. by rewrite Hm. }
  destruct Hp as (p & -> & Hps & Hpe). cbn [mbind option_bind].
  destruct (einsum4x4_values p v_head_h I J B N D Hps Hv) as (av & -> & Havs & Havw & Hav).
  cbn [mbind option_bind].
  assert (Hval : ∀ i b n d, i < I → b < B → n < N → d < D →
            get av [i; b; n; d]
            = fsum ((λ j,
                 let p := get p0 [b; n; i; j] in
                 fmul (match head_mask with
                       | None => p
                       | Some m => fmul p (get m (bidx (shape m) [i; j; b; n]))
                       end)
                      (get v_head_h [j; b; n; d])) <$> seq 0 J)).
  { intros i b n d Hi Hb Hn Hd. rewrite Hav by done.
    apply (f_equal fsum), list_fmap_ext. intros k j Hk. apply lookup_seq in Hk as [-> Hj].
    cbv zeta. rewrite Hpe by done. by destruct head_mask. }
  destruct output_attentions.
  - destruct (transpose_rank4 p _ _ _ _ _ Hps is_perm_2301) as (t & -> & Hts & _ & _).
    cbn [mbind option_bind]. exists av, (Some t). split; [done|]. split; [done|].
    split; [done|]. split; [by exists t|done].
  - exists av, None. done.
Qed.

(** X12: with a segment matrix of shape [I, J, B, 2] the segment score of
    query [i] and key [j] is the sum over the two segment relations [s] of
    [seg_mat[i,j,b,s]] times the product of the biased query
    ([q + r_s_bias]) with the segment embedding [seg_embed[s]] of the
    head. *)
Theorem segment_score_spec (self : XLNetRelativeAttention F) (q_head seg_mat : Tensor F)
    I J B N D :
  shape q_head = [I; B; N; D] → shape seg_mat = [I; J; B; 2] →
  shape (r_s_bias self) = [N; D] → shape (seg_embed self) = [2; N; D] → 0 < I →
  ∃ ef, segment_score self q_head (Some seg_mat) = Some ef ∧ shape ef = [B; N; I; J] ∧
    ∀ b n i j, b < B → n < N → i < I → j < J →
      get ef [b; n; i; j]
      = fsum ((λ s, fmul (get seg_mat [i; j; b; s])
                      (fsum ((λ d, fmul (fadd (get q_head [i; b; n; d])
                                              (get (r_s_bias self) [n; d]))
                                        (get (seg_embed self) [s; n; d])) <$> seq 0 D)))
              <$> seq 0 2).
Proof. apply segment_score_entries. Qed.

(** X13: from the masked score to the outputs of [rel_attn_core].  The
    attention vector has shape [I, B, N, D] and its entry [i, b, n, d] is the
    sum over the keys [j] of the probability of [j] (softmax over the key
    axis, dropout, then the optional head mask read at [[i, j, b, n]]) times
    the value [v[j, b, n, d]]; the probabilities are returned, moved to
    [I, J, B, N], only when [output_attentions] is set. *)
Theorem attend_spec (attn_score v_head_h : Tensor F) (head_mask : option (Tensor F))
    (output_attentions : bool) I J B N D :
  shape attn_score = [B; N; I; J] → shape v_head_h = [J; B; N; D] →
  (∀ m, head_mask = Some m →
     ∃ hi hj hb hn, shape m = [hi; hj; hb; hn] ∧
       (hi = 1 ∨ hi = I) ∧ (hj = 1 ∨ hj = J) ∧ (hb = 1 ∨ hb = B) ∧ (hn = 1 ∨ hn = N)) →
  ∃ attn_vec attn_prob,
    attend attn_score v_head_h head_mask output_attentions = Some (attn_vec, attn_prob) ∧
    shape attn_vec = [I; B; N; D] ∧
    (if output_attentions then ∃ p, attn_prob = Some p ∧ shape p = [I; J; B; N]
     else attn_prob = None) ∧
    ∀ i b n d, i < I → b < B → n < N → d < D →
      get attn_vec [i; b; n; d]
      = fsum ((λ j,
                 let p := get (dropout (softmax_axis3 attn_score)) [b; n; i; j] in
                 fmul (match head_mask with
                       | None => p
                       | Some m => fmul p (get m (bidx (shape m) [i; j; b; n]))
                       end)
                      (get v_head_h [j; b; n; d])) <$> seq 0 J).
Proof.
  intros Hs Hv Hmask.
  destruct (attend_entries attn_score v_head_h head_mask output_attentions I J B N D Hs Hv Hmask)
    as (av & p & Ha & Hs' & _ & Hp & He).
  by exists av, p.
Qed.
End segment_facts.

(** X12, witness on the ideal instance: one query, one key, one head of
    size one, the key in the same segment. *)
Lemma segment_score_spec_witness :
  let one := mkTensor [1; 1] [Rdefinitions.IZR 1] in
  let self := mkXLNetRelativeAttention 1 1 1 one one one one one one one one
                (mkTensor [2; 1; 1] [Rdefinitions.IZR 3; Rdefinitions.IZR 4]) in
  let q_head := mkTensor [1; 1; 1; 1] [Rdefinitions.IZR 1] in
  let seg_mat := mkTensor [1; 1; 1; 2] [Rdefinitions.IZR 1; Rdefinitions.IZR 0] in
  ∃ ef, segment_score self q_head (Some seg_mat) = Some ef ∧ shape ef = [1; 1; 1; 1] ∧
    ∀ b n i j, b < 1 → n < 1 → i < 1 → j < 1 →
      get ef [b; n; i; j]
      = fsum ((λ s, fmul (get seg_mat [i; j; b; s])
                      (fsum ((λ d, fmul (fadd (get q_head [i; b; n; d])
                                              (get (r_s_bias self) [n; d]))
                                        (get (seg_embed self) [s; n; d])) <$> seq 0 1)))
              <$> seq 0 2).
Proof.
  intros one self q_head seg_mat.
  apply (segment_score_spec self q_head seg_mat 1 1 1 1 1); try reflexivity. lia.
Defined.

(** X13, witness on the ideal instance: two keys, one value feature and a
    head mask. *)
Lemma attend_spec_witness :
  let s := mkTensor [1; 1; 1; 2] [Rdefinitions.IZR 0; Rdefinitions.IZR 1] in
  let v := mkTensor [2; 1; 1; 1] [Rdefinitions.IZR 5; Rdefinitions.IZR 7] in
  let hm := Some (mkTensor [1; 1; 1; 1] [Rdefinitions.IZR 1]) in
  ∃ attn_vec attn_prob,
    attend s v hm true = Some (attn_vec, attn_prob) ∧
    shape attn_vec = [1; 1; 1; 1] ∧
    (if true then ∃ p, attn_prob = Some p ∧ shape p = [1; 2; 1; 1]
     else attn_prob = None) ∧
    ∀ i b n d, i < 1 → b < 1 → n < 1 → d < 1 →
      get attn_vec [i; b; n; d]
      = fsum ((λ j,
                 let p := get (dropout (softmax_axis3 s)) [b; n; i; j] in
                 fmul (match hm with
                       | None => p
                       | Some m => fmul p (get m (bidx (shape m) [i; j; b; n]))
                       end)
                      (get v [j; b; n; d])) <$> seq 0 2).
Proof.
  intros s v hm.
  apply (attend_spec s v hm true 1 2 1 1 1); try reflexivity.
  intros m [= <-]. exists 1, 1, 1, 1. repeat split; by left.
Defined.

(** ** The content-only branch without memory *)

Section reshape_facts.
Context {A : Type} `{Inhabited A}.

Lemma resolve_dims_infer old (pre post : list nat) :
  Forall (λ d, 0 < d) pre → Forall (λ d, 0 < d) post →
  resolve_dims old ((Z.of_nat <$> pre) ++ (-1)%Z :: (Z.of_nat <$> post))
  = Some ((Some <$> pre) ++ None :: (Some <$> post)).
Proof.
  intros Hpre Hpost. revert old. induction Hpre as [|d pre Hd Hpre IH]; intros old.
  - cbn [fmap list_fmap app resolve_dims]. unfold resolve_dim at 1.
    cbn [Z.eqb Pos.eqb]. cbn [mbind option_bind].
    by rewrite resolve_dims_pos.
  - cbn [fmap list_fmap app resolve_dims]. rewrite IH.
    unfold resolve_dim.
    destruct (Z.eqb_spec (Z.of_nat d) (-1)) as [|_]; [lia|].
    destruct (Z.eqb_spec (Z.of_nat d) 0) as [|_]; [lia|].
    destruct (Z.ltb_spec 0 (Z.of_nat d)) as [_|]; [|lia].
    cbn [mbind option_bind]. by rewrite Nat2Z.id.
Qed.

Lemma omap_id_Some (l : list nat) : omap id (Some <$> l) = l.
Proof. induction l as [|d l IH]; [done|]. csimpl. by rewrite IH. Qed.

Lemma filter_None_Some (l : list nat) :
  filter (λ d : option nat, d = None) (Some <$> l) = [].
Proof.
  induction l as [|d l IH]; [done|]. csimpl. by rewrite filter_cons_False by done.
Qed.

Lemma numel_app (s1 s2 : list nat) : numel (s1 ++ s2) = numel s1 * numel s2.
Proof. induction s1 as [|d s1 IH]; simpl; [lia|]. rewrite IH. lia. Qed.

Lemma numel_pos (s : list nat) : Forall (λ d, 0 < d) s → 0 < numel s.
Proof. induction 1; simpl; [lia|nia]. Qed.

(** [reshape] with one inferred dimension [-1] among positive ones. *)
Lemma reshape_infer (t : Tensor A) (pre post : list nat) m :
  Forall (λ d, 0 < d) pre → Forall (λ d, 0 < d) post →
  length (data t) = numel pre * m * numel post →
  reshape t ((Z.of_nat <$> pre) ++ (-1)%Z :: (Z.of_nat <$> post))
  = Some (mkTensor (pre ++ m :: post) (data t)).
Proof.
  intros Hpre Hpost Hlen. unfold reshape.
  rewrite resolve_dims_infer by done. cbn [mbind option_bind].
  rewrite filter_app, filter_cons_True by done.
  rewrite !filter_None_Some. cbn [app length].
  assert (Hk : known_numel ((Some <$> pre) ++ None :: (Some <$> post)) = numel pre * numel post).
  { unfold known_numel. rewrite omap_app. cbn [omap list_omap id].
    by rewrite !omap_id_Some, numel_app. }
  rewrite Hk.
  pose proof (numel_pos _ Hpre). pose proof (numel_pos _ Hpost).
  assert (Hn : length (data t) = m * (numel pre * numel post)) by lia.
  rewrite decide_True; cycle 1.
  { split; [nia|]. rewrite Hn. apply Nat.Div0.mod_mul. }
  do 2 f_equal. rewrite fmap_app. cbn [fmap list_fmap default].
  rewrite <-!list_fmap_compose.
  rewrite !(list_fmap_ext (default (length (data t) `div` (numel pre * numel post)) ∘ Some) id)
    by done.
  rewrite !list_fmap_id. do 2 f_equal. rewrite Hn. apply Nat.div_mul. nia.
Qed.
End reshape_facts.

Section content_success.
Context {F : Type} `{FloatOps F, Kernels F}.

(** [matmul(x, w, transpose_y=True)] of two matrices. *)
Lemma matmul_2x2_transpose_y (x w : Tensor F) a k n :
  shape x = [a; k] → shape w = [n; k] →
  ∃ z, matmul x w true = Some z ∧ shape z = [a; n] ∧ well_formed z.
Proof.
  intros Hx Hw. unfold matmul, rank. rewrite Hx, Hw. cbn [length].
  rewrite decide_True by lia.
  change ([a; k] !!! (2 - 1)) with k. change ([n; k] !!! (2 - 1)) with k.
  rewrite decide_True by done.
  change (take (2 - 2) [a; k]) with (@nil nat). change (take (2 - 2) [n; k]) with (@nil nat).
  rewrite broadcast_shapes_nil_r. cbn [mbind option_bind].
  eexists. split; [done|]. split; [done|]. apply well_formed_tab.
Qed.

(** A projection to heads: [matmul] with a weight of shape
    [dm, n * d], then [reshape] to [a, b, n, d]. *)
Lemma project_heads (x w : Tensor F) a b dm n d :
  shape x = [a; b; dm] → shape w = [dm; n * d] →
  0 < a → 0 < b → 0 < n → 0 < d →
  ∃ z, (y ← matmul x w false;
        reshape y [Z.of_nat a; Z.of_nat b; Z.of_nat n; Z.of_nat d]) = Some z ∧
       shape z = [a; b; n; d] ∧ well_formed z.
Proof.
  intros Hx Hw Ha Hb Hn Hd.
  destruct (matmul_3x2 x w a b dm (n * d) Hx Hw) as (y & -> & Hys & Hyw).
  cbn [mbind option_bind].
  change [Z.of_nat a; Z.of_nat b; Z.of_nat n; Z.of_nat d] with (Z.of_nat <$> [a; b; n; d]).
  unfold well_formed in Hyw. rewrite Hys in Hyw.
  rewrite reshape_pos; cycle 1.
  { repeat constructor; lia. }
  { rewrite Hyw. simpl. lia. }
  eexists. split; [done|]. split; [done|].
  unfold well_formed. cbn [shape data]. rewrite Hyw. simpl. lia.
Qed.

(** Without memory the four heads of the content-only branch have the
    shapes the attention core expects. *)
Lemma content_heads_Some (self : XLNetRelativeAttention F) (h r : Tensor F) I P B :
  XLNetRelativeAttention_init_shapes self →
  shape h = [I; B; att_d_model self] → shape r = [P; B; att_d_model self] →
  0 < I → 0 < P → 0 < B → 0 < n_head self → 0 < d_head self →
  ∃ q k v kr, content_heads self h r None = Some (q, k, v, kr) ∧
    shape q = [I; B; n_head self; d_head self] ∧
    shape k = [I; B; n_head self; d_head self] ∧
    shape v = [I; B; n_head self; d_head self] ∧
    shape kr = [P; B; n_head self; d_head self].
Proof.
  intros (Hwq & Hwk & Hwv & _ & Hwr & _) Hh Hr HI HP HB HN HD.
  unfold content_heads. cbn [concat_mems mbind option_bind]. rewrite Hh.
  change ([I; B; att_d_model self] !! 0) with (Some I).
  change ([I; B; att_d_model self] !! 1) with (Some B). cbn [mbind option_bind].
  destruct (project_heads h (w_q self) I B _ _ _ Hh Hwq HI HB HN HD) as (q & Hq & Hqs & _).
  destruct (project_heads h (w_k self) I B _ _ _ Hh Hwk HI HB HN HD) as (k & Hk & Hks & _).
  destruct (project_heads h (w_v self) I B _ _ _ Hh Hwv HI HB HN HD) as (v & Hv & Hvs & _).
  destruct (matmul h (w_q self) false) as [yq|]; [|done]. cbn [mbind option_bind] in Hq |- *.
  rewrite Hq. cbn [mbind option_bind].
  destruct (matmul h (w_k self) false) as [yk|]; [|done]. cbn [mbind option_bind] in Hk |- *.
  rewrite Hk. cbn [mbind option_bind].
  destruct (matmul h (w_v self) false) as [yv|]; [|done]. cbn [mbind option_bind] in Hv |- *.
  rewrite Hv. cbn [mbind option_bind].
  destruct (matmul_3x2 r (w_r self) P B _ _ Hr Hwr) as (yr & -> & Hyrs & Hyrw).
  cbn [mbind option_bind]. rewrite Hyrs.
  change ([P; B; n_head self * d_head self] !! 0) with (Some P). cbn [mbind option_bind].
  change [Z.of_nat P; (-1)%Z; Z.of_nat (n_head self); Z.of_nat (d_head self)]
    with ((Z.of_nat <$> [P]) ++ (-1)%Z :: (Z.of_nat <$> [n_head self; d_head self])).
  rewrite (reshape_infer yr [P] [n_head self; d_head self] B); cycle 1.
  { repeat constructor; lia. }
  { repeat constructor; lia. }
  { unfold well_formed in Hyrw. rewrite Hyrw, Hyrs. simpl. lia. }
  cbn [mbind option_bind]. eexists q, k, v, _. split; [done|]. done.
Qed.

(** The segment score exists and is the number [0] or a full score. *)
Lemma segment_score_Some (self : XLNetRelativeAttention F) (q_head : Tensor F)
    (seg_mat : option (Tensor F)) I J B N D :
  shape q_head = [I; B; N; D] →
  shape (r_s_bias self) = [N; D] → shape (seg_embed self) = [2; N; D] → 0 < I →
  (∀ m, seg_mat = Some m → shape m = [I; J; B; 2]) →
  ∃ ef, segment_score self q_head seg_mat = Some ef ∧
        (shape ef = [] ∨ shape ef = [B; N; I; J]).
Proof.
  intros Hq Hb Hse HI Hm. destruct seg_mat as [m|].
  - destruct (segment_score_entries self q_head m I J B N D Hq (Hm m eq_refl) Hb Hse HI)
      as (ef & Hef & Hs & _).
    exists ef. split; [done|by right].
  - eexists. split; [done|by left].
Qed.

(** The attention core succeeds on heads of matching shapes. *)
Lemma rel_attn_core_Some (self : XLNetRelativeAttention F)
    (q_head k_head_h v_head_h k_head_r : Tensor F)
    (seg_mat attn_mask head_mask : option (Tensor F)) (output_attentions : bool) I J P B :
  XLNetRelativeAttention_init_shapes self →
  let N := n_head self in
  let D := d_head self in
  shape q_head = [I; B; N; D] → shape k_head_h = [J; B; N; D] →
  shape v_head_h = [J; B; N; D] → shape k_head_r = [P; B; N; D] →
  0 < B → 0 < N → 0 < I → 0 < J → J < P →
  (∀ m, seg_mat = Some m → shape m = [I; J; B; 2]) →
  (∀ m, attn_mask = Some m →
     ∃ mi mj mb mn, shape m = [mi; mj; mb; mn] ∧
       (mi = 1 ∨ mi = I) ∧ (mj = 1 ∨ mj = J) ∧ (mb = 1 ∨ mb = B) ∧ (mn = 1 ∨ mn = N)) →
  (∀ m, head_mask = Some m →
     ∃ hi hj hb hn, shape m = [hi; hj; hb; hn] ∧
       (hi = 1 ∨ hi = I) ∧ (hj = 1 ∨ hj = J) ∧ (hb = 1 ∨ hb = B) ∧ (hn = 1 ∨ hn = N)) →
  ∃ attn_vec attn_prob,
    rel_attn_core self q_head k_head_h v_head_h k_head_r seg_mat attn_mask head_mask
      output_attentions = Some (attn_vec, attn_prob) ∧
    shape attn_vec = [I; B; N; D] ∧ well_formed attn_vec ∧
    (if output_attentions then ∃ p, attn_prob = Some p ∧ shape p = [I; J; B; N]
     else attn_prob = None).
Proof.
  intros (_ & _ & _ & _ & _ & Hrr & Hrs & Hrw & Hse) N D Hq Hk Hv Hkr HB HN HI HJ0 HJ
    Hseg Hmask Hhead.
  destruct (content_score_spec self q_head k_head_h I J B N D Hq Hk Hrw)
    as (ac & Hac & Hacs & _ & _).
  destruct (position_score_Some self q_head k_head_r I J P B N D Hq Hkr Hrr HB HN HI)
    as (bd & Hbd & Hbds & _); [lia..|].
  destruct (segment_score_Some self q_head seg_mat I J B N D Hq Hrs Hse HI Hseg)
    as (ef & Hef & Hefs).
  destruct (merge_scores_spec self ac bd ef attn_mask B N I J Hacs Hbds Hefs Hmask)
    as (s & Hs & Hss & _).
  unfold rel_attn_core, attn_score. rewrite Hac. cbn [mbind option_bind]. rewrite Hacs.
  change ([B; N; I; J] !! 3) with (Some J). cbn [mbind option_bind].
  rewrite Hbd. cbn [mbind option_bind]. rewrite Hef. cbn [mbind option_bind].
  rewrite Hs. cbn [mbind option_bind].
  destruct (attend_entries s v_head_h head_mask output_attentions I J B N D Hss Hv Hhead)
    as (av & p & Ha & Has & Haw & Hp & _).
  by exists av, p.
Qed.

(** [post_attention] keeps the shape of the hidden state. *)
Lemma post_attention_shape (self : XLNetRelativeAttention F) (h attn_vec : Tensor F) I B :
  shape (w_o self) = [att_d_model self; n_head self * d_head self] →
  shape h = [I; B; att_d_model self] →
  shape attn_vec = [I; B; n_head self; d_head self] → well_formed attn_vec →
  0 < I → 0 < B →
  ∃ out, post_attention self h attn_vec true = Some out ∧
         shape out = [I; B; att_d_model self] ∧ well_formed out.
Proof.
  intros Hwo Hh Ha Haw HI HB. unfold post_attention. rewrite Ha.
  change ([I; B; n_head self; d_head self] !! 0) with (Some I).
  change ([I; B; n_head self; d_head self] !! 1) with (Some B). cbn [mbind option_bind].
  unfold well_formed in Haw. rewrite Ha in Haw.
  change [Z.of_nat (I * B); (-1)%Z] with ((Z.of_nat <$> [I * B]) ++ (-1)%Z :: (Z.of_nat <$> [])).
  rewrite (reshape_infer attn_vec [I * B] [] (n_head self * d_head self)); cycle 1.
  { repeat constructor. nia. }
  { constructor. }
  { rewrite Haw. simpl. lia. }
  cbn [mbind option_bind app].
  destruct (matmul_2x2_transpose_y (mkTensor [I * B; n_head self * d_head self] (data attn_vec))
              (w_o self) (I * B) (n_head self * d_head self) (att_d_model self) eq_refl Hwo)
    as (z & -> & Hzs & Hzw).
  cbn [mbind option_bind].
  change [Z.of_nat I; Z.of_nat B; (-1)%Z] with ((Z.of_nat <$> [I; B]) ++ (-1)%Z :: (Z.of_nat <$> [])).
  rewrite (reshape_infer z [I; B] [] (att_d_model self)); cycle 1.
  { repeat constructor; lia. }
  { constructor. }
  { unfold well_formed in Hzw. rewrite Hzw, Hzs. simpl. lia. }
  cbn [mbind option_bind app]. unfold tadd.
  rewrite (broadcast2_Some fadd _ h [I; B; att_d_model self])
    by (rewrite Hh; apply broadcast_shapes_same).
  cbn [mbind option_bind].
  eexists. split; [done|]. split; [done|]. apply well_formed_tab.
Qed.

(** X14: without memory the content-only branch succeeds on every input of
    consistent shapes: on a hidden state of shape [I, B, d_model], an
    encoding of [P > I] positions and parameters of the shapes the
    constructor creates, it returns a hidden state of the same shape, no
    query stream, and the attention probabilities (of shape [I, I, B, N])
    exactly when they are requested. *)
Theorem forward_content_no_memory (self : XLNetRelativeAttention F) (h r : Tensor F)
    (attn_mask_h seg_mat head_mask : option (Tensor F)) (output_attentions : bool) I P B :
  XLNetRelativeAttention_init_shapes self →
  shape h = [I; B; att_d_model self] → shape r = [P; B; att_d_model self] →
  0 < I → I < P → 0 < B → 0 < n_head self → 0 < d_head self →
  (∀ m, seg_mat = Some m → shape m = [I; I; B; 2]) →
  (∀ m, attn_mask_h = Some m →
     ∃ mi mj mb mn, shape m = [mi; mj; mb; mn] ∧
       (mi = 1 ∨ mi = I) ∧ (mj = 1 ∨ mj = I) ∧ (mb = 1 ∨ mb = B) ∧ (mn = 1 ∨ mn = n_head self)) →
  (∀ m, head_mask = Some m →
     ∃ hi hj hb hn, shape m = [hi; hj; hb; hn] ∧
       (hi = 1 ∨ hi = I) ∧ (hj = 1 ∨ hj = I) ∧ (hb = 1 ∨ hb = B) ∧ (hn = 1 ∨ hn = n_head self)) →
  ∃ output_h attn_prob,
    forward_content self h attn_mask_h r seg_mat None head_mask output_attentions
    = Some (output_h, None, attn_prob) ∧
    shape output_h = [I; B; att_d_model self] ∧
    (if output_attentions then ∃ p, attn_prob = Some p ∧ shape p = [I; I; B; n_head self]
     else attn_prob = None).
Proof.
  intros Hinit Hh Hr HI HP HB HN HD Hseg Hmask Hhead.
  destruct (content_heads_Some self h r I P B Hinit Hh Hr) as (q & k & v & kr & Hheads & Hq & Hk & Hv & Hkr);
    [lia..|].
  destruct (rel_attn_core_Some self q k v kr seg_mat attn_mask_h head_mask output_attentions
              I I P B Hinit Hq Hk Hv Hkr HB HN HI HI HP Hseg Hmask Hhead)
    as (av & p & Hcore & Havs & Havw & Hp).
  destruct Hinit as (_ & _ & _ & Hwo & _).
  destruct (post_attention_shape self h av I B Hwo Hh Havs Havw HI HB) as (out & Hout & Houts & _).
  unfold forward_content. rewrite Hheads. cbn [mbind option_bind].
  rewrite Hcore. cbn [mbind option_bind]. rewrite Hout. cbn [mbind option_bind].
  by exists out, p.
Qed.
End content_success.

(** X14, witness on the ideal instance: one position, one head of size one,
    two relative positions, attention probabilities requested. *)
Lemma forward_content_no_memory_witness :
  let w := mkTensor [1; 1] [Rdefinitions.IZR 1] in
  let self := mkXLNetRelativeAttention 1 1 1 w w w w w w w w
                (mkTensor [2; 1; 1] [Rdefinitions.IZR 0; Rdefinitions.IZR 0]) in
  let h := mkTensor [1; 1; 1] [Rdefinitions.IZR 3] in
  let r := mkTensor [2; 1; 1] [Rdefinitions.IZR 1; Rdefinitions.IZR 0] in
  ∃ output_h attn_prob,
    forward_content self h None r None None None true = Some (output_h, None, attn_prob) ∧
    shape output_h = [1; 1; att_d_model self] ∧
    (if true then ∃ p, attn_prob = Some p ∧ shape p = [1; 1; 1; n_head self]
     else attn_prob = None).
Proof.
  intros w self h r.
  apply (forward_content_no_memory self h r None None None true 1 2 1);
    try reflexivity; try (simpl; lia); try discriminate.
  repeat split; reflexivity.
Defined.

(** ** The two-stream branch *)

Section two_stream_facts.
Context {F : Type} `{FloatOps F, Kernels F}.

Lemma concat_mems_shape (mems : option (Tensor F)) (h : Tensor F) I B M mlen :
  shape h = [I; B; M] →
  (∀ m, mems = Some m → shape m = [mlen; B; M]) → (mems = None → mlen = 0) →
  ∃ cat, concat_mems mems h = Some cat ∧ shape cat = [mlen + I; B; M].
Proof.
  intros Hh Hm Hn. destruct mems as [m|].
  - unfold concat_mems, rank. rewrite (Hm m eq_refl). cbn [length].
    rewrite decide_True by lia.
    rewrite (concat0_Some m h mlen I [B; M]) by auto.
    eexists. split; [done|]. done.
  - rewrite (Hn eq_refl). by exists h.
Qed.

(** A projection to heads fails when the target shape has another number
    of entries. *)
Lemma project_heads_mismatch (x w : Tensor F) a b a' dm n d :
  shape x = [a; b; dm] → shape w = [dm; n * d] →
  0 < a' → 0 < b → 0 < n → 0 < d → a ≠ a' →
  (y ← matmul x w false;
   reshape y [Z.of_nat a'; Z.of_nat b; Z.of_nat n; Z.of_nat d]) = None.
Proof.
  intros Hx Hw Ha Hb Hn Hd Hne.
  destruct (matmul_3x2 x w a b dm (n * d) Hx Hw) as (y & -> & Hys & Hyw).
  cbn [mbind option_bind].
  change [Z.of_nat a'; Z.of_nat b; Z.of_nat n; Z.of_nat d] with (Z.of_nat <$> [a'; b; n; d]).
  apply reshape_mismatch.
  - repeat constructor; lia.
  - unfold well_formed in Hyw. rewrite Hyw, Hys. simpl. nia.
Qed.

(** The heads of the two-stream branch cannot be formed when the encoding
    does not have [mlen + qlen] positions or when there is a memory. *)
Lemma two_stream_heads_mismatch (self : XLNetRelativeAttention F) (h r : Tensor F)
    (mems : option (Tensor F)) I P B mlen :
  XLNetRelativeAttention_init_shapes self →
  shape h = [I; B; att_d_model self] → shape r = [P; B; att_d_model self] →
  (∀ m, mems = Some m → shape m = [mlen; B; att_d_model self]) → (mems = None → mlen = 0) →
  0 < I → 0 < B → 0 < n_head self → 0 < d_head self →
  P ≠ mlen + I ∨ 0 < mlen →
  two_stream_heads self h r mems = None.
Proof.
  intros (Hwq & Hwk & Hwv & _ & Hwr & _) Hh Hr Hm Hn HI HB HN HD Hbad.
  destruct (concat_mems_shape mems h I B _ mlen Hh Hm Hn) as (cat & Hcat & Hcs).
  unfold two_stream_heads. rewrite Hcat. cbn [mbind option_bind]. rewrite Hcs.
  change ([mlen + I; B; att_d_model self] !! 0) with (Some (mlen + I)).
  change ([mlen + I; B; att_d_model self] !! 1) with (Some B). cbn [mbind option_bind].
  destruct (project_heads cat (w_k self) (mlen + I) B _ _ _ Hcs Hwk) as (k & Hk & _);
    [lia..|].
  destruct (project_heads cat (w_v self) (mlen + I) B _ _ _ Hcs Hwv) as (v & Hv & _);
    [lia..|].
  destruct (matmul cat (w_k self) false) as [yk|]; [|done]. cbn [mbind option_bind] in Hk |- *.
  rewrite Hk. cbn [mbind option_bind].
  destruct (matmul cat (w_v self) false) as [yv|]; [|done]. cbn [mbind option_bind] in Hv |- *.
  rewrite Hv. cbn [mbind option_bind].
  destruct (decide (P = mlen + I)) as [HP|HP].
  - assert (0 < mlen) by (destruct Hbad; [done|lia]).
    destruct (project_heads r (w_r self) P B _ _ _ Hr Hwr) as (kr & Hkr & _); [lia..|].
    rewrite <-HP.
    destruct (matmul r (w_r self) false) as [yr|]; [|done]. cbn [mbind option_bind] in Hkr |- *.
    rewrite Hkr. cbn [mbind option_bind].
    pose proof (project_heads_mismatch h (w_q self) I B P _ _ _ Hh Hwq) as Hq.
    destruct (matmul h (w_q self) false) as [yq|]; [|done]. cbn [mbind option_bind] in Hq |- *.
    rewrite Hq by lia. done.
  - pose proof (project_heads_mismatch r (w_r self) P B (mlen + I) _ _ _ Hr Hwr) as Hkr.
    destruct (matmul r (w_r self) false) as [yr|]; [|done]. cbn [mbind option_bind] in Hkr |- *.
    rewrite Hkr by lia. done.
Qed.

(** X15: the two-stream branch reshapes every head, also the position key
    and the content query, to the first two dimensions of the concatenation
    of memory and content.  It therefore fails whenever the encoding [r]
    does not have exactly [mlen + qlen] positions, and whenever there is a
    memory ([mlen > 0]) - for every query stream, mask and target mapping.
    The encoding [XLNetModel] builds has [klen + qlen] or [klen + 1]
    positions. *)
Theorem forward_two_stream_fails (self : XLNetRelativeAttention F) (h r : Tensor F)
    (mems : option (Tensor F)) I P B mlen :
  XLNetRelativeAttention_init_shapes self →
  shape h = [I; B; att_d_model self] → shape r = [P; B; att_d_model self] →
  (∀ m, mems = Some m → shape m = [mlen; B; att_d_model self]) → (mems = None → mlen = 0) →
  0 < I → 0 < B → 0 < n_head self → 0 < d_head self →
  P ≠ mlen + I ∨ 0 < mlen →
  two_stream_heads self h r mems = None ∧
  ∀ g attn_mask_h attn_mask_g seg_mat target_mapping head_mask output_attentions,
    XLNetRelativeAttention_forward self h (Some g) attn_mask_h attn_mask_g r seg_mat mems
      target_mapping head_mask output_attentions = None.
Proof.
  intros Hinit Hh Hr Hm Hn HI HB HN HD Hbad.
  pose proof (two_stream_heads_mismatch self h r mems I P B mlen
                Hinit Hh Hr Hm Hn HI HB HN HD Hbad) as Hheads.
  split; [done|]. intros g amh amg sm tm hm oa.
  unfold XLNetRelativeAttention_forward, forward_two_stream. by rewrite Hheads.
Qed.
End two_stream_facts.

(** X15, witness on the ideal instance: one position, no memory, and the
    encoding of two positions that [bi] attention builds for it. *)
Lemma forward_two_stream_fails_witness :
  let w := mkTensor [1; 1] [Rdefinitions.IZR 1] in
  let self := mkXLNetRelativeAttention 1 1 1 w w w w w w w w
                (mkTensor [2; 1; 1] [Rdefinitions.IZR 0; Rdefinitions.IZR 0]) in
  let h := mkTensor [1; 1; 1] [Rdefinitions.IZR 3] in
  let r := mkTensor [2; 1; 1] [Rdefinitions.IZR 1; Rdefinitions.IZR 0] in
  two_stream_heads self h r None = None ∧
  ∀ g attn_mask_h attn_mask_g seg_mat target_mapping head_mask output_attentions,
    XLNetRelativeAttention_forward self h (Some g) attn_mask_h attn_mask_g r seg_mat None
      target_mapping head_mask output_attentions = None.
Proof.
  intros w self h r.
  apply (forward_two_stream_fails self h r None 1 2 1 0);
    try reflexivity; try (simpl; lia); try discriminate.
  repeat split; reflexivity.
Defined.

(** ** Feed-forward block, activation lookup and classification head *)

Lemma broadcast_shapes_tail1 (pre : list nat) d :
  broadcast_shapes (pre ++ [d]) [d] = Some (pre ++ [d]).
Proof.
  unfold broadcast_shapes. rewrite reverse_app. cbn [reverse rev_append app broadcast_rev].
  change (reverse [d]) with [d]. cbn [app broadcast_rev].
  rewrite broadcast_dim_same. cbn [mbind option_bind].
  destruct (reverse pre) as [|a l] eqn:E; cbn [broadcast_rev mbind option_bind fmap option_fmap option_map].
  - apply (f_equal reverse) in E. rewrite reverse_involutive in E. by subst.
  - f_equal. rewrite <-E. change (d :: reverse pre) with ([d] ++ reverse pre).
    by rewrite reverse_app, reverse_involutive.
Qed.

Section ff_facts.
Context {F : Type} `{FloatOps F, Kernels F}.

Lemma matmul_2x2 (x w : Tensor F) a k n :
  shape x = [a; k] → shape w = [k; n] →
  ∃ z, matmul x w false = Some z ∧ shape z = [a; n] ∧ well_formed z.
Proof.
  intros Hx Hw. unfold matmul, rank. rewrite Hx, Hw. cbn [length].
  rewrite decide_True by lia.
  change ([a; k] !!! (2 - 1)) with k. change ([k; n] !!! (2 - 2)) with k.
  rewrite decide_True by done.
  change (take (2 - 2) [a; k]) with (@nil nat). change (take (2 - 2) [k; n]) with (@nil nat).
  rewrite broadcast_shapes_nil_r. cbn [mbind option_bind].
  eexists. split; [done|]. split; [done|]. apply well_formed_tab.
Qed.

(** [nn.Linear] on a batch of rows or on a sequence of batches of rows. *)
Lemma Linear_forward_shape (self : Linear F) (x : Tensor F) (pre : list nat) k n :
  length pre = 1 ∨ length pre = 2 →
  shape x = pre ++ [k] → shape (weight self) = [k; n] → shape (bias self) = [n] →
  ∃ y, Linear_forward self x = Some y ∧ shape y = pre ++ [n] ∧ well_formed y.
Proof.
  intros Hpre Hx Hw Hb. unfold Linear_forward.
  assert (Hm : ∃ z, matmul x (weight self) false = Some z ∧ shape z = pre ++ [n]).
  { destruct Hpre as [Hpre|Hpre].
    - destruct pre as [|a [|]]; try done.
      destruct (matmul_2x2 x (weight self) a k n Hx Hw) as (z & Hz & Hzs & _). by exists z.
    - destruct pre as [|a [|b [|]]]; try done.
      destruct (matmul_3x2 x (weight self) a b k n Hx Hw) as (z & Hz & Hzs & _). by exists z. }
  destruct Hm as (z & -> & Hzs). cbn [mbind option_bind]. unfold tadd.
  rewrite (broadcast2_Some fadd z (bias self) (pre ++ [n]))
    by (rewrite Hzs, Hb; apply broadcast_shapes_tail1).
  eexists. split; [done|]. split; [done|]. apply well_formed_tab.
Qed.

(** Every function of [ACT2FN] acts entry by entry. *)
Lemma ACT2FN_elementwise name (f : Tensor F → option (Tensor F)) :
  ACT2FN !! name = Some f →
  ∃ g : F → F, ∀ x, well_formed x → f x = Some (tmap g x).
Proof.
  intros Hf. unfold ACT2FN in Hf. apply elem_of_list_to_map_2 in Hf.
  repeat (apply elem_of_cons in Hf as [Hf|Hf]; [injection Hf as -> ->|]).
  - by exists relu_k.
  - by exists gelu_k.
  - by exists tanh_k.
  - by exists sigmoid_k.
  - exists (λ a, fmul a (tanh_k (softplus_k a))). intros x Hx.
    unfold mish, F_softplus, F_tanh. cbn [mbind option_bind].
    change (tmap tanh_k (tmap softplus_k x))
      with (mkTensor (shape x) (tanh_k <$> (softplus_k <$> data x))).
    rewrite <-list_fmap_compose.
    by apply (tmul_tmap (tanh_k ∘ softplus_k)).
  - exists (λ a, a). intros x Hx.
    unfold linear_act, tmap. destruct x as [s d]; simpl. by rewrite list_fmap_id.
  - exists (λ a, fmul a (sigmoid_k a)). intros x Hx.
    unfold swish, F_sigmoid. cbn [mbind option_bind]. by apply tmul_tmap.
  - by apply elem_of_nil in Hf.
Qed.

(** The feed-forward block keeps the shape of its input. *)
Lemma XLNetFeedForward_forward_Some (self : XLNetFeedForward) (layers : XLNetFeedForward_layers F)
    (inp : Tensor F) name a b :
  XLNetFeedForward_init (ff_d_model self) (ff_d_inner self) (ActName name) = Ok self →
  shape (weight (layer_1 layers)) = [ff_d_model self; ff_d_inner self] →
  shape (bias (layer_1 layers)) = [ff_d_inner self] →
  shape (weight (layer_2 layers)) = [ff_d_inner self; ff_d_model self] →
  shape (bias (layer_2 layers)) = [ff_d_model self] →
  shape inp = [a; b; ff_d_model self] →
  ∃ out, XLNetFeedForward_forward self layers inp = Some out ∧
         shape out = [a; b; ff_d_model self] ∧ well_formed out.
Proof.
  intros Hinit Hw1 Hb1 Hw2 Hb2 Hinp.
  assert (Hact : ∃ g : F → F, ∀ x, well_formed x → activation_function self x = Some (tmap g x)).
  { unfold XLNetFeedForward_init in Hinit.
    destruct (ACT2FN !! name) as [f|] eqn:Ef; [|done].
    injection Hinit as <-. by apply (ACT2FN_elementwise name). }
  destruct Hact as (g & Hact).
  unfold XLNetFeedForward_forward.
  destruct (Linear_forward_shape (layer_1 layers) inp [a; b] _ _ (or_intror eq_refl) Hinp Hw1 Hb1)
    as (y1 & -> & Hy1s & Hy1w).
  cbn [mbind option_bind]. rewrite (Hact y1 Hy1w). cbn [mbind option_bind].
  destruct (Linear_forward_shape (layer_2 layers) (dropout (tmap g y1)) [a; b] _ _
              (or_intror eq_refl) Hy1s Hw2 Hb2) as (y2 & -> & Hy2s & _).
  cbn [mbind option_bind]. unfold tadd.
  rewrite (broadcast2_Some fadd (dropout y2) inp [a; b; ff_d_model self])
    by (cbn [dropout shape]; rewrite Hy2s, Hinp; apply broadcast_shapes_same).
  cbn [mbind option_bind].
  eexists. split; [done|]. split; [done|]. apply well_formed_tab.
Qed.

(** X16: for every activation name the constructor accepts, and layers of
    the shapes it creates, the feed-forward block maps an input of shape
    [a, b, d_model] to an output of the same shape. *)
Theorem XLNetFeedForward_forward_shape (self : XLNetFeedForward)
    (layers : XLNetFeedForward_layers F) (inp : Tensor F) name a b :
  XLNetFeedForward_init (ff_d_model self) (ff_d_inner self) (ActName name) = Ok self →
  shape (weight (layer_1 layers)) = [ff_d_model self; ff_d_inner self] →
  shape (bias (layer_1 layers)) = [ff_d_inner self] →
  shape (weight (layer_2 layers)) = [ff_d_inner self; ff_d_model self] →
  shape (bias (layer_2 layers)) = [ff_d_model self] →
  shape inp = [a; b; ff_d_model self] →
  ∃ out, XLNetFeedForward_forward self layers inp = Some out ∧
         shape out = [a; b; ff_d_model self].
Proof.
  intros Hinit Hw1 Hb1 Hw2 Hb2 Hinp.
  destruct (XLNetFeedForward_forward_Some self layers inp name a b Hinit Hw1 Hb1 Hw2 Hb2 Hinp)
    as (out & Hout & Hs & _).
  by exists out.
Qed.

(** X17: [get_activation] and the constructor of the feed-forward block
    resolve a name to the same function; for a name that is not a key both
    raise [KeyError], the constructor with the bare name and
    [get_activation] with a message that lists the seven keys.  The name
    [tanh] the classification head asks for is a key. *)
Theorem get_activation_agrees :
  (∀ name d_model d_inner,
     match get_activation (F:=F) name, XLNetFeedForward_init d_model d_inner (ActName name) with
     | Ok f, Ok self => activation_function self = f
     | Raise e, Raise e' =>
         e' = KeyError name ∧
         e = KeyError ("function " +:+ name +:+ " not found in ACT2FN mapping " +:+
                       "['relu', 'gelu', 'tanh', 'sigmoid', 'mish', 'linear', 'swish']")
     | _, _ => False
     end) ∧
  get_activation (F:=F) "tanh" = Ok F_tanh.
Proof.
  split; [|done].
  intros name dm di. unfold get_activation, XLNetFeedForward_init.
  by destruct (ACT2FN !! name).
Qed.
End ff_facts.

(** X16, witness on the ideal instance: [d_model = 1], [d_inner = 2] and the
    activation [relu]. *)
Lemma XLNetFeedForward_forward_shape_witness :
  let self := mkXLNetFeedForward 1 2 (F_relu (F:=Rdefinitions.R)) in
  let layers :=
    mkXLNetFeedForward_layers
      (mkLinear (mkTensor [1; 2] [Rdefinitions.IZR 1; Rdefinitions.IZR 2])
                (mkTensor [2] [Rdefinitions.IZR 0; Rdefinitions.IZR 0]))
      (mkLinear (mkTensor [2; 1] [Rdefinitions.IZR 1; Rdefinitions.IZR 1])
                (mkTensor [1] [Rdefinitions.IZR 0]))
      layer_norm_k in
  let inp := mkTensor [1; 1; 1] [Rdefinitions.IZR 3] in
  ∃ out, XLNetFeedForward_forward self layers inp = Some out ∧
         shape out = [1; 1; ff_d_model self].
Proof.
  intros self layers inp.
  apply (XLNetFeedForward_forward_shape self layers inp "relu" 1 1); reflexivity.
Defined.

Section tab_facts.
Context {A : Type} `{Inhabited A}.

Lemma tab_ext s (f g : list nat → A) :
  (∀ idx, in_range s idx → f idx = g idx) → tab s f = tab s g.
Proof.
  intros Hfg. unfold tab. f_equal. apply list_fmap_ext.
  intros i idx Hi. apply Hfg, indices_in_range.
  by apply list_elem_of_lookup_2 in Hi.
Qed.

Lemma in_range2_inv a b idx :
  in_range [a; b] idx → ∃ i j, idx = [i; j] ∧ i < a ∧ j < b.
Proof.
  intros Hr. inversion Hr as [|i ? idx1 ? Hi Hr1]; subst.
  inversion Hr1 as [|j ? idx2 ? Hj Hr2]; subst.
  inversion Hr2; subst. by exists i, j.
Qed.

(** [t[:, -1, :]] on a 3-dimensional tensor. *)
Lemma index_last_axis1 (t : Tensor A) a L k :
  shape t = [a; L; k] →
  index_axis 1 (-1) t
  = if decide (0 < L) then Some (tab [a; k] (λ idx, get t (take 1 idx ++ (L - 1) :: drop 1 idx)))
    else None.
Proof.
  intros Hs. unfold index_axis, rank. rewrite Hs. cbn [length].
  change ([a; L; k] !!! 1) with L. change (-1 <? 0)%Z with true. cbv iota.
  destruct (decide (0 < L)) as [HL|HL].
  - rewrite decide_True by lia. f_equal. apply tab_ext. intros idx _.
    do 3 f_equal. lia.
  - by rewrite decide_False by lia.
Qed.
End tab_facts.

Section head_facts.
Context {F : Type} `{FloatOps F, Kernels F}.

(** X18: the classification head reads the last position only.  On
    features of shape [B, L, hidden] with [L > 0] it returns logits of shape
    [B, num_classes]; two feature tensors that agree on the last position
    get the same logits (for one realisation of the dropout masks); and an
    empty sequence ([L = 0]) is an error of the indexing. *)
Theorem XLNetClassificationHead_last_token (self : XLNetClassificationHead F)
    (features : Tensor F) B L hidden num_classes :
  shape features = [B; L; hidden] →
  shape (weight (dense self)) = [hidden; hidden] → shape (bias (dense self)) = [hidden] →
  shape (weight (out_proj self)) = [hidden; num_classes] →
  shape (bias (out_proj self)) = [num_classes] →
  (0 < L →
     (∃ logits, XLNetClassificationHead_forward self features = Ok logits ∧
                shape logits = [B; num_classes]) ∧
     ∀ features' : Tensor F,
       shape features' = [B; L; hidden] →
       (∀ b k, b < B → k < hidden → get features' [b; L - 1; k] = get features [b; L - 1; k]) →
       XLNetClassificationHead_forward self features'
       = XLNetClassificationHead_forward self features) ∧
  (L = 0 → XLNetClassificationHead_forward self features = Raise EngineError).
Proof.
  intros Hs Hdw Hdb How Hob. split.
  - intros HL. split.
    + unfold XLNetClassificationHead_forward.
      rewrite (index_last_axis1 features B L hidden Hs), decide_True by done.
      cbn [engine mbind result_bind]. set (x := dropout _).
      destruct (Linear_forward_shape (dense self) x [B] hidden hidden (or_introl eq_refl)
                  eq_refl Hdw Hdb) as (y & -> & Hys & _).
      cbn [engine mbind result_bind].
      replace (get_activation "tanh") with (Ok (F_tanh (F:=F))) by done.
      cbn [mbind result_bind F_tanh engine].
      destruct (Linear_forward_shape (out_proj self) (dropout (tmap tanh_k y)) [B] hidden
                  num_classes (or_introl eq_refl) Hys How Hob) as (z & -> & Hzs & _).
      by exists z.
    + intros features' Hs' Heq. unfold XLNetClassificationHead_forward.
      rewrite (index_last_axis1 features B L hidden Hs).
      rewrite (index_last_axis1 features' B L hidden Hs').
      rewrite !decide_True by done.
      rewrite (tab_ext [B; hidden] (λ idx, get features' (take 1 idx ++ (L - 1) :: drop 1 idx))
                 (λ idx, get features (take 1 idx ++ (L - 1) :: drop 1 idx))); [done|].
      intros idx Hr. apply in_range2_inv in Hr as (b & k & -> & Hb & Hk).
      by apply Heq.
  - intros ->. unfold XLNetClassificationHead_forward.
    by rewrite (index_last_axis1 features B 0 hidden Hs).
Qed.
End head_facts.

(** X18, witness on the ideal instance: two positions with one feature,
    two classes. *)
Lemma XLNetClassificationHead_last_token_witness :
  let self :=
    mkXLNetClassificationHead
      (mkLinear (mkTensor [1; 1] [Rdefinitions.IZR 1]) (mkTensor [1] [Rdefinitions.IZR 0]))
      (mkLinear (mkTensor [1; 2] [Rdefinitions.IZR 1; Rdefinitions.IZR 2])
                (mkTensor [2] [Rdefinitions.IZR 0; Rdefinitions.IZR 0])) in
  let features := mkTensor [1; 2; 1] [Rdefinitions.IZR 5; Rdefinitions.IZR 7] in
  (∃ logits, XLNetClassificationHead_forward self features = Ok logits ∧
             shape logits = [1; 2]) ∧
  ∀ features' : Tensor Rdefinitions.R,
    shape features' = [1; 2; 1] →
    (∀ b k, b < 1 → k < 1 → get features' [b; 2 - 1; k] = get features [b; 2 - 1; k]) →
    XLNetClassificationHead_forward self features'
    = XLNetClassificationHead_forward self features.
Proof.
  intros self features.
  apply (proj1 (XLNetClassificationHead_last_token self features 1 2 1 2
                  eq_refl eq_refl eq_refl eq_refl eq_refl)).
  lia.
Defined.

(** ** Segment matrix and head mask *)

Section segmat_facts.
Context {F : Type} `{FloatOps F}.

Lemma broadcast_shapes_outer I K B :
  broadcast_shapes [I; 1; B] [1; K; B] = Some [I; K; B].
Proof.
  unfold broadcast_shapes.
  change (reverse [I; 1; B]) with [B; 1; I]. change (reverse [1; K; B]) with [B; K; 1].
  cbn [broadcast_rev].
  by rewrite broadcast_dim_same, broadcast_dim_one_l, broadcast_dim_one_r.
Qed.

(** X19: the segment matrix built from [token_type_ids] of shape
    [qlen, bsz] has shape [qlen, mlen + qlen, bsz, 2] and is one-hot on its
    last axis: [[1, 0]] where query [i] and key [j] of batch [b] carry the
    same segment id and [[0, 1]] where they differ, the [mlen] memory
    positions counting as segment [0]. *)
Theorem segment_matrix_one_hot (token_type_ids : Tensor Z) (qlen mlen bsz : nat) :
  shape token_type_ids = [qlen; bsz] →
  ∃ seg_mat : Tensor F,
    segment_matrix (Some token_type_ids) mlen bsz = Some (Some seg_mat) ∧
    shape seg_mat = [qlen; mlen + qlen; bsz; 2] ∧
    ∀ i j b, i < qlen → j < mlen + qlen → b < bsz →
      let key_id := if decide (j < mlen) then 0%Z else get token_type_ids [j - mlen; b] in
      let same := bool_decide (get token_type_ids [i; b] = key_id) in
      get seg_mat [i; j; b; 0] = (if same then of_Z 1 else of_Z 0) ∧
      get seg_mat [i; j; b; 1] = (if same then of_Z 0 else of_Z 1).
Proof.
  intros Hs. unfold segment_matrix.
  assert (Hcat : ∃ cat : Tensor Z,
            (if decide (0 < mlen)
             then concat (tab [mlen; bsz] (λ _, 0%Z)) token_type_ids 0
             else Some token_type_ids) = Some cat ∧
            shape cat = [mlen + qlen; bsz] ∧
            ∀ j b, j < mlen + qlen → b < bsz →
              get cat [j; b]
              = if decide (j < mlen) then 0%Z else get token_type_ids [j - mlen; b]).
  { case_decide as Hm.
    - rewrite (concat0_Some _ token_type_ids mlen qlen [bsz]) by done.
      eexists. split; [done|]. split; [done|].
      intros j b Hj Hb. rewrite get_tab by (by apply in_range2).
      change ([j; b] !!! 0) with j. case_decide; [|done].
      by rewrite get_tab by (by apply in_range2).
    - assert (mlen = 0) as -> by lia. exists token_type_ids. split; [done|]. split; [done|].
      intros j b Hj Hb. rewrite decide_False by lia. by rewrite Nat.sub_0_r. }
  destruct Hcat as (cat & -> & Hcs & Hcat). cbn [mbind option_bind].
  rewrite (broadcast2_Some _ (unsqueeze token_type_ids 1) (unsqueeze cat 0)
             [qlen; mlen + qlen; bsz]); cycle 1.
  { unfold unsqueeze. cbn [shape]. rewrite Hs, Hcs. apply broadcast_shapes_outer. }
  cbn [mbind option_bind]. set (ne := tab [qlen; mlen + qlen; bsz] _).
  assert (Hne : ∀ i j b, i < qlen → j < mlen + qlen → b < bsz →
            get ne [i; j; b]
            = if decide (get token_type_ids [i; b]
                         ≠ if decide (j < mlen) then 0%Z else get token_type_ids [j - mlen; b])
              then 1%Z else 0%Z).
  { intros i j b Hi Hj Hb. unfold ne. rewrite get_tab by (by apply in_range3).
    rewrite <-Hcat by done.
    assert (E1 : get (unsqueeze token_type_ids 1)
                   (bidx (shape (unsqueeze token_type_ids 1)) [i; j; b])
                 = get token_type_ids [i; b]).
    { unfold unsqueeze, get. cbn [shape data]. rewrite Hs. f_equal.
      unfold bidx. simpl. repeat case_decide; lia. }
    assert (E2 : get (unsqueeze cat 0) (bidx (shape (unsqueeze cat 0)) [i; j; b])
                 = get cat [j; b]).
    { unfold unsqueeze, get. cbn [shape data]. rewrite Hcs. f_equal.
      unfold bidx. simpl. repeat case_decide; lia. }
    by rewrite E1, E2. }
  unfold one_hot. rewrite decide_True; cycle 1.
  { unfold ne, tab. cbn [data]. apply Forall_fmap, Forall_true. intros idx. simpl.
    case_decide; lia. }
  cbn [fmap option_fmap option_map]. eexists. split; [done|]. split; [done|].
  intros i j b Hi Hj Hb. cbv zeta.
  set (key_id := if decide (j < mlen) then 0%Z else get token_type_ids [j - mlen; b]).
  change (shape ne ++ [2]) with [qlen; mlen + qlen; bsz; 2].
  rewrite !get_tab by (apply in_range4; lia).
  change (rank ne) with 3. cbn [take lookup_total list_lookup_total].
  rewrite Hne by done. fold key_id.
  destruct (decide (get token_type_ids [i; b] = key_id)) as [He|He].
  - rewrite bool_decide_true by done. rewrite (decide_False (P:=(_ ≠ _))) by tauto.
    by rewrite decide_True, decide_False by done.
  - rewrite bool_decide_false by done. rewrite (decide_True (P:=(_ ≠ _))) by done.
    by rewrite decide_False, decide_True by done.
Qed.
End segmat_facts.

(** X19, witness: two positions in different segments after one memory
    position. *)
Lemma segment_matrix_one_hot_witness :
  let token_type_ids := mkTensor [2; 1] [0; 1]%Z in
  ∃ seg_mat : Tensor Rdefinitions.R,
    segment_matrix (Some token_type_ids) 1 1 = Some (Some seg_mat) ∧
    shape seg_mat = [2; 1 + 2; 1; 2] ∧
    ∀ i j b, i < 2 → j < 1 + 2 → b < 1 →
      let key_id := if decide (j < 1) then 0%Z else get token_type_ids [j - 1; b] in
      let same := bool_decide (get token_type_ids [i; b] = key_id) in
      get seg_mat [i; j; b; 0] = (if same then of_Z 1 else of_Z 0) ∧
      get seg_mat [i; j; b; 1] = (if same then of_Z 0 else of_Z 1).
Proof.
  intros token_type_ids. apply (segment_matrix_one_hot token_type_ids 2 1 1). reflexivity.
Defined.

Lemma in_range5 s0 s1 s2 s3 s4 i0 i1 i2 i3 i4 :
  i0 < s0 → i1 < s1 → i2 < s2 → i3 < s3 → i4 < s4 →
  in_range [s0; s1; s2; s3; s4] [i0; i1; i2; i3; i4].
Proof. intros. repeat constructor; done. Qed.

Section head_mask_facts.
Context {F : Type} `{FloatOps F}.

(** [head_mask[i]] of a mask of shape [L, 1, 1, 1, H]. *)
Lemma layer_head_mask_rank5 (t : Tensor F) L H' i :
  shape t = [L; 1; 1; 1; H'] →
  layer_head_mask (HeadMaskTensor t) i
  = if decide (i < L)
    then Some (Some (tab [1; 1; 1; H'] (λ idx, get t (i :: idx))))
    else None.
Proof.
  intros Hs. unfold layer_head_mask, index_axis, rank. rewrite Hs. cbn [length].
  change ([L; 1; 1; 1; H'] !!! 0) with L.
  destruct (Z.ltb_spec (Z.of_nat i) 0) as [|_]; [lia|].
  destruct (decide (i < L)) as [Hi|Hi].
  - rewrite decide_True by lia. cbn [fmap option_fmap option_map]. do 2 f_equal.
    apply tab_ext. intros idx _. cbn [take drop app]. by rewrite Nat2Z.id.
  - by rewrite decide_False by lia.
Qed.

(** X20: the head mask each layer receives.  A mask with one dimension
    ([n_head] entries) is handed to every layer, a mask with two dimensions
    ([L] rows) row by row, in both cases as a tensor of shape
    [1, 1, 1, n_head] whose entry [n] is the mask value of head [n]; with
    two dimensions the layers from [L] on find no row and the indexing
    fails.  Without a mask every layer receives [None]. *)
Theorem head_mask_per_layer (self : XLNetModel) (head_mask : Tensor F) :
  (∀ H', shape head_mask = [H'] → 0 < n_layer self →
     ∃ hm, prepare_head_mask self (Some head_mask) = Some hm ∧
       ∀ i, i < n_layer self →
         ∃ m, layer_head_mask hm i = Some (Some m) ∧ shape m = [1; 1; 1; H'] ∧
              ∀ n, n < H' → get m [0; 0; 0; n] = get head_mask [n]) ∧
  (∀ L H', shape head_mask = [L; H'] →
     ∃ hm, prepare_head_mask self (Some head_mask) = Some hm ∧
       (∀ i, i < L →
          ∃ m, layer_head_mask hm i = Some (Some m) ∧ shape m = [1; 1; 1; H'] ∧
               ∀ n, n < H' → get m [0; 0; 0; n] = get head_mask [i; n]) ∧
       (∀ i, L ≤ i → layer_head_mask hm i = None)) ∧
  (∃ hm, prepare_head_mask (F:=F) self None = Some hm ∧
     ∀ i, i < n_layer self → layer_head_mask hm i = Some None).
Proof.
  split; [|split].
  - intros H' Hs HL. unfold prepare_head_mask, rank. rewrite Hs. cbn [length].
    rewrite decide_True by done.
    set (t := unsqueeze (unsqueeze (unsqueeze (unsqueeze head_mask 0) 0) 0) 0).
    assert (Hts : shape t = [1; 1; 1; 1; H']).
    { unfold t, unsqueeze. cbn [shape]. by rewrite Hs. }
    assert (He : expand_dims [1; 1; 1; 1; H'] [Z.of_nat (n_layer self); -1; -1; -1; -1]%Z
                 = Some [n_layer self; 1; 1; 1; H']).
    { cbn [expand_dims Z.eqb Pos.eqb mbind option_bind].
      destruct (Z.eqb_spec (Z.of_nat (n_layer self)) (-1)) as [|_]; [lia|].
      rewrite decide_True by (split; [lia|by left]).
      cbn [mbind option_bind]. by rewrite Nat2Z.id. }
    unfold expand. rewrite Hts, He.
    cbn [mbind option_bind fmap option_fmap option_map].
    eexists. split; [done|]. intros i Hi.
    rewrite (layer_head_mask_rank5 _ (n_layer self) H' i) by done.
    rewrite decide_True by done.
    eexists. split; [done|]. split; [done|].
    intros n Hn. rewrite get_tab by (apply in_range4; lia).
    rewrite get_tab by (apply in_range5; lia).
    unfold get. rewrite Hts, Hs. unfold t, unsqueeze. cbn [data]. f_equal.
    unfold bidx. simpl. repeat case_decide; lia.
  - intros L H' Hs. unfold prepare_head_mask, rank. rewrite Hs. cbn [length].
    rewrite decide_False by done. rewrite decide_True by done.
    set (t := unsqueeze (unsqueeze (unsqueeze head_mask 1) 1) 1).
    assert (Hts : shape t = [L; 1; 1; 1; H']).
    { unfold t, unsqueeze. cbn [shape]. by rewrite Hs. }
    eexists. split; [done|]. split.
    + intros i Hi. rewrite (layer_head_mask_rank5 t L H' i Hts), decide_True by done.
      eexists. split; [done|]. split; [done|].
      intros n Hn. rewrite get_tab by (apply in_range4; lia).
      unfold get. rewrite Hts, Hs. unfold t, unsqueeze. cbn [data]. f_equal. simpl. lia.
    + intros i Hi. by rewrite (layer_head_mask_rank5 t L H' i Hts), decide_False by lia.
  - eexists. split; [done|]. intros i Hi. cbn [layer_head_mask].
    by apply lookup_replicate_2.
Qed.
End head_mask_facts.

(** X20, witness on the ideal instance: a mask over two heads for a model
    of three layers. *)
Lemma head_mask_per_layer_witness :
  let self := mkXLNetModel None None 4 false "bi" (PyBool false) (-1) 3 in
  let head_mask := mkTensor [2] [Rdefinitions.IZR 1; Rdefinitions.IZR 0] in
  ∃ hm, prepare_head_mask self (Some head_mask) = Some hm ∧
    ∀ i, i < n_layer self →
      ∃ m, layer_head_mask hm i = Some (Some m) ∧ shape m = [1; 1; 1; 2] ∧
           ∀ n, n < 2 → get m [0; 0; 0; n] = get head_mask [n].
Proof.
  intros self head_mask.
  apply (proj1 (head_mask_per_layer self head_mask) 2); [reflexivity|simpl; lia].
Defined.


(** ** The whole forward pass *)

Section model_facts.
Context {F : Type} `{FloatOps F, Kernels F}.

Lemma forward_inputs_ids (input_ids : Tensor Z) bsz qlen :
  shape input_ids = [bsz; qlen] →
  ∃ ids', forward_inputs (F:=F) (Some input_ids) None = Ok (Some ids', None, qlen, bsz) ∧
          shape ids' = [qlen; bsz] ∧
          ∀ Q : Z → Prop, well_formed input_ids →
            Forall Q (data input_ids) → Forall Q (data ids').
Proof.
  intros Hs. unfold forward_inputs.
  rewrite (transpose_swap2 input_ids bsz qlen Hs). cbn [engine mbind result_bind shape tab].
  eexists. split; [done|]. split; [done|].
  intros Q Hwf HQ. unfold tab. cbn [data]. apply Forall_fmap, Forall_forall.
  intros idx Hidx%indices_in_range. apply in_range2_inv in Hidx as (i & c & -> & Hi & Hc).
  cbn [lookup_total list_lookup_total]. unfold get. rewrite Hs.
  assert (Hlt : ravel [bsz; qlen] [c; i] < length (data input_ids)).
  { unfold well_formed in Hwf. rewrite Hwf, Hs. by apply ravel_lt, in_range2. }
  exact (Forall_lookup_1 _ _ _ _ HQ (list_lookup_lookup_total_lt _ _ Hlt)).
Qed.

Lemma embedding_Some_shape (weight : Tensor F) (ids : Tensor Z) e vocab dm :
  shape weight = [vocab; dm] → embedding weight ids = Some e → shape e = shape ids ++ [dm].
Proof.
  intros Hw He. unfold embedding in He. rewrite Hw in He.
  case_decide; [|done]. by injection He as <-.
Qed.

Lemma embedding_Some (weight : Tensor F) (ids : Tensor Z) vocab dm :
  shape weight = [vocab; dm] →
  Forall (λ v, 0 <= v < Z.of_nat vocab)%Z (data ids) →
  ∃ e, embedding weight ids = Some e ∧ shape e = shape ids ++ [dm].
Proof.
  intros Hw Hids. unfold embedding, rank. rewrite Hw.
  rewrite decide_True by done. eexists. split; [done|]. done.
Qed.

(** The first layer fails on a non-empty memory. *)
Lemma XLNetLayer_forward_memory_fails (l : XLNetLayer F) (h r m : Tensor F)
    attn_mask_h attn_mask_g seg_mat target_mapping head_mask output_attentions qlen mlen bsz dm :
  shape h = [qlen; bsz; dm] → shape m = [mlen; bsz; dm] →
  shape (w_k (rel_attn l)) = [dm; n_head (rel_attn l) * d_head (rel_attn l)] →
  0 < mlen → 0 < qlen → 0 < bsz → 0 < n_head (rel_attn l) → 0 < d_head (rel_attn l) →
  XLNetLayer_forward l h None attn_mask_h attn_mask_g r seg_mat (Some m) target_mapping
    head_mask output_attentions = None.
Proof.
  intros Hh Hm Hk Hmlen Hqlen Hbsz Hn Hd.
  destruct (forward_content_memory_fails (rel_attn l) h r m attn_mask_h seg_mat head_mask
              output_attentions qlen mlen bsz dm Hh Hm Hk Hmlen Hqlen Hbsz Hn Hd)
    as (_ & _ & Hfc).
  unfold XLNetLayer_forward, XLNetRelativeAttention_forward. by rewrite Hfc.
Qed.

(** One step of a proof that a chain of calls raises: either the next call
    raises, or it returns a value that is named and the chain goes on. *)
Tactic Notation "next_call" "as" ident(x) ident(E) :=
  lazymatch goal with
  | |- ∃ e, mbind _ ?m = FRaise e =>
      destruct m as [x|?] eqn:E; [cbn [mbind fresult_bind]|by eexists]
  end.

Lemma forward_layer_memory_fails (self : XLNetModel)
    (use_mems output_attentions output_hidden_states : bool)
    (non_tgt_mask attn_mask : option (Tensor F)) (pos_emb : Tensor F)
    (seg_mat : option (Tensor F)) (ms : list (option (Tensor F)))
    (target_mapping : option (Tensor F)) (head_mask : HeadMasks F)
    (l : XLNetLayer F) (st : LoopState) (m : Tensor F) qlen mlen bsz :
  shape (st_output_h st) = [qlen; bsz; d_model self] → st_output_g st = None →
  shape m = [mlen; bsz; d_model self] →
  shape (w_k (rel_attn l)) = [d_model self; n_head (rel_attn l) * d_head (rel_attn l)] →
  0 < mlen → 0 < qlen → 0 < bsz → 0 < n_head (rel_attn l) → 0 < d_head (rel_attn l) →
  ∃ e, forward_layer self use_mems output_attentions output_hidden_states non_tgt_mask
         attn_mask pos_emb seg_mat (Some m :: ms) target_mapping head_mask 0 l st
       = FRaise e.
Proof.
  intros Hh Hg Hm Hwk Hmlen Hqlen Hbsz HN HD. unfold forward_layer.
  next_call as mems' Emems.
  cbn [py_index lookup list_lookup mbind fresult_bind].
  next_call as hm_i Ehmi. rewrite Hg.
  rewrite (XLNetLayer_forward_memory_fails l _ _ m _ _ _ _ _ _ qlen mlen bsz (d_model self))
    by done.
  cbn [engine section mbind fresult_bind]. by eexists.
Qed.

(** X21: a non-empty memory cannot be fed back.  When [mems] starts with a
    tensor of [mlen > 0] positions (and no target mapping is given),
    [forward] raises for every choice of the other arguments: the first
    layer takes the content-only branch, which reshapes the keys computed
    from the [mlen + qlen] positions to [qlen] positions. *)
Theorem XLNetModel_forward_memory_fails (self : XLNetModel) (params : XLNetModel_parameters F)
    (input_ids : Tensor Z) (m : Tensor F) (ms : list (option (Tensor F)))
    l0 rest vocab_size bsz qlen mlen :
  layer params = l0 :: rest →
  shape (word_embedding params) = [vocab_size; d_model self] →
  shape (w_k (rel_attn l0)) = [d_model self; n_head (rel_attn l0) * d_head (rel_attn l0)] →
  0 < n_head (rel_attn l0) → 0 < d_head (rel_attn l0) →
  shape input_ids = [bsz; qlen] → 0 < bsz → 0 < qlen →
  shape m = [mlen; bsz; d_model self] → 0 < mlen →
  ∀ training token_type_ids attention_mask perm_mask input_mask head_mask
    use_mems_train use_mems_eval output_attentions output_hidden_states,
    ∃ e, XLNetModel_forward self params training (Some input_ids) token_type_ids
           attention_mask (Some (Some m :: ms)) perm_mask None input_mask head_mask None
           use_mems_train use_mems_eval output_attentions output_hidden_states
         = FRaise e.
Proof.
  intros Hlayers Hemb Hwk HN HD Hids Hbsz Hqlen Hm Hmlen
    training tt am pm im hm umt ume oa ohs.
  unfold XLNetModel_forward.
  destruct (forward_inputs_ids input_ids bsz qlen Hids) as (ids' & -> & Hids' & _).
  cbn [section mbind fresult_bind].
  next_call as tt' Ett. next_call as im' Eim. next_call as am' Eam. next_call as pm' Epm.
  cbn [transpose_opt section mbind fresult_bind py_index lookup list_lookup].
  rewrite Hm. cbn [py_index lookup list_lookup mbind fresult_bind].
  next_call as masks Emasks. destruct masks as [attn_mask non_tgt_mask].
  next_call as word_emb_k Eemb.
  assert (Hh : shape (dropout word_emb_k) = [qlen; bsz; d_model self]).
  { cbn [dropout shape]. destruct (embedding (word_embedding params) ids') as [e|] eqn:Ee;
      [|discriminate]. injection Eemb as <-.
    rewrite (embedding_Some_shape _ _ _ _ _ Hemb Ee), Hids'. done. }
  next_call as seg_mat Eseg. next_call as pos_emb Epos. next_call as head_mask Ehm.
  rewrite Hlayers. cbn [forward_layers].
  destruct (forward_layer_memory_fails self (select_use_mems training umt ume) oa ohs
              non_tgt_mask attn_mask (dropout pos_emb) seg_mat ms None head_mask l0
              (mkLoopState (dropout word_emb_k) None [] [] []) m qlen mlen bsz
              Hh eq_refl Hm Hwk Hmlen Hqlen Hbsz HN HD) as (e & ->).
  by exists e.
Qed.

(** The shape of the encoding [forward] asks for. *)
Lemma relative_positional_encoding_Ok_shape (self : XLNetModel) (qlen klen bsz : nat)
    (r : Tensor F) :
  relative_positional_encoding self qlen klen (Some (Z.of_nat bsz)) = Ok r →
  0 < bsz → Nat.even (d_model self) = true →
  (truthy (bi_data self) = true → Nat.even bsz = true) →
  ∃ P, shape r = [P; bsz; d_model self] ∧
       ((attn_type self = "bi" ∧ P = klen + qlen) ∨ (attn_type self = "uni" ∧ P = klen + 1)).
Proof.
  intros Hr Hbsz Hdm Hbi.
  assert (Hpr : ∃ beg end_, pos_range self qlen klen = Ok (beg, end_)).
  { unfold relative_positional_encoding in Hr.
    destruct (pos_range self qlen klen) as [[beg end_]|]; [|done]. by exists beg, end_. }
  destruct Hpr as (beg & end_ & Hpr).
  assert (Hb2 : truthy (bi_data self) = true → (2 <= Z.of_nat bsz)%Z).
  { intros Ht. specialize (Hbi Ht). apply Nat.even_spec in Hbi as [k ->]. lia. }
  destruct (relative_positional_encoding_spec (F:=F) self qlen klen (Z.of_nat bsz) beg end_
              Hpr ltac:(lia) Hb2) as (e & He & _ & Hshape).
  rewrite Hr in He. injection He as <-.
  assert (HD : length (data (inv_freq (F:=F) self)) + length (data (inv_freq (F:=F) self))
               = d_model self).
  { rewrite length_inv_freq. apply Nat.even_spec in Hdm as [k ->].
    replace (2 * k + 1) with (1 + k * 2) by lia. rewrite Nat.div_add by lia. simpl. lia. }
  assert (HP : length (fwd_pos_seq self beg end_) = Z.to_nat (beg - end_)).
  { unfold fwd_pos_seq. by rewrite length_clamp_seq, length_arange3_down. }
  exists (length (fwd_pos_seq self beg end_)). split.
  - destruct (truthy (bi_data self)) eqn:Ht; destruct Hshape as [-> _]; rewrite HD.
    + specialize (Hbi eq_refl). apply Nat.even_spec in Hbi as [k ->].
      do 2 f_equal. rewrite Nat2Z.inj_mul. change (Z.of_nat 2) with 2%Z.
      rewrite Z.mul_comm, Z.div_mul by lia. lia.
    + by rewrite Nat2Z.id.
  - rewrite HP. apply pos_range_inv in Hpr as [-> [[Ht ->]|[Ht ->]]]; [left|right];
      (split; [done|lia]).
Qed.

(** The first layer fails on a query stream. *)
Lemma forward_layer_query_stream_fails (self : XLNetModel)
    (use_mems output_attentions output_hidden_states : bool)
    (non_tgt_mask attn_mask : option (Tensor F)) (pos_emb : Tensor F)
    (seg_mat : option (Tensor F)) (n : nat)
    (target_mapping : option (Tensor F)) (head_mask : HeadMasks F)
    (l : XLNetLayer F) (st : LoopState) g qlen P bsz :
  XLNetRelativeAttention_init_shapes (rel_attn l) → att_d_model (rel_attn l) = d_model self →
  shape (st_output_h st) = [qlen; bsz; d_model self] → st_output_g st = Some g →
  shape pos_emb = [P; bsz; d_model self] → P ≠ qlen →
  0 < qlen → 0 < bsz → 0 < n_head (rel_attn l) → 0 < d_head (rel_attn l) →
  ∃ e, forward_layer self use_mems output_attentions output_hidden_states non_tgt_mask
         attn_mask pos_emb seg_mat (replicate n None) target_mapping head_mask 0 l st
       = FRaise e.
Proof.
  intros Hinit Hdm Hh Hg Hr HP Hqlen Hbsz HN HD. unfold forward_layer.
  next_call as mems' Emems. next_call as m Em.
  assert (m = None) as ->.
  { unfold py_index in Em. destruct (replicate n None !! 0) as [o|] eqn:Eo; [|done].
    injection Em as <-. by apply lookup_replicate in Eo as [-> _]. }
  next_call as hm_i Ehmi. rewrite Hg.
  assert (Hfail : XLNetLayer_forward l (st_output_h st) (Some g) non_tgt_mask attn_mask pos_emb
                    seg_mat None target_mapping hm_i output_attentions = None).
  { unfold XLNetLayer_forward, XLNetRelativeAttention_forward, forward_two_stream.
    rewrite (two_stream_heads_mismatch (rel_attn l) (st_output_h st) pos_emb None qlen P bsz 0);
      [done|done|by rewrite Hdm|by rewrite Hdm|done|done|done|done|done|done|].
    left. lia. }
  rewrite Hfail. cbn [engine section mbind fresult_bind]. by eexists.
Qed.

(** X22: a target mapping cannot be used.  With a target mapping [forward]
    creates the query stream, and the first layer takes the two-stream
    branch, which reshapes the position keys of the [2 * qlen] (or
    [qlen + 1]) encoded positions to [qlen] positions: [forward] raises for
    every choice of the other arguments.  The model has the shapes the
    constructor creates, an even [d_model], and an even batch size when
    [bi_data] is set. *)
Theorem XLNetModel_forward_target_mapping_fails (self : XLNetModel)
    (params : XLNetModel_parameters F) (input_ids : Tensor Z) (target_mapping : Tensor F)
    l0 rest vocab_size bsz qlen :
  layer params = l0 :: rest →
  shape (word_embedding params) = [vocab_size; d_model self] →
  XLNetRelativeAttention_init_shapes (rel_attn l0) → att_d_model (rel_attn l0) = d_model self →
  0 < n_head (rel_attn l0) → 0 < d_head (rel_attn l0) →
  Nat.even (d_model self) = true → (truthy (bi_data self) = true → Nat.even bsz = true) →
  shape input_ids = [bsz; qlen] → 0 < bsz → 0 < qlen →
  ∀ training token_type_ids attention_mask perm_mask input_mask head_mask
    use_mems_train use_mems_eval output_attentions output_hidden_states,
    ∃ e, XLNetModel_forward self params training (Some input_ids) token_type_ids
           attention_mask None perm_mask (Some target_mapping) input_mask head_mask None
           use_mems_train use_mems_eval output_attentions output_hidden_states
         = FRaise e.
Proof.
  intros Hlayers Hemb Hinit Hdm HN HD Hev Hbi Hids Hbsz Hqlen
    training tt am pm im hm umt ume oa ohs.
  unfold XLNetModel_forward.
  destruct (forward_inputs_ids input_ids bsz qlen Hids) as (ids' & -> & Hids' & _).
  cbn [section mbind fresult_bind].
  next_call as tt' Ett. next_call as im' Eim. next_call as am' Eam. next_call as pm' Epm.
  next_call as tm' Etm.
  assert (∃ t, tm' = Some t) as [t ->].
  { cbn [transpose_opt] in Etm. destruct (transpose target_mapping [1; 2; 0]) as [t|]; [|done].
    injection Etm as <-. by exists t. }
  cbn [mbind fresult_bind].
  next_call as masks Emasks. destruct masks as [attn_mask non_tgt_mask].
  next_call as word_emb_k Eemb.
  assert (Hh : shape (dropout word_emb_k) = [qlen; bsz; d_model self]).
  { cbn [dropout shape]. destruct (embedding (word_embedding params) ids') as [e|] eqn:Ee;
      [|discriminate]. injection Eemb as <-.
    rewrite (embedding_Some_shape _ _ _ _ _ Hemb Ee), Hids'. done. }
  next_call as output_g Eg.
  assert (∃ g, output_g = Some g) as [g ->].
  { destruct (py_index (shape t) 0) as [t0|]; [|done]. cbn [mbind fresult_bind] in Eg.
    destruct (section (engine (expand _ _))) as [w|]; [|done].
    injection Eg as <-. by eexists. }
  next_call as seg_mat Eseg. next_call as pos_emb Epos.
  assert (Hr : ∃ P, shape (dropout pos_emb) = [P; bsz; d_model self] ∧ P ≠ qlen).
  { destruct (relative_positional_encoding self qlen (0 + qlen) (Some (Z.of_nat bsz)))
      as [r|] eqn:Er; [|done]. injection Epos as <-.
    destruct (relative_positional_encoding_Ok_shape self qlen (0 + qlen) bsz r Er Hbsz Hev Hbi)
      as (P & HP & HPl).
    exists P. split; [done|]. destruct HPl as [[_ ->]|[_ ->]]; lia. }
  destruct Hr as (P & Hr & HP).
  next_call as head_mask Ehm.
  rewrite Hlayers. cbn [forward_layers].
  destruct (forward_layer_query_stream_fails self (select_use_mems training umt ume) oa ohs
              non_tgt_mask attn_mask (dropout pos_emb) seg_mat (length (l0 :: rest)) (Some t)
              head_mask l0 (mkLoopState (dropout word_emb_k) (Some g) [] [] []) g qlen P bsz
              Hinit Hdm Hh eq_refl Hr HP Hqlen Hbsz HN HD) as (e & ->).
  by exists e.
Qed.
End model_facts.

Section plain_facts.
Context {F : Type} `{FloatOps F, Kernels F}.

Lemma is_perm_102 : is_perm 3 [1; 0; 2].
Proof. unfold is_perm. apply (bool_decide_unpack _). by vm_compute. Qed.

Lemma transpose_102 (t : Tensor F) a b c :
  shape t = [a; b; c] →
  ∃ z, transpose t [1; 0; 2] = Some z ∧ shape z = [b; a; c].
Proof.
  intros Hs. rewrite transpose_Some by (unfold rank; rewrite Hs; apply is_perm_102).
  unfold rank. rewrite Hs. eexists. split; [done|]. done.
Qed.

(** The memory cached from a hidden state when there is no previous
    memory keeps the batch and feature dimensions. *)
Lemma cache_mem_None_shape (self : XLNetModel) (h : Tensor F) I B M :
  shape h = [I; B; M] →
  ∃ c l, cache_mem self h None = Some c ∧ shape c = [l; B; M].
Proof.
  intros Hs. unfold cache_mem, detach. cbn [mbind option_bind].
  set (c := match reuse_len self with
            | Some r => if (0 <? r)%Z then slice_axis 0 None (Some r) h else h
            | None => h
            end).
  assert (Hc : ∃ l, shape c = [l; B; M]).
  { unfold c. destruct (reuse_len self) as [r|]; [|by eexists].
    destruct (0 <? r)%Z; [|by eexists].
    rewrite (shape_slice_axis0 _ I [B; M]) by done. by eexists. }
  destruct Hc as (l & Hc).
  eexists _, _. split; [done|]. by rewrite (shape_slice_axis0 _ l [B; M]).
Qed.

(** A layer without memory and without query stream keeps the shape of the
    hidden state. *)
Lemma XLNetLayer_forward_plain (l : XLNetLayer F) (h r : Tensor F)
    (attn_mask_h attn_mask_g : option (Tensor F)) (output_attentions : bool)
    dm N D di name I P B :
  XLNetLayer_init_shapes dm N D di name l →
  shape h = [I; B; dm] → shape r = [P; B; dm] →
  0 < I → I < P → 0 < B → 0 < N → 0 < D →
  (∀ m, attn_mask_h = Some m →
     ∃ mi mj mb mn, shape m = [mi; mj; mb; mn] ∧
       (mi = 1 ∨ mi = I) ∧ (mj = 1 ∨ mj = I) ∧ (mb = 1 ∨ mb = B) ∧ (mn = 1 ∨ mn = N)) →
  ∃ h' probs,
    XLNetLayer_forward l h None attn_mask_h attn_mask_g r None None None None output_attentions
    = Some (h', None, probs) ∧
    shape h' = [I; B; dm] ∧
    (if output_attentions then ∃ p, probs = Some (ContentProbs p) ∧ shape p = [I; I; B; N]
     else probs = None).
Proof.
  intros (Hinit & Hdm & HN' & HD' & Hff & Hw1 & Hb1 & Hw2 & Hb2) Hh Hr HI HP HB HN HD Hmask.
  subst dm N D.
  destruct (content_heads_Some (rel_attn l) h r I P B Hinit Hh Hr)
    as (q & k & v & kr & Hheads & Hq & Hk & Hv & Hkr); [lia..|].
  destruct (rel_attn_core_Some (rel_attn l) q k v kr None attn_mask_h None output_attentions
              I I P B Hinit Hq Hk Hv Hkr HB HN HI HI HP)
    as (av & p & Hcore & Havs & Havw & Hp); [done|done|done|].
  pose proof Hinit as (_ & _ & _ & Hwo & _).
  destruct (post_attention_shape (rel_attn l) h av I B Hwo Hh Havs Havw HI HB)
    as (out & Hout & Houts & _).
  assert (Hffd : ff_d_model (ff l) = att_d_model (rel_attn l) ∧ ff_d_inner (ff l) = di).
  { unfold XLNetFeedForward_init in Hff. destruct (ACT2FN !! name); [|done].
    by injection Hff as <-. }
  destruct Hffd as [Hffd Hffi].
  destruct (XLNetFeedForward_forward_Some (ff l) (ff_layers l) out name I B)
    as (h' & Hh' & Hh's & _).
  { by rewrite Hffd, Hffi. }
  { by rewrite Hffd, Hffi. }
  { by rewrite Hffi. }
  { by rewrite Hffd, Hffi. }
  { by rewrite Hffd. }
  { by rewrite Hffd. }
  unfold XLNetLayer_forward, XLNetRelativeAttention_forward, forward_content.
  rewrite Hheads. cbn [mbind option_bind]. rewrite Hcore. cbn [mbind option_bind].
  rewrite Hout. cbn [mbind option_bind]. rewrite Hh'. cbn [mbind option_bind].
  exists h', (ContentProbs <$> p). split; [done|]. split; [by rewrite Hh's, Hffd|].
  destruct output_attentions.
  - destruct Hp as (p' & -> & Hp's). by exists p'.
  - by rewrite Hp.
Qed.
End plain_facts.

Section plain_loop.
Context {F : Type} `{FloatOps F, Kernels F}.

Lemma py_index_replicate {A} (x : A) n i : i < n → py_index (replicate n x) i = FOk x.
Proof. intros Hi. unfold py_index. by rewrite lookup_replicate_2. Qed.

(** The loop over the layers on a plain call: no memory, no query stream,
    no segment ids, no head mask. *)
Lemma forward_layers_plain (self : XLNetModel) (use_mems output_attentions output_hidden_states : bool)
    (non_tgt_mask attn_mask : option (Tensor F)) (r : Tensor F) n N D di name I P B
    (layers : list (XLNetLayer F)) :
  Forall (XLNetLayer_init_shapes (d_model self) N D di name) layers →
  shape r = [P; B; d_model self] →
  0 < I → I < P → 0 < B → 0 < N → 0 < D →
  (∀ m, non_tgt_mask = Some m →
     ∃ mi mj mb mn, shape m = [mi; mj; mb; mn] ∧
       (mi = 1 ∨ mi = I) ∧ (mj = 1 ∨ mj = I) ∧ (mb = 1 ∨ mb = B) ∧ (mn = 1 ∨ mn = N)) →
  ∀ i st,
    i + length layers = n →
    shape (st_output_h st) = [I; B; d_model self] → st_output_g st = None →
    ∃ st' ms hs ps,
      forward_layers self use_mems output_attentions output_hidden_states non_tgt_mask attn_mask
        r None (replicate n None) None (HeadMaskList (replicate n None)) i layers st = FOk st' ∧
      shape (st_output_h st') = [I; B; d_model self] ∧ st_output_g st' = None ∧
      st_new_mems st' = st_new_mems st ++ ms ∧
      length ms = (if use_mems then length layers else 0) ∧
      Forall (λ m, ∃ l, shape m = [l; B; d_model self]) ms ∧
      st_hidden_states st' = st_hidden_states st ++ (HiddenOne <$> hs) ∧
      length hs = (if output_hidden_states then length layers else 0) ∧
      Forall (λ h, shape h = [I; B; d_model self]) hs ∧
      st_attentions st' = st_attentions st ++ (ContentProbs <$> ps) ∧
      length ps = (if output_attentions then length layers else 0) ∧
      Forall (λ p, shape p = [I; I; B; N]) ps.
Proof.
  intros Hlayers Hr HI HP HB HN HD Hmask.
  induction Hlayers as [|l layers Hl Hlayers IH]; intros i st Hi Hh Hg.
  - exists st, [], [], []. cbn [forward_layers fmap list_fmap length].
    rewrite !app_nil_r. repeat split; try done; by destruct use_mems, output_hidden_states,
      output_attentions.
  - cbn [length] in Hi. cbn [forward_layers]. unfold forward_layer at 1.
    rewrite !py_index_replicate by lia. rewrite Hg.
    destruct (cache_mem_None_shape self (st_output_h st) I B _ Hh) as (c & lc & Hc & Hcs).
    destruct (XLNetLayer_forward_plain l (st_output_h st) r non_tgt_mask attn_mask
                output_attentions _ N D di name I P B Hl Hh Hr HI HP HB HN HD Hmask)
      as (h' & probs & Hfw & Hh' & Hprobs).
    set (new_mems := if use_mems then st_new_mems st ++ [c] else st_new_mems st).
    set (hidden := if output_hidden_states
                   then st_hidden_states st ++ [hidden_state_of (st_output_h st) None]
                   else st_hidden_states st).
    assert (Hatt : ∃ ps1, length ps1 = (if output_attentions then 1 else 0) ∧
                     Forall (λ p, shape p = [I; I; B; N]) ps1 ∧
                     (if output_attentions
                      then match probs with
                           | Some a => FOk (st_attentions st ++ [a])
                           | None => FRaise IndexError
                           end
                      else FOk (st_attentions st))
                     = FOk (st_attentions st ++ (ContentProbs <$> ps1))).
    { destruct output_attentions.
      - destruct Hprobs as (p & -> & Hp). exists [p]. split; [done|]. split; [|done].
        by constructor.
      - exists []. split; [done|]. split; [done|]. by rewrite app_nil_r. }
    destruct Hatt as (ps1 & Hps1l & Hps1 & Hatt).
    set (st1 := mkLoopState h' None new_mems hidden (st_attentions st ++ (ContentProbs <$> ps1))).
    destruct (IH (S i) st1) as (st' & ms & hs & ps & Hloop & Hh'' & Hg'' & Hms & Hmsl & Hmsf
                                 & Hhs & Hhsl & Hhsf & Hps & Hpsl & Hpsf); [lia|done|done|].
    assert (Hnm : (if use_mems
                   then m ← FOk None;
                        c0 ← section (engine (cache_mem self (st_output_h st) m));
                        FOk (st_new_mems st ++ [c0])
                   else FOk (st_new_mems st)) = FOk new_mems).
    { unfold new_mems. destruct use_mems; [|done].
      cbn [mbind fresult_bind]. rewrite Hc. done. }
    exists st', ((if use_mems then [c] else []) ++ ms),
      ((if output_hidden_states then [st_output_h st] else []) ++ hs), (ps1 ++ ps).
    split.
    { rewrite Hnm. cbn [mbind fresult_bind]. rewrite Hfw.
      cbn [engine section mbind fresult_bind fst snd]. rewrite Hatt.
      cbn [mbind fresult_bind]. exact Hloop. }
    split; [done|]. split; [done|].
    split; [rewrite Hms; unfold st1, new_mems; cbn [st_new_mems];
            destruct use_mems; by rewrite <-?app_assoc|].
    split; [rewrite length_app, Hmsl; by destruct use_mems|].
    split; [apply Forall_app; split; [|done]; destruct use_mems; [|done];
            constructor; [by exists lc|done]|].
    split; [rewrite Hhs; unfold st1, hidden; cbn [st_hidden_states hidden_state_of];
            destruct output_hidden_states; rewrite ?fmap_app; by rewrite <-?app_assoc|].
    split; [rewrite length_app, Hhsl; by destruct output_hidden_states|].
    split; [apply Forall_app; split; [|done]; destruct output_hidden_states; [|done];
            by constructor|].
    split; [rewrite Hps; unfold st1; cbn [st_attentions]; by rewrite fmap_app, <-app_assoc|].
    split; [rewrite length_app, Hpsl, Hps1l; by destruct output_attentions|].
    by apply Forall_app.
Qed.
End plain_loop.

Section plain_forward.
Context {F : Type} `{FloatOps F, Kernels F}.

Lemma final_hidden_states_plain (hs : list (Tensor F)) I B M :
  Forall (λ h, shape h = [I; B; M]) hs →
  ∃ out, final_hidden_states None (HiddenOne <$> hs) = FOk out ∧
         length out = length hs ∧ Forall (λ h, shape h = [B; I; M]) out.
Proof.
  unfold final_hidden_states. induction 1 as [|h hs Hh Hhs IH].
  - by exists [].
  - destruct IH as (out & Hout & Hlen & Hall).
    destruct (transpose_102 h I B M Hh) as (z & Hz & Hzs).
    exists (z :: out). cbn [fmap list_fmap mapM]. rewrite Hz.
    cbn [engine section mbind fresult_bind]. cbn [fmap list_fmap] in Hout. rewrite Hout.
    cbn [mbind fresult_bind mret fresult_ret length]. split; [done|]. split; [by rewrite Hlen|].
    by constructor.
Qed.

Lemma final_attentions_plain (ps : list (Tensor F)) I J B N :
  Forall (λ p, shape p = [I; J; B; N]) ps →
  ∃ out, final_attentions None (ContentProbs <$> ps) = FOk out ∧
         length out = length ps ∧
         Forall (λ a, ∃ p, a = AttentionTensor p ∧ shape p = [B; N; I; J]) out.
Proof.
  unfold final_attentions. induction 1 as [|p ps Hp Hps IH].
  - by exists [].
  - destruct IH as (out & Hout & Hlen & Hall).
    destruct (transpose_2301 p I J B N Hp) as (z & Hz & Hzs & _).
    exists (AttentionTensor z :: out). cbn [fmap list_fmap mapM]. rewrite Hz.
    cbn [engine section fmap fresult_fmap mbind fresult_bind].
    cbn [fmap list_fmap] in Hout. rewrite Hout.
    cbn [mbind fresult_bind mret fresult_ret length]. split; [done|]. split; [by rewrite Hlen|].
    constructor; [by exists z|done].
Qed.

(** The masks of a call without data masks. *)
Lemma forward_masks_no_data (self : XLNetModel) (qlen bsz : nat) :
  attn_type self = "bi" ∨ attn_type self = "uni" →
  ∃ attn_mask non_tgt_mask,
    forward_masks (F:=F) self qlen bsz 0 None None None = Ok (attn_mask, non_tgt_mask) ∧
    ∀ m, non_tgt_mask = Some m → shape m = [qlen; qlen; 1; 1].
Proof.
  intros [Ht|Ht]; unfold forward_masks; rewrite Ht; cbn [String.eqb Ascii.eqb Bool.eqb].
  - exists None, None. split; [done|]. done.
  - destruct (create_mask_Some (F:=F) self qlen 0) as (m & -> & Hms & Hmw).
    cbn [engine mbind result_bind fmap option_fmap option_map].
    set (am := cast_gt0 (unsqueeze (unsqueeze m 2) 3)).
    assert (Hams : shape am = [qlen; 0 + qlen; 1; 1]).
    { unfold am, cast_gt0, tmap, unsqueeze. cbn [shape]. by rewrite Hms. }
    destruct (non_tgt_mask_of_entries qlen 0 am qlen 1 1 Hams (or_intror eq_refl))
      as (nt & -> & Hnts & _).
    cbn [engine fmap result_fmap mbind result_bind].
    exists (Some am), (Some nt). split; [done|]. by intros ? [= <-].
Qed.

(** The outputs of a call with nothing but the input: token ids or
    embeddings. *)
Lemma XLNetModel_forward_plain_inputs (self : XLNetModel) (params : XLNetModel_parameters F)
    (input_ids : option (Tensor Z)) (inputs_embeds : option (Tensor F))
    (ids' : option (Tensor Z)) (emb' : option (Tensor F)) (e : Tensor F)
    (training use_mems_train use_mems_eval : bool)
    (output_attentions output_hidden_states : bool)
    vocab_size N D d_inner ff_activation bsz qlen :
  XLNetModel_init_shapes self params vocab_size N D d_inner ff_activation →
  0 < N → 0 < D → Nat.even (d_model self) = true →
  attn_type self = "bi" ∨ attn_type self = "uni" →
  (truthy (bi_data self) = true → Nat.even bsz = true) →
  forward_inputs input_ids inputs_embeds = Ok (ids', emb', qlen, bsz) →
  emb' = Some e ∨
    (emb' = None ∧ ∃ i, ids' = Some i ∧ embedding (word_embedding params) i = Some e) →
  shape e = [qlen; bsz; d_model self] → 0 < bsz → 0 < qlen →
  ∃ out,
    XLNetModel_forward self params training input_ids None None None None None None
      None inputs_embeds use_mems_train use_mems_eval output_attentions output_hidden_states
    = FOk out ∧
    shape (last_hidden_state out) = [bsz; qlen; d_model self] ∧
    (if select_use_mems training use_mems_train use_mems_eval
     then ∃ ms, new_mems out = Some ms ∧ length ms = n_layer self ∧
                Forall (λ m, ∃ l, shape m = [l; bsz; d_model self]) ms
     else new_mems out = None) ∧
    (if output_hidden_states
     then ∃ hs, hidden_states out = Some hs ∧ length hs = n_layer self + 1 ∧
                Forall (λ h, shape h = [bsz; qlen; d_model self]) hs
     else hidden_states out = None) ∧
    (if output_attentions
     then ∃ ats, attentions out = Some ats ∧ length ats = n_layer self ∧
                 Forall (λ a, ∃ p, a = AttentionTensor p ∧ shape p = [bsz; N; qlen; qlen]) ats
     else attentions out = None).
Proof.
  intros (Hlen & Hlayers & _) HN HD Hev Ht Hbi Hin Hemb Hes Hbsz Hqlen.
  unfold XLNetModel_forward. rewrite Hin.
  cbn [section transpose_opt mbind fresult_bind].
  destruct (forward_masks_no_data self qlen bsz Ht) as (attn_mask & non_tgt_mask & -> & Hnt).
  cbn [section mbind fresult_bind].
  assert (Hw : match emb', ids' with
               | Some inputs_embeds, _ => FOk inputs_embeds
               | None, Some input_ids =>
                   section (engine (embedding (word_embedding params) input_ids))
               | None, None => FRaise TypeError
               end = FOk e).
  { destruct Hemb as [->|(-> & i & -> & Hi)]; [done|]. by rewrite Hi. }
  rewrite Hw.
  cbn [engine section mbind fresult_bind segment_matrix].
  assert (Hr : ∃ r P, relative_positional_encoding (F:=F) self qlen (0 + qlen)
                        (Some (Z.of_nat bsz)) = Ok r ∧
                      shape r = [P; bsz; d_model self] ∧ qlen < P).
  { assert (Hpr : ∃ beg end_, pos_range self qlen (0 + qlen) = Ok (beg, end_)).
    { unfold pos_range. destruct Ht as [Ht|Ht]; rewrite Ht; cbn [String.eqb Ascii.eqb Bool.eqb];
        by do 2 eexists. }
    destruct Hpr as (beg & end_ & Hpr).
    assert (Hb2 : truthy (bi_data self) = true → (2 <= Z.of_nat bsz)%Z).
    { intros Htr. specialize (Hbi Htr). apply Nat.even_spec in Hbi as [k ->]. lia. }
    destruct (relative_positional_encoding_spec (F:=F) self qlen (0 + qlen) (Z.of_nat bsz)
                beg end_ Hpr ltac:(lia) Hb2) as (r & Hr & _).
    destruct (relative_positional_encoding_Ok_shape self qlen (0 + qlen) bsz r Hr Hbsz Hev Hbi)
      as (P & HP & HPl).
    exists r, P. split; [done|]. split; [done|]. destruct HPl as [[_ ->]|[_ ->]]; lia. }
  destruct Hr as (r & P & -> & Hrs & HP).
  cbn [engine section mbind fresult_bind prepare_head_mask].
  assert (Hh0 : shape (dropout e) = [qlen; bsz; d_model self]).
  { exact Hes. }
  assert (Hmask : ∀ m, non_tgt_mask = Some m →
            ∃ mi mj mb mn, shape m = [mi; mj; mb; mn] ∧
              (mi = 1 ∨ mi = qlen) ∧ (mj = 1 ∨ mj = qlen) ∧ (mb = 1 ∨ mb = bsz) ∧
              (mn = 1 ∨ mn = N)).
  { intros m Hm. rewrite (Hnt m Hm). exists qlen, qlen, 1, 1.
    repeat split; (by left) || (by right). }
  destruct (forward_layers_plain self (select_use_mems training use_mems_train use_mems_eval)
              output_attentions output_hidden_states non_tgt_mask attn_mask (dropout r)
              (length (layer params)) N D d_inner ff_activation qlen P bsz (layer params)
              Hlayers Hrs Hqlen HP Hbsz HN HD Hmask 0
              (mkLoopState (dropout e) None [] [] []) eq_refl Hh0 eq_refl)
    as (st & ms & hs & ps & Hloop & Hsh & Hsg & Hms
        & Hmsl & Hmsf & Hhs & Hhsl & Hhsf & Hps & Hpsl & Hpsf).
  rewrite <-Hlen, Hloop. cbn [mbind fresult_bind]. rewrite Hsg. cbn [default].
  destruct (transpose_102 (dropout (st_output_h st)) qlen bsz (d_model self) Hsh)
    as (out & -> & Houts).
  cbn [engine section mbind fresult_bind].
  cbn [st_new_mems st_hidden_states st_attentions app] in Hms, Hhs, Hps.
  (* hidden states *)
  assert (Hhid : ∃ hid,
            (if output_hidden_states
             then Some <$> final_hidden_states None
                             (if output_hidden_states
                              then st_hidden_states st ++ [hidden_state_of (st_output_h st) None]
                              else st_hidden_states st)
             else FOk None) = FOk hid ∧
            (if output_hidden_states
             then ∃ hs', hid = Some hs' ∧ length hs' = length (layer params) + 1 ∧
                         Forall (λ h, shape h = [bsz; qlen; d_model self]) hs'
             else hid = None)).
  { destruct output_hidden_states; [|by exists None].
    rewrite Hhs. cbn [hidden_state_of].
    change [HiddenOne (st_output_h st)] with (HiddenOne <$> [st_output_h st]).
    rewrite <-fmap_app.
    destruct (final_hidden_states_plain (hs ++ [st_output_h st]) qlen bsz (d_model self))
      as (hs' & -> & Hl' & Hf').
    { apply Forall_app. split; [done|]. by constructor. }
    exists (Some hs'). split; [done|]. exists hs'. split; [done|]. split; [|done].
    rewrite Hl', length_app, Hhsl. simpl. lia. }
  destruct Hhid as (hid & -> & Hhid). cbn [mbind fresult_bind].
  (* attentions *)
  assert (Hat : ∃ ats,
            (if output_attentions
             then Some <$> final_attentions None (st_attentions st)
             else FOk None) = FOk ats ∧
            (if output_attentions
             then ∃ ats', ats = Some ats' ∧ length ats' = length (layer params) ∧
                          Forall (λ a, ∃ p, a = AttentionTensor p ∧
                                            shape p = [bsz; N; qlen; qlen]) ats'
             else ats = None)).
  { destruct output_attentions; [|by exists None].
    rewrite Hps.
    destruct (final_attentions_plain ps qlen qlen bsz N Hpsf) as (ats' & -> & Hl' & Hf').
    exists (Some ats'). split; [done|]. exists ats'. split; [done|]. split; [|done].
    by rewrite Hl', Hpsl. }
  destruct Hat as (ats & -> & Hat). cbn [mbind fresult_bind].
  eexists. split; [done|]. cbn [last_hidden_state new_mems hidden_states attentions].
  split; [done|]. split; [|split; [done|done]].
  destruct (select_use_mems training use_mems_train use_mems_eval); [|done].
  exists ms. rewrite Hms. split; [done|]. split; [by rewrite Hmsl|done].
Qed.

(** The outputs of a plain call: token ids only. *)
Lemma XLNetModel_forward_plain_Ok (self : XLNetModel) (params : XLNetModel_parameters F)
    (input_ids : Tensor Z) (training use_mems_train use_mems_eval : bool)
    (output_attentions output_hidden_states : bool)
    vocab_size N D d_inner ff_activation bsz qlen :
  XLNetModel_init_shapes self params vocab_size N D d_inner ff_activation →
  0 < N → 0 < D → Nat.even (d_model self) = true →
  attn_type self = "bi" ∨ attn_type self = "uni" →
  (truthy (bi_data self) = true → Nat.even bsz = true) →
  shape input_ids = [bsz; qlen] → well_formed input_ids → 0 < bsz → 0 < qlen →
  Forall (λ v, 0 <= v < Z.of_nat vocab_size)%Z (data input_ids) →
  ∃ out,
    XLNetModel_forward self params training (Some input_ids) None None None None None None
      None None use_mems_train use_mems_eval output_attentions output_hidden_states
    = FOk out ∧
    shape (last_hidden_state out) = [bsz; qlen; d_model self] ∧
    (if select_use_mems training use_mems_train use_mems_eval
     then ∃ ms, new_mems out = Some ms ∧ length ms = n_layer self ∧
                Forall (λ m, ∃ l, shape m = [l; bsz; d_model self]) ms
     else new_mems out = None) ∧
    (if output_hidden_states
     then ∃ hs, hidden_states out = Some hs ∧ length hs = n_layer self + 1 ∧
                Forall (λ h, shape h = [bsz; qlen; d_model self]) hs
     else hidden_states out = None) ∧
    (if output_attentions
     then ∃ ats, attentions out = Some ats ∧ length ats = n_layer self ∧
                 Forall (λ a, ∃ p, a = AttentionTensor p ∧ shape p = [bsz; N; qlen; qlen]) ats
     else attentions out = None).
Proof.
  intros Hinit HN HD Hev Ht Hbi Hids Hwf Hbsz Hqlen Hvocab.
  destruct (forward_inputs_ids input_ids bsz qlen Hids) as (ids' & Hin & Hids' & Hdata).
  destruct Hinit as (Hlen & Hlayers & Hemb & Hmask).
  destruct (embedding_Some (word_embedding params) ids' vocab_size (d_model self) Hemb
              (Hdata _ Hwf Hvocab)) as (e & He & Hes).
  apply (XLNetModel_forward_plain_inputs self params (Some input_ids) None (Some ids') None e
           training use_mems_train use_mems_eval output_attentions output_hidden_states
           vocab_size N D d_inner ff_activation bsz qlen); try done.
  - right. split; [done|]. by exists ids'.
  - by rewrite Hes, Hids'.
Qed.

(** X23: a plain call succeeds.  For a model with the shapes the
    constructor creates (an even [d_model], positive head counts and sizes,
    [bi] or [uni] attention, an even batch size when [bi_data] is set) and
    token ids of shape [bsz, qlen] inside the vocabulary, with no other
    tensor argument, [forward] returns a last hidden state of shape
    [bsz, qlen, d_model]; one memory per layer (keeping the batch and feature
    dimensions) exactly when memories are in use for the current mode; the
    [n_layer + 1] hidden states of that same shape and the [n_layer]
    attention tensors of shape [bsz, n_head, qlen, qlen] exactly when they
    are requested. *)
Theorem XLNetModel_forward_plain (self : XLNetModel) (params : XLNetModel_parameters F)
    (input_ids : Tensor Z) (training use_mems_train use_mems_eval : bool)
    (output_attentions output_hidden_states : bool)
    vocab_size N D d_inner ff_activation bsz qlen :
  XLNetModel_init_shapes self params vocab_size N D d_inner ff_activation →
  0 < N → 0 < D → Nat.even (d_model self) = true →
  attn_type self = "bi" ∨ attn_type self = "uni" →
  (truthy (bi_data self) = true → Nat.even bsz = true) →
  shape input_ids = [bsz; qlen] → well_formed input_ids → 0 < bsz → 0 < qlen →
  Forall (λ v, 0 <= v < Z.of_nat vocab_size)%Z (data input_ids) →
  ∃ out,
    XLNetModel_forward self params training (Some input_ids) None None None None None None
      None None use_mems_train use_mems_eval output_attentions output_hidden_states
    = FOk out ∧
    shape (last_hidden_state out) = [bsz; qlen; d_model self] ∧
    (if select_use_mems training use_mems_train use_mems_eval
     then ∃ ms, new_mems out = Some ms ∧ length ms = n_layer self ∧
                Forall (λ m, ∃ l, shape m = [l; bsz; d_model self]) ms
     else new_mems out = None) ∧
    (if output_hidden_states
     then ∃ hs, hidden_states out = Some hs ∧ length hs = n_layer self + 1 ∧
                Forall (λ h, shape h = [bsz; qlen; d_model self]) hs
     else hidden_states out = None) ∧
    (if output_attentions
     then ∃ ats, attentions out = Some ats ∧ length ats = n_layer self ∧
                 Forall (λ a, ∃ p, a = AttentionTensor p ∧ shape p = [bsz; N; qlen; qlen]) ats
     else attentions out = None).
Proof. apply XLNetModel_forward_plain_Ok. Qed.
End plain_forward.

(** X21, witness on the ideal instance: one layer with [d_model = 2] and one
    head of size one, one token, and a memory of one position. *)
Lemma XLNetModel_forward_memory_fails_witness :
  let w := mkTensor [2; 1] [Rdefinitions.IZR 1; Rdefinitions.IZR 1] in
  let b := mkTensor [1; 1] [Rdefinitions.IZR 0] in
  let att := mkXLNetRelativeAttention 1 1 2 w w w w w b b b
               (mkTensor [2; 1; 1] [Rdefinitions.IZR 0; Rdefinitions.IZR 0]) in
  let layers :=
    mkXLNetFeedForward_layers
      (mkLinear w (mkTensor [1] [Rdefinitions.IZR 0]))
      (mkLinear (mkTensor [1; 2] [Rdefinitions.IZR 1; Rdefinitions.IZR 1])
                (mkTensor [2] [Rdefinitions.IZR 0; Rdefinitions.IZR 0]))
      layer_norm_k in
  let l0 := mkXLNetLayer att (mkXLNetFeedForward 2 1 (F_relu (F:=Rdefinitions.R))) layers in
  let self := mkXLNetModel None None 2 false "bi" PyNone (-1) 1 in
  let params :=
    mkXLNetModel_parameters
      (mkTensor [2; 2] [Rdefinitions.IZR 1; Rdefinitions.IZR 2;
                        Rdefinitions.IZR 3; Rdefinitions.IZR 4])
      (mkTensor [1; 1; 2] [Rdefinitions.IZR 0; Rdefinitions.IZR 0]) [l0] in
  let input_ids := mkTensor [1; 1] [1%Z] in
  let m := mkTensor [1; 1; 2] [Rdefinitions.IZR 5; Rdefinitions.IZR 6] in
  ∃ e, XLNetModel_forward self params false (Some input_ids) None None (Some [Some m])
         None None None None None false true false false = FRaise e.
Proof.
  intros w b att layers l0 self params input_ids m.
  apply (XLNetModel_forward_memory_fails self params input_ids m [] l0 [] 2 1 1 1);
    try reflexivity; simpl; lia.
Defined.

(** X22, witness on the ideal instance: the same model and token, with a
    target mapping for one prediction. *)
Lemma XLNetModel_forward_target_mapping_fails_witness :
  let w := mkTensor [2; 1] [Rdefinitions.IZR 1; Rdefinitions.IZR 1] in
  let b := mkTensor [1; 1] [Rdefinitions.IZR 0] in
  let att := mkXLNetRelativeAttention 1 1 2 w w w w w b b b
               (mkTensor [2; 1; 1] [Rdefinitions.IZR 0; Rdefinitions.IZR 0]) in
  let layers :=
    mkXLNetFeedForward_layers
      (mkLinear w (mkTensor [1] [Rdefinitions.IZR 0]))
      (mkLinear (mkTensor [1; 2] [Rdefinitions.IZR 1; Rdefinitions.IZR 1])
                (mkTensor [2] [Rdefinitions.IZR 0; Rdefinitions.IZR 0]))
      layer_norm_k in
  let l0 := mkXLNetLayer att (mkXLNetFeedForward 2 1 (F_relu (F:=Rdefinitions.R))) layers in
  let self := mkXLNetModel None None 2 false "bi" PyNone (-1) 1 in
  let params :=
    mkXLNetModel_parameters
      (mkTensor [2; 2] [Rdefinitions.IZR 1; Rdefinitions.IZR 2;
                        Rdefinitions.IZR 3; Rdefinitions.IZR 4])
      (mkTensor [1; 1; 2] [Rdefinitions.IZR 0; Rdefinitions.IZR 0]) [l0] in
  let input_ids := mkTensor [1; 1] [1%Z] in
  let target_mapping := mkTensor [1; 1; 1] [Rdefinitions.IZR 1] in
  ∃ e, XLNetModel_forward self params false (Some input_ids) None None None
         None (Some target_mapping) None None None false false false false = FRaise e.
Proof.
  intros w b att layers l0 self params input_ids target_mapping.
  apply (XLNetModel_forward_target_mapping_fails self params input_ids target_mapping
           l0 [] 2 1 1); try reflexivity; try (simpl; lia); try discriminate.
  repeat split; reflexivity.
Defined.

(** X23, witness on the ideal instance: the same model on a batch of one
    sequence of two tokens, with memories, hidden states and attentions
    requested. *)
Lemma XLNetModel_forward_plain_witness :
  let w := mkTensor [2; 1] [Rdefinitions.IZR 1; Rdefinitions.IZR 1] in
  let b := mkTensor [1; 1] [Rdefinitions.IZR 0] in
  let att := mkXLNetRelativeAttention 1 1 2 w w w w w b b b
               (mkTensor [2; 1; 1] [Rdefinitions.IZR 0; Rdefinitions.IZR 0]) in
  let layers :=
    mkXLNetFeedForward_layers
      (mkLinear w (mkTensor [1] [Rdefinitions.IZR 0]))
      (mkLinear (mkTensor [1; 2] [Rdefinitions.IZR 1; Rdefinitions.IZR 1])
                (mkTensor [2] [Rdefinitions.IZR 0; Rdefinitions.IZR 0]))
      layer_norm_k in
  let l0 := mkXLNetLayer att (mkXLNetFeedForward 2 1 (F_relu (F:=Rdefinitions.R))) layers in
  let self := mkXLNetModel None None 2 false "bi" PyNone (-1) 1 in
  let params :=
    mkXLNetModel_parameters
      (mkTensor [2; 2] [Rdefinitions.IZR 1; Rdefinitions.IZR 2;
                        Rdefinitions.IZR 3; Rdefinitions.IZR 4])
      (mkTensor [1; 1; 2] [Rdefinitions.IZR 0; Rdefinitions.IZR 0]) [l0] in
  let input_ids := mkTensor [1; 2] [1%Z; 0%Z] in
  ∃ out,
    XLNetModel_forward self params false (Some input_ids) None None None None None None
      None None false true true true = FOk out ∧
    shape (last_hidden_state out) = [1; 2; d_model self] ∧
    (if select_use_mems false false true
     then ∃ ms, new_mems out = Some ms ∧ length ms = n_layer self ∧
                Forall (λ m, ∃ l, shape m = [l; 1; d_model self]) ms
     else new_mems out = None) ∧
    (if true
     then ∃ hs, hidden_states out = Some hs ∧ length hs = n_layer self + 1 ∧
                Forall (λ h, shape h = [1; 2; d_model self]) hs
     else hidden_states out = None) ∧
    (if true
     then ∃ ats, attentions out = Some ats ∧ length ats = n_layer self ∧
                 Forall (λ a, ∃ p, a = AttentionTensor p ∧ shape p = [1; 1; 2; 2]) ats
     else attentions out = None).
Proof.
  intros w b att layers l0 self params input_ids.
  apply (XLNetModel_forward_plain self params input_ids false false true true true
           2 1 1 1 "relu" 1 2); try reflexivity; try (simpl; lia); try discriminate.
  - split; [reflexivity|]. split; [|split; reflexivity].
    constructor; [|constructor]. repeat split; reflexivity.
  - by left.
  - repeat constructor; lia.
Defined.

(** ** The classification models *)

Section classification_facts.
Context {F : Type} `{FloatOps F, Kernels F}.

Lemma XLNetClassificationHead_forward_shape (self : XLNetClassificationHead F)
    (features : Tensor F) B L hidden num_classes :
  XLNetClassificationHead_init_shapes hidden num_classes self →
  shape features = [B; L; hidden] → 0 < L →
  ∃ x, XLNetClassificationHead_forward self features = Ok x ∧ shape x = [B; num_classes].
Proof.
  intros (Hdw & Hdb & How & Hob) Hs HL. unfold XLNetClassificationHead_forward.
  rewrite (index_last_axis1 features B L hidden Hs), decide_True by done.
  cbn [engine mbind result_bind]. set (x := dropout _).
  destruct (Linear_forward_shape (dense self) x [B] hidden hidden (or_introl eq_refl)
              eq_refl Hdw Hdb) as (y & -> & Hys & _).
  cbn [engine mbind result_bind].
  replace (get_activation "tanh") with (Ok (F_tanh (F:=F))) by done.
  cbn [mbind result_bind F_tanh engine].
  destruct (Linear_forward_shape (out_proj self) (dropout (tmap tanh_k y)) [B] hidden
              num_classes (or_introl eq_refl) Hys How Hob) as (z & -> & Hzs & _).
  by exists z.
Qed.

(** X24: sequence classification of a plain call.  Around an encoder with
    the shapes of its constructors (as for a plain call of the encoder), and
    with the head [XLNetForSequenceClassification.__init__] creates, token ids
    of shape [bsz, qlen] give logits of shape [bsz, num_classes]: one row per
    sequence; the memories, hidden states and attentions are passed on as
    the encoder returned them. *)
Theorem XLNetForSequenceClassification_forward_plain
    (self : XLNetForSequenceClassification F) (input_ids : Tensor Z)
    (training use_mems_train use_mems_eval : bool)
    (output_attentions output_hidden_states : bool)
    vocab_size N D d_inner ff_activation num_classes bsz qlen :
  XLNetModel_init_shapes (seq_transformer self) (seq_transformer_parameters self)
    vocab_size N D d_inner ff_activation →
  XLNetForSequenceClassification_init_shapes num_classes self →
  0 < N → 0 < D → Nat.even (d_model (seq_transformer self)) = true →
  attn_type (seq_transformer self) = "bi" ∨ attn_type (seq_transformer self) = "uni" →
  (truthy (bi_data (seq_transformer self)) = true → Nat.even bsz = true) →
  shape input_ids = [bsz; qlen] → well_formed input_ids → 0 < bsz → 0 < qlen →
  Forall (λ v, 0 <= v < Z.of_nat vocab_size)%Z (data input_ids) →
  ∃ out t,
    XLNetForSequenceClassification_forward self training (Some input_ids) None None None
      None None None None None use_mems_train use_mems_eval output_attentions
      output_hidden_states = FOk out ∧
    shape (logits out) = [bsz; num_classes] ∧
    XLNetModel_forward (seq_transformer self) (seq_transformer_parameters self) training
      (Some input_ids) None None None None None None None None use_mems_train use_mems_eval
      output_attentions output_hidden_states = FOk t ∧
    out_mems out = new_mems t ∧ out_hidden_states out = hidden_states t ∧
    out_attentions out = attentions t.
Proof.
  intros Hinit Hcls HN HD Hev Ht Hbi Hids Hwf Hbsz Hqlen Hvocab.
  destruct (XLNetModel_forward_plain_Ok (seq_transformer self)
              (seq_transformer_parameters self) input_ids training use_mems_train
              use_mems_eval output_attentions output_hidden_states vocab_size N D d_inner
              ff_activation bsz qlen Hinit HN HD Hev Ht Hbi Hids Hwf Hbsz Hqlen Hvocab)
    as (t & Ht' & Hts & _).
  destruct (XLNetClassificationHead_forward_shape (seq_classifier self)
              (last_hidden_state t) bsz qlen _ num_classes Hcls Hts Hqlen) as (x & Hx & Hxs).
  unfold XLNetForSequenceClassification_forward. rewrite Ht'.
  cbn [mbind fresult_bind]. rewrite Hx. cbn [section mbind fresult_bind].
  eexists _, t. split; [done|]. split; [done|]. split; [done|]. done.
Qed.

(** X25: token classification of a plain call.  Under the same conditions,
    with the linear classifier [XLNetForTokenClassification.__init__]
    creates, token ids of shape [bsz, qlen] give logits of shape
    [bsz, qlen, num_classes]: one row per token; the memories, hidden states
    and attentions are passed on as the encoder returned them. *)
Theorem XLNetForTokenClassification_forward_plain
    (self : XLNetForTokenClassification F) (input_ids : Tensor Z)
    (training use_mems_train use_mems_eval : bool)
    (output_attentions output_hidden_states : bool)
    vocab_size N D d_inner ff_activation num_classes bsz qlen :
  XLNetModel_init_shapes (tok_transformer self) (tok_transformer_parameters self)
    vocab_size N D d_inner ff_activation →
  XLNetForTokenClassification_init_shapes num_classes self →
  0 < N → 0 < D → Nat.even (d_model (tok_transformer self)) = true →
  attn_type (tok_transformer self) = "bi" ∨ attn_type (tok_transformer self) = "uni" →
  (truthy (bi_data (tok_transformer self)) = true → Nat.even bsz = true) →
  shape input_ids = [bsz; qlen] → well_formed input_ids → 0 < bsz → 0 < qlen →
  Forall (λ v, 0 <= v < Z.of_nat vocab_size)%Z (data input_ids) →
  ∃ out t,
    XLNetForTokenClassification_forward self training (Some input_ids) None None None
      None None None None None use_mems_train use_mems_eval output_attentions
      output_hidden_states = FOk out ∧
    shape (logits out) = [bsz; qlen; num_classes] ∧
    XLNetModel_forward (tok_transformer self) (tok_transformer_parameters self) training
      (Some input_ids) None None None None None None None None use_mems_train use_mems_eval
      output_attentions output_hidden_states = FOk t ∧
    out_mems out = new_mems t ∧ out_hidden_states out = hidden_states t ∧
    out_attentions out = attentions t.
Proof.
  intros Hinit (Hw & Hb) HN HD Hev Ht Hbi Hids Hwf Hbsz Hqlen Hvocab.
  destruct (XLNetModel_forward_plain_Ok (tok_transformer self)
              (tok_transformer_parameters self) input_ids training use_mems_train
              use_mems_eval output_attentions output_hidden_states vocab_size N D d_inner
              ff_activation bsz qlen Hinit HN HD Hev Ht Hbi Hids Hwf Hbsz Hqlen Hvocab)
    as (t & Ht' & Hts & _).
  destruct (Linear_forward_shape (tok_classifier self) (last_hidden_state t) [bsz; qlen]
              _ num_classes (or_intror eq_refl) Hts Hw Hb) as (x & Hx & Hxs & _).
  unfold XLNetForTokenClassification_forward. rewrite Ht'.
  cbn [mbind fresult_bind]. rewrite Hx. cbn [engine section mbind fresult_bind].
  eexists _, t. split; [done|]. split; [done|]. split; [done|]. done.
Qed.
End classification_facts.

(** X24, witness on the ideal instance: one layer with [d_model = 2], a
    batch of one sequence of two tokens, three classes. *)
Lemma XLNetForSequenceClassification_forward_plain_witness :
  let w := mkTensor [2; 1] [Rdefinitions.IZR 1; Rdefinitions.IZR 1] in
  let b := mkTensor [1; 1] [Rdefinitions.IZR 0] in
  let att := mkXLNetRelativeAttention 1 1 2 w w w w w b b b
               (mkTensor [2; 1; 1] [Rdefinitions.IZR 0; Rdefinitions.IZR 0]) in
  let layers :=
    mkXLNetFeedForward_layers
      (mkLinear w (mkTensor [1] [Rdefinitions.IZR 0]))
      (mkLinear (mkTensor [1; 2] [Rdefinitions.IZR 1; Rdefinitions.IZR 1])
                (mkTensor [2] [Rdefinitions.IZR 0; Rdefinitions.IZR 0]))
      layer_norm_k in
  let l0 := mkXLNetLayer att (mkXLNetFeedForward 2 1 (F_relu (F:=Rdefinitions.R))) layers in
  let xlnet := mkXLNetModel None None 2 false "bi" PyNone (-1) 1 in
  let params :=
    mkXLNetModel_parameters
      (mkTensor [2; 2] [Rdefinitions.IZR 1; Rdefinitions.IZR 2;
                        Rdefinitions.IZR 3; Rdefinitions.IZR 4])
      (mkTensor [1; 1; 2] [Rdefinitions.IZR 0; Rdefinitions.IZR 0]) [l0] in
  let head :=
    mkXLNetClassificationHead
      (mkLinear (mkTensor [2; 2] [Rdefinitions.IZR 1; Rdefinitions.IZR 0;
                                  Rdefinitions.IZR 0; Rdefinitions.IZR 1])
                (mkTensor [2] [Rdefinitions.IZR 0; Rdefinitions.IZR 0]))
      (mkLinear (mkTensor [2; 3] [Rdefinitions.IZR 1; Rdefinitions.IZR 0; Rdefinitions.IZR 1;
                                  Rdefinitions.IZR 0; Rdefinitions.IZR 1; Rdefinitions.IZR 1])
                (mkTensor [3] [Rdefinitions.IZR 0; Rdefinitions.IZR 0; Rdefinitions.IZR 0])) in
  let self := mkXLNetForSequenceClassification xlnet params head in
  let input_ids := mkTensor [1; 2] [1%Z; 0%Z] in
  ∃ out t,
    XLNetForSequenceClassification_forward self false (Some input_ids) None None None
      None None None None None false false false false = FOk out ∧
    shape (logits out) = [1; 3] ∧
    XLNetModel_forward xlnet params false
      (Some input_ids) None None None None None None None None false false false false
    = FOk t ∧
    out_mems out = new_mems t ∧ out_hidden_states out = hidden_states t ∧
    out_attentions out = attentions t.
Proof.
  intros w b att layers l0 xlnet params head self input_ids.
  apply (XLNetForSequenceClassification_forward_plain self input_ids false false false
           false false 2 1 1 1 "relu" 3 1 2);
    try reflexivity; try (simpl; lia); try discriminate.
  - split; [reflexivity|]. split; [|split; reflexivity].
    constructor; [|constructor]. repeat split; reflexivity.
  - repeat split; reflexivity.
  - by left.
  - repeat constructor; lia.
Defined.

(** X25, witness on the ideal instance: the same encoder and tokens, a
    linear classifier with three classes. *)
Lemma XLNetForTokenClassification_forward_plain_witness :
  let w := mkTensor [2; 1] [Rdefinitions.IZR 1; Rdefinitions.IZR 1] in
  let b := mkTensor [1; 1] [Rdefinitions.IZR 0] in
  let att := mkXLNetRelativeAttention 1 1 2 w w w w w b b b
               (mkTensor [2; 1; 1] [Rdefinitions.IZR 0; Rdefinitions.IZR 0]) in
  let layers :=
    mkXLNetFeedForward_layers
      (mkLinear w (mkTensor [1] [Rdefinitions.IZR 0]))
      (mkLinear (mkTensor [1; 2] [Rdefinitions.IZR 1; Rdefinitions.IZR 1])
                (mkTensor [2] [Rdefinitions.IZR 0; Rdefinitions.IZR 0]))
      layer_norm_k in
  let l0 := mkXLNetLayer att (mkXLNetFeedForward 2 1 (F_relu (F:=Rdefinitions.R))) layers in
  let xlnet := mkXLNetModel None None 2 false "bi" PyNone (-1) 1 in
  let params :=
    mkXLNetModel_parameters
      (mkTensor [2; 2] [Rdefinitions.IZR 1; Rdefinitions.IZR 2;
                        Rdefinitions.IZR 3; Rdefinitions.IZR 4])
      (mkTensor [1; 1; 2] [Rdefinitions.IZR 0; Rdefinitions.IZR 0]) [l0] in
  let classifier :=
    mkLinear (mkTensor [2; 3] [Rdefinitions.IZR 1; Rdefinitions.IZR 0; Rdefinitions.IZR 1;
                               Rdefinitions.IZR 0; Rdefinitions.IZR 1; Rdefinitions.IZR 1])
             (mkTensor [3] [Rdefinitions.IZR 0; Rdefinitions.IZR 0; Rdefinitions.IZR 0]) in
  let self := mkXLNetForTokenClassification xlnet params classifier in
  let input_ids := mkTensor [1; 2] [1%Z; 0%Z] in
  ∃ out t,
    XLNetForTokenClassification_forward self false (Some input_ids) None None None
      None None None None None false false false false = FOk out ∧
    shape (logits out) = [1; 2; 3] ∧
    XLNetModel_forward xlnet params false
      (Some input_ids) None None None None None None None None false false false false
    = FOk t ∧
    out_mems out = new_mems t ∧ out_hidden_states out = hidden_states t ∧
    out_attentions out = attentions t.
Proof.
  intros w b att layers l0 xlnet params classifier self input_ids.
  apply (XLNetForTokenClassification_forward_plain self input_ids false false false
           false false 2 1 1 1 "relu" 3 1 2);
    try reflexivity; try (simpl; lia); try discriminate.
  - split; [reflexivity|]. split; [|split; reflexivity].
    constructor; [|constructor]. repeat split; reflexivity.
  - split; reflexivity.
  - by left.
  - repeat constructor; lia.
Defined.

(** ** The check of the inputs *)

Section validation_facts.
Context {F : Type} `{FloatOps F, Kernels F}.

Lemma transpose_swap2_rank3 (t : Tensor F) a b c :
  shape t = [a; b; c] →
  transpose t [1; 0]
  = Some (tab [b; a; c] (λ idx, get t [idx !!! 1; idx !!! 0; idx !!! 2])).
Proof.
  intros Hs. unfold transpose, full_perm, rank. rewrite Hs.
  rewrite decide_True; [done|].
  split; [simpl; lia|]. split; [done|]. split; [repeat constructor; lia|].
  apply NoDup_cons. split; [|apply NoDup_singleton].
  intros Hin%list_elem_of_singleton. discriminate.
Qed.

Lemma forward_inputs_embeds (inputs_embeds : Tensor F) bsz qlen dm :
  shape inputs_embeds = [bsz; qlen; dm] →
  ∃ emb', forward_inputs None (Some inputs_embeds) = Ok (None, Some emb', qlen, bsz) ∧
          shape emb' = [qlen; bsz; dm].
Proof.
  intros Hs. unfold forward_inputs.
  rewrite (transpose_swap2_rank3 inputs_embeds bsz qlen dm Hs).
  cbn [engine mbind result_bind shape tab]. eexists. split; [done|]. done.
Qed.

(** The outputs of a plain call with embeddings in place of token ids. *)
Lemma XLNetModel_forward_plain_embeds (self : XLNetModel) (params : XLNetModel_parameters F)
    (inputs_embeds : Tensor F) (training use_mems_train use_mems_eval : bool)
    (output_attentions output_hidden_states : bool)
    vocab_size N D d_inner ff_activation bsz qlen :
  XLNetModel_init_shapes self params vocab_size N D d_inner ff_activation →
  0 < N → 0 < D → Nat.even (d_model self) = true →
  attn_type self = "bi" ∨ attn_type self = "uni" →
  (truthy (bi_data self) = true → Nat.even bsz = true) →
  shape inputs_embeds = [bsz; qlen; d_model self] → 0 < bsz → 0 < qlen →
  ∃ out,
    XLNetModel_forward self params training None None None None None None None
      None (Some inputs_embeds) use_mems_train use_mems_eval output_attentions
      output_hidden_states = FOk out ∧
    shape (last_hidden_state out) = [bsz; qlen; d_model self].
Proof.
  intros Hinit HN HD Hev Ht Hbi Hs Hbsz Hqlen.
  destruct (forward_inputs_embeds inputs_embeds bsz qlen (d_model self) Hs)
    as (emb' & Hin & Hes).
  destruct (XLNetModel_forward_plain_inputs self params None (Some inputs_embeds) None
              (Some emb') emb' training use_mems_train use_mems_eval output_attentions
              output_hidden_states vocab_size N D d_inner ff_activation bsz qlen
              Hinit HN HD Hev Ht Hbi Hin (or_introl eq_refl) Hes Hbsz Hqlen)
    as (out & Hout & Hsh & _).
  by exists out.
Qed.

(** *** Where an error of [forward] can come from *)

Lemma result_bind_Raise {A B} (m : result A) (k : A → result B) e :
  m ≫= k = Raise e → m = Raise e ∨ ∃ a, m = Ok a ∧ k a = Raise e.
Proof.
  destruct m as [a|e']; cbn [mbind result_bind]; intros Hm;
    [right; by exists a|injection Hm as ->; by left].
Qed.

Lemma result_fmap_Raise {A B} (f : A → B) (m : result A) e :
  f <$> m = Raise e → m = Raise e.
Proof. destruct m; [done|]. by intros [= ->]. Qed.

Lemma engine_Raise {A} (o : option A) e : engine o = Raise e → e = EngineError.
Proof. destruct o; [done|]. by intros [= <-]. Qed.

Lemma fresult_bind_FRaise {A B} (m : fresult A) (k : A → fresult B) e :
  m ≫= k = FRaise e → m = FRaise e ∨ ∃ a, m = FOk a ∧ k a = FRaise e.
Proof.
  destruct m as [a|e']; cbn [mbind fresult_bind]; intros Hm;
    [right; by exists a|injection Hm as ->; by left].
Qed.

Lemma fresult_fmap_FRaise {A B} (f : A → B) (m : fresult A) e :
  f <$> m = FRaise e → m = FRaise e.
Proof. destruct m; [done|]. by intros [= ->]. Qed.

Lemma section_FRaise {A} (r : result A) e :
  section r = FRaise e → ∃ e', e = SectionError e' ∧ r = Raise e'.
Proof. destruct r as [a|e']; [done|]. intros [= <-]. by exists e'. Qed.

Lemma section_engine_FRaise {A} (o : option A) e :
  section (engine o) = FRaise e → e = SectionError EngineError.
Proof. destruct o; [done|]. by intros [= <-]. Qed.

Lemma py_index_FRaise {A} (l : list A) i e : py_index l i = FRaise e → e = IndexError.
Proof. unfold py_index. destruct (l !! i); [done|]. by intros [= <-]. Qed.

Lemma mapM_FRaise {A B} (f : A → fresult B) (l : list A) e :
  mapM f l = FRaise e → ∃ x, x ∈ l ∧ f x = FRaise e.
Proof.
  induction l as [|x l IH]; [done|]. cbn [mapM]. intros Hm.
  apply fresult_bind_FRaise in Hm as [Hm|(y & _ & Hm)].
  - exists x. split; [by left|done].
  - apply fresult_bind_FRaise in Hm as [Hm|(k & _ & Hm)]; [|done].
    destruct (IH Hm) as (x' & Hin & Hx'). exists x'. split; [by right|done].
Qed.

Lemma forward_inputs_one_Raise e :
  (∀ ids : Tensor Z, forward_inputs (F:=F) (Some ids) None = Raise e → e = EngineError) ∧
  (∀ emb : Tensor F, forward_inputs None (Some emb) = Raise e → e = EngineError).
Proof.
  split; intros t Hr; unfold forward_inputs in Hr.
  - apply result_bind_Raise in Hr as [Hr|(t' & _ & Hr)]; [by apply engine_Raise in Hr|].
    apply result_bind_Raise in Hr as [Hr|(q & _ & Hr)]; [by apply engine_Raise in Hr|].
    apply result_bind_Raise in Hr as [Hr|(b & _ & Hr)]; [by apply engine_Raise in Hr|done].
  - apply result_bind_Raise in Hr as [Hr|(t' & _ & Hr)]; [by apply engine_Raise in Hr|].
    apply result_bind_Raise in Hr as [Hr|(q & _ & Hr)]; [by apply engine_Raise in Hr|].
    apply result_bind_Raise in Hr as [Hr|(b & _ & Hr)]; [by apply engine_Raise in Hr|done].
Qed.

Lemma transpose_opt_Raise {A} `{Inhabited A} (t : option (Tensor A)) perm e :
  transpose_opt t perm = Raise e → e = EngineError.
Proof.
  destruct t as [t|]; [|done]. cbn [transpose_opt].
  intros Hr%result_fmap_Raise. by apply engine_Raise in Hr.
Qed.

Lemma forward_masks_Raise (self : XLNetModel) (qlen bsz mlen : nat)
    (input_mask attention_mask perm_mask : option (Tensor F)) e :
  forward_masks self qlen bsz mlen input_mask attention_mask perm_mask = Raise e →
  e = EngineError ∨ (∃ msg, e = AssertionError msg) ∨
  e = ValueError ("Unsupported attention type: " +:+ attn_type self).
Proof.
  unfold forward_masks. intros Hr.
  apply result_bind_Raise in Hr as [Hr|(am & _ & Hr)].
  { destruct (String.eqb (attn_type self) "uni").
    - apply result_bind_Raise in Hr as [Hr|(m & _ & Hr)]; [|done].
      left. by apply engine_Raise in Hr.
    - destruct (String.eqb (attn_type self) "bi"); [done|].
      injection Hr as <-. by right; right. }
  apply result_bind_Raise in Hr as [Hr|(im & _ & Hr)].
  { destruct input_mask, attention_mask; try done.
    injection Hr as <-. right; left. by eexists. }
  apply result_bind_Raise in Hr as [Hr|(dm & _ & Hr)].
  { destruct im, perm_mask; try done.
    apply result_fmap_Raise, engine_Raise in Hr. by left. }
  apply result_bind_Raise in Hr as [Hr|(am' & _ & Hr)].
  { destruct dm as [dm|]; [|done].
    apply result_bind_Raise in Hr as [Hr|(dm' & _ & Hr)].
    - case_decide; [|done].
      apply result_bind_Raise in Hr as [Hr|(d0 & _ & Hr)];
        apply engine_Raise in Hr; by left.
    - destruct am; [|done]. apply result_fmap_Raise, engine_Raise in Hr. by left. }
  apply result_bind_Raise in Hr as [Hr|(nt & _ & Hr)]; [|done].
  destruct (cast_gt0 <$> am'); [|done].
  apply result_fmap_Raise, engine_Raise in Hr. by left.
Qed.

Lemma relative_positional_encoding_Raise (self : XLNetModel) (qlen klen : nat)
    (bsz : option Z) e :
  relative_positional_encoding (F:=F) self qlen klen bsz = Raise e →
  e = EngineError ∨ e = ValueError ("Unknown `attn_type` " +:+ attn_type self +:+ ".").
Proof.
  unfold relative_positional_encoding. intros Hr.
  apply result_bind_Raise in Hr as [Hr|([beg end_] & _ & Hr)].
  { unfold pos_range in Hr. destruct (String.eqb (attn_type self) "bi"); [done|].
    destruct (String.eqb (attn_type self) "uni"); [done|]. injection Hr as <-. by right. }
  left. destruct (truthy (bi_data self)).
  - apply result_bind_Raise in Hr as [Hr|(f & _ & Hr)]; [by apply engine_Raise in Hr|].
    apply result_bind_Raise in Hr as [Hr|(b & _ & Hr)]; by apply engine_Raise in Hr.
  - by apply engine_Raise in Hr.
Qed.

Lemma forward_layers_FRaise (self : XLNetModel)
    (use_mems output_attentions output_hidden_states : bool)
    (non_tgt_mask attn_mask : option (Tensor F)) (pos_emb : Tensor F)
    (seg_mat : option (Tensor F)) (mems : list (option (Tensor F)))
    (target_mapping : option (Tensor F)) (head_mask : HeadMasks F)
    (layers : list (XLNetLayer F)) i st e :
  forward_layers self use_mems output_attentions output_hidden_states non_tgt_mask attn_mask
    pos_emb seg_mat mems target_mapping head_mask i layers st = FRaise e →
  e = SectionError EngineError ∨ e = IndexError.
Proof.
  revert i st. induction layers as [|l layers IH]; intros i st; [done|].
  cbn [forward_layers]. intros Hr.
  apply fresult_bind_FRaise in Hr as [Hr|(st' & _ & Hr)]; [|by eapply IH].
  unfold forward_layer in Hr.
  apply fresult_bind_FRaise in Hr as [Hr|(nm & _ & Hr)].
  { destruct use_mems; [|done].
    apply fresult_bind_FRaise in Hr as [Hr|(m & _ & Hr)]; [right; by apply py_index_FRaise in Hr|].
    apply fresult_bind_FRaise in Hr as [Hr|(c & _ & Hr)]; [|done].
    left. by apply section_engine_FRaise in Hr. }
  apply fresult_bind_FRaise in Hr as [Hr|(m & _ & Hr)]; [right; by apply py_index_FRaise in Hr|].
  apply fresult_bind_FRaise in Hr as [Hr|(hm & _ & Hr)].
  { destruct head_mask.
    - left. by apply section_engine_FRaise in Hr.
    - right. by apply py_index_FRaise in Hr. }
  apply fresult_bind_FRaise in Hr as [Hr|(outputs & _ & Hr)];
    [left; by apply section_engine_FRaise in Hr|].
  apply fresult_bind_FRaise in Hr as [Hr|(atts & _ & Hr)]; [|done].
  destruct output_attentions; [|done]. destruct (outputs.2); [done|].
  injection Hr as <-. by right.
Qed.

Lemma final_hidden_states_FRaise (output_g : option (Tensor F))
    (hidden_states : list (HiddenState F)) e :
  final_hidden_states output_g hidden_states = FRaise e →
  e = SectionError EngineError ∨ e = TypeError.
Proof.
  unfold final_hidden_states. destruct output_g as [g|]; intros Hr.
  - apply fresult_bind_FRaise in Hr as [Hr|(hs & _ & Hr)].
    + apply mapM_FRaise in Hr as ([h g'|h] & _ & Hx); [done|].
      left. by apply section_engine_FRaise in Hx.
    + left. by apply section_engine_FRaise in Hr.
  - apply mapM_FRaise in Hr as ([h g'|h] & _ & Hx).
    + injection Hx as <-. by right.
    + left. by apply section_engine_FRaise in Hx.
Qed.

Lemma final_attentions_FRaise (target_mapping : option (Tensor F))
    (attentions : list (AttnProbs F)) e :
  final_attentions target_mapping attentions = FRaise e →
  e = SectionError EngineError ∨ e = TypeError.
Proof.
  unfold final_attentions. destruct target_mapping as [tm|]; intros Hr.
  - apply mapM_FRaise in Hr as (t & _ & Hx).
    apply fresult_bind_FRaise in Hx as [Hx|(streams & _ & Hx)].
    + destruct t; [|done]. left. by apply section_engine_FRaise in Hx.
    + apply fresult_fmap_FRaise in Hx. left. by apply section_engine_FRaise in Hx.
  - apply mapM_FRaise in Hr as ([p|ph pg] & _ & Hx).
    + apply fresult_fmap_FRaise in Hx. left. by apply section_engine_FRaise in Hx.
    + injection Hx as <-. by right.
Qed.
End validation_facts.

Section validation_claim.
Context {F : Type} `{FloatOps F, Kernels F}.

(** Past the check of its inputs, [forward] raises only the errors of the
    later stages. *)
Lemma XLNetModel_forward_later_error (self : XLNetModel) (params : XLNetModel_parameters F)
    (training : bool) (input_ids token_type_ids : option (Tensor Z))
    (attention_mask : option (Tensor F)) (mems : option (list (option (Tensor F))))
    (perm_mask target_mapping input_mask head_mask inputs_embeds : option (Tensor F))
    (use_mems_train use_mems_eval output_attentions output_hidden_states : bool) e :
  (∀ e', forward_inputs input_ids inputs_embeds = Raise e' → e' = EngineError) →
  XLNetModel_forward self params training input_ids token_type_ids attention_mask mems
    perm_mask target_mapping input_mask head_mask inputs_embeds use_mems_train use_mems_eval
    output_attentions output_hidden_states = FRaise e →
  e = SectionError EngineError ∨ e = IndexError ∨ e = TypeError ∨
  (∃ msg, e = SectionError (AssertionError msg)) ∨
  e = SectionError (ValueError ("Unsupported attention type: " +:+ attn_type self)) ∨
  e = SectionError (ValueError ("Unknown `attn_type` " +:+ attn_type self +:+ ".")).
Proof.
  intros Hin. unfold XLNetModel_forward. intros Hr.
  apply fresult_bind_FRaise in Hr as [Hr|([[[ids emb] qlen] bsz] & _ & Hr)].
  { apply section_FRaise in Hr as (e' & -> & Hr). rewrite (Hin e' Hr). by left. }
  apply fresult_bind_FRaise in Hr as [Hr|(tt & _ & Hr)].
  { apply section_FRaise in Hr as (e' & -> & Hr%transpose_opt_Raise). subst. by left. }
  apply fresult_bind_FRaise in Hr as [Hr|(im & _ & Hr)].
  { apply section_FRaise in Hr as (e' & -> & Hr%transpose_opt_Raise). subst. by left. }
  apply fresult_bind_FRaise in Hr as [Hr|(am & _ & Hr)].
  { apply section_FRaise in Hr as (e' & -> & Hr%transpose_opt_Raise). subst. by left. }
  apply fresult_bind_FRaise in Hr as [Hr|(pm & _ & Hr)].
  { apply section_FRaise in Hr as (e' & -> & Hr%transpose_opt_Raise). subst. by left. }
  apply fresult_bind_FRaise in Hr as [Hr|(tm & _ & Hr)].
  { apply section_FRaise in Hr as (e' & -> & Hr%transpose_opt_Raise). subst. by left. }
  apply fresult_bind_FRaise in Hr as [Hr|(mlen & _ & Hr)].
  { right; left. destruct mems as [ms|]; [|done].
    apply fresult_bind_FRaise in Hr as [Hr|(m & _ & Hr)]; [by apply py_index_FRaise in Hr|].
    destruct m as [m|]; [|done]. by apply py_index_FRaise in Hr. }
  apply fresult_bind_FRaise in Hr as [Hr|([attn_mask non_tgt_mask] & _ & Hr)].
  { apply section_FRaise in Hr as (e' & -> & Hr).
    apply forward_masks_Raise in Hr as [->|[(msg & ->)| ->]].
    - by left.
    - do 3 right. left. by exists msg.
    - do 4 right. by left. }
  apply fresult_bind_FRaise in Hr as [Hr|(word_emb_k & _ & Hr)].
  { destruct emb as [emb|]; [done|]. destruct ids as [ids|].
    - left. by apply section_engine_FRaise in Hr.
    - injection Hr as <-. right; right; by left. }
  apply fresult_bind_FRaise in Hr as [Hr|(output_g & _ & Hr)].
  { destruct tm as [tm|]; [|done].
    apply fresult_bind_FRaise in Hr as [Hr|(t0 & _ & Hr)];
      [right; left; by apply py_index_FRaise in Hr|].
    apply fresult_bind_FRaise in Hr as [Hr|(q & _ & Hr)]; [|done].
    left. by apply section_engine_FRaise in Hr. }
  apply fresult_bind_FRaise in Hr as [Hr|(seg_mat & _ & Hr)].
  { left. by apply section_engine_FRaise in Hr. }
  apply fresult_bind_FRaise in Hr as [Hr|(pos_emb & _ & Hr)].
  { apply section_FRaise in Hr as (e' & -> & Hr).
    apply relative_positional_encoding_Raise in Hr as [->| ->].
    - by left.
    - by do 5 right. }
  apply fresult_bind_FRaise in Hr as [Hr|(hmask & _ & Hr)].
  { left. by apply section_engine_FRaise in Hr. }
  apply fresult_bind_FRaise in Hr as [Hr|(st & _ & Hr)].
  { apply forward_layers_FRaise in Hr as [->| ->]; [by left|right; by left]. }
  apply fresult_bind_FRaise in Hr as [Hr|(output & _ & Hr)].
  { left. by apply section_engine_FRaise in Hr. }
  apply fresult_bind_FRaise in Hr as [Hr|(hidden & _ & Hr)].
  { destruct output_hidden_states; [|done].
    apply fresult_fmap_FRaise, final_hidden_states_FRaise in Hr as [->| ->];
      [by left|right; right; by left]. }
  apply fresult_bind_FRaise in Hr as [Hr|(atts & _ & Hr)]; [|done].
  destruct output_attentions; [|done].
  apply fresult_fmap_FRaise, final_attentions_FRaise in Hr as [->| ->];
    [by left|right; right; by left].
Qed.

(** C8: the check of the inputs of [forward].  With both [input_ids] and
    [inputs_embeds], and with neither, [forward] raises the [ValueError] of
    the check whatever the inputs and the other arguments are, also those on
    which every later stage would raise: nothing is computed before it.  With
    exactly one of the two, [forward] never raises either of these errors,
    and on a well-shaped model it runs to the end, for token ids of shape
    [bsz, qlen] as for embeddings of shape [bsz, qlen, d_model]. *)
Theorem XLNetModel_forward_validation (self : XLNetModel) (params : XLNetModel_parameters F) :
  (∀ (ids : Tensor Z) (emb : Tensor F) training token_type_ids attention_mask mems perm_mask
     target_mapping input_mask head_mask use_mems_train use_mems_eval output_attentions
     output_hidden_states,
     XLNetModel_forward self params training (Some ids) token_type_ids attention_mask mems
       perm_mask target_mapping input_mask head_mask (Some emb) use_mems_train use_mems_eval
       output_attentions output_hidden_states
     = FRaise (SectionError (ValueError
         "You cannot specify both input_ids and inputs_embeds at the same time"))) ∧
  (∀ training token_type_ids attention_mask mems perm_mask target_mapping input_mask
     head_mask use_mems_train use_mems_eval output_attentions output_hidden_states,
     XLNetModel_forward self params training None token_type_ids attention_mask mems
       perm_mask target_mapping input_mask head_mask None use_mems_train use_mems_eval
       output_attentions output_hidden_states
     = FRaise (SectionError (ValueError
         "You have to specify either input_ids or inputs_embeds"))) ∧
  (∀ input_ids inputs_embeds training token_type_ids attention_mask mems perm_mask
     target_mapping input_mask head_mask use_mems_train use_mems_eval output_attentions
     output_hidden_states e,
     (∃ ids : Tensor Z, input_ids = Some ids ∧ inputs_embeds = None) ∨
     (∃ emb : Tensor F, input_ids = None ∧ inputs_embeds = Some emb) →
     XLNetModel_forward self params training input_ids token_type_ids attention_mask mems
       perm_mask target_mapping input_mask head_mask inputs_embeds use_mems_train
       use_mems_eval output_attentions output_hidden_states = FRaise e →
     e ≠ SectionError (ValueError
            "You cannot specify both input_ids and inputs_embeds at the same time") ∧
     e ≠ SectionError (ValueError "You have to specify either input_ids or inputs_embeds")) ∧
  (∀ vocab_size N D d_inner ff_activation bsz qlen training use_mems_train use_mems_eval
     output_attentions output_hidden_states,
     XLNetModel_init_shapes self params vocab_size N D d_inner ff_activation →
     0 < N → 0 < D → Nat.even (d_model self) = true →
     attn_type self = "bi" ∨ attn_type self = "uni" →
     (truthy (bi_data self) = true → Nat.even bsz = true) → 0 < bsz → 0 < qlen →
     (∀ ids : Tensor Z,
        shape ids = [bsz; qlen] → well_formed ids →
        Forall (λ v, 0 <= v < Z.of_nat vocab_size)%Z (data ids) →
        ∃ out, XLNetModel_forward self params training (Some ids) None None None None None
                 None None None use_mems_train use_mems_eval output_attentions
                 output_hidden_states = FOk out ∧
               shape (last_hidden_state out) = [bsz; qlen; d_model self]) ∧
     (∀ emb : Tensor F,
        shape emb = [bsz; qlen; d_model self] →
        ∃ out, XLNetModel_forward self params training None None None None None None
                 None None (Some emb) use_mems_train use_mems_eval output_attentions
                 output_hidden_states = FOk out ∧
               shape (last_hidden_state out) = [bsz; qlen; d_model self])).
Proof.
  split; [done|]. split; [done|]. split.
  - intros input_ids inputs_embeds training tt am mems pm tm im hm umt ume oa ohs e Hone Hr.
    apply XLNetModel_forward_later_error in Hr.
    + destruct Hr as [->|[->|[->|[(msg & ->)|[->| ->]]]]]; split; try discriminate.
    + intros e' He'. destruct (forward_inputs_one_Raise e') as [Hids Hemb].
      destruct Hone as [(ids & -> & ->)|(emb & -> & ->)]; [by eapply Hids|by eapply Hemb].
  - intros vocab_size N D d_inner ff_activation bsz qlen training umt ume oa ohs
      Hinit HN HD Hev Ht Hbi Hbsz Hqlen. split.
    + intros ids Hs Hwf Hvocab.
      destruct (XLNetModel_forward_plain_Ok self params ids training umt ume oa ohs
                  vocab_size N D d_inner ff_activation bsz qlen
                  Hinit HN HD Hev Ht Hbi Hs Hwf Hbsz Hqlen Hvocab) as (out & Hout & Hsh & _).
      by exists out.
    + intros emb Hs.
      exact (XLNetModel_forward_plain_embeds self params emb training umt ume oa ohs
               vocab_size N D d_inner ff_activation bsz qlen
               Hinit HN HD Hev Ht Hbi Hs Hbsz Hqlen).
Qed.
End validation_claim.

(** C8, witness on the ideal instance: one layer with [d_model = 2] and one
    head of size one; token ids of shape [1, 2], and embeddings of shape
    [1, 2, 2]. *)
Lemma XLNetModel_forward_validation_witness :
  let w := mkTensor [2; 1] [Rdefinitions.IZR 1; Rdefinitions.IZR 1] in
  let b := mkTensor [1; 1] [Rdefinitions.IZR 0] in
  let att := mkXLNetRelativeAttention 1 1 2 w w w w w b b b
               (mkTensor [2; 1; 1] [Rdefinitions.IZR 0; Rdefinitions.IZR 0]) in
  let layers :=
    mkXLNetFeedForward_layers
      (mkLinear w (mkTensor [1] [Rdefinitions.IZR 0]))
      (mkLinear (mkTensor [1; 2] [Rdefinitions.IZR 1; Rdefinitions.IZR 1])
                (mkTensor [2] [Rdefinitions.IZR 0; Rdefinitions.IZR 0]))
      layer_norm_k in
  let l0 := mkXLNetLayer att (mkXLNetFeedForward 2 1 (F_relu (F:=Rdefinitions.R))) layers in
  let self := mkXLNetModel None None 2 false "bi" PyNone (-1) 1 in
  let params :=
    mkXLNetModel_parameters
      (mkTensor [2; 2] [Rdefinitions.IZR 1; Rdefinitions.IZR 2;
                        Rdefinitions.IZR 3; Rdefinitions.IZR 4])
      (mkTensor [1; 1; 2] [Rdefinitions.IZR 0; Rdefinitions.IZR 0]) [l0] in
  let ids := mkTensor [1; 2] [1%Z; 0%Z] in
  let emb := mkTensor [1; 2; 2] [Rdefinitions.IZR 1; Rdefinitions.IZR 2;
                                 Rdefinitions.IZR 3; Rdefinitions.IZR 4] in
  (∃ out, XLNetModel_forward self params false (Some ids) None None None None None
            None None None false false false false = FOk out ∧
          shape (last_hidden_state out) = [1; 2; d_model self]) ∧
  (∃ out, XLNetModel_forward self params false None None None None None None
            None None (Some emb) false false false false = FOk out ∧
          shape (last_hidden_state out) = [1; 2; d_model self]).
Proof.
  intros w b att layers l0 self params ids emb.
  assert (Hinit : XLNetModel_init_shapes self params 2 1 1 1 "relu").
  { split; [reflexivity|]. split; [|split; reflexivity].
    constructor; [|constructor]. repeat split; reflexivity. }
  destruct (proj2 (proj2 (proj2 (XLNetModel_forward_validation self params)))
              2 1 1 1 "relu" 1 2 false false false false false Hinit)
    as [Hids Hemb]; try reflexivity; try (simpl; lia); try discriminate; [by left|].
  split.
  - apply (Hids ids); [reflexivity|reflexivity|]. repeat constructor; lia.
  - apply (Hemb emb). reflexivity.
Defined.

(** ** Attention probabilities *)

Section probability_facts.
Context {F : Type} `{FloatOps F, Kernels F}.

Lemma get_softmax_axis3 (s : Tensor F) B N I J b n i j :
  shape s = [B; N; I; J] → b < B → n < N → i < I → j < J →
  get (softmax_axis3 s) [b; n; i; j]
  = softmax_k ((λ j', get s [b; n; i; j']) <$> seq 0 J) !!! j.
Proof.
  intros Hs Hb Hn Hi Hj. unfold softmax_axis3. rewrite Hs.
  rewrite get_tab by (by apply in_range4). done.
Qed.

(** The probabilities [attend] returns on request, entry by entry. *)
Lemma attend_probs (attn_score v_head_h : Tensor F) (head_mask : option (Tensor F))
    I J B N D :
  shape attn_score = [B; N; I; J] → shape v_head_h = [J; B; N; D] →
  (∀ m, head_mask = Some m →
     ∃ hi hj hb hn, shape m = [hi; hj; hb; hn] ∧
       (hi = 1 ∨ hi = I) ∧ (hj = 1 ∨ hj = J) ∧ (hb = 1 ∨ hb = B) ∧ (hn = 1 ∨ hn = N)) →
  ∃ attn_vec attn_prob,
    attend attn_score v_head_h head_mask true = Some (attn_vec, Some attn_prob) ∧
    shape attn_prob = [I; J; B; N] ∧
    ∀ i j b n, i < I → j < J → b < B → n < N →
      get attn_prob [i; j; b; n]
      = let p := get (dropout (softmax_axis3 attn_score)) [b; n; i; j] in
        match head_mask with
        | None => p
        | Some m => fmul p (get m (bidx (shape m) [i; j; b; n]))
        end.
Proof.
  intros Hs Hv Hmask. unfold attend.
  set (p0 := dropout (softmax_axis3 attn_score)).
  assert (Hp0 : shape p0 = [B; N; I; J]) by done.
  assert (Hp : ∃ p, match head_mask with
                    | None => Some p0
                    | Some head_mask => hm ← transpose head_mask [2; 3; 0; 1]; tmul p0 hm
                    end = Some p ∧ shape p = [B; N; I; J] ∧
                    ∀ b n i j, b < B → n < N → i < I → j < J →
                      get p [b; n; i; j]
                      = match head_mask with
                        | None => get p0 [b; n; i; j]
                        | Some m => fmul (get p0 [b; n; i; j]) (get m (bidx (shape m) [i; j; b; n]))
                        end).
  { destruct head_mask as [m|]; [|by exists p0].
    destruct (Hmask m eq_refl) as (hi & hj & hb & hn & Hm & Hhi & Hhj & Hhb & Hhn).
    destruct (head_masked p0 m B N I J hi hj hb hn Hp0 Hm Hhi Hhj Hhb Hhn)
      as (p & -> & Hps & Hpe).
    exists p. split; [done|]. split; [done|]. by rewrite Hm. }
  destruct Hp as (p & -> & Hps & Hpe). cbn [mbind option_bind].
  destruct (einsum4x4_values p v_head_h I J B N D Hps Hv) as (av & -> & _).
  cbn [mbind option_bind].
  destruct (transpose_2301 p B N I J Hps) as (t & -> & Hts & _ & Ht).
  cbn [mbind option_bind]. exists av, t. split; [done|]. split; [done|].
  intros i j b n Hi Hj Hb Hn. rewrite Ht by done. by apply Hpe.
Qed.

(** The probabilities [rel_attn_core] returns on request: the softmax of
    the score, after dropout and the head mask. *)
Lemma rel_attn_core_probs (self : XLNetRelativeAttention F)
    (q_head k_head_h v_head_h k_head_r : Tensor F)
    (seg_mat attn_mask head_mask : option (Tensor F)) I J P B :
  XLNetRelativeAttention_init_shapes self →
  let N := n_head self in
  let D := d_head self in
  shape q_head = [I; B; N; D] → shape k_head_h = [J; B; N; D] →
  shape v_head_h = [J; B; N; D] → shape k_head_r = [P; B; N; D] →
  0 < B → 0 < N → 0 < I → 0 < J → J < P →
  (∀ m, seg_mat = Some m → shape m = [I; J; B; 2]) →
  (∀ m, attn_mask = Some m →
     ∃ mi mj mb mn, shape m = [mi; mj; mb; mn] ∧
       (mi = 1 ∨ mi = I) ∧ (mj = 1 ∨ mj = J) ∧ (mb = 1 ∨ mb = B) ∧ (mn = 1 ∨ mn = N)) →
  (∀ m, head_mask = Some m →
     ∃ hi hj hb hn, shape m = [hi; hj; hb; hn] ∧
       (hi = 1 ∨ hi = I) ∧ (hj = 1 ∨ hj = J) ∧ (hb = 1 ∨ hb = B) ∧ (hn = 1 ∨ hn = N)) →
  ∃ s attn_vec attn_prob,
    attn_score self q_head k_head_h k_head_r seg_mat attn_mask = Some s ∧
    shape s = [B; N; I; J] ∧
    rel_attn_core self q_head k_head_h v_head_h k_head_r seg_mat attn_mask head_mask true
    = Some (attn_vec, Some attn_prob) ∧
    shape attn_prob = [I; J; B; N] ∧
    ∀ i j b n, i < I → j < J → b < B → n < N →
      get attn_prob [i; j; b; n]
      = let p := get (dropout (softmax_axis3 s)) [b; n; i; j] in
        match head_mask with
        | None => p
        | Some m => fmul p (get m (bidx (shape m) [i; j; b; n]))
        end.
Proof.
  intros (_ & _ & _ & _ & _ & Hrr & Hrs & Hrw & Hse) N D Hq Hk Hv Hkr HB HN HI HJ0 HJ
    Hseg Hmask Hhead.
  destruct (content_score_spec self q_head k_head_h I J B N D Hq Hk Hrw)
    as (ac & Hac & Hacs & _ & _).
  destruct (position_score_Some self q_head k_head_r I J P B N D Hq Hkr Hrr HB HN HI)
    as (bd & Hbd & Hbds & _); [lia..|].
  destruct (segment_score_Some self q_head seg_mat I J B N D Hq Hrs Hse HI Hseg)
    as (ef & Hef & Hefs).
  destruct (merge_scores_spec self ac bd ef attn_mask B N I J Hacs Hbds Hefs Hmask)
    as (s & Hs & Hss & _).
  assert (Hscore : attn_score self q_head k_head_h k_head_r seg_mat attn_mask = Some s).
  { unfold attn_score. rewrite Hac. cbn [mbind option_bind]. rewrite Hacs.
    change ([B; N; I; J] !! 3) with (Some J). cbn [mbind option_bind].
    rewrite Hbd. cbn [mbind option_bind]. rewrite Hef. cbn [mbind option_bind]. exact Hs. }
  destruct (attend_probs s v_head_h head_mask I J B N D Hss Hv Hhead)
    as (av & p & Ha & Hps & Hp).
  exists s, av, p. split; [done|]. split; [done|].
  split; [unfold rel_attn_core; rewrite Hscore; exact Ha|]. done.
Qed.
End probability_facts.

Section ideal_probabilities.
Import Reals Lra.
#[local] Open Scope R_scope.

Lemma Rsum_fmap_scale {A} (f : A → R) (c : R) (l : list A) :
  Rsum ((λ a, f a * c) <$> l) = Rsum (f <$> l) * c.
Proof.
  induction l as [|a l IH]; cbn [fmap list_fmap Rsum foldr]; [lra|].
  fold (Rsum ((λ a, f a * c) <$> l)). fold (Rsum (f <$> l)). rewrite IH. lra.
Qed.

Lemma Rsum_exp_pos (l : list R) : l ≠ [] → 0 < Rsum (exp <$> l).
Proof.
  assert (Hge : ∀ l', 0 <= Rsum (exp <$> l')).
  { induction l' as [|a l' IH]; cbn [fmap list_fmap Rsum foldr]; [lra|].
    fold (Rsum (exp <$> l')). pose proof (exp_pos a). lra. }
  destruct l as [|a l]; [done|]. intros _. cbn [fmap list_fmap Rsum foldr].
  fold (Rsum (exp <$> l)). pose proof (exp_pos a). pose proof (Hge l). lra.
Qed.

(** The softmax of a non-empty row sums to one. *)
Lemma softmax_k_sum (l : list R) : l ≠ [] → Rsum (softmax_k l) = 1.
Proof.
  intros Hl. cbn [softmax_k R_Kernels].
  pose proof (Rsum_exp_pos l Hl) as Hpos.
  unfold Rdiv. rewrite (Rsum_fmap_scale exp). apply Rinv_r. lra.
Qed.

Lemma get_dropout_eval (t : Tensor R) idx : get (dropout t) idx = get t idx.
Proof. done. Qed.

(** Row sums of the returned probabilities. *)
Lemma rel_attn_core_row_sums (self : XLNetRelativeAttention R)
    (q_head k_head_h v_head_h k_head_r : Tensor R)
    (seg_mat attn_mask head_mask : option (Tensor R)) (I J P B : nat) :
  XLNetRelativeAttention_init_shapes self →
  let N := n_head self in
  let D := d_head self in
  shape q_head = [I; B; N; D] → shape k_head_h = [J; B; N; D] →
  shape v_head_h = [J; B; N; D] → shape k_head_r = [P; B; N; D] →
  (0 < B)%nat → (0 < N)%nat → (0 < I)%nat → (0 < J)%nat → (J < P)%nat →
  (∀ m, seg_mat = Some m → shape m = [I; J; B; 2%nat]) →
  (∀ m, attn_mask = Some m →
     ∃ mi mj mb mn, shape m = [mi; mj; mb; mn] ∧
       (mi = 1%nat ∨ mi = I) ∧ (mj = 1%nat ∨ mj = J) ∧ (mb = 1%nat ∨ mb = B) ∧
       (mn = 1%nat ∨ mn = N)) →
  (∀ m, head_mask = Some m →
     ∃ hi hb hn, shape m = [hi; 1%nat; hb; hn] ∧
       (hi = 1%nat ∨ hi = I) ∧ (hb = 1%nat ∨ hb = B) ∧ (hn = 1%nat ∨ hn = N)) →
  ∃ attn_vec attn_prob,
    rel_attn_core self q_head k_head_h v_head_h k_head_r seg_mat attn_mask head_mask true
    = Some (attn_vec, Some attn_prob) ∧
    shape attn_prob = [I; J; B; N] ∧
    ∀ i b n, (i < I)%nat → (b < B)%nat → (n < N)%nat →
      Rsum ((λ j, get attn_prob [i; j; b; n]) <$> seq 0 J)
      = match head_mask with
        | None => 1
        | Some m => get m (bidx (shape m) [i; 0%nat; b; n])
        end.
Proof.
  intros Hinit N D Hq Hk Hv Hkr HB HN HI HJ0 HJ Hseg Hmask Hhead.
  destruct (rel_attn_core_probs self q_head k_head_h v_head_h k_head_r seg_mat attn_mask
              head_mask I J P B Hinit Hq Hk Hv Hkr HB HN HI HJ0 HJ Hseg Hmask)
    as (s & av & p & _ & Hss & Hcore & Hps & Hp).
  { intros m Hm. destruct (Hhead m Hm) as (hi & hb & hn & Hms & Hhi & Hhb & Hhn).
    exists hi, 1%nat, hb, hn. split; [done|]. split; [done|]. split; [by left|]. done. }
  exists av, p. split; [done|]. split; [done|].
  intros i b n Hi Hb Hn.
  set (row := (λ j', get s [b; n; i; j']) <$> seq 0 J).
  assert (Hrow : row ≠ []).
  { intros Hnil. apply (f_equal length) in Hnil. unfold row in Hnil.
    rewrite length_fmap, length_seq in Hnil. simpl in Hnil. lia. }
  assert (Hlen : length (softmax_k row) = J).
  { cbn [softmax_k R_Kernels]. unfold row. by rewrite !length_fmap, length_seq. }
  assert (Hsoft : (λ j, get (dropout (softmax_axis3 s)) [b; n; i; j]) <$> seq 0 J
                  = softmax_k row).
  { transitivity (take J (drop 0 (softmax_k row)));
      [|rewrite drop_0; apply take_ge; lia].
    rewrite <-(fmap_lookup_total_seq (softmax_k row) 0 J) by (rewrite Hlen; lia).
    apply list_fmap_ext. intros k j Hkj. apply lookup_seq in Hkj as [-> Hj].
    rewrite get_dropout_eval.
    by rewrite (get_softmax_axis3 s B N I J b n i (0 + k)) by done. }
  destruct head_mask as [m|].
  - destruct (Hhead m eq_refl) as (hi & hb & hn & Hms & Hhi & Hhb & Hhn).
    rewrite (list_fmap_ext (λ j, get p [i; j; b; n])
               (λ j, get (dropout (softmax_axis3 s)) [b; n; i; j]
                     * get m (bidx (shape m) [i; 0%nat; b; n])) (seq 0 J)).
    + rewrite (Rsum_fmap_scale (λ j, get (dropout (softmax_axis3 s)) [b; n; i; j])).
      rewrite Hsoft, softmax_k_sum by done. lra.
    + intros k j Hkj. apply lookup_seq in Hkj as [-> Hj].
      rewrite Hp by done. cbv zeta. rewrite Hms, !bidx_fit4.
      rewrite !(decide_True (P:=(1%nat = 1%nat))) by done. done.
  - rewrite (list_fmap_ext (λ j, get p [i; j; b; n])
               (λ j, get (dropout (softmax_axis3 s)) [b; n; i; j]) (seq 0 J)).
    + rewrite Hsoft. by apply softmax_k_sum.
    + intros k j Hkj. apply lookup_seq in Hkj as [-> Hj]. by rewrite Hp.
Qed.
End ideal_probabilities.

Section probability_claims.
Import Reals Lra.
#[local] Open Scope R_scope.

(** C5, as amended: in exact arithmetic and with dropout inactive, for
    well-shaped heads and at least one key, [rel_attn_core] returns
    probabilities for every attention mask, whatever its values (also one
    that masks a row completely), and each query row of them sums to [1]
    along the key axis when no head mask is given; with a head mask (constant
    along the key axis) the row sums to the mask value of its head
    instead. *)
Theorem rel_attn_core_probabilities (self : XLNetRelativeAttention R)
    (q_head k_head_h v_head_h k_head_r : Tensor R)
    (seg_mat attn_mask head_mask : option (Tensor R)) (I J P B : nat) :
  XLNetRelativeAttention_init_shapes self →
  let N := n_head self in
  let D := d_head self in
  shape q_head = [I; B; N; D] → shape k_head_h = [J; B; N; D] →
  shape v_head_h = [J; B; N; D] → shape k_head_r = [P; B; N; D] →
  (0 < B)%nat → (0 < N)%nat → (0 < I)%nat → (0 < J)%nat → (J < P)%nat →
  (∀ m, seg_mat = Some m → shape m = [I; J; B; 2%nat]) →
  (∀ m, attn_mask = Some m →
     ∃ mi mj mb mn, shape m = [mi; mj; mb; mn] ∧
       (mi = 1%nat ∨ mi = I) ∧ (mj = 1%nat ∨ mj = J) ∧ (mb = 1%nat ∨ mb = B) ∧
       (mn = 1%nat ∨ mn = N)) →
  (∀ m, head_mask = Some m →
     ∃ hi hb hn, shape m = [hi; 1%nat; hb; hn] ∧
       (hi = 1%nat ∨ hi = I) ∧ (hb = 1%nat ∨ hb = B) ∧ (hn = 1%nat ∨ hn = N)) →
  ∃ attn_vec attn_prob,
    rel_attn_core self q_head k_head_h v_head_h k_head_r seg_mat attn_mask head_mask true
    = Some (attn_vec, Some attn_prob) ∧
    shape attn_prob = [I; J; B; N] ∧
    ∀ i b n, (i < I)%nat → (b < B)%nat → (n < N)%nat →
      Rsum ((λ j, get attn_prob [i; j; b; n]) <$> seq 0 J)
      = match head_mask with
        | None => 1
        | Some m => get m (bidx (shape m) [i; 0%nat; b; n])
        end.
Proof. apply rel_attn_core_row_sums. Qed.

(** C5, witness: one query and one key, masked by the attention mask; the
    probabilities of the row still sum to [1]. *)
Lemma rel_attn_core_probabilities_witness :
  let one := mkTensor [1%nat; 1%nat] [1] in
  let zero := mkTensor [1%nat; 1%nat] [0] in
  let self := mkXLNetRelativeAttention 1 1 1 one one one one one zero zero zero
                (mkTensor [2%nat; 1%nat; 1%nat] [0; 1]) in
  let q_head := mkTensor [1%nat; 1%nat; 1%nat; 1%nat] [1] in
  let k_head_r := mkTensor [2%nat; 1%nat; 1%nat; 1%nat] [1; 2] in
  let mask := Some (mkTensor [1%nat; 1%nat; 1%nat; 1%nat] [1]) in
  ∃ attn_vec attn_prob,
    rel_attn_core self q_head q_head q_head k_head_r None mask None true
    = Some (attn_vec, Some attn_prob) ∧
    shape attn_prob = [1%nat; 1%nat; 1%nat; 1%nat] ∧
    ∀ i b n, (i < 1)%nat → (b < 1)%nat → (n < 1)%nat →
      Rsum ((λ j, get attn_prob [i; j; b; n]) <$> seq 0 1) = 1.
Proof.
  intros one zero self q_head k_head_r mask.
  apply (rel_attn_core_probabilities self q_head q_head q_head k_head_r None mask None
           1 1 2 1); try reflexivity; try (simpl; lia); try discriminate.
  - repeat split; reflexivity.
  - intros m [= <-]. exists 1%nat, 1%nat, 1%nat, 1%nat. repeat split; by left.
Defined.

(** C5 as stated fails: with no attention mask at all and a head mask that
    switches the head off, the probabilities of the (unmasked) query row sum
    to [0], which is not within [1e-5] of [1]. *)
Lemma rel_attn_core_probabilities_counterexample :
  let one := mkTensor [1%nat; 1%nat] [1] in
  let zero := mkTensor [1%nat; 1%nat] [0] in
  let self := mkXLNetRelativeAttention 1 1 1 one one one one one zero zero zero
                (mkTensor [2%nat; 1%nat; 1%nat] [0; 1]) in
  let q_head := mkTensor [1%nat; 1%nat; 1%nat; 1%nat] [1] in
  let k_head_r := mkTensor [2%nat; 1%nat; 1%nat; 1%nat] [1; 2] in
  let head_mask := Some (mkTensor [1%nat; 1%nat; 1%nat; 1%nat] [0]) in
  ∃ attn_vec attn_prob,
    rel_attn_core self q_head q_head q_head k_head_r None None head_mask true
    = Some (attn_vec, Some attn_prob) ∧
    Rsum ((λ j, get attn_prob [0%nat; j; 0%nat; 0%nat]) <$> seq 0 1) = 0 ∧
    1 / 100000 < Rabs (Rsum ((λ j, get attn_prob [0%nat; j; 0%nat; 0%nat]) <$> seq 0 1) - 1).
Proof.
  intros one zero self q_head k_head_r head_mask.
  destruct (rel_attn_core_row_sums self q_head q_head q_head k_head_r None None head_mask
              1 1 2 1) as (av & p & Hcore & _ & Hsum);
    try reflexivity; try (simpl; lia); try discriminate.
  - repeat split; reflexivity.
  - intros m [= <-]. exists 1%nat, 1%nat, 1%nat. repeat split; by left.
  - exists av, p. split; [exact Hcore|].
    rewrite (Hsum 0%nat 0%nat 0%nat) by (simpl; lia).
    change (get (mkTensor [1%nat; 1%nat; 1%nat; 1%nat] [0])
              (bidx (shape (mkTensor [1%nat; 1%nat; 1%nat; 1%nat] [0]))
                 [0%nat; 0%nat; 0%nat; 0%nat])) with 0.
    split; [done|].
    unfold Rminus. rewrite Rplus_0_l, Rabs_Ropp, Rabs_R1. lra.
Qed.
End probability_claims.
